(* ===== verification/_CoqProject ===== *)
-Q . S2P
Prelude.v
Sodium.v
Constants.v
Fs.v
Terminal.v
World.v
Net.v
SessionEnc.v
TwoSlotBuffer.v
Transfer.v
FSOperator.v
Agents.v
Closed.v
Progress.v
Client.v
EndToEnd.v
Auth.v
Connection.v
Segments.v
Tree.v
Confine.v
Safety.v
Dialogue.v
Store.v
Program.v
Pool.v
Shutdown.v
Crash.v
ServerMain.v
Prehistoric.v
