(* ===== verification/Prelude.v ===== *)
(** * MEFSC: verification of a multithreaded encrypted file server and client

    MEFSC stores files for its users on a server, encrypted by the client under
    a key derived from the user's password.  A client connects, exchanges
    session keys with the server, logs in against an sqlite3 table and then
    uploads, downloads, lists or deletes files.  Every control message travels
    in a session-encrypted wrapper; file contents travel as raw blobs, since
    they are encrypted already.  Both ends write files through a double buffer
    served by a second thread, and the server serves connections with a pool of
    worker threads fed by a queue.

    This library models that program, function by function, and proves what
    makes it correct; where the code does something else than it means to, the
    behaviour is stated and proved as well.

    ** The files

    - Prelude: bytes, machine integers (64-bit wrap-around, little-endian
      representation, 32-bit two's complement), memory buffers, C strings, and
      the effect monad [M]: a C++ function maps a state to a result, a thrown
      exception or call of [exit], undefined behaviour of one of two kinds (an
      access outside an object; the use of a variable that nothing has written or
      that holds no value of its type), or a loop without end.  The bytes of an
      uninitialised character array are unknown values ([indet]), not undefined
      behaviour.
    - Sodium: libsodium as a class of operations ([Sodium]) with the documented
      behaviour MEFSC relies on ([SodiumLaws]), and an executable instance for
      concrete runs.
    - Constants: include/common/constants.h and the constants of the sources.
    - Fs, Terminal: what the sources use of the standard library: files, streams
      and directories, with the exceptions of [std::filesystem]; formatted input
      and a terminal in canonical mode, which hands over whole lines and shows a
      character when it is typed.
    - World: the state of the thread that serves one connection.  [world] lists
      what the kernel does with each [recv] and [send]; [aworld] sees the
      connection as byte strings; [repr] relates them for every segmentation and
      interruption, and [runs m a v a'] says that [m] returns [v] and goes from
      [a] to [a'] on every such connection.  [Env] holds what the language and
      the system leave open: the contents of uninitialised variables, the order
      of directory entries, the interleaving of threads.
    - Net: [recv_fully] and blobs (src/encryption_utils).
    - SessionEnc: the class [SessionEncWrapper] and the key exchange.
    - TwoSlotBuffer: include/common/TwoSlotBuffer.h, its methods and the two
      threads that use it, as a step relation; refinement of a queue.
    - Transfer: specifications of what travels when a file is sent.
    - FSOperator: src/server/read_write_handlers.cpp.
    - Agents: src/client/authed_entry.cpp.
    - Closed: an interface for properties that a whole handler has because the
      calls it is made of have them (classes [Closed], [ClosedNet], [ClosedFs]),
      discharged by Progress, Segments and Tree.
    - Progress: what operations can only consume, how often the loops go round
      (class [Rounds], with instances in Client and Connection).
    - Client: src/client/client.cpp.
    - EndToEnd: both sides together, for each of the four actions.
    - Auth: src/server/auth.cpp and [verify_credentials], with the sqlite3
      database as a parameter.
    - Connection: [handle_conn] of src/server/server.cpp.
    - Segments: the way a connection is cut into pieces does not matter.
    - Tree: the directory tree of the server stays well formed.
    - Confine: what one action can change among the server's files.
    - Safety: where the server has undefined behaviour, and where it has none.
    - Dialogue: two programs at the ends of a connection.
    - Store: what a user sees of the program, as an abstract store with four
      actions, and the refinement of it by a session of both programs.
    - Program: the client's [main] against [handle_conn], from start to end.
    - Pool: the threads of the server, their queue, counters and shutdown.
    - Shutdown: what happens after [server_alive] has become false.
    - Crash: how the end of [handle_conn] becomes a step of its worker, and the
      exception that ends the server.
    - ServerMain: the set-up of [main] and the output of the logger.
    - Prehistoric: the prototypes under prehistoric.

    State and operations carry the names of the sources.  A constructor is
    called [<Class>_new] (or [_sender] and [_reader]), a destructor
    [<Class>_destroy]; the client's [init_read] is [receiver_init_read], the
    loops inside functions have names of their own ([WTFS_loop],
    [send_file_loop], ...).  What a function changes through pointers is
    returned.

    ** What the theorems show

    - The programs implement an abstract store: for every name and password the
      table accepts and every sequence of actions typed, client and server end
      with the local and stored files the actions lead to, the client prints what
      they report, neither side waits in the session for bytes that do not come,
      and [handle_conn] cleans up; a refused login changes nothing (Program,
      Store, on the dialogues of Dialogue).
    - A file survives upload, storage and download unchanged, for every content
      and length, every segmentation of the connection and every interleaving of
      the threads; listing and deleting do what they say; a file that cannot be
      opened leaves both sides in step (EndToEnd).
    - A whole session of [handle_conn] with an upload; the ways a connection can
      end; files are only touched after the table accepted the credentials
      received on the connection; [login] decides as the table does, and when the
      client goes on; what the terminal shows of a login (Connection, Auth).
    - One action of a session changes at most the one node that the received name
      denotes from the user's directory (Confine).
    - [recv_fully] is equivalent to reading byte by byte, and the sessions of both
      ends give the same results for every segmentation (Segments).
    - Every connection keeps the directory tree well formed (Tree); a logged-in
      client cannot make the server leave its buffers, but can make it use
      unwritten variables (Safety).
    - Messages and keys: round trips, memory safety of [unwrap] and of blobs
      against any peer, distinct nonces, agreement of the key exchange
      (SessionEnc, Net).
    - The double buffer never gives a slot to both threads, never deadlocks,
      always ends, refines a queue and writes what was published, in order
      (TwoSlotBuffer).
    - The pool: exclusive access to the queue, service in the order of
      acceptance, no queued connection left while all workers sleep (Pool); what a
      shutdown does and what it can wait for: a worker about to sleep when it
      began, a connection being handled, the terminal (Shutdown).
    - Termination: where a loop of the code has no structural measure, the model
      gives it fuel computed from the state, and theorems say that more fuel
      changes nothing: events of the connection for [recv_fully], bytes of the
      connection for the receiving loops and the session loop of the server,
      bytes of the file for the sending loops, characters of the terminal for
      the client.  The rounds of both session loops are bounded by their input,
      and such a loop has no result only when a call inside one round has none.
      Where a loop of the code really does not end, the theorem says so for every
      fuel.
    - Behaviours the code does not intend: a stale [errno] makes [recv_fully]
      spin; a user name without a NUL is read past its buffer before any login; a
      shutdown can hang on a lost wake-up or on the terminal;
      the counter of live connections can wrap; names reach outside the user's directory;
      the empty name ends the server (Crash) or never returns; a name that fails
      authentication is used; short messages leave variables unwritten; a missing file is not answered; names of 246 to 250
      bytes cannot be fetched; truncated downloads and split login answers are
      accepted; input that ends makes the client spin.
    - What the prototype's key exchange takes for the peer's key, and that it
      computes the keys of the present one when the key arrives whole and is
      accepted (Prehistoric).

    ** What is not modelled

    Diagnostics on [std::cerr] (but those of the prototypes); on [std::cout], the
    lines of encryption_utils.cpp, authed_entry.cpp and auth.cpp ([w_stdout] holds
    what client.cpp prints); permissions, symbolic links and a full disk; the value of
    the idle timeout (its effect, an error of [recv], is); the secrecy of the
    cryptography, of which only the functional laws are assumed; statements of
    sqlite left open; the password hashing tool, the build files and the
    benchmark.  Sizes of [int], [bool] and [unsigned long long] are those of the
    platforms the project builds for.

    ** Open ends

    The download of a missing file, which the server does not answer, as a step
    of the abstract store together with the timeouts it leads to; several
    sessions at once on one file system; a session whose client goes away in the
    middle, in terms of the store. *)

From stdpp Require Export base list gmap strings numbers relations.
From Stdlib Require Export Strings.Byte.
From Stdlib Require Export Lia.

#[global] Open Scope Z_scope.

(** ** Bytes and byte strings *)

Abbreviation bytes := (list byte).

#[export] Instance byte_eq_decision : EqDecision byte := Byte.byte_eq_dec.

#[export] Program Instance byte_countable : Countable byte :=
  inj_countable' Byte.to_N
    (fun n => match Byte.of_N n with Some b => b | None => x00 end) _.
Next Obligation. intros b. cbv beta. by rewrite Byte.of_to_N. Qed.

(** The value of an [unsigned char]. *)
Definition byte_to_Z (b : byte) : Z := Z.of_N (Byte.to_N b).

(** Conversion of an integer to [unsigned char], which keeps the low 8 bits. *)
Definition byte_of_Z (z : Z) : byte :=
  match Byte.of_N (Z.to_N (z mod 256)) with Some b => b | None => x00 end.

(** Text literals as byte strings. *)
Definition str (s : string) : bytes := String.list_byte_of_string s.

(** ** Machine integers *)

(** [uint64_t], [size_t] and [unsigned long long] arithmetic wraps modulo 2^64. *)
Definition u64 (z : Z) : Z := z mod 2 ^ 64.

(** Little-endian object representation of an integer, as copied to and from
    memory by [memcpy], [send] and [recv]. *)
Fixpoint le_encode (n : nat) (z : Z) : bytes :=
  match n with
  | O => []
  | S n' => byte_of_Z z :: le_encode n' (z / 256)
  end.

Fixpoint le_decode (bs : bytes) : Z :=
  match bs with
  | [] => 0
  | b :: bs' => byte_to_Z b + 256 * le_decode bs'
  end.

(** A 4-byte [int] in two's complement. *)
Definition int_encode (z : Z) : bytes := le_encode 4 z.

Definition int_decode (bs : bytes) : Z :=
  let u := le_decode bs in if u <? 2 ^ 31 then u else u - 2 ^ 32.

(** Length of a byte string as an integer. *)
Definition blen (bs : bytes) : Z := Z.of_nat (length bs).

(** ** Memory buffers and C strings *)

(** Writing [data] at the start of the buffer [buf]. *)
Definition overwrite (buf data : bytes) : bytes := data ++ drop (length data) buf.

(** [buf[i] = b], undefined when [i] is outside the buffer. *)
Definition store_byte (buf : bytes) (i : Z) (b : byte) : option bytes :=
  if (0 <=? i) && (i <? blen buf) then Some (<[Z.to_nat i := b]> buf) else None.

(** The string a [char*] denotes: the bytes before the first NUL; [None] when
    the buffer has no NUL, where reading it runs past its end. *)
Fixpoint c_str (buf : bytes) : option bytes :=
  match buf with
  | [] => None
  | b :: buf' => if bool_decide (b = x00) then Some [] else (b ::.) <$> c_str buf'
  end.

(** ** Effects

    A C++ function that reads and writes the state [S] is a function from a
    state to an outcome: a result, a thrown exception (or a call of [exit]),
    undefined behaviour, or a loop that never ends. *)

Inductive exn :=
  | filesystem_error          (* std::filesystem::filesystem_error is thrown *)
  | length_error              (* std::length_error is thrown *)
  | process_exit (code : Z).  (* exit(code) is called *)

(** Undefined behaviour: an access outside an object, or the use of a variable
    that nothing has written yet or that holds no value of its type. *)
Inductive ub :=
  | OutOfBounds
  | Indeterminate.

Inductive outcome (S A : Type) :=
  | Ok (a : A) (s : S)
  | Throw (e : exn) (s : S)
  | Undefined (k : ub)
  | Diverge.
Arguments Ok {S A} a s.
Arguments Throw {S A} e s.
Arguments Undefined {S A} k.
Arguments Diverge {S A}.

Definition M (S A : Type) : Type := S -> outcome S A.

#[export] Instance M_ret {S} : MRet (M S) := fun A a s => Ok a s.
#[export] Instance M_bind {S} : MBind (M S) := fun A B f m s =>
  match m s with
  | Ok a s' => f a s'
  | Throw e s' => Throw e s'
  | Undefined k => Undefined k
  | Diverge => Diverge
  end.

Definition throw {S A} (e : exn) : M S A := fun s => Throw e s.
Definition undefined {S A} (k : ub) : M S A := fun _ => Undefined k.
Definition diverge {S A} : M S A := fun _ => Diverge.
Definition gets {S A} (f : S -> A) : M S A := fun s => Ok (f s) s.
Definition modify {S} (f : S -> S) : M S unit := fun s => Ok tt (f s).

(** A read or write that is inside its object when it has a result. *)
Definition defined {S A} (o : option A) : M S A :=
  match o with Some a => mret a | None => undefined OutOfBounds end.

(** The use of a variable that holds a value when [b] is true. *)
Definition initialised {S} (b : bool) : M S unit :=
  if b then mret tt else undefined Indeterminate.

(** ** Lemmas on integers and their byte representation *)

Lemma byte_to_Z_range b : 0 <= byte_to_Z b < 256.
Proof.
  unfold byte_to_Z. pose proof (Byte.to_N_bounded b). lia.
Qed.

Lemma byte_of_to_Z b : byte_of_Z (byte_to_Z b) = b.
Proof.
  unfold byte_of_Z. rewrite Z.mod_small by apply byte_to_Z_range.
  unfold byte_to_Z. by rewrite N2Z.id, Byte.of_to_N.
Qed.

Lemma byte_to_of_Z z : byte_to_Z (byte_of_Z z) = z mod 256.
Proof.
  unfold byte_of_Z, byte_to_Z. pose proof (Z.mod_pos_bound z 256 ltac:(lia)).
  destruct (Byte.of_N (Z.to_N (z mod 256))) as [b|] eqn:E.
  - apply Byte.to_of_N in E. lia.
  - apply Byte.of_N_None_iff in E. lia.
Qed.

Lemma length_le_encode n z : length (le_encode n z) = n.
Proof. revert z; induction n; intros; simpl; auto. Qed.

Lemma le_decode_encode n z : le_decode (le_encode n z) = z mod 256 ^ Z.of_nat n.
Proof.
  revert z; induction n as [|n IH]; intros z; simpl.
  - by rewrite Z.mod_1_r.
  - rewrite byte_to_of_Z, IH, Nat2Z.inj_succ, Z.pow_succ_r by lia.
    rewrite Z.rem_mul_r by (try apply Z.pow_nonzero; lia). lia.
Qed.

Lemma le_decode_range bs : 0 <= le_decode bs < 256 ^ blen bs.
Proof.
  unfold blen. induction bs as [|b bs IH]; simpl le_decode; simpl length; [lia|].
  rewrite Nat2Z.inj_succ, Z.pow_succ_r by lia.
  pose proof (byte_to_Z_range b). lia.
Qed.

Lemma le_encode_decode bs : le_encode (length bs) (le_decode bs) = bs.
Proof.
  induction bs as [|b bs IH]; simpl; [done|].
  pose proof (byte_to_Z_range b).
  rewrite Z.add_comm, (Z.mul_comm 256), Z.div_add_l, Z.div_small, Z.add_0_r by lia.
  rewrite IH. f_equal.
  rewrite <- (byte_of_to_Z b) at 2. unfold byte_of_Z.
  by rewrite Z.add_comm, Z.mod_add by lia.
Qed.

Lemma le_decode_inj a b : length a = length b -> le_decode a = le_decode b -> a = b.
Proof.
  intros Hl Hd. rewrite <- (le_encode_decode a), <- (le_encode_decode b). congruence.
Qed.

Lemma u64_small z : 0 <= z < 2 ^ 64 -> u64 z = z.
Proof. apply Z.mod_small. Qed.

Lemma u64_range z : 0 <= u64 z < 2 ^ 64.
Proof. apply Z.mod_pos_bound. lia. Qed.

Lemma int_decode_encode z : - 2 ^ 31 <= z < 2 ^ 31 -> int_decode (int_encode z) = z.
Proof.
  intros Hz. unfold int_decode, int_encode. rewrite le_decode_encode.
  change (256 ^ Z.of_nat 4) with (2 ^ 32).
  destruct (decide (0 <= z)).
  - rewrite Z.mod_small by lia. destruct (Z.ltb_spec z (2 ^ 31)); lia.
  - replace (z mod 2 ^ 32) with (z + 2 ^ 32).
    + destruct (Z.ltb_spec (z + 2 ^ 32) (2 ^ 31)); lia.
    + rewrite <- (Z.mod_add z 1) by lia. by rewrite Z.mul_1_l, Z.mod_small by lia.
Qed.

Lemma blen_nonneg bs : 0 <= blen bs.
Proof. unfold blen. lia. Qed.

Lemma blen_app a b : blen (a ++ b) = blen a + blen b.
Proof. unfold blen. rewrite length_app. lia. Qed.

Lemma blen_nil : blen [] = 0.
Proof. done. Qed.

Lemma to_nat_blen bs : Z.to_nat (blen bs) = length bs.
Proof. unfold blen. lia. Qed.

Arguments le_encode : simpl never.
Arguments le_decode : simpl never.

(** ** Lemmas on buffers and C strings *)

Lemma length_overwrite buf data :
  (length data <= length buf)%nat -> length (overwrite buf data) = length buf.
Proof. intros. unfold overwrite. rewrite length_app, length_drop. lia. Qed.

Lemma overwrite_full buf data :
  length data = length buf -> overwrite buf data = data.
Proof. intros H. unfold overwrite. by rewrite drop_ge, app_nil_r by lia. Qed.

Lemma overwrite_nil buf : overwrite buf [] = buf.
Proof. done. Qed.

Lemma take_overwrite buf data : take (length data) (overwrite buf data) = data.
Proof. apply take_app_length. Qed.

(** A byte string without NUL, as every C string is. *)
Definition no_nul (s : bytes) : Prop := Forall (fun b => b <> x00) s.

#[export] Instance no_nul_dec s : Decision (no_nul s).
Proof. apply _. Defined.

Lemma c_str_app s rest : no_nul s -> c_str (s ++ x00 :: rest) = Some s.
Proof.
  induction 1 as [|b s Hb _ IH]; simpl; [done|].
  rewrite bool_decide_eq_false_2 by done. by rewrite IH.
Qed.

Lemma c_str_no_nul buf s : c_str buf = Some s -> no_nul s.
Proof.
  revert s; induction buf as [|b buf IH]; simpl; intros s H; [done|].
  case_bool_decide; simplify_eq/=; [constructor|].
  destruct (c_str buf); simplify_eq/=. constructor; auto. by apply IH.
Qed.

Lemma c_str_prefix buf s : c_str buf = Some s -> exists rest, buf = s ++ x00 :: rest.
Proof.
  revert s; induction buf as [|b buf IH]; simpl; intros s H; [done|].
  case_bool_decide; simplify_eq/=; [by eexists|].
  destruct (c_str buf) as [s'|]; simplify_eq/=.
  destruct (IH s' eq_refl) as [rest ->]. by exists rest.
Qed.

(** Writing a terminator at index [length s] of a buffer that starts with [s]. *)
Lemma store_byte_end s b rest :
  store_byte (s ++ b :: rest) (blen s) x00 = Some (s ++ x00 :: rest).
Proof.
  unfold store_byte. rewrite to_nat_blen.
  pose proof (blen_nonneg s). pose proof (blen_nonneg rest).
  replace (blen (s ++ b :: rest)) with (blen s + 1 + blen rest)
    by (rewrite blen_app; unfold blen; simpl; lia).
  rewrite (proj2 (Z.leb_le 0 _)), (proj2 (Z.ltb_lt _ _)) by lia. simpl.
  f_equal. rewrite insert_app_r_alt by lia. by rewrite Nat.sub_diag.
Qed.

(** ** Lists *)

Lemma snoc_app {A} (l k : list A) x : l ++ x :: k = (l ++ [x]) ++ k.
Proof. by rewrite <- app_assoc. Qed.

Lemma Forall2_impl_in {A B} (P Q : A -> B -> Prop) l k :
  Forall2 P l k -> (forall x y, x ∈ l -> P x y -> Q x y) -> Forall2 Q l k.
Proof. induction 1; intros HPQ; constructor; set_solver. Qed.

Lemma NoDup_omap {A B} (f : A -> option B) l :
  NoDup l -> (forall x y z, x ∈ l -> y ∈ l -> f x = Some z -> f y = Some z -> x = y) ->
  NoDup (omap f l).
Proof.
  induction 1 as [|x l Hx _ IH]; intros Hf; [constructor|]. cbn.
  destruct (f x) as [z|] eqn:E; [|apply IH; set_solver]. constructor; [|apply IH; set_solver].
  intros (y & Hy & Ey)%list_elem_of_omap. rewrite (Hf x y z) in Hx; [done|set_solver..].
Qed.

(** ** Laws of the effect monad *)

Lemma bind_ret_l {S A B} (a : A) (f : A -> M S B) s : (mret a ≫= f) s = f a s.
Proof. done. Qed.

Lemma bind_Ok {S A B} (m : M S A) (f : A -> M S B) s a s' :
  m s = Ok a s' -> (m ≫= f) s = f a s'.
Proof. intros E. unfold mbind, M_bind. by rewrite E. Qed.

Lemma bind_Ok_inv {S A B} (m : M S A) (f : A -> M S B) s b s' :
  (m ≫= f) s = Ok b s' -> exists a s1, m s = Ok a s1 /\ f a s1 = Ok b s'.
Proof. unfold mbind, M_bind. destruct (m s); naive_solver. Qed.

Lemma bind_assoc {S A B C} (m : M S A) (f : A -> M S B) (g : B -> M S C) s :
  ((m ≫= f) ≫= g) s = (m ≫= (fun a => f a ≫= g)) s.
Proof. unfold mbind, M_bind. by destruct (m s). Qed.

(** The returned value of an outcome, for evaluating concrete runs. *)
Definition result_of {S A} (o : outcome S A) : option A :=
  match o with Ok a _ => Some a | _ => None end.

Lemma result_of_Ok {S A} (o : outcome S A) a :
  result_of o = Some a -> exists s, o = Ok a s.
Proof. destruct o; intros; simplify_eq/=; eauto. Qed.

(** ** Automation *)

Create HintDb mefsc.

Create Rewrite HintDb len.
#[export] Hint Rewrite length_le_encode @length_app @length_drop @length_take
  @length_replicate blen_app blen_nil to_nat_blen : len.

(** Close arithmetic goals about lengths of byte strings. *)
Ltac len :=
  unfold blen in *;
  repeat first [progress autorewrite with len in * | progress simpl length in *]; lia.
