(* ===== verification/Sodium.v ===== *)
(** The interface to libsodium.

    MEFSC calls libsodium for every cryptographic operation; libsodium is not
    part of the repository, so the operations are parameters of the model (the
    class [Sodium]) and what MEFSC relies on of their documented behaviour is
    the class [SodiumLaws].  [toy_sodium] is an executable implementation of
    both: it has no secrecy at all, but it authenticates (a changed key, nonce
    or ciphertext is rejected), and the concrete runs of the development use
    it. *)

From S2P Require Import Prelude.

(** ** Documented sizes, in bytes *)

Definition crypto_aead_chacha20poly1305_ABYTES : Z := 16.
Definition crypto_aead_chacha20poly1305_NPUBBYTES : nat := 8.
Definition crypto_secretstream_xchacha20poly1305_ABYTES : Z := 17.
Definition crypto_secretstream_xchacha20poly1305_HEADERBYTES : nat := 24.
Definition crypto_secretstream_xchacha20poly1305_TAG_FINAL : Z := 3.
Definition crypto_kx_PUBLICKEYBYTES : nat := 32.
Definition crypto_kx_SECRETKEYBYTES : nat := 32.
Definition crypto_kx_SESSIONKEYBYTES : nat := 32.
Definition crypto_pwhash_SALTBYTES : nat := 16.
Definition crypto_box_SEEDBYTES : nat := 32.

(** ** Operations *)

Class Sodium := {
  (** the state of the random number generator *)
  rng : Type;
  randombytes_buf : rng -> nat -> bytes * rng;

  sodium_memzero : bytes -> bytes;
  sodium_increment : bytes -> bytes;

  (** [aead_encrypt key nonce m]; [None] is a non-zero return value *)
  aead_encrypt : bytes -> bytes -> bytes -> option bytes;
  (** [aead_decrypt key nonce c]; [None] is a non-zero return value *)
  aead_decrypt : bytes -> bytes -> bytes -> option bytes;
  (** what a failed decryption leaves in the output buffer and in [*mlen_p] *)
  aead_reject : bytes -> bytes -> bytes -> bytes * Z;

  (** [(public key, secret key)] *)
  kx_keypair : rng -> bytes * bytes * rng;
  (** [kx_server_session_keys server_pk server_sk client_pk] is [(rx, tx)] *)
  kx_server_session_keys : bytes -> bytes -> bytes -> option (bytes * bytes);
  (** [kx_client_session_keys client_pk client_sk server_pk] is [(rx, tx)] *)
  kx_client_session_keys : bytes -> bytes -> bytes -> option (bytes * bytes);

  ss_state : Type;
  (** [(state, header)] *)
  ss_init_push : rng -> bytes -> ss_state * bytes * rng;
  ss_push : ss_state -> bytes -> Z -> bytes * ss_state;
  ss_init_pull : bytes -> bytes -> option ss_state;
  (** the message and its tag, [None] for a non-zero return value *)
  ss_pull : ss_state -> bytes -> option (bytes * Z * ss_state);
  (** a pushing and a pulling state that are at the same point of one stream;
      only the laws mention it *)
  ss_sync : ss_state -> ss_state -> Prop;

  (** [pwhash outlen password salt] with the interactive limits; [None] when
      memory runs out *)
  pwhash : nat -> bytes -> bytes -> option bytes;
  (** what a failed [pwhash] leaves in the output buffer, from its contents *)
  pwhash_reject : bytes -> bytes;
  (** [pwhash_str_verify str password] *)
  pwhash_str_verify : bytes -> bytes -> bool
}.

(** ** Documented behaviour *)

Class SodiumLaws (SO : Sodium) : Prop := {
  length_randombytes r n : length (fst (randombytes_buf r n)) = n;

  memzero_zero b : sodium_memzero b = replicate (length b) x00;

  length_increment n : length (sodium_increment n) = length n;
  increment_value n :
    le_decode (sodium_increment n) = (le_decode n + 1) mod 256 ^ blen n;

  aead_encrypt_total k n m : is_Some (aead_encrypt k n m);
  length_aead_encrypt k n m c :
    aead_encrypt k n m = Some c ->
    blen c = blen m + crypto_aead_chacha20poly1305_ABYTES;
  aead_decrypt_encrypt k n m c :
    aead_encrypt k n m = Some c -> aead_decrypt k n c = Some m;
  length_aead_decrypt k n c m :
    aead_decrypt k n c = Some m ->
    blen c = blen m + crypto_aead_chacha20poly1305_ABYTES;
  length_aead_reject k n c :
    blen (fst (aead_reject k n c)) <=
      Z.max 0 (blen c - crypto_aead_chacha20poly1305_ABYTES);

  length_kx_keypair r pk sk r' :
    kx_keypair r = (pk, sk, r') ->
    length pk = crypto_kx_PUBLICKEYBYTES /\ length sk = crypto_kx_SECRETKEYBYTES;
  (** both sides of an exchange between two generated key pairs compute the
      same keys, each side's [rx] being the other's [tx] *)
  kx_agree r1 r2 cpk csk r1' spk ssk r2' :
    kx_keypair r1 = (cpk, csk, r1') -> kx_keypair r2 = (spk, ssk, r2') ->
    exists rx tx,
      kx_client_session_keys cpk csk spk = Some (rx, tx) /\
      kx_server_session_keys spk ssk cpk = Some (tx, rx) /\
      length rx = crypto_kx_SESSIONKEYBYTES /\ length tx = crypto_kx_SESSIONKEYBYTES;

  ss_init_sync r k st h r' :
    ss_init_push r k = (st, h, r') ->
    length h = crypto_secretstream_xchacha20poly1305_HEADERBYTES /\
    exists st', ss_init_pull h k = Some st' /\ ss_sync st st';
  ss_push_pull st st' m tag c st1 :
    ss_sync st st' -> 0 <= tag < 256 -> ss_push st m tag = (c, st1) ->
    exists st1', ss_pull st' c = Some (m, tag, st1') /\ ss_sync st1 st1';
  length_ss_push st m tag c st1 :
    ss_push st m tag = (c, st1) ->
    blen c = blen m + crypto_secretstream_xchacha20poly1305_ABYTES;
  length_ss_pull st c m tag st1 :
    ss_pull st c = Some (m, tag, st1) ->
    blen c = blen m + crypto_secretstream_xchacha20poly1305_ABYTES;

  length_pwhash n p s k : pwhash n p s = Some k -> length k = n;
  length_pwhash_reject b : length (pwhash_reject b) = length b
}.

(** ** An executable instance *)

Definition toy_tag (k n m : bytes) : bytes :=
  le_encode 16 (le_decode k + 3 * le_decode n + 7 * le_decode m + 1).

Definition toy_open (tag : bytes -> bytes) (c : bytes) : option bytes :=
  if (length c <? 16)%nat then None else
  let m := take (length c - 16) c in
  if bool_decide (drop (length c - 16) c = tag m) then Some m else None.

Definition toy_ss_tag (st : Z * Z) (tag : Z) (m : bytes) : bytes :=
  le_encode 16 (fst st + snd st + tag + 7 * le_decode m).

Definition toy_sodium : Sodium := {|
  rng := Z;
  randombytes_buf r n := (le_encode n r, r + 1);
  sodium_memzero b := replicate (length b) x00;
  sodium_increment n := le_encode (length n) (le_decode n + 1);
  aead_encrypt k n m := Some (m ++ toy_tag k n m);
  aead_decrypt k n c := toy_open (toy_tag k n) c;
  aead_reject k n c := (replicate (length c - 16) x00, 0);
  kx_keypair r := (le_encode 32 (r + 1000), le_encode 32 r, r + 1);
  kx_server_session_keys spk ssk cpk :=
    Some (le_encode 32 (le_decode cpk + le_decode spk + 1),
          le_encode 32 (le_decode cpk + le_decode spk));
  kx_client_session_keys cpk csk spk :=
    Some (le_encode 32 (le_decode cpk + le_decode spk),
          le_encode 32 (le_decode cpk + le_decode spk + 1));
  ss_state := Z * Z;
  ss_init_push r k := ((le_decode k, le_decode (le_encode 24 r)), le_encode 24 r, r + 1);
  ss_push st m tag :=
    (byte_of_Z tag :: m ++ toy_ss_tag st tag m, (fst st, snd st + 1));
  ss_init_pull h k := Some (le_decode k, le_decode h);
  ss_pull st c :=
    match c with
    | [] => None
    | t :: c' =>
        (fun m => (m, byte_to_Z t, (fst st, snd st + 1))) <$>
          toy_open (toy_ss_tag st (byte_to_Z t)) c'
    end;
  ss_sync := eq;
  pwhash_reject b := b;
  pwhash n p s := Some (le_encode n (le_decode p + 5 * le_decode s));
  pwhash_str_verify s p := bool_decide (s = p)
|}.

Lemma toy_open_tag tag m : length (tag m) = 16%nat -> toy_open tag (m ++ tag m) = Some m.
Proof.
  intros Hl. unfold toy_open. rewrite length_app, Hl.
  replace (length m + 16 - 16)%nat with (length m) by lia.
  rewrite take_app_length, drop_app_length.
  rewrite (proj2 (Nat.ltb_ge _ _)) by lia. by rewrite bool_decide_eq_true_2.
Qed.

Lemma length_toy_open tag c m : toy_open tag c = Some m -> blen c = blen m + 16.
Proof.
  unfold toy_open. destruct (Nat.ltb_spec (length c) 16); [done|].
  case_bool_decide; intros; simplify_eq. len.
Qed.

Lemma toy_sodium_laws : SodiumLaws toy_sodium.
Proof.
  constructor; simpl; intros; simplify_eq; try done; try len.
  - by rewrite le_decode_encode.
  - unfold crypto_aead_chacha20poly1305_ABYTES, toy_tag. len.
  - by apply toy_open_tag, length_le_encode.
  - by eapply length_toy_open.
  - unfold crypto_aead_chacha20poly1305_ABYTES. len.
  - do 2 eexists. by rewrite !length_le_encode.
  - split; [apply length_le_encode|]. by eexists.
  - rewrite byte_to_of_Z, Z.mod_small by done. eexists.
    rewrite toy_open_tag by apply length_le_encode. done.
  - unfold crypto_secretstream_xchacha20poly1305_ABYTES, toy_ss_tag. len.
  - destruct c; [done|]. destruct (toy_open _ _) eqn:E; simplify_eq/=.
    apply length_toy_open in E.
    unfold crypto_secretstream_xchacha20poly1305_ABYTES. len.
Qed.
