(* ===== verification/Constants.v ===== *)
(** The constants of include/common/constants.h, include/common/SessionEnc.h,
    src/server/*.cpp and src/client/client.cpp.  [sizeof (int)] is 4,
    [sizeof (bool)] is 1 and [sizeof (unsigned long long)] is 8, the values of
    the platforms the project builds for. *)

From S2P Require Import Prelude Sodium.

Definition INVALID_READ_INTENT : Z := -45.
Definition NO_ACTION : Z := 99.
Definition NEW_ACTION : Z := 88.
Definition END_CHUNK : Z := 77.
Definition MEAT_CHUNK : Z := 66.
Definition CHUNK_SIZE : Z := 65536.
Definition FILE_ENCRYPTED_CHUNK_SIZE : Z :=
  CHUNK_SIZE + crypto_secretstream_xchacha20poly1305_ABYTES.
Definition stream_chunk_size : Z :=
  CHUNK_SIZE + crypto_secretstream_xchacha20poly1305_ABYTES
    + crypto_aead_chacha20poly1305_ABYTES.
Definition MAX_FILE_NAME_LENGTH : Z := 255.
Definition PRE_EXT_FILE_NAME_LEN : Z := 250.
Definition LIST_FILES : Z := 3.
Definition DELETE_FILE : Z := 4.

Definition ACK_SUC : Z := 0.
Definition ACK_FAIL : Z := -1.
Definition CONFUSION : Z := -420.
Definition READ_FROM_FILESYSTEM : Z := 1.
Definition WRITE_TO_FILESYSTEM : Z := 2.

Definition ext : bytes := str ".enc".
Definition base_dir : bytes := str "MEF_S/".

Definition sizeof_int : Z := 4.
Definition sizeof_bool : Z := 1.
Definition sizeof_ull : nat := 8.

(** Unfold the numeric constants in arithmetic goals. *)
Ltac consts :=
  unfold stream_chunk_size, FILE_ENCRYPTED_CHUNK_SIZE, CHUNK_SIZE,
    MAX_FILE_NAME_LENGTH, PRE_EXT_FILE_NAME_LEN, sizeof_int, sizeof_bool, sizeof_ull,
    crypto_secretstream_xchacha20poly1305_ABYTES,
    crypto_secretstream_xchacha20poly1305_HEADERBYTES,
    crypto_aead_chacha20poly1305_ABYTES,
    crypto_aead_chacha20poly1305_NPUBBYTES, crypto_pwhash_SALTBYTES,
    crypto_kx_PUBLICKEYBYTES, crypto_kx_SECRETKEYBYTES, crypto_kx_SESSIONKEYBYTES,
    crypto_box_SEEDBYTES in *.
