(* ===== verification/Fs.v ===== *)
(** The file system and the standard-library streams MEFSC uses on it:
    [std::ofstream], [std::ifstream], and [create_directories], [remove] and
    [directory_iterator] of [std::filesystem].

    A file system is a map from absolute paths (lists of name components) to
    nodes, with the process's working directory.  Path strings are resolved
    component by component as the kernel does: empty components and ["."] stay,
    [".."] goes to the parent, every other component but the last has to be an
    existing directory.  There are no symbolic links, permissions or disk
    limits in the model; a component longer than [NAME_MAX] bytes cannot be
    created. *)

From S2P Require Import Prelude.

Abbreviation path := (list bytes).

Inductive node :=
  | NFile (content : bytes)
  | NDir.

Record fs := Fs {
  fs_cwd : path;
  fs_nodes : gmap path node
}.

Definition NAME_MAX : Z := 255.

Definition slash : byte := x2f.

(** The components of a path string, empty ones included. *)
Fixpoint split_slash (p : bytes) : list bytes :=
  match p with
  | [] => [[]]
  | b :: p' =>
      match split_slash p' with
      | c :: cs => if bool_decide (b = slash) then [] :: c :: cs else (b :: c) :: cs
      | [] => []
      end
  end.

Definition dot : bytes := str ".".
Definition dotdot : bytes := str "..".

Definition parent (p : path) : path := removelast p.

Definition is_dir (m : gmap path node) (p : path) : bool :=
  match p with
  | [] => true
  | _ => match m !! p with Some NDir => true | _ => false end
  end.

(** Follow directory components. *)
Fixpoint walk (m : gmap path node) (cur : path) (cs : list bytes) : option path :=
  match cs with
  | [] => Some cur
  | c :: cs' =>
      if bool_decide (c = [] \/ c = dot) then walk m cur cs'
      else if bool_decide (c = dotdot) then walk m (parent cur) cs'
      else if is_dir m (cur ++ [c]) then walk m (cur ++ [c]) cs' else None
  end.

(** What a path string denotes: a name in an existing directory, a directory
    reached through a last component that is empty, ["."] or [".."], or
    nothing, because a directory on the way is missing. *)
Inductive target :=
  | TName (dir : path) (name : bytes)
  | TDir (dir : path) (lastc : bytes)
  | TNone.

Definition start_dir (f : fs) (p : bytes) : path :=
  match p with b :: _ => if bool_decide (b = slash) then [] else fs_cwd f | [] => fs_cwd f end.

Definition locate (f : fs) (p : bytes) : target :=
  let cs := split_slash p in
  let l := List.last cs [] in
  if bool_decide (p = []) then TNone else
  match walk (fs_nodes f) (start_dir f p) (removelast cs) with
  | None => TNone
  | Some d =>
      if bool_decide (l = [] \/ l = dot \/ l = dotdot) then TDir d l else TName d l
  end.

Definition set_nodes (f : fs) (m : gmap path node) : fs := Fs (fs_cwd f) m.

(** ** [std::ofstream] in binary mode *)

(** An output stream: the path of the open file, or [None] after a failed open. *)
Abbreviation ofstream := (option path).

(** Opening truncates an existing file and creates a missing one. *)
Definition ofstream_open (f : fs) (p : bytes) : ofstream * fs :=
  match locate f p with
  | TName d n =>
      if NAME_MAX <? blen n then (None, f) else
      match fs_nodes f !! (d ++ [n]) with
      | Some NDir => (None, f)
      | _ => (Some (d ++ [n]), set_nodes f (<[d ++ [n] := NFile []]> (fs_nodes f)))
      end
  | _ => (None, f)
  end.

Definition ofstream_write (h : ofstream) (data : bytes) (f : fs) : fs :=
  match h with
  | None => f
  | Some p =>
      match fs_nodes f !! p with
      | Some (NFile old) => set_nodes f (<[p := NFile (old ++ data)]> (fs_nodes f))
      | _ => f
      end
  end.

(** ** [std::ifstream] in binary mode *)

Record ifstream := IFStream {
  if_dir : bool;      (* the stream is open on a directory, which cannot be read *)
  if_rest : bytes;    (* the bytes not read yet *)
  if_eof : bool;
  if_fail : bool;     (* failbit or badbit *)
  if_gcount : nat
}.

Definition ifstream_failed : ifstream := IFStream false [] false true 0.

Definition ifstream_open (f : fs) (p : bytes) : ifstream :=
  match locate f p with
  | TName d n =>
      match fs_nodes f !! (d ++ [n]) with
      | Some (NFile c) => IFStream false c false false 0
      | Some NDir => IFStream true [] false false 0
      | None => ifstream_failed
      end
  | TDir _ _ => IFStream true [] false false 0
  | TNone => ifstream_failed
  end.

(** [file.read(buf, n)]: the bytes stored in [buf] and the new stream state.  A
    stream that is not good reads nothing; a read that hits the end of the file
    before [n] bytes sets eofbit and failbit; a read of a directory fails
    without reaching the end of the file. *)
Definition ifstream_read (n : nat) (s : ifstream) : bytes * ifstream :=
  if if_eof s || if_fail s then
    ([], IFStream (if_dir s) (if_rest s) (if_eof s) true 0)
  else if if_dir s then
    ([], IFStream true [] false true 0)
  else
    let got := take n (if_rest s) in
    let short := (length got <? n)%nat in
    (got, IFStream false (drop n (if_rest s)) short short (length got)).

(** ** [std::filesystem] *)

(** The loop of [create_directories]: whether it gets through, and the
    directories it has made until then. *)
Fixpoint mkdirs (m : gmap path node) (cur : path) (cs : list bytes) : bool * gmap path node :=
  match cs with
  | [] => (true, m)
  | c :: cs' =>
      if bool_decide (c = [] \/ c = dot) then mkdirs m cur cs'
      else if bool_decide (c = dotdot) then mkdirs m (parent cur) cs'
      else if NAME_MAX <? blen c then (false, m)
      else match m !! (cur ++ [c]) with
           | Some NDir => mkdirs m (cur ++ [c]) cs'
           | Some (NFile _) => (false, m)
           | None => mkdirs (<[cur ++ [c] := NDir]> m) (cur ++ [c]) cs'
           end
  end.

(** [create_directories]; [None] when it throws, and then [made_directories] is
    what it leaves. *)
Definition create_directories (f : fs) (p : bytes) : option fs :=
  let '(ok, m) := mkdirs (fs_nodes f) (start_dir f p) (split_slash p) in
  if ok then Some (set_nodes f m) else None.

Definition made_directories (f : fs) (p : bytes) : fs :=
  set_nodes f (snd (mkdirs (fs_nodes f) (start_dir f p) (split_slash p))).

(** The names in a directory. *)
Definition child_name (d : path) (e : path * node) : option bytes :=
  match List.last (fst e) [] with
  | n => if bool_decide (fst e = d ++ [n]) then Some n else None
  end.

Definition children (m : gmap path node) (d : path) : list bytes :=
  omap (child_name d) (map_to_list m).

Definition resolve_dir (f : fs) (p : bytes) : option path :=
  walk (fs_nodes f) (start_dir f p) (split_slash p).

(** The entries [directory_iterator] visits, up to their order; [None] when it
    throws. *)
Definition directory_entries (f : fs) (p : bytes) : option (list bytes) :=
  children (fs_nodes f) <$> (if bool_decide (p = []) then None else resolve_dir f p).

(** Removing the directory [p], which throws unless it is empty. *)
Definition remove_dir (f : fs) (p : path) : option (bool * fs) :=
  if bool_decide (p <> [] /\ children (fs_nodes f) p = [])
  then Some (true, set_nodes f (delete p (fs_nodes f))) else None.

(** Whether [walk] fails because a name is missing ([ENOENT]), and not because
    one is no directory or too long. *)
Fixpoint walk_missing (m : gmap path node) (cur : path) (cs : list bytes) : bool :=
  match cs with
  | [] => false
  | c :: cs' =>
      if bool_decide (c = [] \/ c = dot) then walk_missing m cur cs'
      else if bool_decide (c = dotdot) then walk_missing m (parent cur) cs'
      else if is_dir m (cur ++ [c]) then walk_missing m (cur ++ [c]) cs'
      else (blen c <=? NAME_MAX) && bool_decide (m !! (cur ++ [c]) = None)
  end.

(** [remove(p)]: whether something was removed, [None] when it throws, which it
    does for every error but a missing name. *)
Definition fs_remove (f : fs) (p : bytes) : option (bool * fs) :=
  match locate f p with
  | TNone =>
      if bool_decide (p = []) ||
         walk_missing (fs_nodes f) (start_dir f p) (removelast (split_slash p))
      then Some (false, f) else None
  | TDir d l => if bool_decide (l = []) then remove_dir f d else None
  | TName d n =>
      match fs_nodes f !! (d ++ [n]) with
      | None => if NAME_MAX <? blen n then None else Some (false, f)
      | Some (NFile _) => Some (true, set_nodes f (delete (d ++ [n]) (fs_nodes f)))
      | Some NDir => remove_dir f (d ++ [n])
      end
  end.

(** ** Path strings *)

Lemma split_slash_cons p : exists c cs, split_slash p = c :: cs.
Proof.
  induction p as [|b p (c & cs & E)]; simpl; [eauto|].
  rewrite E. case_bool_decide; eauto.
Qed.

Lemma split_slash_app a b : split_slash (a ++ slash :: b) = split_slash a ++ split_slash b.
Proof.
  induction a as [|x a IH]; simpl.
  - destruct (split_slash_cons b) as (c & cs & E). by rewrite E.
  - rewrite IH. destruct (split_slash_cons a) as (c & cs & E). rewrite E; simpl.
    by case_bool_decide.
Qed.

(** A file name that denotes an entry of the directory it is appended to. *)
Definition no_slash (n : bytes) : Prop := Forall (fun b => b <> slash) n.

Definition plain_name (n : bytes) : Prop :=
  n <> [] /\ n <> dot /\ n <> dotdot /\ no_slash n.

#[export] Instance plain_name_dec n : Decision (plain_name n).
Proof. apply _. Defined.

Lemma split_slash_plain n : no_slash n -> split_slash n = [n].
Proof.
  induction 1 as [|b n Hb _ IH]; simpl; [done|].
  rewrite IH. by rewrite bool_decide_eq_false_2.
Qed.

Lemma walk_app m c xs ys : walk m c (xs ++ ys) = walk m c xs ≫= fun d => walk m d ys.
Proof.
  revert c; induction xs as [|x xs IH]; intros c; simpl; [done|].
  repeat case_bool_decide; auto. destruct (is_dir _ _); auto.
Qed.

(** A directory string: a path that ends in a slash. *)
Definition dir_string (p : bytes) : Prop := exists a, a <> [] /\ p = a ++ [slash].

Lemma start_dir_app f a p : a <> [] -> start_dir f (a ++ p) = start_dir f a.
Proof. by destruct a. Qed.

Lemma resolve_dir_string f a :
  a <> [] ->
  resolve_dir f (a ++ [slash]) = walk (fs_nodes f) (start_dir f a) (split_slash a).
Proof.
  intros Ha. unfold resolve_dir. rewrite start_dir_app, split_slash_app by done.
  rewrite walk_app. by destruct (walk _ _ (split_slash a)).
Qed.

Lemma locate_in_dir f p d n :
  dir_string p -> resolve_dir f p = Some d -> no_slash n ->
  locate f (p ++ n) =
    if bool_decide (n = [] \/ n = dot \/ n = dotdot) then TDir d n else TName d n.
Proof.
  intros (a & Ha & ->) Hr Hn. rewrite resolve_dir_string in Hr by done.
  unfold locate. rewrite <- app_assoc. simpl app.
  rewrite (bool_decide_eq_false_2 (a ++ _ = [])) by (by destruct a).
  rewrite start_dir_app, split_slash_app, (split_slash_plain n) by done.
  rewrite removelast_last, last_last, Hr. done.
Qed.

Lemma locate_plain f p d n :
  dir_string p -> resolve_dir f p = Some d -> plain_name n ->
  locate f (p ++ n) = TName d n.
Proof.
  intros Hp Hr (? & ? & ? & ?). rewrite (locate_in_dir _ _ d) by done.
  rewrite bool_decide_eq_false_2 by tauto. done.
Qed.

(** A plain name is looked up in the working directory. *)
Lemma locate_cwd f n : plain_name n -> locate f n = TName (fs_cwd f) n.
Proof.
  intros (Hne & Hd & Hdd & Hs). unfold locate. rewrite split_slash_plain by done.
  rewrite bool_decide_eq_false_2 by done. simpl.
  rewrite bool_decide_eq_false_2 by tauto. destruct n as [|b n]; [done|]. simpl.
  apply Forall_cons in Hs as [Hb _]. by rewrite bool_decide_eq_false_2.
Qed.

(** ** Effect of the stream operations on a file *)

(** [f] has the regular file [p] with content [c]. *)
Definition has_file (f : fs) (p : path) (c : bytes) : Prop := fs_nodes f !! p = Some (NFile c).

Lemma ofstream_open_located f p d n :
  locate f p = TName d n -> blen n <= NAME_MAX -> fs_nodes f !! (d ++ [n]) <> Some NDir ->
  ofstream_open f p =
    (Some (d ++ [n]), set_nodes f (<[d ++ [n] := NFile []]> (fs_nodes f))).
Proof.
  intros Hp Hl Hd. unfold ofstream_open. rewrite Hp, (proj2 (Z.ltb_ge _ _)) by done.
  destruct (fs_nodes f !! (d ++ [n])) as [[]|] eqn:E; rewrite ?E; done.
Qed.

Lemma ofstream_open_plain f p d n :
  dir_string p -> resolve_dir f p = Some d -> plain_name n -> blen n <= NAME_MAX ->
  fs_nodes f !! (d ++ [n]) <> Some NDir ->
  ofstream_open f (p ++ n) =
    (Some (d ++ [n]), set_nodes f (<[d ++ [n] := NFile []]> (fs_nodes f))).
Proof. intros. apply ofstream_open_located; auto using locate_plain. Qed.

Lemma ofstream_write_file p old data f :
  has_file f p old ->
  ofstream_write (Some p) data f = set_nodes f (<[p := NFile (old ++ data)]> (fs_nodes f)).
Proof. unfold has_file, ofstream_write. by intros ->. Qed.

Lemma ofstream_write_nil h f : ofstream_write h [] f = f.
Proof.
  destruct h as [p|]; simpl; [|done].
  destruct (fs_nodes f !! p) as [[]|] eqn:E; try done.
  rewrite app_nil_r. unfold set_nodes. destruct f; simpl in *. by rewrite insert_id.
Qed.

Lemma ofstream_write_app h a b f :
  ofstream_write h (a ++ b) f = ofstream_write h b (ofstream_write h a f).
Proof.
  destruct h as [p|]; simpl; [|done].
  destruct (fs_nodes f !! p) as [[]|] eqn:E; simpl; rewrite ?E; try done.
  rewrite lookup_insert_eq. unfold set_nodes; simpl.
  by rewrite insert_insert_eq, app_assoc.
Qed.

(** Opening a plain name and writing [data] leaves exactly [data] there. *)
Lemma open_write_file f p d n data :
  dir_string p -> resolve_dir f p = Some d -> plain_name n -> blen n <= NAME_MAX ->
  fs_nodes f !! (d ++ [n]) <> Some NDir ->
  let '(h, f1) := ofstream_open f (p ++ n) in
  ofstream_write h data f1 = set_nodes f (<[d ++ [n] := NFile data]> (fs_nodes f)).
Proof.
  intros. rewrite (ofstream_open_plain f p d n) by done. simpl.
  rewrite lookup_insert_eq. unfold set_nodes; simpl. by rewrite insert_insert_eq.
Qed.

Lemma ifstream_open_plain f p d n c :
  dir_string p -> resolve_dir f p = Some d -> plain_name n ->
  has_file f (d ++ [n]) c ->
  ifstream_open f (p ++ n) = IFStream false c false false 0.
Proof.
  intros Hp Hr Hn Hf. unfold ifstream_open. rewrite (locate_plain _ _ d) by done.
  unfold has_file in Hf. by rewrite Hf.
Qed.

Lemma ifstream_read_full a b n g :
  length a = n ->
  ifstream_read n (IFStream false (a ++ b) false false g) =
    (a, IFStream false b false false n).
Proof.
  intros <-. unfold ifstream_read. cbn [if_eof if_fail orb if_dir if_rest].
  rewrite take_app_length, drop_app_length. by rewrite Nat.ltb_irrefl.
Qed.

(** ** Well-formed file systems: every node is in an existing directory *)

Definition fs_wf (f : fs) : Prop :=
  is_dir (fs_nodes f) (fs_cwd f) = true /\
  forall p n, fs_nodes f !! p = Some n ->
    p <> [] /\ is_dir (fs_nodes f) (parent p) = true.

Lemma is_dir_lookup m p : is_dir m p = true <-> p = [] \/ m !! p = Some NDir.
Proof.
  unfold is_dir. destruct p as [|c p]; [tauto|].
  destruct (m !! (c :: p)) as [[]|]; intuition congruence.
Qed.

Lemma is_dir_insert m p n q :
  is_dir m q = true -> m !! p <> Some NDir \/ n = NDir -> is_dir (<[p := n]> m) q = true.
Proof.
  rewrite !is_dir_lookup. intros [->|Hq] Hp; [by left|]. right.
  destruct (decide (p = q)) as [<-|]; [|by rewrite lookup_insert_ne].
  rewrite lookup_insert_eq. destruct Hp; congruence.
Qed.

Lemma parent_snoc d n : parent (d ++ [n]) = d.
Proof. apply removelast_last. Qed.

Lemma fs_wf_insert f d n v :
  fs_wf f -> is_dir (fs_nodes f) d = true ->
  fs_nodes f !! (d ++ [n]) <> Some NDir \/ v = NDir ->
  fs_wf (set_nodes f (<[d ++ [n] := v]> (fs_nodes f))).
Proof.
  intros [Hc Hw] Hd Hv. split; simpl; [by apply is_dir_insert|].
  intros p x Hp. destruct (decide (d ++ [n] = p)) as [<-|Hne].
  - split; [by destruct d|]. rewrite parent_snoc. by apply is_dir_insert.
  - rewrite lookup_insert_ne in Hp by done. apply Hw in Hp as [? ?].
    split; [done|]. by apply is_dir_insert.
Qed.

Lemma is_dir_parent m p :
  (forall q n, m !! q = Some n -> q <> [] /\ is_dir m (parent q) = true) ->
  is_dir m p = true -> is_dir m (parent p) = true.
Proof.
  intros Hw. rewrite is_dir_lookup. intros [->|Hp]; [done|]. by apply Hw in Hp as [? ?].
Qed.

Lemma walk_is_dir m c cs d :
  (forall q n, m !! q = Some n -> q <> [] /\ is_dir m (parent q) = true) ->
  is_dir m c = true -> walk m c cs = Some d -> is_dir m d = true.
Proof.
  intros Hw. revert c; induction cs as [|x cs IH]; intros c Hc; simpl; [congruence|].
  repeat case_bool_decide; intros Hd; eauto using is_dir_parent.
  destruct (is_dir m (c ++ [x])) eqn:E; [eauto|done].
Qed.

Lemma locate_is_dir f p d n :
  fs_wf f -> locate f p = TName d n -> is_dir (fs_nodes f) d = true.
Proof.
  intros [Hc Hw]. unfold locate. case_bool_decide; [done|].
  destruct (walk _ _ _) as [d'|] eqn:E; [|done].
  case_bool_decide; [done|]. intros [= -> <-]. eapply walk_is_dir in E; eauto.
  unfold start_dir. destruct p; [done|]. by case_bool_decide.
Qed.

Lemma ofstream_open_wf f p h f' : fs_wf f -> ofstream_open f p = (h, f') -> fs_wf f'.
Proof.
  intros Hw. unfold ofstream_open. destruct (locate f p) eqn:E; try (by intros [= <- <-]).
  destruct (_ <? _); [by intros [= <- <-]|].
  apply locate_is_dir in E; [|done].
  destruct (fs_nodes f !! _) as [[]|] eqn:En; intros [= <- <-]; try done;
    (apply fs_wf_insert; [done|done|left; congruence]).
Qed.

Lemma fs_wf_update f p old new :
  fs_wf f -> has_file f p old -> fs_wf (set_nodes f (<[p := NFile new]> (fs_nodes f))).
Proof.
  intros Hw Hf. destruct (proj2 Hw p _ Hf) as [Hp Hd].
  destruct (exists_last Hp) as (d & n & ->).
  rewrite parent_snoc in Hd. apply fs_wf_insert; [done|done|].
  left. unfold has_file in Hf. congruence.
Qed.

Lemma ofstream_write_wf h data f : fs_wf f -> fs_wf (ofstream_write h data f).
Proof.
  intros Hw. destruct h as [p|]; [|done]. simpl.
  destruct (fs_nodes f !! p) as [[]|] eqn:E; try done. by eapply fs_wf_update.
Qed.

(** ** [create_directories] *)

Lemma mkdirs_keeps m cur cs m' p n :
  snd (mkdirs m cur cs) = m' -> m !! p = Some n -> m' !! p = Some n.
Proof.
  revert m cur. induction cs as [|c cs IH]; intros m cur; simpl; [congruence|].
  repeat case_bool_decide; [eauto|eauto|]. destruct (_ <? _); [by intros <-|].
  destruct (m !! (cur ++ [c])) as [[]|] eqn:E; [by intros <-|eauto|].
  intros Hm Hp. eapply IH; [done|]. rewrite lookup_insert_ne; [done|]. congruence.
Qed.

(** The directories a path string names can be walked once they are created. *)
Lemma mkdirs_walk m cur cs m' : mkdirs m cur cs = (true, m') -> is_Some (walk m' cur cs).
Proof.
  revert m cur. induction cs as [|c cs IH]; intros m cur; simpl; [by eauto|].
  repeat case_bool_decide; [eauto|eauto|]. destruct (_ <? _); [done|].
  assert (forall m1, mkdirs m1 (cur ++ [c]) cs = (true, m') -> m1 !! (cur ++ [c]) = Some NDir ->
    is_dir m' (cur ++ [c]) = true) as Hd.
  { intros m1 Hm1 Hc. apply is_dir_lookup. right. eapply mkdirs_keeps; [|done]. by rewrite Hm1. }
  destruct (m !! (cur ++ [c])) as [[]|] eqn:E; [done| |]; intros Hm.
  - rewrite (Hd m) by done. eauto.
  - rewrite (Hd _ Hm) by (by rewrite lookup_insert_eq). eauto.
Qed.

(** [create_directories] leaves a directory there and keeps every node. *)
Lemma create_directories_resolve f p f' :
  create_directories f p = Some f' ->
  is_Some (resolve_dir f' p) /\ fs_cwd f' = fs_cwd f /\
  forall q n, fs_nodes f !! q = Some n -> fs_nodes f' !! q = Some n.
Proof.
  unfold create_directories, resolve_dir. destruct (mkdirs _ _ _) as [[] m'] eqn:Hm; [|done].
  intros [= <-]. split; [by eapply mkdirs_walk|]. split; [done|].
  intros q n Hq. eapply mkdirs_keeps; [|done]. by rewrite Hm.
Qed.

(** A directory string built from plain names. *)
Lemma resolve_two_names f f' a b d :
  plain_name a -> plain_name b -> resolve_dir f' (a ++ slash :: b ++ [slash]) = Some d ->
  fs_cwd f' = fs_cwd f -> d = fs_cwd f ++ [a; b].
Proof.
  intros (Ha & Ha1 & Ha2 & Has) (Hb & Hb1 & Hb2 & Hbs) Hr <-. unfold resolve_dir in Hr.
  rewrite split_slash_app, split_slash_app, !split_slash_plain in Hr by done.
  assert (start_dir f' (a ++ slash :: b ++ [slash]) = fs_cwd f') as Hs.
  { destruct a as [|x a]; [done|]. apply Forall_cons in Has as [Hx _]. simpl.
    by rewrite bool_decide_eq_false_2. }
  rewrite Hs in Hr. cbn [app split_slash walk] in Hr.
  rewrite !bool_decide_eq_false_2 in Hr by tauto.
  destruct (is_dir _ (fs_cwd f' ++ [a])); [|done].
  destruct (is_dir _ ((fs_cwd f' ++ [a]) ++ [b])); [|done].
  rewrite bool_decide_eq_true_2 in Hr by tauto. simplify_eq. by rewrite <- app_assoc.
Qed.

(** Going up from a directory and down into a sibling. *)
Lemma resolve_up f p d u other :
  dir_string p -> resolve_dir f p = Some (d ++ [u]) -> plain_name other ->
  fs_nodes f !! (d ++ [other]) = Some NDir ->
  resolve_dir f (p ++ str "../" ++ other ++ [slash]) = Some (d ++ [other]).
Proof.
  intros (a & Ha & ->) Hr (Ho & Ho1 & Ho2 & Hos) Hd. rewrite resolve_dir_string in Hr by done.
  change (str "../") with (dotdot ++ [slash]). rewrite <- !app_assoc. cbn [app].
  unfold resolve_dir. rewrite start_dir_app by done.
  rewrite split_slash_app, walk_app, Hr. cbn [mbind option_bind].
  rewrite split_slash_app, split_slash_app, (split_slash_plain other) by done.
  change (split_slash dotdot) with [dotdot]. cbn [app split_slash walk].
  rewrite (bool_decide_eq_false_2 (dotdot = [] \/ dotdot = dot)) by (by intros [|]).
  rewrite (bool_decide_eq_true_2 (dotdot = dotdot)), parent_snoc by done.
  rewrite (bool_decide_eq_false_2 (other = [] \/ other = dot)) by tauto.
  rewrite (bool_decide_eq_false_2 (other = dotdot)) by done.
  rewrite (proj2 (is_dir_lookup _ _)) by (by right).
  by rewrite bool_decide_eq_true_2 by tauto.
Qed.
