(* ===== verification/Terminal.v ===== *)
(** [std::cin] as the client uses it: formatted extraction of strings, integers
    and characters, [clear] and [ignore]; and the terminal it is typed on, whose
    line discipline shows what is typed while the flag [ECHO] is set. *)

From S2P Require Import Prelude.

Record cin := Cin {
  cin_rest : bytes;     (* the characters not read yet *)
  cin_eof : bool;       (* eofbit *)
  cin_fail : bool       (* failbit *)
}.

Definition cin_good (c : cin) : bool := negb (cin_eof c || cin_fail c).

Definition isspace (b : byte) : bool :=
  let z := byte_to_Z b in (z =? 32) || ((9 <=? z) && (z <=? 13)).

Definition isdigit (b : byte) : bool :=
  let z := byte_to_Z b in (48 <=? z) && (z <=? 57).

Fixpoint skip_spaces (s : bytes) : bytes :=
  match s with
  | b :: s' => if isspace b then skip_spaces s' else s
  | [] => []
  end.

(** The longest prefix of characters that satisfy [p], and the rest. *)
Fixpoint span (p : byte -> bool) (s : bytes) : bytes * bytes :=
  match s with
  | b :: s' => if p b then let '(x, y) := span p s' in (b :: x, y) else ([], s)
  | [] => ([], [])
  end.

(** The sentry of a formatted extraction: the characters after white space, or
    [None] when the extraction fails at once. *)
Definition sentry (c : cin) : option bytes * cin :=
  if negb (cin_good c) then (None, Cin (cin_rest c) (cin_eof c) true) else
  match skip_spaces (cin_rest c) with
  | [] => (None, Cin [] true true)
  | s => (Some s, Cin s false false)
  end.

Definition is_nil (s : bytes) : bool := match s with [] => true | _ => false end.

(** [cin >> s] for a string: [None] leaves the string as it was. *)
Definition get_string (c : cin) : option bytes * cin :=
  match sentry c with
  | (None, c') => (None, c')
  | (Some s, _) =>
      let '(w, rest) := span (fun b => negb (isspace b)) s in
      (Some w, Cin rest (is_nil rest) false)
  end.

Definition digits_value (ds : bytes) : Z :=
  fold_left (fun acc b => 10 * acc + (byte_to_Z b - 48)) ds 0.

(** [cin >> i] for an [int]. *)
Definition get_int (c : cin) : option Z * cin :=
  match sentry c with
  | (None, c') => (None, c')
  | (Some s, _) =>
      let '(sg, s1) := match s with
                       | b :: s' => if bool_decide (b = x2d) then (-1, s')
                                    else if bool_decide (b = x2b) then (1, s') else (1, s)
                       | [] => (1, [])
                       end in
      let '(ds, rest) := span isdigit s1 in
      let v := sg * digits_value ds in
      if is_nil ds || (v <? - 2 ^ 31) || (2 ^ 31 <=? v)
      then (None, Cin rest (is_nil rest) true)
      else (Some v, Cin rest (is_nil rest) false)
  end.

(** [cin >> ch] *)
Definition get_char (c : cin) : option byte * cin :=
  match sentry c with
  | (None, c') => (None, c')
  | (Some (b :: s), _) => (Some b, Cin s false false)
  | (Some [], c') => (None, c')
  end.

Definition cin_clear (c : cin) : cin := Cin (cin_rest c) false false.

(** [cin.ignore()], one character. *)
Definition cin_ignore (c : cin) : cin :=
  if negb (cin_good c) then Cin (cin_rest c) (cin_eof c) true else
  match cin_rest c with
  | [] => Cin [] true false
  | _ :: s => Cin s false false
  end.

(** ** The terminal *)

(** A terminal in canonical mode: the local modes of [struct termios], the
    characters shown so far, and how many of the characters that the program has
    not read yet have been typed already. *)
Record tty := Tty {
  c_lflag : Z;
  tty_shown : bytes;
  tty_ahead : nat
}.

Definition ECHO : Z := 8.

Definition echoing (t : tty) : bool := negb (Z.land (c_lflag t) ECHO =? 0).

(** What the extraction that took [std::cin] from [before] to [after] has used up. *)
Definition used (before after : cin) : bytes :=
  take (length (cin_rest before) - length (cin_rest after)) (cin_rest before).

(** The first line, with its newline. *)
Fixpoint first_line (s : bytes) : bytes :=
  match s with
  | [] => []
  | b :: s' => if bool_decide (b = x0a) then [b] else b :: first_line s'
  end.

(** A terminal hands over whole lines: for the program to use up [u], everything
    has to be typed up to the end of the line in which [u] ends. *)
Definition needed (u rest : bytes) : bytes :=
  if bool_decide (u = [] \/ List.last u x00 = x0a) then u else u ++ first_line rest.

(** A character is shown when it is typed, if the terminal is in echo mode at
    that time, and it is typed when the program waits for its line, unless it
    has been typed ahead.  [None] is an input that is not a terminal, where
    [tcgetattr] and [tcsetattr] fail and nothing is shown. *)
Definition echo (before after : cin) (t : option tty) : option tty :=
  match t with
  | Some t =>
      let u := used before after in
      let typed := needed u (cin_rest after) in
      Some (Tty (c_lflag t)
        (tty_shown t ++ if echoing t then drop (tty_ahead t) typed else [])
        (Nat.max (tty_ahead t) (length typed) - length u))
  | None => None
  end.

(** Clearing and setting the flag; [TCSANOW] keeps what has been typed. *)
Definition clear_echo (t : tty) : tty :=
  Tty (Z.land (c_lflag t) (Z.lnot ECHO)) (tty_shown t) (tty_ahead t).
Definition set_echo (t : tty) : tty := Tty (Z.lor (c_lflag t) ECHO) (tty_shown t) (tty_ahead t).

Lemma echoing_clear_echo t : echoing (clear_echo t) = false.
Proof.
  unfold echoing. cbn [clear_echo c_lflag]. rewrite <- Z.land_assoc, (Z.land_comm (Z.lnot ECHO)).
  by rewrite Z.land_lnot_diag, Z.land_0_r.
Qed.

Lemma set_clear_echo z : Z.lor (Z.land z (Z.lnot ECHO)) ECHO = Z.lor z ECHO.
Proof.
  rewrite Z.lor_land_distr_l, (Z.lor_comm (Z.lnot ECHO)), Z.lor_lnot_diag. apply Z.land_m1_r.
Qed.

Lemma used_prefix s rest e f e' f' : used (Cin (s ++ rest) e f) (Cin rest e' f') = s.
Proof.
  unfold used. cbn [cin_rest]. rewrite length_app, Nat.add_sub. apply take_app_length.
Qed.

(** Reading a word needs the line it is on. *)
Lemma needed_word sp b w rest :
  isspace b = false -> needed (sp ++ w ++ [b]) rest = sp ++ w ++ [b] ++ first_line rest.
Proof.
  intros Hb. unfold needed. rewrite bool_decide_eq_false_2.
  - by rewrite <- !app_assoc.
  - intros [H|H].
    + by destruct sp, w.
    + rewrite app_assoc, last_last in H. by subst.
Qed.

Lemma first_line_app s rest : x0a ∈ s -> first_line (s ++ rest) = first_line s.
Proof.
  induction s as [|b s IH]; [by intros ?%elem_of_nil|]. simpl.
  case_bool_decide; [done|]. intros [<-|H']%elem_of_cons; [done|]. by rewrite IH.
Qed.
