(* ===== verification/World.v ===== *)
(** The state a MEFSC process works on, seen from the thread that serves one
    connection: the connection's socket, [errno], the file system, the random
    generator, and the terminal of the client with its echo mode.

    [world] is the detailed state.  What the kernel does with the socket is
    part of it: [w_in] lists what the successive [recv] calls return, piece by
    piece, interruptions by signals included, and [w_snd] what the successive
    [send] calls do.  [aworld] is the abstract state, where the connection is
    just the bytes still to be received and the bytes sent; [repr] relates the
    two for a connection that works, however the bytes are cut into pieces and
    wherever signals interrupt, and [runs] lifts it to programs. *)

From S2P Require Import Prelude Sodium Fs Terminal.

(** What the language and the operating system leave open: the initial contents
    of local variables ([indet name size]), the order in which a directory is
    listed, and the interleaving of threads. *)
Class Env := {
  indet : string -> nat -> bytes;
  dir_order : list bytes -> list bytes;
  sched : nat -> bool
}.

Class EnvLaws (EN : Env) : Prop := {
  length_indet v n : length (indet v n) = n;
  dir_order_perm l : dir_order l ≡ₚ l
}.

(** An environment for concrete runs. *)
Definition toy_env : Env := {|
  indet _ n := replicate n x00;
  dir_order l := l;
  sched := Nat.even
|}.

Lemma toy_env_laws : EnvLaws toy_env.
Proof. constructor; simpl; intros; [apply length_replicate|done]. Qed.

Definition EINTR : Z := 4.
Definition EAGAIN : Z := 11.

Inductive recv_event :=
  | RData (bs : bytes)     (* [recv] delivers these bytes, or as many as asked for *)
  | RErr (errno : Z).      (* [recv] returns -1 and sets [errno] *)

Inductive send_event :=
  | SFull                  (* [send] takes the whole buffer *)
  | SShort (k : nat)       (* [send] takes at most [k] bytes *)
  | SErr (errno : Z).      (* [send] returns -1 and sets [errno] *)

Section world.
Context {SO : Sodium}.

Record world := World {
  w_in : list recv_event;
  w_snd : list send_event;
  w_out : bytes;
  w_errno : Z;
  w_fs : fs;
  w_rng : rng;
  w_stdin : cin;
  w_stdout : list bytes;
  w_tty : option tty
}.

Definition set_in (i : list recv_event) (w : world) : world :=
  World i (w_snd w) (w_out w) (w_errno w) (w_fs w) (w_rng w) (w_stdin w) (w_stdout w) (w_tty w).
Definition set_errno (e : Z) (w : world) : world :=
  World (w_in w) (w_snd w) (w_out w) e (w_fs w) (w_rng w) (w_stdin w) (w_stdout w) (w_tty w).
Definition set_sent (s : list send_event) (o : bytes) (w : world) : world :=
  World (w_in w) s o (w_errno w) (w_fs w) (w_rng w) (w_stdin w) (w_stdout w) (w_tty w).
Definition set_fs (f : fs) (w : world) : world :=
  World (w_in w) (w_snd w) (w_out w) (w_errno w) f (w_rng w) (w_stdin w) (w_stdout w) (w_tty w).
Definition set_rng (r : rng) (w : world) : world :=
  World (w_in w) (w_snd w) (w_out w) (w_errno w) (w_fs w) r (w_stdin w) (w_stdout w) (w_tty w).
(** The input is read up to [i]. *)
Definition read_stdin (i : cin) (w : world) : world :=
  World (w_in w) (w_snd w) (w_out w) (w_errno w) (w_fs w) (w_rng w) i (w_stdout w)
    (echo (w_stdin w) i (w_tty w)).
Definition set_stdout (o : list bytes) (w : world) : world :=
  World (w_in w) (w_snd w) (w_out w) (w_errno w) (w_fs w) (w_rng w) (w_stdin w) o (w_tty w).

Definition set_tty (t : option tty) (w : world) : world :=
  World (w_in w) (w_snd w) (w_out w) (w_errno w) (w_fs w) (w_rng w) (w_stdin w) (w_stdout w) t.

Abbreviation IO := (M world).

(** [recv(fd, buf, len, MSG_WAITALL)]: the return value and the bytes stored.
    After the last event the peer has closed the connection and [recv] returns
    0, leaving [errno] as it was. *)
Definition recv (len : nat) : IO (Z * bytes) := fun w =>
  match w_in w with
  | [] => Ok (0, []) w
  | RErr e :: evs => Ok (-1, []) (set_errno e (set_in evs w))
  | RData bs :: evs =>
      if (length bs <=? len)%nat then Ok (blen bs, bs) (set_in evs w)
      else Ok (Z.of_nat len, take len bs) (set_in (RData (drop len bs) :: evs) w)
  end.

(** [send(fd, data, len, MSG_NOSIGNAL)] *)
Definition send (data : bytes) : IO Z := fun w =>
  match w_snd w with
  | [] => Ok (blen data) (set_sent [] (w_out w ++ data) w)
  | SFull :: s => Ok (blen data) (set_sent s (w_out w ++ data) w)
  | SShort k :: s =>
      Ok (blen (take k data)) (set_sent s (w_out w ++ take k data) w)
  | SErr e :: s => Ok (-1) (set_errno e (set_sent s (w_out w) w))
  end.

(** Random bytes and key pairs, drawn from the generator. *)
Definition randombytes (n : nat) : IO bytes := fun w =>
  let '(bs, r) := randombytes_buf (w_rng w) n in Ok bs (set_rng r w).

Definition crypto_kx_keypair : IO (bytes * bytes) := fun w =>
  let '(pk, sk, r) := kx_keypair (w_rng w) in Ok (pk, sk) (set_rng r w).

Definition crypto_secretstream_init_push (key : bytes) : IO (ss_state * bytes) := fun w =>
  let '(st, h, r) := ss_init_push (w_rng w) key in Ok (st, h) (set_rng r w).

(** Stream and file-system calls. *)
Definition open_out (p : bytes) : IO ofstream := fun w =>
  let '(h, f) := ofstream_open (w_fs w) p in Ok h (set_fs f w).

Definition write_out (h : ofstream) (data : bytes) : IO unit :=
  modify (fun w => set_fs (ofstream_write h data (w_fs w)) w).

Definition open_in (p : bytes) : IO ifstream := gets (fun w => ifstream_open (w_fs w) p).

(** A call of [std::filesystem] that may throw. *)
Definition fs_call {A} (f : fs -> option (A * fs)) : IO A := fun w =>
  match f (w_fs w) with
  | Some (a, f') => Ok a (set_fs f' w)
  | None => Throw filesystem_error w
  end.

(** [create_directories], which keeps what it has made when it throws. *)
Definition make_directories (p : bytes) : IO unit := fun w =>
  match create_directories (w_fs w) p with
  | Some f' => Ok tt (set_fs f' w)
  | None => Throw filesystem_error (set_fs (made_directories (w_fs w) p) w)
  end.

(** ** The abstract state *)

Record aworld := AWorld {
  a_in : bytes;
  a_out : bytes;
  a_fs : fs;
  a_rng : rng;
  a_stdin : cin;
  a_stdout : list bytes
}.

Definition a_set_in (i : bytes) (a : aworld) : aworld :=
  AWorld i (a_out a) (a_fs a) (a_rng a) (a_stdin a) (a_stdout a).
Definition a_set_out (o : bytes) (a : aworld) : aworld :=
  AWorld (a_in a) o (a_fs a) (a_rng a) (a_stdin a) (a_stdout a).
Definition a_set_fs (f : fs) (a : aworld) : aworld :=
  AWorld (a_in a) (a_out a) f (a_rng a) (a_stdin a) (a_stdout a).
Definition a_set_rng (r : rng) (a : aworld) : aworld :=
  AWorld (a_in a) (a_out a) (a_fs a) r (a_stdin a) (a_stdout a).
Definition a_set_stdin (i : cin) (a : aworld) : aworld :=
  AWorld (a_in a) (a_out a) (a_fs a) (a_rng a) i (a_stdout a).
Definition a_set_stdout (o : list bytes) (a : aworld) : aworld :=
  AWorld (a_in a) (a_out a) (a_fs a) (a_rng a) (a_stdin a) o.

Definition event_bytes (e : recv_event) : bytes :=
  match e with RData bs => bs | RErr _ => [] end.

Definition stream (evs : list recv_event) : bytes := evs ≫= event_bytes.

(** Pieces are not empty and the only errors are interruptions. *)
Definition good_event (e : recv_event) : Prop :=
  match e with RData bs => bs <> [] | RErr e => e = EINTR end.

Record repr (w : world) (a : aworld) : Prop := {
  repr_good : Forall good_event (w_in w);
  repr_in : stream (w_in w) = a_in a;
  repr_snd : Forall (fun s => s = SFull) (w_snd w);
  repr_out : w_out w = a_out a;
  repr_fs : w_fs w = a_fs a;
  repr_rng : w_rng w = a_rng a;
  repr_stdin : w_stdin w = a_stdin a;
  repr_stdout : w_stdout w = a_stdout a
}.

(** [runs m a v a']: on every working connection, [m] returns [v] and takes the
    abstract state [a] to [a']. *)
Definition runs {A} (m : IO A) (a : aworld) (v : A) (a' : aworld) : Prop :=
  forall w, repr w a -> exists w', m w = Ok v w' /\ repr w' a'.

(** [throws m a e]: on every working connection, [m] throws [e]. *)
Definition throws {A} (m : IO A) (a : aworld) (e : exn) (a' : aworld) : Prop :=
  forall w, repr w a -> exists w', m w = Throw e w' /\ repr w' a'.

(** ** Rules for [runs] *)

Lemma runs_ret {A} (v : A) a : runs (mret v) a v a.
Proof. intros w Hw. by exists w. Qed.

Lemma runs_bind {A B} (m : IO A) (f : A -> IO B) a v a1 v2 a2 :
  runs m a v a1 -> runs (f v) a1 v2 a2 -> runs (m ≫= f) a v2 a2.
Proof.
  intros Hm Hf w Hw. destruct (Hm w Hw) as (w1 & E1 & Hw1).
  destruct (Hf w1 Hw1) as (w2 & E2 & Hw2). exists w2.
  split; [|done]. by rewrite (bind_Ok _ _ _ _ _ E1).
Qed.

Lemma runs_conv {A} (m : IO A) a v a1 v' a2 :
  runs m a v a1 -> v = v' -> a1 = a2 -> runs m a v' a2.
Proof. by intros H <- <-. Qed.

Lemma throws_bind_l {A B} (m : IO A) (f : A -> IO B) a e a1 :
  throws m a e a1 -> throws (m ≫= f) a e a1.
Proof.
  intros Hm w Hw. destruct (Hm w Hw) as (w1 & E1 & Hw1). exists w1.
  unfold mbind, M_bind. by rewrite E1.
Qed.

Lemma throws_bind_r {A B} (m : IO A) (f : A -> IO B) a v a1 e a2 :
  runs m a v a1 -> throws (f v) a1 e a2 -> throws (m ≫= f) a e a2.
Proof.
  intros Hm Hf w Hw. destruct (Hm w Hw) as (w1 & E1 & Hw1).
  destruct (Hf w1 Hw1) as (w2 & E2 & Hw2). exists w2.
  split; [|done]. by rewrite (bind_Ok _ _ _ _ _ E1).
Qed.

Lemma runs_det {A} (m : IO A) a v1 a1 v2 a2 w :
  repr w a -> runs m a v1 a1 -> runs m a v2 a2 -> v1 = v2.
Proof.
  intros Hw H1 H2. destruct (H1 w Hw) as (? & E1 & _), (H2 w Hw) as (? & E2 & _).
  congruence.
Qed.

(** Every abstract state describes some connection: all bytes in one piece. *)
Definition concretize (a : aworld) : world :=
  World (match a_in a with [] => [] | bs => [RData bs] end) [] (a_out a) 0
    (a_fs a) (a_rng a) (a_stdin a) (a_stdout a) None.

Lemma repr_concretize a : repr (concretize a) a.
Proof.
  destruct a as [[|b i] o f r si so]; split; simpl; auto.
  - by constructor.
  - unfold stream; simpl. by rewrite app_nil_r.
Qed.

Lemma runs_send data a : runs (send data) a (blen data) (a_set_out (a_out a ++ data) a).
Proof.
  intros w [Hg Hi Hs Ho Hf Hr Hsi Hso]. unfold send.
  destruct (w_snd w) as [|s ss]; [|apply Forall_cons in Hs as [-> Hs]];
    eexists; (split; [done|]); split; simpl; congruence.
Qed.

Lemma runs_randombytes n a :
  runs (randombytes n) a (fst (randombytes_buf (a_rng a) n))
    (a_set_rng (snd (randombytes_buf (a_rng a) n)) a).
Proof.
  intros w [Hg Hi Hs Ho Hf Hr Hsi Hso]. unfold randombytes. rewrite Hr.
  destruct (randombytes_buf (a_rng a) n) as [bs r]. eexists; split; [done|]. by split.
Qed.

Lemma runs_kx_keypair a pk sk r :
  kx_keypair (a_rng a) = (pk, sk, r) ->
  runs crypto_kx_keypair a (pk, sk) (a_set_rng r a).
Proof.
  intros E w [Hg Hi Hs Ho Hf Hr Hsi Hso]. unfold crypto_kx_keypair. rewrite Hr, E.
  eexists; split; [done|]. by split.
Qed.

Lemma runs_init_push key a st h r :
  ss_init_push (a_rng a) key = (st, h, r) ->
  runs (crypto_secretstream_init_push key) a (st, h) (a_set_rng r a).
Proof.
  intros E w [Hg Hi Hs Ho Hf Hr Hsi Hso]. unfold crypto_secretstream_init_push.
  rewrite Hr, E. eexists; split; [done|]. by split.
Qed.

Lemma runs_open_out p a h f :
  ofstream_open (a_fs a) p = (h, f) -> runs (open_out p) a h (a_set_fs f a).
Proof.
  intros E w [Hg Hi Hs Ho Hf Hr Hsi Hso]. unfold open_out. rewrite Hf, E.
  eexists; split; [done|]. by split.
Qed.

Lemma runs_write_out h data a :
  runs (write_out h data) a tt (a_set_fs (ofstream_write h data (a_fs a)) a).
Proof.
  intros w [Hg Hi Hs Ho Hf Hr Hsi Hso]. unfold write_out, modify. rewrite Hf.
  eexists; split; [done|]. by split.
Qed.

Lemma runs_open_in p a : runs (open_in p) a (ifstream_open (a_fs a) p) a.
Proof.
  intros w Hw. exists w. split; [|done]. unfold open_in, gets. by rewrite (repr_fs _ _ Hw).
Qed.

Lemma runs_fs_call {A} (f : fs -> option (A * fs)) a v f' :
  f (a_fs a) = Some (v, f') -> runs (fs_call f) a v (a_set_fs f' a).
Proof.
  intros E w [Hg Hi Hs Ho Hf Hr Hsi Hso]. unfold fs_call. rewrite Hf, E.
  eexists; split; [done|]. by split.
Qed.

Lemma runs_make_directories p a f' :
  create_directories (a_fs a) p = Some f' -> runs (make_directories p) a tt (a_set_fs f' a).
Proof.
  intros E w [Hg Hi Hs Ho Hf Hr Hsi Hso]. unfold make_directories. rewrite Hf, E.
  eexists; split; [done|]. by split.
Qed.

Lemma throws_fs_call {A} (f : fs -> option (A * fs)) a :
  f (a_fs a) = None -> throws (fs_call f) a filesystem_error a.
Proof.
  intros E w Hw. unfold fs_call. rewrite (repr_fs _ _ Hw), E. by exists w.
Qed.

End world.

#[export] Hint Resolve runs_ret runs_send runs_randombytes runs_kx_keypair runs_init_push
  runs_open_out runs_write_out runs_open_in runs_fs_call : mefsc.

(** Run the next call of a sequence: [rbind] applies [runs_bind] and closes the
    first goal with the rules of the hint database when it can. *)
Ltac rbind := eapply runs_bind; [solve [eauto with mefsc]|].
Ltac rret := apply runs_ret.

(** Reduce the pattern matches a returned value has decided. *)
Ltac rsimpl := cbv beta iota zeta; cbn [negb].

Abbreviation IO := (M world).
Arguments recv : simpl never.
Arguments send : simpl never.
