(* ===== verification/Net.v ===== *)
(** Reading and writing the connection: [recv_fully] of
    src/encryption_utils/SessionEnc.cpp and the length-prefixed blobs of
    src/encryption_utils/encryption_utils.cpp.

    The theorems: [recv_fully] delivers exactly the bytes asked for whatever
    the segmentation and the interruptions; its bound on the number of [recv]
    calls; how it ends on a closed connection, [errno] included; blobs round
    trip and oversized blobs are refused before anything is stored. *)

From S2P Require Import Prelude Sodium Fs Terminal World.

Section net.
Context {SO : Sodium}.

(** The loop of [recv_fully]; [got] is what has been stored at [dest] so far.
    Running out of [fuel] stands for a loop that goes on. *)
Fixpoint recv_loop (fuel len : nat) (got : bytes) : IO (bool * bytes) :=
  match len with
  | O => mret (true, got)
  | S _ =>
      match fuel with
      | O => diverge
      | S fuel' =>
          r ← recv len;
          let '(received, bs) := r in
          if received <=? 0 then
            e ← gets w_errno;
            if e =? EINTR then recv_loop fuel' len got else mret (false, got)
          else recv_loop fuel' (len - Z.to_nat received) (got ++ bs)
      end
  end.

(** Each iteration but the last takes one event of the connection, so one more
    iteration than there are events is enough, unless the loop never ends. *)
Definition recv_fully (len : nat) : IO (bool * bytes) := fun w =>
  recv_loop (S (length (w_in w))) len [] w.

(** The wire format is [uint64 len][len bytes]. *)
Definition send_raw_blob (data : bytes) : IO Z :=
  r1 ← send (le_encode 8 (blen data));
  if negb (r1 =? 8) then mret 1 else
  if 0 <? blen data then
    r2 ← send data;
    if negb (r2 =? blen data) then mret 1 else mret 0
  else mret 0.

(** Returns the code, the bytes stored in [buf] and the value of [*out_len],
    which keeps [out_len0] on failure. *)
Definition recv_raw_blob (cap : Z) (out_len0 : Z) : IO (Z * bytes * Z) :=
  r ← recv_fully 8;
  let '(ok, nb) := r in
  if negb ok then mret (1, [], out_len0) else
  let n := le_decode nb in
  if cap <? n then mret (1, [], out_len0) else
  if 0 <? n then
    r2 ← recv_fully (Z.to_nat n);
    let '(ok2, bs) := r2 in
    if negb ok2 then mret (1, bs, out_len0) else mret (0, bs, n)
  else mret (0, [], n).

End net.

Arguments recv_loop : simpl never.
Arguments recv_fully : simpl never.

Section net_theorems.
Context {SO : Sodium}.

Lemma set_in_errno_id (w : world) : set_errno (w_errno w) (set_in (w_in w) w) = w.
Proof. by destruct w. Qed.

Lemma recv_loop_unfold fuel len got :
  recv_loop (S fuel) (S len) got =
    (r ← recv (S len);
     let '(received, bs) := r in
     if received <=? 0 then
       e ← gets w_errno;
       if e =? EINTR then recv_loop fuel (S len) got else mret (false, got)
     else recv_loop fuel (S len - Z.to_nat received) (got ++ bs)).
Proof. done. Qed.

Lemma recv_loop_0 fuel got : recv_loop fuel 0 got = mret (true, got).
Proof. by destruct fuel. Qed.

(** One [recv] of a non-empty piece. *)
Lemma recv_data bs evs len (w : world) :
  w_in w = RData bs :: evs ->
  recv len w = if (length bs <=? len)%nat then Ok (blen bs, bs) (set_in evs w)
               else Ok (Z.of_nat len, take len bs) (set_in (RData (drop len bs) :: evs) w).
Proof. unfold recv. by intros ->. Qed.

Lemma recv_loop_eintr evs fuel len got (w : world) :
  w_in w = RErr EINTR :: evs ->
  recv_loop (S fuel) (S len) got w =
    recv_loop fuel (S len) got (set_errno EINTR (set_in evs w)).
Proof.
  intros E. rewrite recv_loop_unfold. unfold mbind, M_bind, recv. rewrite E. done.
Qed.

Lemma recv_loop_data bs evs fuel len got (w : world) :
  w_in w = RData bs :: evs -> bs <> [] ->
  recv_loop (S fuel) (S len) got w =
    if (length bs <=? S len)%nat
    then recv_loop fuel (S len - length bs) (got ++ bs) (set_in evs w)
    else Ok (true, got ++ take (S len) bs) (set_in (RData (drop (S len) bs) :: evs) w).
Proof.
  intros E Hne. rewrite recv_loop_unfold. unfold mbind at 1, M_bind at 1.
  rewrite (recv_data bs evs) by done.
  assert (0 < length bs)%nat by (destruct bs; simpl in *; [done|lia]).
  destruct (length bs <=? S len)%nat eqn:El.
  - rewrite (proj2 (Z.leb_gt _ _)) by (unfold blen; lia).
    by rewrite to_nat_blen.
  - rewrite (proj2 (Z.leb_gt _ _)) by lia.
    by rewrite Nat2Z.id, Nat.sub_diag, recv_loop_0.
Qed.

Lemma recv_loop_delivers evs : forall (w : world) fuel len got,
  w_in w = evs -> (length evs < fuel)%nat -> Forall good_event evs ->
  (len <= length (stream evs))%nat ->
  exists evs' e,
    recv_loop fuel len got w =
      Ok (true, got ++ take len (stream evs)) (set_errno e (set_in evs' w)) /\
    Forall good_event evs' /\ stream evs' = drop len (stream evs).
Proof.
  induction evs as [|ev evs IH]; intros w fuel len got Hw Hfuel Hg Hlen.
  - simpl in Hlen. assert (len = 0)%nat as -> by lia. rewrite recv_loop_0.
    exists [], (w_errno w). rewrite app_nil_r, <- Hw, set_in_errno_id. by rewrite Hw.
  - destruct fuel as [|fuel]; [simpl in *; lia|]. simpl in Hfuel.
    apply Forall_cons in Hg as [Hev Hg].
    destruct len as [|len].
    { rewrite recv_loop_0. exists (ev :: evs), (w_errno w).
      rewrite app_nil_r, <- Hw, set_in_errno_id, Hw. by rewrite Forall_cons. }
    destruct ev as [bs|e]; simpl in Hev.
    + rewrite (recv_loop_data bs evs) by done.
      change (stream (RData bs :: evs)) with (bs ++ stream evs) in *.
      rewrite length_app in Hlen.
      destruct (Nat.leb_spec (length bs) (S len)).
      * destruct (IH (set_in evs w) fuel (S len - length bs)%nat (got ++ bs))
          as (evs' & e & E & Hg' & Hs'); auto; try lia.
        exists evs', e. rewrite E, take_app_ge, drop_app_ge, app_assoc by lia. done.
      * exists (RData (drop (S len) bs) :: evs), (w_errno w).
        rewrite take_app_le, drop_app_le by lia. split; [by destruct w|].
        split; [|done]. constructor; [|done]. simpl.
        intros E%(f_equal length). rewrite length_drop in E. simpl in E. lia.
    + subst e. rewrite (recv_loop_eintr evs) by done.
      destruct (IH (set_errno EINTR (set_in evs w)) fuel (S len) got)
        as (evs' & e & E & Hg' & Hs'); auto; try lia.
      exists evs', e. rewrite E. split; [by destruct w|done].
Qed.

Lemma runs_recv_fully a bs rest :
  a_in a = bs ++ rest ->
  runs (recv_fully (length bs)) a (true, bs) (a_set_in rest a).
Proof.
  intros Ha w [Hg Hi Hs Ho Hf Hr Hsi Hso]. unfold recv_fully.
  destruct (recv_loop_delivers (w_in w) w (S (length (w_in w))) (length bs) [])
    as (evs' & e & E & Hg' & Hst); auto.
  { rewrite Hi, Ha, length_app. lia. }
  rewrite Hi, Ha, take_app_length in E. rewrite Hi, Ha, drop_app_length in Hst.
  eexists; split; [exact E|]. by split.
Qed.

Lemma runs_recv_fully_n a n bs rest :
  a_in a = bs ++ rest -> length bs = n ->
  runs (recv_fully n) a (true, bs) (a_set_in rest a).
Proof. intros Ha <-. by apply runs_recv_fully. Qed.

(** *** How the loop ends without interruptions *)

Definition quiet_event (e : recv_event) : Prop :=
  match e with RData _ => True | RErr e => e <> EINTR end.

(** Without [EINTR] the loop ends, with all the bytes or with [false]. *)
Lemma recv_loop_quiet evs : forall (w : world) fuel len got,
  w_in w = evs -> (length evs < fuel)%nat -> Forall quiet_event evs ->
  w_errno w <> EINTR ->
  exists ok bs w', recv_loop fuel len got w = Ok (ok, got ++ bs) w' /\
    (if ok then length bs = len else (length bs < len)%nat) /\
    (ok = false -> len <> 0%nat).
Proof.
  induction evs as [|ev evs IH]; intros w fuel len got Hw Hfuel Hq He.
  all: destruct len as [|len];
    [rewrite recv_loop_0; exists true, [], w; rewrite app_nil_r; done|].
  all: destruct fuel as [|fuel]; [simpl in *; lia|].
  - rewrite recv_loop_unfold. unfold mbind, M_bind, recv. rewrite Hw. simpl.
    rewrite (proj2 (Z.eqb_neq _ _)) by done.
    exists false, [], w. rewrite app_nil_r. split_and!; try done. simpl; lia.
  - simpl in Hfuel. apply Forall_cons in Hq as [Hev Hq].
    destruct ev as [bs|e]; simpl in Hev.
    + destruct (decide (bs = [])) as [->|Hne].
      * rewrite recv_loop_unfold. unfold mbind, M_bind, recv. rewrite Hw. simpl.
        rewrite (proj2 (Z.eqb_neq _ _)) by done.
        exists false, [], (set_in evs w). rewrite app_nil_r. split_and!; try done. simpl; lia.
      * rewrite (recv_loop_data bs evs) by done.
        destruct (Nat.leb_spec (length bs) (S len)).
        -- destruct (IH (set_in evs w) fuel (S len - length bs)%nat (got ++ bs))
             as (ok & bs' & w' & E & Hl & Hn); auto; try lia.
           exists ok, (bs ++ bs'), w'. rewrite E, app_assoc, length_app.
           split_and!; [done|destruct ok; lia|done].
        -- exists true, (take (S len) bs). eexists. split; [done|].
           rewrite length_take. split; [lia|done].
    + rewrite recv_loop_unfold. unfold mbind, M_bind, recv. rewrite Hw. simpl.
      rewrite (proj2 (Z.eqb_neq _ _)) by done.
      exists false, []. eexists. rewrite app_nil_r. split_and!; try done. simpl; lia.
Qed.

Lemma recv_loop_closed_eintr fuel len got (w : world) :
  w_in w = [] -> w_errno w = EINTR -> recv_loop fuel (S len) got w = Diverge.
Proof.
  intros Hi He. revert got. induction fuel as [|fuel IH]; intros got; [done|].
  rewrite recv_loop_unfold. unfold mbind, M_bind, recv, gets. rewrite Hi. simpl.
  rewrite He. apply IH.
Qed.

(** *** Blobs *)

Lemma runs_send_raw_blob data a :
  runs (send_raw_blob data) a 0 (a_set_out (a_out a ++ le_encode 8 (blen data) ++ data) a).
Proof.
  unfold send_raw_blob. eapply runs_bind; [apply runs_send|].
  replace (blen (le_encode 8 (blen data))) with 8 by len.
  cbn [Z.eqb Pos.eqb negb].
  destruct (Z.ltb_spec 0 (blen data)).
  - eapply runs_bind; [apply runs_send|]. rewrite Z.eqb_refl.
    cbn [negb a_out a_set_out]. rewrite <- app_assoc. apply runs_ret.
  - assert (data = []) as -> by (destruct data; [done|len]).
    rewrite app_nil_r. apply runs_ret.
Qed.

Lemma le_decode_encode_blen n bs :
  blen bs < 256 ^ Z.of_nat n -> le_decode (le_encode n (blen bs)) = blen bs.
Proof.
  intros. rewrite le_decode_encode. apply Z.mod_small. pose proof (blen_nonneg bs). lia.
Qed.

Lemma runs_recv_raw_blob cap l0 data rest a :
  blen data <= cap -> cap < 2 ^ 64 ->
  a_in a = le_encode 8 (blen data) ++ data ++ rest ->
  runs (recv_raw_blob cap l0) a (0, data, blen data) (a_set_in rest a).
Proof.
  intros Hc Hcap Ha. unfold recv_raw_blob.
  eapply runs_bind; [apply (runs_recv_fully_n a 8 _ _ Ha); len|]. cbn [negb].
  rewrite le_decode_encode_blen by (change (256 ^ Z.of_nat 8) with (2 ^ 64); lia).
  rewrite (proj2 (Z.ltb_ge _ _)) by lia.
  destruct (Z.ltb_spec 0 (blen data)).
  - eapply runs_bind; [eapply runs_recv_fully_n; [done|by rewrite to_nat_blen]|].
    apply runs_ret.
  - assert (data = []) as -> by (destruct data; [done|len]). apply runs_ret.
Qed.

Lemma runs_recv_raw_blob_oversized cap l0 n rest a :
  0 <= n < 2 ^ 64 -> cap < n ->
  a_in a = le_encode 8 n ++ rest ->
  runs (recv_raw_blob cap l0) a (1, [], l0) (a_set_in rest a).
Proof.
  intros Hn Hcap Ha. unfold recv_raw_blob.
  eapply runs_bind; [apply (runs_recv_fully_n a 8 _ _ Ha); len|]. cbn [negb].
  rewrite le_decode_encode, Z.mod_small by done.
  rewrite (proj2 (Z.ltb_lt _ _)) by lia. apply runs_ret.
Qed.

(** *** Nothing is stored beyond the length asked for *)

Lemma recv_length len (w : world) rc bs w' :
  recv len w = Ok (rc, bs) w' ->
  (length bs <= len)%nat /\ (0 < rc -> length bs = Z.to_nat rc).
Proof.
  unfold recv. destruct (w_in w) as [|[d|e] evs]; intros H.
  - injection H as <- <- <-. simpl. lia.
  - destruct (Nat.leb_spec (length d) len); injection H as <- <- <-;
      rewrite ?length_take; unfold blen; lia.
  - injection H as <- <- <-. simpl. lia.
Qed.

Lemma recv_loop_length fuel : forall len got (w : world) ok all w',
  recv_loop fuel len got w = Ok (ok, all) w' ->
  exists bs, all = got ++ bs /\ (length bs <= len)%nat /\
    (ok = true -> length bs = len).
Proof.
  induction fuel as [|fuel IH]; intros len got w ok all w' H.
  all: destruct len as [|len];
    [rewrite recv_loop_0 in H; injection H as <- <- <-; exists [];
     by rewrite app_nil_r|].
  - done.
  - rewrite recv_loop_unfold in H. apply bind_Ok_inv in H as ([rc bs] & w1 & Hr & H).
    apply recv_length in Hr as [Hl Hrc]. destruct (Z.leb_spec rc 0).
    + unfold mbind, M_bind, gets in H. destruct (_ =? _); [by apply IH in H|].
      injection H as <- <- <-. exists []. rewrite app_nil_r. simpl.
      split_and!; [done|lia|done].
    + apply IH in H as (bs' & -> & ? & Hok). exists (bs ++ bs').
      rewrite app_assoc, length_app. split_and!; [done|lia|].
      intros ->. specialize (Hok eq_refl). lia.
Qed.

Lemma recv_fully_length len (w : world) ok bs w' :
  recv_fully len w = Ok (ok, bs) w' ->
  (length bs <= len)%nat /\ (ok = true -> length bs = len).
Proof.
  intros H. apply recv_loop_length in H as (bs' & E & ?). simpl in E. by subst.
Qed.

Lemma recv_raw_blob_length cap l0 (w : world) rc bs n w' :
  0 <= cap ->
  recv_raw_blob cap l0 w = Ok (rc, bs, n) w' ->
  blen bs <= cap /\ (rc = 0 -> n = blen bs).
Proof.
  intros Hcap H. unfold recv_raw_blob in H.
  apply bind_Ok_inv in H as ([ok nb] & w1 & Hr & H).
  destruct ok; simpl in H; [|injection H as <- <- <- <-; by rewrite blen_nil].
  pose proof (le_decode_range nb).
  destruct (Z.ltb_spec cap (le_decode nb)); [injection H as <- <- <- <-; by rewrite blen_nil|].
  destruct (Z.ltb_spec 0 (le_decode nb)).
  - apply bind_Ok_inv in H as ([ok2 bs2] & w2 & Hr2 & H).
    apply recv_fully_length in Hr2 as [Hl Hok].
    destruct ok2; injection H as <- <- <- <-; [specialize (Hok eq_refl)|];
      unfold blen; split; try lia; done.
  - injection H as <- <- <- <-. rewrite blen_nil. split; lia.
Qed.

End net_theorems.

#[export] Hint Resolve runs_recv_fully_n runs_send_raw_blob : mefsc.

(** ** Properties *)

Section net_properties.
Context {SO : Sodium}.

Lemma recv_loop_fuel evs : forall (w : world) len got f1 f2,
  w_in w = evs -> (length evs < f1)%nat -> (length evs < f2)%nat ->
  recv_loop f1 len got w = recv_loop f2 len got w.
Proof.
  induction evs as [|ev evs IH]; intros w len got f1 f2 Hw H1 H2.
  all: destruct len as [|len]; [by rewrite !recv_loop_0|].
  all: destruct f1 as [|f1], f2 as [|f2]; simpl in *; try lia.
  - destruct (decide (w_errno w = EINTR)).
    + by rewrite !recv_loop_closed_eintr.
    + rewrite !recv_loop_unfold. unfold mbind, M_bind, recv, gets. rewrite Hw. simpl.
      by rewrite (proj2 (Z.eqb_neq _ _)).
  - destruct ev as [bs|e].
    + destruct (decide (bs = [])) as [->|Hne].
      * rewrite !recv_loop_unfold. unfold mbind, M_bind, recv, gets. rewrite Hw. simpl.
        destruct (_ =? EINTR); [|done]. apply IH; simpl; auto; lia.
      * rewrite !(recv_loop_data bs evs) by done.
        destruct (_ <=? _)%nat; [|done]. apply IH; simpl; auto; lia.
    + rewrite !recv_loop_unfold. unfold mbind, M_bind, recv, gets. rewrite Hw. simpl.
      destruct (e =? EINTR); [|done]. apply IH; simpl; auto; lia.
Qed.

(** [recv_fully] is exact.  Whatever the pieces in which the kernel hands
    out the incoming bytes and however often a signal interrupts [recv], asking
    for the first [length bs] bytes of the stream returns [true] with exactly
    those bytes stored, and leaves the rest of the stream and everything else
    unchanged. *)
Theorem recv_fully_exact (a : aworld) (bs rest : bytes) :
  a_in a = bs ++ rest ->
  runs (recv_fully (length bs)) a (true, bs) (a_set_in rest a).
Proof. apply runs_recv_fully. Qed.

(** Without an interrupted call [recv_fully] always returns, on every
    connection, errors, timeouts and a peer that closes included: with [true]
    and exactly [len] bytes, or with [false] and fewer. *)
Theorem recv_fully_returns (w : world) (len : nat) :
  Forall quiet_event (w_in w) -> w_errno w <> EINTR ->
  exists ok bs w', recv_fully len w = Ok (ok, bs) w' /\
    if ok then length bs = len else (length bs < len)%nat.
Proof.
  intros Hq He.
  destruct (recv_loop_quiet (w_in w) w (S (length (w_in w))) len [])
    as (ok & bs & w' & E & Hl & _); auto.
  by exists ok, bs, w'.
Qed.

(** The loop of [recv_fully] is bounded by the number of events of the
    connection: running it with any larger bound gives the same outcome, so an
    outcome of [Diverge] means that the C++ loop really never ends. *)
Theorem recv_fully_bound_enough (w : world) (len k : nat) :
  recv_loop (S (length (w_in w)) + k) len [] w = recv_fully len w.
Proof. apply (recv_loop_fuel (w_in w)); [done|lia|lia]. Qed.

Lemma recv_loop_spins evs : forall (w : world) fuel len got,
  w_in w = evs -> Forall good_event evs -> (length (stream evs) < len)%nat ->
  w_errno w = EINTR \/ RErr EINTR ∈ evs -> recv_loop fuel len got w = Diverge.
Proof.
  induction evs as [|ev evs IH]; intros w fuel [|len] got Hw Hg Hl He; try lia.
  - destruct He as [He|He]; [by apply recv_loop_closed_eintr|by apply elem_of_nil in He].
  - apply Forall_cons in Hg as [Hev Hg]. destruct fuel as [|fuel]; [done|].
    destruct ev as [bs|e]; simpl in Hev.
    + change (stream (RData bs :: evs)) with (bs ++ stream evs) in Hl. rewrite length_app in Hl.
      rewrite (recv_loop_data bs evs), (proj2 (Nat.leb_le _ _)) by (done || lia).
      apply IH; [done|done|lia|]. destruct He as [He|He]; [by left|right].
      by apply elem_of_cons in He as [?|?].
    + subst. rewrite (recv_loop_eintr evs) by done. apply IH; [done|done|exact Hl|by left].
Qed.

(** C32: A stale [errno] makes [recv_fully] spin.  [recv] returning 0 does not
    set [errno], but the loop tests it: when the peer closes the connection
    before all bytes arrived (some may have), and a signal has interrupted one of
    these calls of [recv] or [errno] still holds [EINTR] from before, the loop
    never ends, whatever the number of iterations allowed. *)
Theorem recv_fully_spins_on_stale_eintr (w : world) (len fuel : nat) (got : bytes) :
  Forall good_event (w_in w) -> (length (stream (w_in w)) < len)%nat ->
  w_errno w = EINTR \/ RErr EINTR ∈ w_in w ->
  recv_loop fuel len got w = Diverge /\ recv_fully len w = Diverge.
Proof. intros Hg Hl He. split; by apply (recv_loop_spins (w_in w)). Qed.

(** Raw blobs round trip: what [send_raw_blob] puts on the wire,
    [recv_raw_blob] reads back from any segmentation of it, with its length,
    consuming exactly the blob, for every blob up to the receiver's capacity. *)
Theorem raw_blob_roundtrip (data : bytes) (cap l0 : Z) (snd : aworld) :
  blen data <= cap -> cap < 2 ^ 64 ->
  exists sent,
    runs (send_raw_blob data) snd 0 (a_set_out (a_out snd ++ sent) snd) /\
    forall rcv rest, a_in rcv = sent ++ rest ->
      runs (recv_raw_blob cap l0) rcv (0, data, blen data) (a_set_in rest rcv).
Proof.
  intros Hc Hcap. exists (le_encode 8 (blen data) ++ data).
  split; [apply runs_send_raw_blob|]. intros rcv rest. rewrite <- app_assoc.
  by apply runs_recv_raw_blob.
Qed.

(** C26: [recv_raw_blob] is memory safe on every input: it never stores more
    than [cap] bytes, and when it succeeds the reported length is the number of
    bytes stored. *)
Theorem recv_raw_blob_within_capacity (w : world) (cap l0 rc n : Z) (bs : bytes) (w' : world) :
  0 <= cap -> recv_raw_blob cap l0 w = Ok (rc, bs, n) w' ->
  blen bs <= cap /\ (rc = 0 -> n = blen bs).
Proof. apply recv_raw_blob_length. Qed.

End net_properties.

(** ** Concrete runs *)

Section net_runs.
#[local] Existing Instance toy_sodium.

Definition demo_fs : fs := Fs [] ∅.

Definition demo_cin : cin := Cin [] false false.

Definition demo_world (evs : list recv_event) : world :=
  @World toy_sodium evs [] [] 0 demo_fs 0 demo_cin [] None.

Definition demo_aworld (i o : bytes) : aworld :=
  @AWorld toy_sodium i o demo_fs 0 demo_cin [].

Lemma recv_fully_exact_witness :
  runs (recv_fully 2) (demo_aworld (str "hello") []) (true, str "he")
    (demo_aworld (str "llo") []).
Proof.
  apply (recv_fully_exact (demo_aworld (str "hello") []) (str "he") (str "llo")).
  reflexivity.
Defined.

Lemma recv_fully_returns_witness :
  exists ok bs w', recv_fully 9 (demo_world [RData (str "hel"); RErr EAGAIN]) = Ok (ok, bs) w' /\
    if ok then length bs = 9%nat else (length bs < 9)%nat.
Proof.
  apply (recv_fully_returns (demo_world [RData (str "hel"); RErr EAGAIN]) 9).
  - repeat constructor. discriminate.
  - discriminate.
Defined.

(** Three bytes of eight arrive, with an interruption between them. *)
Lemma recv_fully_spins_witness :
  let w := demo_world [RData (str "ab"); RErr EINTR; RData (str "c")] in
  recv_loop 1000 8 [] w = Diverge /\ recv_fully 8 w = Diverge.
Proof.
  intros w. apply (recv_fully_spins_on_stale_eintr w 8 1000 []).
  - repeat constructor; discriminate.
  - simpl. lia.
  - right. apply elem_of_cons. right. by apply elem_of_cons; left.
Defined.

Lemma raw_blob_roundtrip_witness :
  exists sent,
    runs (send_raw_blob (str "blob")) (demo_aworld [] []) 0 (demo_aworld [] sent) /\
    forall rcv rest, a_in rcv = sent ++ rest ->
      runs (recv_raw_blob 10 0) rcv (0, str "blob", 4) (a_set_in rest rcv).
Proof.
  apply (raw_blob_roundtrip (str "blob") 10 0 (demo_aworld [] []));
    [vm_compute; discriminate|reflexivity].
Defined.

Lemma recv_raw_blob_within_capacity_witness :
  let w := demo_world [RData (le_encode 8 2 ++ str "ok")] in
  exists w', recv_raw_blob 4 0 w = Ok (0, str "ok", 2) w' /\
    (blen (str "ok") <= 4 /\ (0 = 0 -> 2 = blen (str "ok"))).
Proof.
  intros w.
  destruct (result_of_Ok (recv_raw_blob 4 0 w) (0, str "ok", 2)) as [w' E];
    [vm_compute; reflexivity|].
  exists w'. split; [exact E|].
  apply (recv_raw_blob_within_capacity w 4 0 0 2 (str "ok") w'); [lia|exact E].
Defined.

End net_runs.
