(* ===== verification/SessionEnc.v ===== *)
(** Session encryption: [encrypt_stream_buffer] of
    src/encryption_utils/encryption_utils.cpp, the class [SessionEncWrapper] of
    include/common/SessionEnc.h and src/encryption_utils/SessionEnc.cpp, and the
    key exchange ([server_crypt_gen], [client_crypt_gen]).

    A message travels as [length (8 bytes)][nonce (8 bytes)][ciphertext]; the
    nonce is the sender's, incremented once before each message.  The theorems
    say that a message unwraps to what was wrapped and consumes exactly its own
    bytes, that [unwrap] writes only inside the caller's buffer and what each
    of its error codes means (the length check included, whose subtraction
    wraps around), that the nonces of a sender that carries its nonce on do not
    repeat, and that both sides of a key exchange end with matching keys.

    The lines this code writes to [std::cout] (in encryption_utils.cpp) are left
    out: [w_stdout] holds the output of client.cpp. *)

From S2P Require Import Prelude Sodium Constants Fs Terminal World Net.

Inductive wrap_types := READER | SENDER.

#[export] Instance wrap_types_eq_dec : EqDecision wrap_types.
Proof. solve_decision. Defined.

(** [session_encrypted_data] holds the bytes of the array that have been
    written; the array has room for [stream_chunk_size]. *)
Record SessionEncWrapper := SEW {
  corrupted : bool;
  session_encrypted_data : bytes;
  sew_nonce : bytes;
  session_encrypted_data_length : Z;
  enc_wrap_type : wrap_types
}.

Definition set_corrupted (w : SessionEncWrapper) : SessionEncWrapper :=
  SEW true (session_encrypted_data w) (sew_nonce w) (session_encrypted_data_length w)
    (enc_wrap_type w).

Definition is_corrupted (w : SessionEncWrapper) : bool := corrupted w.
Definition get_data_length (w : SessionEncWrapper) : Z := session_encrypted_data_length w.

Section sessionenc.
Context {SO : Sodium} {EN : Env}.

(** The return code, the nonce after the call, and the ciphertext if one was
    written. *)
Definition encrypt_stream_buffer (tx nonce message : bytes) : Z * bytes * option bytes :=
  let nonce' := sodium_increment nonce in
  match aead_encrypt tx nonce' message with
  | None => (1, nonce', None)
  | Some c => (0, nonce', Some c)
  end.

(** The constructor for writers; also returns the caller's nonce, which the
    call increments.  A ciphertext that does not fit the member array is
    written past its end. *)
Definition SessionEncWrapper_sender (data tx nonce : bytes) : IO (SessionEncWrapper * bytes) :=
  let '(rc, nonce', ct) := encrypt_stream_buffer tx nonce data in
  match ct with
  | None =>
      mret (SEW true [] (indet "SessionEncWrapper::nonce" crypto_aead_chacha20poly1305_NPUBBYTES)
              0 SENDER, nonce')
  | Some c =>
      if stream_chunk_size <? blen c then undefined OutOfBounds
      else mret (SEW false c nonce' (blen c) SENDER, nonce')
  end.

(** The constructor for readers. *)
Definition SessionEncWrapper_reader : IO SessionEncWrapper :=
  let junk := indet "SessionEncWrapper::nonce" crypto_aead_chacha20poly1305_NPUBBYTES in
  r1 ← recv_fully sizeof_ull;
  let '(ok1, lenb) := r1 in
  let len := le_decode (overwrite (indet "session_encrypted_data_length" sizeof_ull) lenb) in
  if negb ok1 then mret (SEW true [] junk len READER) else
  if stream_chunk_size <? len then mret (SEW true [] junk len READER) else
  r2 ← recv_fully crypto_aead_chacha20poly1305_NPUBBYTES;
  let '(ok2, n) := r2 in
  if negb ok2 then mret (SEW true [] (overwrite junk n) len READER) else
  r3 ← recv_fully (Z.to_nat len);
  let '(ok3, data) := r3 in
  if negb ok3 then mret (SEW true data n len READER) else
  mret (SEW false data n len READER).

(** [unwrap]: the return code, the wrapper after the call, the contents of
    [decrypted_data] and the value of [*decrypted_data_len]. *)
Definition unwrap (w : SessionEncWrapper) (rx : bytes) (decrypted_data_capacity : Z)
    (decrypted_data : bytes) (decrypted_data_len : Z)
    : Z * SessionEncWrapper * bytes * Z :=
  if bool_decide (enc_wrap_type w <> READER) then
    (-1, w, decrypted_data, decrypted_data_len) else
  if corrupted w then (4, w, decrypted_data, decrypted_data_len) else
  let n := u64 (session_encrypted_data_length w - crypto_aead_chacha20poly1305_ABYTES) in
  if stream_chunk_size <? n then (3, w, decrypted_data, decrypted_data_len) else
  if decrypted_data_capacity <? n then
    (2, set_corrupted w, decrypted_data, decrypted_data_len) else
  match aead_decrypt rx (sew_nonce w) (session_encrypted_data w) with
  | None =>
      let '(m, mlen) := aead_reject rx (sew_nonce w) (session_encrypted_data w) in
      (1, set_corrupted w, overwrite decrypted_data m, mlen)
  | Some m => (0, w, overwrite decrypted_data m, blen m)
  end.

Definition SessionEncWrapper_destroy (w : SessionEncWrapper) : SessionEncWrapper :=
  SEW (corrupted w) (sodium_memzero (session_encrypted_data w))
    (sodium_memzero (sew_nonce w)) 0 (enc_wrap_type w).

Definition send_data (w : SessionEncWrapper) : IO Z :=
  if bool_decide (enc_wrap_type w <> SENDER) then mret (-1)
  else send (take (Z.to_nat (session_encrypted_data_length w)) (session_encrypted_data w)).

Definition send_nonce (w : SessionEncWrapper) : IO Z :=
  if bool_decide (enc_wrap_type w <> SENDER) then mret (-1)
  else send (sew_nonce w).

Definition send_data_length (w : SessionEncWrapper) : IO Z :=
  if bool_decide (enc_wrap_type w <> SENDER) then mret (-1)
  else send (le_encode sizeof_ull (session_encrypted_data_length w)).

Definition send_all (w : SessionEncWrapper) : IO Z :=
  if bool_decide (enc_wrap_type w <> SENDER) then mret (-1)
  else send (le_encode sizeof_ull (session_encrypted_data_length w) ++ sew_nonce w
             ++ take (Z.to_nat (session_encrypted_data_length w)) (session_encrypted_data w)).

(** The sequence every caller uses to send [data]: construct a wrapper for
    writers and [send_all] it, ignoring its result.  Returns the new nonce. *)
Definition wrap_and_send (data tx nonce : bytes) : IO bytes :=
  r ← SessionEncWrapper_sender data tx nonce;
  let '(w, nonce') := r in
  _ ← send_all w;
  mret nonce'.

(** ** Key exchange

    The empty lines both functions write to [std::cout] are not part of
    [w_stdout], which holds what client.cpp prints. *)

Definition server_crypt_gen (server_rx server_tx : bytes)
    : IO (Z * bytes * bytes * bytes * bytes) :=
  kp ← crypto_kx_keypair;
  let '(server_pk, server_sk) := kp in
  _ ← send server_pk;
  r ← recv_fully crypto_kx_PUBLICKEYBYTES;
  let '(ok, client_pk) := r in
  if negb ok then mret (2, server_pk, server_sk, server_rx, server_tx) else
  match kx_server_session_keys server_pk server_sk client_pk with
  | None => mret (1, server_pk, server_sk, server_rx, server_tx)
  | Some (rx, tx) => mret (0, server_pk, server_sk, rx, tx)
  end.

Definition client_crypt_gen (client_rx client_tx : bytes)
    : IO (Z * bytes * bytes * bytes * bytes) :=
  kp ← crypto_kx_keypair;
  let '(client_pk, client_sk) := kp in
  _ ← send client_pk;
  r ← recv_fully crypto_kx_PUBLICKEYBYTES;
  let '(ok, server_pk) := r in
  if negb ok then mret (2, client_pk, client_sk, client_rx, client_tx) else
  match kx_client_session_keys client_pk client_sk server_pk with
  | None => mret (1, client_pk, client_sk, client_rx, client_tx)
  | Some (rx, tx) => mret (0, client_pk, client_sk, rx, tx)
  end.

End sessionenc.

Section sessionenc_lemmas.
Context {SO : Sodium} {EN : Env} {SL : SodiumLaws SO} {EL : EnvLaws EN}.

(** ** The wire format *)

(** The ciphertext of [m] under an already incremented nonce. *)
Definition seal (tx nonce m : bytes) : bytes :=
  match aead_encrypt tx nonce m with Some c => c | None => [] end.

(** The bytes of one message, sent with the caller's nonce [nonce]. *)
Definition wire (tx nonce m : bytes) : bytes :=
  let nonce' := sodium_increment nonce in
  le_encode sizeof_ull (blen (seal tx nonce' m)) ++ nonce' ++ seal tx nonce' m.

(** The wrapper a reader builds from [wire tx nonce m]. *)
Definition sealed (tx nonce m : bytes) : SessionEncWrapper :=
  let nonce' := sodium_increment nonce in
  SEW false (seal tx nonce' m) nonce' (blen (seal tx nonce' m)) READER.

Lemma aead_encrypt_seal tx nonce m : aead_encrypt tx nonce m = Some (seal tx nonce m).
Proof. unfold seal. by destruct (aead_encrypt_total tx nonce m) as [c ->]. Qed.

Lemma blen_seal tx nonce m :
  blen (seal tx nonce m) = blen m + crypto_aead_chacha20poly1305_ABYTES.
Proof. eapply length_aead_encrypt, aead_encrypt_seal. Qed.

Lemma runs_sender data tx nonce a :
  blen data <= FILE_ENCRYPTED_CHUNK_SIZE ->
  let n' := sodium_increment nonce in
  runs (SessionEncWrapper_sender data tx nonce) a
    (SEW false (seal tx n' data) n' (blen (seal tx n' data)) SENDER, n') a.
Proof.
  intros Hd n'. unfold SessionEncWrapper_sender, encrypt_stream_buffer.
  rewrite aead_encrypt_seal.
  rewrite (proj2 (Z.ltb_ge _ _)) by (rewrite blen_seal; consts; lia). apply runs_ret.
Qed.

Lemma runs_wrap_and_send data tx nonce a :
  blen data <= FILE_ENCRYPTED_CHUNK_SIZE ->
  runs (wrap_and_send data tx nonce) a (sodium_increment nonce)
    (a_set_out (a_out a ++ wire tx nonce data) a).
Proof.
  intros Hd. unfold wrap_and_send. eapply runs_bind; [by apply runs_sender|].
  eapply runs_bind; [|apply runs_ret]. unfold send_all, wire. simpl enc_wrap_type.
  rewrite bool_decide_eq_false_2 by (intros H; by apply H).
  cbn [session_encrypted_data_length session_encrypted_data sew_nonce].
  rewrite to_nat_blen, firstn_all. apply runs_send.
Qed.

(** Any message of a bearable length is read as it is. *)
Lemma runs_reader_raw ct nn rest a :
  blen ct <= stream_chunk_size -> length nn = crypto_aead_chacha20poly1305_NPUBBYTES ->
  a_in a = le_encode sizeof_ull (blen ct) ++ nn ++ ct ++ rest ->
  runs SessionEncWrapper_reader a (SEW false ct nn (blen ct) READER) (a_set_in rest a).
Proof.
  intros Hc Hn Ha. unfold SessionEncWrapper_reader.
  eapply runs_bind; [apply (runs_recv_fully_n a _ _ _ Ha); by rewrite length_le_encode|].
  rsimpl. rewrite overwrite_full by (by rewrite length_le_encode, length_indet).
  rewrite le_decode_encode_blen by (consts; change (256 ^ Z.of_nat 8) with (2 ^ 64); lia).
  rewrite (proj2 (Z.ltb_ge _ _)) by done. rsimpl.
  eapply runs_bind; [by eapply runs_recv_fully_n|].
  rsimpl. eapply runs_bind; [eapply runs_recv_fully_n; [done|by rewrite to_nat_blen]|].
  apply runs_ret.
Qed.

Lemma runs_reader tx nonce m rest a :
  blen m <= FILE_ENCRYPTED_CHUNK_SIZE ->
  length nonce = crypto_aead_chacha20poly1305_NPUBBYTES ->
  a_in a = wire tx nonce m ++ rest ->
  runs SessionEncWrapper_reader a (sealed tx nonce m) (a_set_in rest a).
Proof.
  intros Hm Hn Ha. unfold wire in Ha. rewrite <- !app_assoc in Ha.
  apply runs_reader_raw; [rewrite blen_seal; consts; lia|by rewrite length_increment|done].
Qed.

Lemma blen_sealed_u64 tx nonce m :
  blen m < 2 ^ 64 ->
  u64 (session_encrypted_data_length (sealed tx nonce m)
       - crypto_aead_chacha20poly1305_ABYTES) = blen m.
Proof.
  intros Hm. pose proof (blen_nonneg m). simpl. rewrite blen_seal.
  rewrite Z.add_simpl_r. by apply u64_small.
Qed.

Lemma unwrap_sealed tx nonce m cap buf l0 :
  blen m <= FILE_ENCRYPTED_CHUNK_SIZE -> blen m <= cap ->
  unwrap (sealed tx nonce m) tx cap buf l0 = (0, sealed tx nonce m, overwrite buf m, blen m).
Proof.
  intros Hm Hc. unfold unwrap.
  rewrite bool_decide_eq_false_2 by (simpl; intros H; by apply H).
  rewrite blen_sealed_u64 by (consts; lia).
  rewrite !(proj2 (Z.ltb_ge _ _)) by (consts; lia). simpl.
  by rewrite (aead_decrypt_encrypt _ _ m) by apply aead_encrypt_seal.
Qed.

Lemma unwrap_sealed_too_long tx nonce m cap buf l0 :
  blen m <= FILE_ENCRYPTED_CHUNK_SIZE -> cap < blen m ->
  unwrap (sealed tx nonce m) tx cap buf l0 = (2, set_corrupted (sealed tx nonce m), buf, l0).
Proof.
  intros Hm Hc. unfold unwrap.
  rewrite bool_decide_eq_false_2 by (simpl; intros H; by apply H).
  rewrite blen_sealed_u64 by (consts; lia).
  rewrite (proj2 (Z.ltb_ge stream_chunk_size _)) by (consts; lia).
  by rewrite (proj2 (Z.ltb_lt _ _)).
Qed.

Lemma not_corrupted_sealed tx nonce m : is_corrupted (sealed tx nonce m) = false.
Proof. done. Qed.

(** ** Every wrapper a reader builds is consistent *)

(** What [unwrap] may rely on: an intact reader holds as many bytes as its
    length field says, at most [stream_chunk_size]. *)
Definition reader_wf (w : SessionEncWrapper) : Prop :=
  enc_wrap_type w = READER /\
  (corrupted w = false ->
     session_encrypted_data_length w = blen (session_encrypted_data w) /\
     blen (session_encrypted_data w) <= stream_chunk_size).

Lemma reader_reader_wf (w : world) s w' :
  SessionEncWrapper_reader w = Ok s w' -> reader_wf s.
Proof.
  unfold SessionEncWrapper_reader. intros H.
  apply bind_Ok_inv in H as ([ok1 lb] & w1 & _ & H).
  set (len := le_decode _) in H.
  assert (0 <= len) by (pose proof (le_decode_range (overwrite (indet "session_encrypted_data_length" sizeof_ull) lb)); unfold len; lia).
  destruct ok1; cbn [negb] in H; [|by injection H as <- <-].
  destruct (Z.ltb_spec stream_chunk_size len); [by injection H as <- <-|].
  apply bind_Ok_inv in H as ([ok2 nb] & w2 & _ & H).
  destruct ok2; cbn [negb] in H; [|by injection H as <- <-].
  apply bind_Ok_inv in H as ([ok3 d] & w3 & Hr & H).
  apply recv_fully_length in Hr as [_ Hr].
  destruct ok3; cbn [negb] in H; [|by injection H as <- <-].
  injection H as <- <-. split; [done|]. intros _. simpl.
  specialize (Hr eq_refl). unfold blen. lia.
Qed.

Lemma unwrap_length w rx cap buf l0 rc w' buf' l' :
  reader_wf w -> cap <= blen buf ->
  unwrap w rx cap buf l0 = (rc, w', buf', l') ->
  length buf' = length buf /\ (rc = 0 -> 0 <= l' <= cap /\ exists m, buf' = overwrite buf m /\ blen m = l').
Proof.
  intros [Ht Hw] Hcap. unfold unwrap. rewrite Ht.
  rewrite bool_decide_eq_false_2 by (intros H; by apply H).
  destruct (corrupted w); [by intros [= <- <- <- <-]|]. destruct (Hw eq_refl) as [Hl Hs].
  destruct (Z.ltb_spec stream_chunk_size
    (u64 (session_encrypted_data_length w - crypto_aead_chacha20poly1305_ABYTES)));
    [by intros [= <- <- <- <-]|].
  destruct (Z.ltb_spec cap
    (u64 (session_encrypted_data_length w - crypto_aead_chacha20poly1305_ABYTES)));
    [by intros [= <- <- <- <-]|].
  pose proof (blen_nonneg (session_encrypted_data w)).
  assert (crypto_aead_chacha20poly1305_ABYTES <= blen (session_encrypted_data w)).
  { rewrite Hl in *. destruct (decide (blen (session_encrypted_data w) < 16)); [|consts; lia].
    unfold u64 in *. rewrite <- (Z.mod_add _ 1) in * by lia.
    rewrite Z.mod_small in * by (consts; lia). consts; lia. }
  rewrite Hl, u64_small in * by (consts; lia).
  destruct (aead_decrypt _ _ _) as [m|] eqn:E.
  - apply length_aead_decrypt in E. intros [= <- <- <- <-].
    split; [apply length_overwrite; unfold blen in *; lia|].
    intros _. split; [pose proof (blen_nonneg m); consts; lia|by exists m].
  - pose proof (length_aead_reject rx (sew_nonce w) (session_encrypted_data w)) as Hr.
    destruct (aead_reject _ _ _) as [m ml]. intros [= <- <- <- <-]. simpl in Hr.
    split; [apply length_overwrite; unfold blen in *; consts; lia|done].
Qed.

End sessionenc_lemmas.

#[export] Hint Resolve runs_wrap_and_send runs_reader : mefsc.

(** ** Properties *)

Section sessionenc_properties.
Context {SO : Sodium} {EN : Env} {SL : SodiumLaws SO} {EL : EnvLaws EN}.

(** C10: Session messages round trip.  What [wrap_and_send] puts on the wire for
    a message of up to [FILE_ENCRYPTED_CHUNK_SIZE] bytes is read, from any
    segmentation, by the reader's constructor, which consumes exactly this
    message; [unwrap] with the peer's key then yields the message when the
    caller's capacity allows it, and otherwise returns 2 and writes nothing. *)
Theorem session_roundtrip (m tx nonce buf : bytes) (cap l0 : Z) (snd : aworld) :
  blen m <= FILE_ENCRYPTED_CHUNK_SIZE ->
  length nonce = crypto_aead_chacha20poly1305_NPUBBYTES ->
  exists sent,
    runs (wrap_and_send m tx nonce) snd (sodium_increment nonce)
      (a_set_out (a_out snd ++ sent) snd) /\
    forall rcv rest, a_in rcv = sent ++ rest ->
      exists w, runs SessionEncWrapper_reader rcv w (a_set_in rest rcv) /\
        is_corrupted w = false /\
        (blen m <= cap -> unwrap w tx cap buf l0 = (0, w, overwrite buf m, blen m)) /\
        (cap < blen m -> unwrap w tx cap buf l0 = (2, set_corrupted w, buf, l0)).
Proof.
  intros Hm Hn. exists (wire tx nonce m). split; [by apply runs_wrap_and_send|].
  intros rcv rest Hr. exists (sealed tx nonce m). split; [by apply runs_reader|].
  split; [done|]. split; intros; [by apply unwrap_sealed|by apply unwrap_sealed_too_long].
Qed.

(** C17: [unwrap] is memory safe on every message a peer can send: for every
    wrapper the reader's constructor returns and every buffer at least as large
    as the given capacity, the buffer keeps its size (nothing is written past
    it), and a successful call reports a length within the capacity. *)
Theorem unwrap_in_bounds (w0 : world) (s : SessionEncWrapper) (w1 : world)
    (rx buf : bytes) (cap l0 : Z) :
  SessionEncWrapper_reader w0 = Ok s w1 -> cap <= blen buf ->
  let '(rc, _, buf', l') := unwrap s rx cap buf l0 in
  length buf' = length buf /\ (rc = 0 -> 0 <= l' <= cap).
Proof.
  intros Hs Hcap. apply reader_reader_wf in Hs.
  destruct (unwrap s rx cap buf l0) as [[[rc s'] buf'] l'] eqn:E.
  destruct (unwrap_length _ _ _ _ _ _ _ _ _ Hs Hcap E) as [? H]. split; [done|].
  intros Hrc. by destruct (H Hrc).
Qed.

(** A message too short to hold an authentication tag is refused with code
    3: the subtraction of the tag size wraps around to a huge length, which the
    first check catches.  Nothing is written, and the wrapper is not marked
    corrupted. *)
Theorem unwrap_short_message (s : SessionEncWrapper) (rx buf : bytes) (cap l0 : Z) :
  reader_wf s -> corrupted s = false ->
  blen (session_encrypted_data s) < crypto_aead_chacha20poly1305_ABYTES ->
  unwrap s rx cap buf l0 = (3, s, buf, l0).
Proof.
  intros [Ht Hw] Hc Hl. destruct (Hw Hc) as [Hlen _].
  pose proof (blen_nonneg (session_encrypted_data s)).
  unfold unwrap. rewrite Ht, Hc, Hlen.
  rewrite bool_decide_eq_false_2 by (intros H0; by apply H0).
  rewrite (proj2 (Z.ltb_lt _ _)); [done|].
  unfold u64. rewrite <- (Z.mod_add _ 1) by lia.
  rewrite Z.mod_small by (consts; lia). consts; lia.
Qed.

(** A length field above [stream_chunk_size] is refused before the nonce or
    any data is read: the wrapper is corrupted, only the 8 bytes of the length
    are consumed, and [unwrap] returns 4 without touching the buffer. *)
Theorem reader_refuses_oversized (a : aworld) (n : Z) (rest rx buf : bytes) (cap l0 : Z) :
  stream_chunk_size < n < 2 ^ 64 -> a_in a = le_encode sizeof_ull n ++ rest ->
  exists s, runs SessionEncWrapper_reader a s (a_set_in rest a) /\
    is_corrupted s = true /\ unwrap s rx cap buf l0 = (4, s, buf, l0).
Proof.
  intros Hn Ha. eexists. split; [|split].
  - unfold SessionEncWrapper_reader.
    eapply runs_bind; [apply (runs_recv_fully_n a _ _ _ Ha); by rewrite length_le_encode|].
    rsimpl. rewrite overwrite_full by (by rewrite length_le_encode, length_indet).
    rewrite le_decode_encode, Z.mod_small
      by (consts; change (256 ^ Z.of_nat 8) with (2 ^ 64); lia).
    rewrite (proj2 (Z.ltb_lt _ _)) by lia. apply runs_ret.
  - done.
  - done.
Qed.

(** A sender that carries its nonce from each message to the next. *)
Fixpoint send_messages (tx nonce : bytes) (msgs : list bytes) : IO bytes :=
  match msgs with
  | [] => mret nonce
  | m :: msgs' => nonce ← wrap_and_send m tx nonce; send_messages tx nonce msgs'
  end.

(** The bytes on the wire of the ciphertext [c] made under the nonce [n]. *)
Definition frame (nc : bytes * bytes) : bytes :=
  le_encode sizeof_ull (blen (snd nc)) ++ fst nc ++ snd nc.

(** The nonces and ciphertexts of the messages, and the nonce after them. *)
Fixpoint frames_of (tx nonce : bytes) (msgs : list bytes) : list (bytes * bytes) :=
  match msgs with
  | [] => []
  | m :: msgs' =>
      let nonce' := sodium_increment nonce in
      (nonce', seal tx nonce' m) :: frames_of tx nonce' msgs'
  end.

Fixpoint last_nonce (nonce : bytes) (msgs : list bytes) : bytes :=
  match msgs with [] => nonce | _ :: msgs' => last_nonce (sodium_increment nonce) msgs' end.

Lemma runs_send_messages tx msgs : forall nonce a,
  Forall (fun m => blen m <= FILE_ENCRYPTED_CHUNK_SIZE) msgs ->
  runs (send_messages tx nonce msgs) a (last_nonce nonce msgs)
    (a_set_out (a_out a ++ concat (map frame (frames_of tx nonce msgs))) a).
Proof.
  induction msgs as [|m msgs IH]; intros nonce a Hm; cbn [send_messages frames_of map concat].
  - eapply runs_conv; [apply runs_ret|done|]. rewrite app_nil_r. by destruct a.
  - apply Forall_cons in Hm as [Hm Hms]. eapply runs_bind; [by apply runs_wrap_and_send|].
    eapply runs_conv; [by apply IH|done|]. unfold a_set_out, wire, frame.
    cbn [a_out a_in a_fs a_rng a_stdin a_stdout fst snd]. by rewrite <- !app_assoc.
Qed.

Lemma frames_of_encrypt tx msgs : forall nonce,
  Forall2 (fun m nc => aead_encrypt tx (fst nc) m = Some (snd nc)) msgs (frames_of tx nonce msgs).
Proof. induction msgs as [|m msgs IH]; constructor; [apply aead_encrypt_seal|apply IH]. Qed.

Lemma frames_of_value tx msgs : forall nonce n,
  n ∈ map fst (frames_of tx nonce msgs) ->
  exists k, 1 <= k <= Z.of_nat (length msgs) /\
    le_decode n = (le_decode nonce + k) mod 256 ^ blen nonce.
Proof.
  induction msgs as [|m msgs IH]; intros nonce n Hn; [by apply elem_of_nil in Hn|].
  cbn [frames_of map fst] in Hn. apply elem_of_cons in Hn as [->|Hn].
  - exists 1. rewrite increment_value. simpl length. split; [lia|done].
  - apply IH in Hn as (k & Hk & ->). exists (k + 1).
    replace (blen (sodium_increment nonce)) with (blen nonce)
      by (unfold blen; by rewrite length_increment).
    simpl length. split; [lia|]. rewrite increment_value.
    rewrite Zplus_mod_idemp_l. f_equal. lia.
Qed.

Lemma frames_of_NoDup tx msgs : forall nonce,
  length nonce = crypto_aead_chacha20poly1305_NPUBBYTES ->
  Z.of_nat (length msgs) <= 2 ^ 64 -> NoDup (map fst (frames_of tx nonce msgs)).
Proof.
  induction msgs as [|m msgs IH]; intros nonce Hn Hl; [constructor|].
  cbn [frames_of map fst]. simpl length in Hl.
  constructor; [|apply IH; [by rewrite length_increment|lia]].
  intros (k & Hk & E)%frames_of_value.
  replace (blen (sodium_increment nonce)) with 8 in E
    by (unfold blen; rewrite length_increment, Hn; done).
  change (256 ^ 8) with (2 ^ 64) in E.
  pose proof (le_decode_range (sodium_increment nonce)) as Hr.
  replace (256 ^ blen (sodium_increment nonce)) with (2 ^ 64) in Hr
    by (unfold blen; rewrite length_increment, Hn; done).
  rewrite <- (Z.mod_small _ _ Hr) in E at 1.
  assert ((2 ^ 64 | k)) as [q Hq]; [|nia].
  apply Z.mod_divide; [lia|].
  replace k with (le_decode (sodium_increment nonce) + k - le_decode (sodium_increment nonce)) by lia.
  rewrite Zminus_mod, <- E, Z.sub_diag. done.
Qed.

(** C23: A sender that carries its nonce from message to message never uses one
    twice.  From any starting nonce, what [wrap_and_send] puts on the wire for
    up to 2^64 successive messages is, for each message, the length, the nonce
    and the ciphertext that [aead_encrypt] makes of it under that very nonce, and
    these nonces are pairwise distinct (the counter would have to wrap around
    first).  This is how the client sends credentials, notices and intents and
    how both sides send a file; between requests the server starts again from a
    random nonce, which is not covered. *)
Theorem nonces_never_repeat (tx nonce : bytes) (msgs : list bytes) (a : aworld) :
  length nonce = crypto_aead_chacha20poly1305_NPUBBYTES ->
  Z.of_nat (length msgs) <= 2 ^ 64 ->
  Forall (fun m => blen m <= FILE_ENCRYPTED_CHUNK_SIZE) msgs ->
  exists sent nonce',
    runs (send_messages tx nonce msgs) a nonce'
      (a_set_out (a_out a ++ concat (map frame sent)) a) /\
    Forall2 (fun m nc => aead_encrypt tx (fst nc) m = Some (snd nc)) msgs sent /\
    NoDup (map fst sent).
Proof.
  intros Hn Hl Hm. exists (frames_of tx nonce msgs), (last_nonce nonce msgs).
  split_and!; [by apply runs_send_messages|apply frames_of_encrypt|by apply frames_of_NoDup].
Qed.

(** A key exchange in which the peer's public key arrives. *)
Lemma runs_client_crypt_gen jr jt pk sk r peer rx tx rest a :
  kx_keypair (a_rng a) = (pk, sk, r) -> length peer = crypto_kx_PUBLICKEYBYTES ->
  kx_client_session_keys pk sk peer = Some (rx, tx) -> a_in a = peer ++ rest ->
  runs (client_crypt_gen jr jt) a (0, pk, sk, rx, tx)
    (a_set_in rest (a_set_out (a_out a ++ pk) (a_set_rng r a))).
Proof.
  intros Hk Hl Hx Hi. unfold client_crypt_gen. rbind. rsimpl. rbind.
  eapply runs_bind; [by eapply runs_recv_fully_n|]. rsimpl. rewrite Hx. apply runs_ret.
Qed.

Lemma runs_server_crypt_gen jr jt pk sk r peer rx tx rest a :
  kx_keypair (a_rng a) = (pk, sk, r) -> length peer = crypto_kx_PUBLICKEYBYTES ->
  kx_server_session_keys pk sk peer = Some (rx, tx) -> a_in a = peer ++ rest ->
  runs (server_crypt_gen jr jt) a (0, pk, sk, rx, tx)
    (a_set_in rest (a_set_out (a_out a ++ pk) (a_set_rng r a))).
Proof.
  intros Hk Hl Hx Hi. unfold server_crypt_gen. rbind. rsimpl. rbind.
  eapply runs_bind; [by eapply runs_recv_fully_n|]. rsimpl. rewrite Hx. apply runs_ret.
Qed.

(** C18: Key exchange.  When each side reads the public key the other one sent,
    [client_crypt_gen] and [server_crypt_gen] both return 0, having sent their
    own public key, and the keys match crosswise: what the client sends under
    its [tx] the server receives under its [rx], and conversely. *)
Theorem key_exchange_agrees (c s : aworld) cpk csk rc spk ssk rs restc rests jc1 jc2 js1 js2 :
  kx_keypair (a_rng c) = (cpk, csk, rc) -> kx_keypair (a_rng s) = (spk, ssk, rs) ->
  a_in c = spk ++ restc -> a_in s = cpk ++ rests ->
  exists k1 k2,
    runs (client_crypt_gen jc1 jc2) c (0, cpk, csk, k1, k2)
      (a_set_in restc (a_set_out (a_out c ++ cpk) (a_set_rng rc c))) /\
    runs (server_crypt_gen js1 js2) s (0, spk, ssk, k2, k1)
      (a_set_in rests (a_set_out (a_out s ++ spk) (a_set_rng rs s))) /\
    length k1 = crypto_kx_SESSIONKEYBYTES /\ length k2 = crypto_kx_SESSIONKEYBYTES.
Proof.
  intros Hc Hs Hci Hsi.
  destruct (kx_agree _ _ _ _ _ _ _ _ Hc Hs) as (k1 & k2 & Ec & Es & Hl1 & Hl2).
  destruct (length_kx_keypair _ _ _ _ Hc) as [Hlc _].
  destruct (length_kx_keypair _ _ _ _ Hs) as [Hls _].
  exists k1, k2. split; [|split; [|done]].
  - by apply (runs_client_crypt_gen _ _ _ _ _ spk).
  - by apply (runs_server_crypt_gen _ _ _ _ _ cpk).
Qed.

End sessionenc_properties.

(** ** Concrete runs *)

Section sessionenc_runs.
#[local] Existing Instances toy_sodium toy_sodium_laws toy_env toy_env_laws.

Definition demo_key : bytes := le_encode 32 424242.
Definition demo_nonce : bytes := le_encode 8 7.

Lemma session_roundtrip_witness :
  exists sent,
    runs (wrap_and_send (str "secret") demo_key demo_nonce) (demo_aworld [] [])
      (sodium_increment demo_nonce) (demo_aworld [] sent) /\
    forall rcv rest, a_in rcv = sent ++ rest ->
      exists w, runs SessionEncWrapper_reader rcv w (a_set_in rest rcv) /\
        is_corrupted w = false /\
        (6 <= 10 -> unwrap w demo_key 10 (replicate 10 x00) 0 =
           (0, w, overwrite (replicate 10 x00) (str "secret"), 6)) /\
        (10 < 6 -> unwrap w demo_key 10 (replicate 10 x00) 0 =
           (2, set_corrupted w, replicate 10 x00, 0)).
Proof.
  apply (session_roundtrip (str "secret") demo_key demo_nonce (replicate 10 x00) 10 0
    (demo_aworld [] [])); [vm_compute; discriminate|reflexivity].
Defined.

Lemma unwrap_in_bounds_witness :
  let w := demo_world [RData (le_encode 8 20 ++ le_encode 8 1 ++ le_encode 20 99)] in
  exists s w1, SessionEncWrapper_reader w = Ok s w1 /\
    let '(rc, _, buf', l') := unwrap s demo_key 4 (replicate 4 x00) 0 in
    length buf' = 4%nat /\ (rc = 0 -> 0 <= l' <= 4).
Proof.
  intros w.
  destruct (result_of_Ok (SessionEncWrapper_reader w)
    (SEW false (le_encode 20 99) (le_encode 8 1) 20 READER)) as [w1 E];
    [vm_compute; reflexivity|].
  exists (SEW false (le_encode 20 99) (le_encode 8 1) 20 READER), w1. split; [exact E|].
  apply (unwrap_in_bounds w _ w1 demo_key (replicate 4 x00) 4 0 E). vm_compute. discriminate.
Defined.

Lemma unwrap_short_message_witness :
  let s := SEW false (str "tiny") demo_nonce 4 READER in
  unwrap s demo_key 8 (replicate 8 x00) 0 = (3, s, replicate 8 x00, 0).
Proof.
  apply unwrap_short_message.
  - split; [reflexivity|]. intros _. split; [reflexivity|vm_compute; discriminate].
  - reflexivity.
  - reflexivity.
Defined.

Lemma reader_refuses_oversized_witness :
  exists s, runs SessionEncWrapper_reader
      (demo_aworld (le_encode sizeof_ull 100000 ++ str "x") []) s (demo_aworld (str "x") []) /\
    is_corrupted s = true /\ unwrap s demo_key 8 [] 0 = (4, s, [], 0).
Proof.
  apply (reader_refuses_oversized (demo_aworld (le_encode sizeof_ull 100000 ++ str "x") [])
    100000 (str "x") demo_key [] 8 0); [split; reflexivity|reflexivity].
Defined.

Lemma nonces_never_repeat_witness :
  let msgs := [str "a"; str "b"; str "c"] in
  exists sent nonce',
    runs (send_messages demo_key demo_nonce msgs) (demo_aworld [] []) nonce'
      (a_set_out (concat (map frame sent)) (demo_aworld [] [])) /\
    Forall2 (fun m nc => aead_encrypt demo_key (fst nc) m = Some (snd nc)) msgs sent /\
    NoDup (map fst sent).
Proof.
  intros msgs. apply (nonces_never_repeat demo_key demo_nonce msgs (demo_aworld [] []));
    [reflexivity|vm_compute; discriminate|].
  repeat constructor; vm_compute; discriminate.
Defined.

Lemma key_exchange_agrees_witness :
  exists k1 k2,
    runs (client_crypt_gen [] []) (demo_aworld (le_encode 32 1000) [])
      (0, le_encode 32 1000, le_encode 32 0, k1, k2)
      (AWorld [] (le_encode 32 1000) demo_fs 1 demo_cin []) /\
    runs (server_crypt_gen [] []) (demo_aworld (le_encode 32 1000) [])
      (0, le_encode 32 1000, le_encode 32 0, k2, k1)
      (AWorld [] (le_encode 32 1000) demo_fs 1 demo_cin []) /\
    length k1 = crypto_kx_SESSIONKEYBYTES /\ length k2 = crypto_kx_SESSIONKEYBYTES.
Proof.
  apply (key_exchange_agrees (demo_aworld (le_encode 32 1000) [])
    (demo_aworld (le_encode 32 1000) []) _ (le_encode 32 0) 1 _ (le_encode 32 0) 1 [] []);
    reflexivity.
Defined.

End sessionenc_runs.
