(* ===== verification/TwoSlotBuffer.v ===== *)
(** The double buffer of include/common/TwoSlotBuffer.h and the writer thread
    that WTFS_Handler__Server (src/server/read_write_handlers.cpp) and
    decrypt_and_read_from_server (src/client/authed_entry.cpp) run on it.

    Every method body runs under the mutex, so it is one atomic step of the
    thread that calls it.  A thread whose wait predicate is false blocks: it
    sleeps on the condition variable until another thread notifies it (or it
    wakes up spuriously) and tests the predicate again.  The producer is the
    sequence of buffer operations it performs; the writer is a four-state
    machine.  The theorems are about every interleaving of the two: mutual
    exclusion on the slots, no deadlock and no lost wake-up, termination, and
    the refinement of a FIFO queue of capacity two, which gives that the writer
    writes exactly the published chunks, in order. *)

From S2P Require Import Prelude.

Record TwoSlotBuffer := TSB {
  capacity_ : Z;
  slots_ : list bytes;
  len_ : list Z;
  producer_slot_ : Z;
  consumer_slot_ : Z;
  free_ : list Z;
  ready_ : list Z;
  done_ : bool;
  cv_free_waiting : bool;     (* the producer sleeps on cv_free_ *)
  cv_ready_waiting : bool     (* the writer sleeps on cv_ready_ *)
}.

Definition TwoSlotBuffer_new (slot_capacity : Z) : TwoSlotBuffer :=
  let slot := replicate (Z.to_nat slot_capacity) x00 in
  TSB slot_capacity [slot; slot] [0; 0] (-1) (-1) [0; 1] [] false false false.

(** The destructor wipes both slots, [capacity_] bytes each. *)
Definition TwoSlotBuffer_destroy (sodium_memzero : bytes -> bytes) (b : TwoSlotBuffer)
    : TwoSlotBuffer :=
  TSB (capacity_ b) (sodium_memzero <$> slots_ b) (len_ b) (producer_slot_ b) (consumer_slot_ b)
    (free_ b) (ready_ b) (done_ b) (cv_free_waiting b) (cv_ready_waiting b).

(** [None] when the wait predicate is false. *)
Definition next_writable (b : TwoSlotBuffer) : option TwoSlotBuffer :=
  match free_ b with
  | [] => None
  | s :: fr =>
      Some (TSB (capacity_ b) (slots_ b) (len_ b) s (consumer_slot_ b) fr (ready_ b)
              (done_ b) (cv_free_waiting b) (cv_ready_waiting b))
  end.

Definition publish (filled_len : Z) (b : TwoSlotBuffer) : TwoSlotBuffer :=
  TSB (capacity_ b) (slots_ b) (<[Z.to_nat (producer_slot_ b) := filled_len]> (len_ b))
    (producer_slot_ b) (consumer_slot_ b) (free_ b) (ready_ b ++ [producer_slot_ b])
    (done_ b) (cv_free_waiting b) false (* cv_ready_.notify_one() *).

Definition finish (b : TwoSlotBuffer) : TwoSlotBuffer :=
  TSB (capacity_ b) (slots_ b) (len_ b) (producer_slot_ b) (consumer_slot_ b) (free_ b)
    (ready_ b) true (cv_free_waiting b) false (* cv_ready_.notify_all() *).

(** [None] when the wait predicate is false; [Some (None, _)] is [nullptr]. *)
Definition wait_ready (b : TwoSlotBuffer) : option (option (Z * Z) * TwoSlotBuffer) :=
  match ready_ b with
  | [] => if done_ b then Some (None, b) else None
  | s :: rd =>
      Some (Some (s, default 0 (len_ b !! Z.to_nat s)),
            TSB (capacity_ b) (slots_ b) (len_ b) (producer_slot_ b) s (free_ b) rd
              (done_ b) (cv_free_waiting b) (cv_ready_waiting b))
  end.

Definition done_with (b : TwoSlotBuffer) : TwoSlotBuffer :=
  TSB (capacity_ b) (slots_ b) (len_ b) (producer_slot_ b) (consumer_slot_ b)
    (free_ b ++ [consumer_slot_ b]) (ready_ b) (done_ b)
    false (* cv_free_.notify_one() *) (cv_ready_waiting b).

(** Storing through the pointer [next_writable] returned. *)
Definition fill (data : bytes) (b : TwoSlotBuffer) : TwoSlotBuffer :=
  let s := Z.to_nat (producer_slot_ b) in
  TSB (capacity_ b) (<[s := overwrite (default [] (slots_ b !! s)) data]> (slots_ b)) (len_ b)
    (producer_slot_ b) (consumer_slot_ b) (free_ b) (ready_ b) (done_ b)
    (cv_free_waiting b) (cv_ready_waiting b).

(** The [n] bytes at the pointer [wait_ready] returned. *)
Definition slot_data (s n : Z) (b : TwoSlotBuffer) : bytes :=
  take (Z.to_nat n) (default [] (slots_ b !! Z.to_nat s)).

Definition set_free_waiting (v : bool) (b : TwoSlotBuffer) : TwoSlotBuffer :=
  TSB (capacity_ b) (slots_ b) (len_ b) (producer_slot_ b) (consumer_slot_ b) (free_ b)
    (ready_ b) (done_ b) v (cv_ready_waiting b).

Definition set_ready_waiting (v : bool) (b : TwoSlotBuffer) : TwoSlotBuffer :=
  TSB (capacity_ b) (slots_ b) (len_ b) (producer_slot_ b) (consumer_slot_ b) (free_ b)
    (ready_ b) (done_ b) (cv_free_waiting b) v.

(** ** The two threads *)

(** What the producer does with the buffer. *)
Inductive pact :=
  | PNext
  | PFill (data : bytes)
  | PPublish (filled_len : Z)
  | PFinish.

(** Where the writer's loop is: at [wait_ready], at [file.write], at
    [done_with], or past the loop. *)
Inductive wstate :=
  | WWait
  | WWrite (slot n : Z)
  | WDone
  | WExit.

Record config := Cfg {
  c_buf : TwoSlotBuffer;
  c_prog : list pact;
  c_writer : wstate;
  c_file : bytes
}.

(** One step of the producer; [None] when it sleeps or has finished. *)
Definition pstep (c : config) : option config :=
  match c_prog c with
  | [] => None
  | PNext :: p =>
      if cv_free_waiting (c_buf c) then None else
      match next_writable (c_buf c) with
      | Some b => Some (Cfg b p (c_writer c) (c_file c))
      | None => Some (Cfg (set_free_waiting true (c_buf c)) (c_prog c) (c_writer c) (c_file c))
      end
  | PFill d :: p => Some (Cfg (fill d (c_buf c)) p (c_writer c) (c_file c))
  | PPublish n :: p => Some (Cfg (publish n (c_buf c)) p (c_writer c) (c_file c))
  | PFinish :: p => Some (Cfg (finish (c_buf c)) p (c_writer c) (c_file c))
  end.

(** One step of the writer:
    [while ((buf = wait_ready(&len)) != nullptr) { file.write(buf, len); done_with(); }] *)
Definition wstep (c : config) : option config :=
  match c_writer c with
  | WWait =>
      if cv_ready_waiting (c_buf c) then None else
      match wait_ready (c_buf c) with
      | None => Some (Cfg (set_ready_waiting true (c_buf c)) (c_prog c) WWait (c_file c))
      | Some (None, b) => Some (Cfg b (c_prog c) WExit (c_file c))
      | Some (Some (s, n), b) => Some (Cfg b (c_prog c) (WWrite s n) (c_file c))
      end
  | WWrite s n =>
      Some (Cfg (c_buf c) (c_prog c) WDone (c_file c ++ slot_data s n (c_buf c)))
  | WDone => Some (Cfg (done_with (c_buf c)) (c_prog c) WWait (c_file c))
  | WExit => None
  end.

(** A step of one of the threads. *)
Inductive tstep (c c' : config) : Prop :=
  | tstep_producer : pstep c = Some c' -> tstep c c'
  | tstep_writer : wstep c = Some c' -> tstep c c'.

(** A step of the system: also a sleeping thread may wake up for no reason. *)
Inductive step (c c' : config) : Prop :=
  | step_thread : tstep c c' -> step c c'
  | step_spurious_producer :
      cv_free_waiting (c_buf c) = true ->
      c' = Cfg (set_free_waiting false (c_buf c)) (c_prog c) (c_writer c) (c_file c) ->
      step c c'
  | step_spurious_writer :
      cv_ready_waiting (c_buf c) = true ->
      c' = Cfg (set_ready_waiting false (c_buf c)) (c_prog c) (c_writer c) (c_file c) ->
      step c c'.

(** Both threads have finished, and [writer.join()] returns. *)
Definition final (c : config) : Prop := c_prog c = [] /\ c_writer c = WExit.

Definition initial (cap : Z) (prog : list pact) : config :=
  Cfg (TwoSlotBuffer_new cap) prog WWait [].

(** ** Execution under a scheduler

    [sch k] says which thread goes first at the k-th step from the end; the
    other one goes when that thread cannot. *)

Definition weight_writer (w : wstate) : nat :=
  match w with WWait => 1 | WWrite _ _ => 5 | WDone => 4 | WExit => 0 end.

(** Decreases at every step of a thread. *)
Definition measure (c : config) : nat :=
  10 * length (c_prog c) + 6 * length (ready_ (c_buf c)) + weight_writer (c_writer c)
  + (if cv_free_waiting (c_buf c) then 0 else 1) + (if cv_ready_waiting (c_buf c) then 0 else 1).

Fixpoint exec (sch : nat -> bool) (fuel : nat) (c : config) : config :=
  match fuel with
  | O => c
  | S f =>
      match (if sch f then pstep c else wstep c) with
      | Some c' => exec sch f c'
      | None =>
          match (if sch f then wstep c else pstep c) with
          | Some c' => exec sch f c'
          | None => c
          end
      end
  end.

(** What the writer thread has written when it is joined. *)
Definition run_pipeline (sch : nat -> bool) (cap : Z) (prog : list pact) : bytes :=
  let c := initial cap prog in c_file (exec sch (measure c) c).

(** ** Well-formed producers *)

(** What the producer holds: no slot, a slot it has not filled, or a slot it
    has filled with [d]. *)
Inductive hold :=
  | HNone
  | HSlot
  | HFilled (d : bytes).

(** Producers take a slot, fill it with at most [cap] bytes and publish it with
    the length of what they stored, any number of times, and finish, possibly
    in the middle of a round (when receiving or decrypting a chunk fails). *)
Inductive wf_prog (cap : Z) : hold -> list pact -> Prop :=
  | wf_finish h : wf_prog cap h [PFinish]
  | wf_next p : wf_prog cap HSlot p -> wf_prog cap HNone (PNext :: p)
  | wf_fill d p : blen d <= cap -> wf_prog cap (HFilled d) p -> wf_prog cap HSlot (PFill d :: p)
  | wf_publish d p : wf_prog cap HNone p -> wf_prog cap (HFilled d) (PPublish (blen d) :: p).

(** The chunks a producer publishes; [d] is what its slot holds. *)
Fixpoint published (d : bytes) (p : list pact) : list bytes :=
  match p with
  | [] => []
  | PNext :: p' => published [] p'
  | PFill d' :: p' => published d' p'
  | PPublish n :: p' => take (Z.to_nat n) d :: published [] p'
  | PFinish :: p' => published [] p'
  end.

Definition hold_data (h : hold) : bytes := match h with HFilled d => d | _ => [] end.

(** ** The specification: a FIFO queue of capacity two *)

(** What has been written, the queue, and what the producer will still enqueue. *)
Record queue := Queue {
  q_written : bytes;
  q_items : list bytes;
  q_todo : list bytes
}.

Inductive qstep : queue -> queue -> Prop :=
  | qstep_enqueue w q d t :
      (length q < 2)%nat -> qstep (Queue w q (d :: t)) (Queue w (q ++ [d]) t)
  | qstep_dequeue w d q t : qstep (Queue w (d :: q) t) (Queue (w ++ d) q t).

(** ** The refinement relation *)

Definition producer_held (h : hold) (b : TwoSlotBuffer) : list Z :=
  match h with HNone => [] | _ => [producer_slot_ b] end.

Definition writer_held (w : wstate) (b : TwoSlotBuffer) : list Z :=
  match w with WWrite _ _ | WDone => [consumer_slot_ b] | _ => [] end.

(** Slot [s] holds the chunk [d], of the length recorded for it. *)
Definition slot_holds (b : TwoSlotBuffer) (s : Z) (d : bytes) : Prop :=
  len_ b !! Z.to_nat s = Some (blen d) /\ slot_data s (blen d) b = d.

(** [h] is what the producer holds, [rdy] the chunks of the slots in [ready_]
    and [cur] the chunk the writer is about to write. *)
Record rel (cap : Z) (c : config) (h : hold) (rdy : list bytes) (cur : option bytes) : Prop := {
  rel_prog : (wf_prog cap h (c_prog c) /\ done_ (c_buf c) = false) \/
             (c_prog c = [] /\ done_ (c_buf c) = true);
  rel_slots : producer_held h (c_buf c) ++ free_ (c_buf c) ++ ready_ (c_buf c)
              ++ writer_held (c_writer c) (c_buf c) ≡ₚ [0; 1];
  rel_shape : length (slots_ (c_buf c)) = 2%nat /\ length (len_ (c_buf c)) = 2%nat /\
              Forall (fun s => blen s = cap) (slots_ (c_buf c));
  rel_fill : match h with
             | HFilled d => slot_data (producer_slot_ (c_buf c)) (blen d) (c_buf c) = d
             | _ => True
             end;
  rel_ready : Forall2 (slot_holds (c_buf c)) (ready_ (c_buf c)) rdy;
  rel_writer : match c_writer c with
               | WWrite s n => s = consumer_slot_ (c_buf c) /\
                   exists d, cur = Some d /\ n = blen d /\ slot_data s n (c_buf c) = d
               | WExit => cur = None /\ done_ (c_buf c) = true /\ ready_ (c_buf c) = []
               | _ => cur = None
               end;
  rel_pwait : cv_free_waiting (c_buf c) = true ->
              free_ (c_buf c) = [] /\ h = HNone /\ exists p, c_prog c = PNext :: p;
  rel_cwait : cv_ready_waiting (c_buf c) = true ->
              ready_ (c_buf c) = [] /\ done_ (c_buf c) = false /\ c_writer c = WWait
}.

(** The queue a configuration stands for. *)
Definition abs_queue (c : config) (h : hold) (rdy : list bytes) (cur : option bytes) : queue :=
  Queue (c_file c) (option_list cur ++ rdy) (published (hold_data h) (c_prog c)).

Definition refines (cap : Z) (c : config) (q : queue) : Prop :=
  exists h rdy cur, rel cap c h rdy cur /\ q = abs_queue c h rdy cur.

(** *** Slots *)

Lemma slots_in (l : list Z) s : l ≡ₚ [0; 1] -> s ∈ l -> (Z.to_nat s < 2)%nat /\ 0 <= s.
Proof. intros -> [->|[->|[]%elem_of_nil]%elem_of_cons]%elem_of_cons; lia. Qed.

Lemma slots_NoDup (l : list Z) : l ≡ₚ [0; 1] -> NoDup l.
Proof. intros ->. by repeat constructor; rewrite ?elem_of_cons, ?elem_of_nil; lia. Qed.

Lemma slot_data_fill s n d b :
  0 <= s -> 0 <= producer_slot_ b -> s <> producer_slot_ b ->
  slot_data s n (fill d b) = slot_data s n b.
Proof.
  intros Hs Hp Hne. unfold slot_data, fill. simpl.
  by rewrite list_lookup_insert_ne by lia.
Qed.

Lemma slot_data_fill_same d b :
  (Z.to_nat (producer_slot_ b) < length (slots_ b))%nat ->
  slot_data (producer_slot_ b) (blen d) (fill d b) = d.
Proof.
  intros Hp. unfold slot_data, fill. simpl. rewrite list_lookup_insert_eq by done. simpl.
  by rewrite to_nat_blen, take_overwrite.
Qed.

(** *** Each step preserves the relation *)

Section preservation.
Context (cap : Z).

#[local] Ltac destruct_rel H :=
  destruct H as [Hprog Hslots (Hs2 & Hl2 & Hcaps) Hfill Hready Hwriter Hpw Hcw];
  simpl in *.

Lemma rel_next c h rdy cur p b :
  rel cap c h rdy cur -> c_prog c = PNext :: p -> next_writable (c_buf c) = Some b ->
  cv_free_waiting (c_buf c) = false ->
  h = HNone /\ rel cap (Cfg b p (c_writer c) (c_file c)) HSlot rdy cur.
Proof.
  intros H Hp Hb Hnw. destruct c as [b0 pr w f], b0. destruct_rel H. subst pr.
  unfold next_writable in Hb. simpl in Hb. destruct free_0 as [|s fr]; [done|].
  injection Hb as <-. destruct Hprog as [[Hwf Hd]|[? _]]; [|done].
  inversion Hwf; subst. split; [done|]. split; simpl; auto; congruence.
Qed.

Lemma rel_block c h rdy cur p :
  rel cap c h rdy cur -> c_prog c = PNext :: p -> next_writable (c_buf c) = None ->
  rel cap (Cfg (set_free_waiting true (c_buf c)) (c_prog c) (c_writer c) (c_file c)) h rdy cur.
Proof.
  intros H Hp Hb. destruct c as [b0 pr w f], b0. destruct_rel H. subst pr.
  unfold next_writable in Hb. simpl in Hb. destruct free_0; [|done].
  destruct Hprog as [[Hwf Hd]|[? _]]; [|done]. inversion Hwf; subst.
  split; simpl; auto. intros _. eauto.
Qed.

Lemma rel_filled c h rdy cur p d :
  rel cap c h rdy cur -> c_prog c = PFill d :: p ->
  h = HSlot /\ rel cap (Cfg (fill d (c_buf c)) p (c_writer c) (c_file c)) (HFilled d) rdy cur.
Proof.
  intros H Hp. pose proof H as H'. destruct_rel H.
  destruct Hprog as [[Hwf Hd]|[E _]]; [|congruence]. rewrite Hp in Hwf.
  inversion Hwf as [| |? ? Hcap Hwf'|]; subst. split; [done|].
  pose proof (slots_NoDup _ Hslots) as Hnd.
  simpl in Hnd. apply NoDup_cons in Hnd as [Hnin _].
  destruct (slots_in _ (producer_slot_ (c_buf c)) Hslots) as [Hpl Hp0]; [simpl; set_solver|].
  assert (forall s n, s ∈ ready_ (c_buf c) \/ s ∈ writer_held (c_writer c) (c_buf c) ->
    slot_data s n (fill d (c_buf c)) = slot_data s n (c_buf c)) as Hother.
  { intros s n Hs. apply slot_data_fill; [|done|].
    - eapply slots_in; [exact Hslots|]. simpl. set_solver.
    - intros ->. apply Hnin. set_solver. }
  split; simpl; auto.
  - split_and!; [by rewrite length_insert|done|].
    apply Forall_insert; [done|]. unfold blen.
    destruct (lookup_lt_is_Some_2 (slots_ (c_buf c)) (Z.to_nat (producer_slot_ (c_buf c)))) as [sl Esl]; [lia|].
    rewrite Esl. simpl. rewrite Forall_lookup in Hcaps. specialize (Hcaps _ _ Esl). simpl in Hcaps.
    rewrite length_overwrite; unfold blen in *; lia.
  - apply slot_data_fill_same. lia.
  - eapply Forall2_impl_in; [exact Hready|]. intros s dd Hs [Hl1 Hd1]. split; [done|].
    by rewrite Hother by auto.
  - destruct (c_writer c) as [|s n| |]; auto. destruct Hwriter as [-> (dd & ? & ? & ?)].
    split; [done|]. exists dd. rewrite Hother by (right; set_solver). done.
  - intros E. destruct (Hpw E) as (_ & _ & q & Eq). congruence.
Qed.

Lemma rel_published c h rdy cur p n :
  rel cap c h rdy cur -> c_prog c = PPublish n :: p ->
  exists d, h = HFilled d /\ n = blen d /\
    rel cap (Cfg (publish n (c_buf c)) p (c_writer c) (c_file c)) HNone (rdy ++ [d]) cur.
Proof.
  intros H Hp. destruct_rel H.
  destruct Hprog as [[Hwf Hd]|[E _]]; [|congruence]. rewrite Hp in Hwf.
  inversion Hwf as [| | |d ? Hwf']; subst. exists d. split; [done|]. split; [done|].
  pose proof (slots_NoDup _ Hslots) as Hnd. simpl in Hnd. apply NoDup_cons in Hnd as [Hnin _].
  destruct (slots_in _ (producer_slot_ (c_buf c)) Hslots) as [Hpl Hp0]; [simpl; set_solver|].
  split; simpl; auto.
  - rewrite <- Hslots. simpl. solve_Permutation.
  - by rewrite length_insert.
  - apply Forall2_app.
    + eapply Forall2_impl_in; [exact Hready|]. intros s dd Hs [Hl1 Hd1]. split; [|done].
      simpl. rewrite list_lookup_insert_ne; [done|]. intros E.
      assert (0 <= s) by (eapply slots_in; [exact Hslots|simpl; set_solver]).
      apply Hnin. assert (s = producer_slot_ (c_buf c)) as <- by lia. set_solver.
    + constructor; [|constructor]. split; [|done]. simpl.
      by rewrite list_lookup_insert_eq by lia.
  - destruct (c_writer c) as [|s n| |]; auto. destruct Hwriter as (_ & Hdone & _). congruence.
  - intros E. destruct (Hpw E) as (_ & ? & _). done.
  - done.
Qed.

Lemma rel_finished c h rdy cur p :
  rel cap c h rdy cur -> c_prog c = PFinish :: p ->
  p = [] /\ rel cap (Cfg (finish (c_buf c)) p (c_writer c) (c_file c)) h rdy cur.
Proof.
  intros H Hp. destruct_rel H.
  destruct Hprog as [[Hwf Hd]|[E _]]; [|congruence]. rewrite Hp in Hwf.
  inversion Hwf; subst. split; [done|]. split; simpl; auto.
  - destruct (c_writer c); auto. by destruct Hwriter as (? & ? & ?).
  - intros E. destruct (Hpw E) as (_ & _ & q & Eq). congruence.
  - done.
Qed.

Lemma rel_writer_block c h rdy cur :
  rel cap c h rdy cur -> c_writer c = WWait -> wait_ready (c_buf c) = None ->
  rel cap (Cfg (set_ready_waiting true (c_buf c)) (c_prog c) WWait (c_file c)) h rdy cur.
Proof.
  intros H Hw Hb. destruct_rel H. unfold wait_ready in Hb. rewrite Hw in *.
  destruct (ready_ (c_buf c)) eqn:Er; [|done]. destruct (done_ (c_buf c)) eqn:Ed; [done|].
  split; simpl; rewrite ?Er, ?Ed; auto.
Qed.

Lemma rel_writer_exit c h rdy cur b :
  rel cap c h rdy cur -> c_writer c = WWait -> wait_ready (c_buf c) = Some (None, b) ->
  rel cap (Cfg b (c_prog c) WExit (c_file c)) h rdy cur.
Proof.
  intros H Hw Hb. destruct_rel H. unfold wait_ready in Hb. rewrite Hw in *.
  destruct (ready_ (c_buf c)) eqn:Er; [|done]. destruct (done_ (c_buf c)) eqn:Ed; [|done].
  injection Hb as <-. split; simpl; rewrite ?Er, ?Ed; auto.
  intros E. destruct (Hcw E) as (_ & ? & _). congruence.
Qed.

Lemma rel_writer_take c h rdy cur s n b :
  rel cap c h rdy cur -> c_writer c = WWait -> wait_ready (c_buf c) = Some (Some (s, n), b) ->
  exists d rdy', rdy = d :: rdy' /\ cur = None /\
    rel cap (Cfg b (c_prog c) (WWrite s n) (c_file c)) h rdy' (Some d).
Proof.
  intros H Hw Hb. destruct_rel H. unfold wait_ready in Hb. rewrite Hw in *.
  destruct (ready_ (c_buf c)) as [|s' rd] eqn:Er; [by destruct (done_ (c_buf c))|].
  injection Hb as <- <- <-. inversion Hready as [|? d ? rdy' [Hl1 Hd1] Hready']; subst.
  exists d, rdy'. split; [done|]. split; [done|]. split; simpl; auto.
  - rewrite <- Hslots. simpl. destruct h; simpl; solve_Permutation.
  - rewrite Hl1. simpl. split; [done|]. exists d. auto.
  - intros E. destruct (Hcw E) as (? & _). done.
Qed.

Lemma rel_writer_write c h rdy cur s n :
  rel cap c h rdy cur -> c_writer c = WWrite s n ->
  cur = Some (slot_data s n (c_buf c)) /\
  rel cap (Cfg (c_buf c) (c_prog c) WDone (c_file c ++ slot_data s n (c_buf c))) h rdy None.
Proof.
  intros H Hw. destruct_rel H. rewrite Hw in *.
  destruct Hwriter as [-> (d & -> & -> & Hsd)]. split; [by rewrite Hsd|].
  split; simpl; auto. intros E. destruct (Hcw E) as (_ & _ & ?). done.
Qed.

Lemma rel_writer_done c h rdy cur :
  rel cap c h rdy cur -> c_writer c = WDone ->
  cur = None /\ rel cap (Cfg (done_with (c_buf c)) (c_prog c) WWait (c_file c)) h rdy None.
Proof.
  intros H Hw. destruct_rel H. rewrite Hw in *. split; [done|].
  split; simpl; auto.
  - rewrite <- Hslots. simpl. destruct h; simpl; solve_Permutation.
  - done.
  - intros E. destruct (Hcw E) as (_ & _ & ?). done.
Qed.

Lemma rel_wake_producer c h rdy cur :
  rel cap c h rdy cur ->
  rel cap (Cfg (set_free_waiting false (c_buf c)) (c_prog c) (c_writer c) (c_file c)) h rdy cur.
Proof. intros H. destruct_rel H. by split; simpl. Qed.

Lemma rel_wake_writer c h rdy cur :
  rel cap c h rdy cur ->
  rel cap (Cfg (set_ready_waiting false (c_buf c)) (c_prog c) (c_writer c) (c_file c)) h rdy cur.
Proof. intros H. destruct_rel H. by split; simpl. Qed.

End preservation.

(** ** Simulation *)

Lemma rel_capacity cap c h rdy cur :
  rel cap c h rdy cur ->
  (length (producer_held h (c_buf c)) + length rdy + length (option_list cur) <= 2)%nat.
Proof.
  intros H. pose proof (Permutation_length (rel_slots _ _ _ _ _ H)) as Hl.
  pose proof (Forall2_length _ _ _ (rel_ready _ _ _ _ _ H)) as Hr.
  pose proof (rel_writer _ _ _ _ _ H) as Hw.
  rewrite !length_app in Hl. simpl in Hl.
  destruct (c_writer c); simpl in *.
  - rewrite Hw. simpl. lia.
  - destruct Hw as [_ (d & -> & _)]. simpl. lia.
  - rewrite Hw. simpl. lia.
  - destruct Hw as [-> _]. simpl. lia.
Qed.

Lemma simulation_producer cap c c' q :
  refines cap c q -> pstep c = Some c' ->
  exists q', (q' = q \/ qstep q q') /\ refines cap c' q'.
Proof.
  intros (h & rdy & cur & H & ->) Hs. unfold pstep in Hs.
  destruct (c_prog c) as [|[|d|n|] p] eqn:Ep; [done| | | |].
  - destruct (cv_free_waiting (c_buf c)) eqn:Ew; [done|].
    destruct (next_writable (c_buf c)) as [b|] eqn:Eb; injection Hs as <-.
    + destruct (rel_next _ _ _ _ _ _ _ H Ep Eb Ew) as [-> H'].
      eexists. split; [by left|]. eexists _, _, _. split; [exact H'|].
      unfold abs_queue. by rewrite Ep.
    + eexists. split; [by left|]. eexists _, _, _.
      split; [rewrite <- Ep; by eapply rel_block|]. unfold abs_queue. simpl. by rewrite Ep.
  - injection Hs as <-. destruct (rel_filled _ _ _ _ _ _ _ H Ep) as [-> H'].
    eexists. split; [by left|]. eexists _, _, _. split; [exact H'|].
    unfold abs_queue. by rewrite Ep.
  - injection Hs as <-. destruct (rel_published _ _ _ _ _ _ _ H Ep) as (d & -> & -> & H').
    pose proof (rel_capacity _ _ _ _ _ H) as Hc. simpl in Hc.
    unfold abs_queue. rewrite Ep. cbn [published hold_data].
    rewrite to_nat_blen, firstn_all.
    eexists. split.
    + right. apply qstep_enqueue. rewrite length_app. lia.
    + eexists _, _, _. split; [exact H'|]. unfold abs_queue. simpl. by rewrite app_assoc.
  - injection Hs as <-. destruct (rel_finished _ _ _ _ _ _ H Ep) as [-> H'].
    eexists. split; [by left|]. eexists _, _, _. split; [exact H'|].
    unfold abs_queue. by rewrite Ep.
Qed.

Lemma simulation_writer cap c c' q :
  refines cap c q -> wstep c = Some c' ->
  exists q', (q' = q \/ qstep q q') /\ refines cap c' q'.
Proof.
  intros (h & rdy & cur & H & ->) Hs. unfold wstep in Hs.
  destruct (c_writer c) as [|s n| |] eqn:Ew; [| | |done].
  - destruct (cv_ready_waiting (c_buf c)) eqn:Ec; [done|].
    destruct (wait_ready (c_buf c)) as [[[[s n]|] b]|] eqn:Eb; injection Hs as <-.
    + destruct (rel_writer_take _ _ _ _ _ _ _ _ H Ew Eb) as (d & rdy' & -> & -> & H').
      eexists. split; [by left|]. eexists _, _, _. split; [exact H'|done].
    + eexists. split; [by left|]. eexists _, _, _.
      split; [by eapply rel_writer_exit|done].
    + eexists. split; [by left|]. eexists _, _, _.
      split; [by apply rel_writer_block|done].
  - injection Hs as <-. destruct (rel_writer_write _ _ _ _ _ _ _ H Ew) as [-> H'].
    eexists. split; [right; apply qstep_dequeue|]. eexists _, _, _. split; [exact H'|done].
  - injection Hs as <-. destruct (rel_writer_done _ _ _ _ _ H Ew) as [-> H'].
    eexists. split; [by left|]. eexists _, _, _. split; [exact H'|done].
Qed.

Lemma simulation_step cap c c' q :
  refines cap c q -> step c c' -> exists q', (q' = q \/ qstep q q') /\ refines cap c' q'.
Proof.
  intros H [[Hs|Hs]|Hw ->|Hw ->].
  - by eapply simulation_producer.
  - by eapply simulation_writer.
  - destruct H as (h & rdy & cur & H & ->). eexists. split; [by left|].
    eexists _, _, _. split; [by apply rel_wake_producer|done].
  - destruct H as (h & rdy & cur & H & ->). eexists. split; [by left|].
    eexists _, _, _. split; [by apply rel_wake_writer|done].
Qed.

Lemma refines_initial cap prog :
  0 <= cap -> wf_prog cap HNone prog ->
  refines cap (initial cap prog) (Queue [] [] (published [] prog)).
Proof.
  intros Hcap Hwf. exists HNone, [], None. split; [|done].
  split; simpl; auto; try done. split_and!; [done|done|].
  repeat constructor; unfold blen; rewrite length_replicate; lia.
Qed.

(** What is written, queued and still to come never changes as a whole. *)
Definition q_total (q : queue) : bytes :=
  q_written q ++ concat (q_items q) ++ concat (q_todo q).

Lemma qstep_total q q' : qstep q q' -> q_total q' = q_total q.
Proof.
  destruct 1; unfold q_total; simpl.
  - rewrite concat_app. simpl. by rewrite app_nil_r, <- !app_assoc.
  - by rewrite <- !app_assoc.
Qed.

Lemma reachable_refines cap prog c :
  0 <= cap -> wf_prog cap HNone prog -> rtc step (initial cap prog) c ->
  exists q, rtc qstep (Queue [] [] (published [] prog)) q /\ refines cap c q.
Proof.
  intros Hcap Hwf Hr.
  cut (forall c0 q0, refines cap c0 q0 -> rtc step c0 c ->
    exists q, rtc qstep q0 q /\ refines cap c q).
  { intros H. eapply H; [by apply refines_initial|done]. }
  clear Hr. intros c0 q0 H0 Hr. revert q0 H0. induction Hr as [c|c c1 c2 Hs Hr IH]; intros q0 H0.
  - by exists q0.
  - destruct (simulation_step _ _ _ _ H0 Hs) as (q1 & Hq & H1).
    destruct (IH _ H1) as (q & Hqs & H2). exists q. split; [|done].
    destruct Hq as [->|Hq]; [done|]. by eapply rtc_l.
Qed.

Lemma rtc_qstep_total q q' : rtc qstep q q' -> q_total q' = q_total q.
Proof. induction 1 as [|? ? ? Hq _ IH]; [done|]. rewrite IH. by apply qstep_total. Qed.

Lemma refines_final cap c q : refines cap c q -> final c -> q = Queue (c_file c) [] [].
Proof.
  intros (h & rdy & cur & H & ->) [Hp Hw]. unfold abs_queue. rewrite Hp. simpl.
  pose proof (rel_writer _ _ _ _ _ H) as H1. rewrite Hw in H1.
  destruct H1 as (-> & _ & Hr). pose proof (rel_ready _ _ _ _ _ H) as H2. rewrite Hr in H2.
  by inversion H2.
Qed.

(** *** Progress and termination *)

Lemma refines_progress cap c q : refines cap c q -> ~ final c -> exists c', tstep c c'.
Proof.
  intros (h & rdy & cur & H & _) Hf.
  destruct (pstep c) as [c'|] eqn:Ep; [exists c'; by left|].
  destruct (wstep c) as [c'|] eqn:Ew; [exists c'; by right|]. exfalso.
  destruct H as [Hprog Hslots _ _ _ Hwriter Hpw Hcw].
  unfold wstep in Ew. destruct (c_writer c) eqn:Ec; try done.
  - destruct (cv_ready_waiting (c_buf c)) eqn:E; [|by destruct (wait_ready _) as [[[[]|] ?]|]].
    destruct (Hcw eq_refl) as (Hr & Hd & _).
    destruct Hprog as [[Hwf _]|[_ ?]]; [|congruence].
    unfold pstep in Ep. destruct (c_prog c) as [|[] p]; [inversion Hwf| | | |]; try done.
    destruct (cv_free_waiting (c_buf c)) eqn:E2; [|by destruct (next_writable _)].
    destruct (Hpw eq_refl) as (Hfr & -> & _). rewrite Hr, Hfr in Hslots. simpl in Hslots.
    by apply Permutation_nil_l in Hslots.
  - destruct Hwriter as (_ & Hd & _). destruct Hprog as [[_ ?]|[Hp _]]; [congruence|].
    by apply Hf.
Qed.

Lemma pstep_measure c c' : pstep c = Some c' -> (measure c' < measure c)%nat.
Proof.
  unfold pstep, measure. destruct c as [b p w f]. simpl.
  destruct p as [|[|d|n|] p]; intros H; [done| | | |].
  - destruct (cv_free_waiting b) eqn:E; [done|].
    unfold next_writable in H. destruct (free_ b); injection H as <-; simpl; rewrite ?E; lia.
  - injection H as <-. simpl. lia.
  - injection H as <-. simpl. rewrite length_app. simpl.
    destruct (cv_free_waiting b), (cv_ready_waiting b); lia.
  - injection H as <-. simpl. destruct (cv_free_waiting b), (cv_ready_waiting b); lia.
Qed.

Lemma wstep_measure c c' : wstep c = Some c' -> (measure c' < measure c)%nat.
Proof.
  unfold wstep, measure. destruct c as [b p w f]. simpl. destruct w; intros H; [| | |done].
  - destruct (cv_ready_waiting b) eqn:E; [done|]. unfold wait_ready in H.
    destruct (ready_ b) as [|s rd] eqn:Er; [destruct (done_ b)|];
      injection H as <-; simpl; rewrite ?E, ?Er; simpl; lia.
  - injection H as <-. simpl. lia.
  - injection H as <-. simpl. destruct (cv_free_waiting b); lia.
Qed.

Lemma tstep_measure c c' : tstep c c' -> (measure c' < measure c)%nat.
Proof. destruct 1; eauto using pstep_measure, wstep_measure. Qed.

Lemma exec_steps sch fuel c : rtc tstep c (exec sch fuel c).
Proof.
  revert c; induction fuel as [|f IH]; intros c; [done|]. simpl.
  destruct (if sch f then pstep c else wstep c) as [c'|] eqn:E1.
  { eapply rtc_l; [|apply IH]. destruct (sch f); [by left|by right]. }
  destruct (if sch f then wstep c else pstep c) as [c'|] eqn:E2; [|done].
  eapply rtc_l; [|apply IH]. destruct (sch f); [by right|by left].
Qed.

Lemma exec_stuck sch fuel c :
  (measure c <= fuel)%nat -> forall c', ~ tstep (exec sch fuel c) c'.
Proof.
  revert c; induction fuel as [|f IH]; intros c Hm c' Hs.
  - apply tstep_measure in Hs. simpl in Hs. lia.
  - simpl in Hs. destruct (if sch f then pstep c else wstep c) as [c1|] eqn:E1.
    { apply IH in Hs; [done|]. assert (tstep c c1) as Hlt%tstep_measure; [|lia].
      destruct (sch f); [by left|by right]. }
    destruct (if sch f then wstep c else pstep c) as [c1|] eqn:E2.
    { apply IH in Hs; [done|]. assert (tstep c c1) as Hlt%tstep_measure; [|lia].
      destruct (sch f); [by right|by left]. }
    destruct Hs, (sch f); congruence.
Qed.

Lemma rtc_tstep_step c c' : rtc tstep c c' -> rtc step c c'.
Proof. induction 1; [done|]. eapply rtc_l; [by apply step_thread|done]. Qed.

#[export] Instance final_dec c : Decision (final c).
Proof.
  unfold final. destruct (c_prog c); [|right; by intros []].
  destruct (c_writer c); [right; by intros []..|by left].
Defined.

Lemma exec_final cap sch prog :
  0 <= cap -> wf_prog cap HNone prog ->
  final (exec sch (measure (initial cap prog)) (initial cap prog)).
Proof.
  intros Hcap Hwf. set (c := exec _ _ _).
  destruct (reachable_refines cap prog c) as (q & _ & Hq); [done..| |].
  { apply rtc_tstep_step, exec_steps. }
  destruct (decide (final c)); [done|].
  destruct (refines_progress cap c q) as [c' Hs]; [done..|].
  by apply exec_stuck in Hs.
Qed.

(** The writer has written the published chunks, in order. *)
Lemma run_pipeline_published cap sch prog :
  0 <= cap -> wf_prog cap HNone prog ->
  run_pipeline sch cap prog = concat (published [] prog).
Proof.
  intros Hcap Hwf. unfold run_pipeline. set (c := exec _ _ _).
  assert (final c) as Hf by (by apply exec_final).
  destruct (reachable_refines cap prog c) as (q & Hqs & Hq); [done..| |].
  { apply rtc_tstep_step, exec_steps. }
  apply refines_final in Hq; [|done]. apply rtc_qstep_total in Hqs. subst q.
  unfold q_total in Hqs. simpl in Hqs. by rewrite app_nil_r in Hqs.
Qed.

(** ** Properties *)

Section properties.
Context (cap : Z) (prog : list pact).

Lemma rel_filling cap' c h rdy cur :
  rel cap' c h rdy cur ->
  (exists d p, c_prog c = PFill d :: p) \/ (exists n p, c_prog c = PPublish n :: p) ->
  producer_held h (c_buf c) = [producer_slot_ (c_buf c)].
Proof.
  intros H Hp. destruct (rel_prog _ _ _ _ _ H) as [[Hwf _]|[E _]];
    [|destruct Hp as [(? & ? & E')|(? & ? & E')]; congruence].
  destruct Hp as [(? & ? & E)|(? & ? & E)]; rewrite E in Hwf; by inversion Hwf.
Qed.

(** C22: The slots are data-race free.  In every state any interleaving of the
    two threads reaches (spurious wake-ups included), while the producer owns a
    slot it has yet to fill or publish and the writer is writing a slot to the
    file, the two slots are different. *)
Theorem slots_mutually_exclusive (c : config) (s n : Z) :
  0 <= cap -> wf_prog cap HNone prog -> rtc step (initial cap prog) c ->
  (exists d p, c_prog c = PFill d :: p) \/ (exists m p, c_prog c = PPublish m :: p) ->
  c_writer c = WWrite s n ->
  s <> producer_slot_ (c_buf c).
Proof.
  intros Hcap Hwf Hr Hp Hw.
  destruct (reachable_refines cap prog c Hcap Hwf Hr) as (q & _ & h & rdy & cur & H & _).
  pose proof (slots_NoDup _ (rel_slots _ _ _ _ _ H)) as Hnd.
  rewrite (rel_filling _ _ _ _ _ H Hp), Hw in Hnd.
  pose proof (rel_writer _ _ _ _ _ H) as Hwr. rewrite Hw in Hwr. destruct Hwr as [-> _].
  simpl in Hnd. apply NoDup_cons in Hnd as [Hnin _]. intros E. apply Hnin.
  rewrite <- E. set_solver.
Qed.

(** C20: No deadlock and no lost wake-up: in every reachable state in which the
    producer or the writer has not finished, one of the threads can go on
    without a spurious wake-up. *)
Theorem pipeline_never_deadlocks (c : config) :
  0 <= cap -> wf_prog cap HNone prog -> rtc step (initial cap prog) c ->
  ~ final c -> exists c', tstep c c'.
Proof.
  intros Hcap Hwf Hr. destruct (reachable_refines cap prog c Hcap Hwf Hr) as (q & _ & Hq).
  by eapply refines_progress.
Qed.

(** C21: The threads terminate: every sequence of thread steps is at most
    [measure] long, and running under any scheduler reaches the state in which
    both threads have finished and [writer.join()] returns. *)
Theorem pipeline_terminates (sch : nat -> bool) :
  0 <= cap -> wf_prog cap HNone prog ->
  (forall k c, nsteps tstep k (initial cap prog) c -> (k <= measure (initial cap prog))%nat) /\
  final (exec sch (measure (initial cap prog)) (initial cap prog)).
Proof.
  intros Hcap Hwf. split; [|by apply exec_final].
  intros k c Hk. generalize (initial cap prog), Hk. clear Hk.
  induction k as [|k IH]; intros c0 Hk; [lia|].
  inversion Hk as [|? ? c1 ? Hs Hk']; subst. apply IH in Hk'. apply tstep_measure in Hs. lia.
Qed.

(** C4: The double buffer implements a FIFO queue of capacity two.  Every state
    reachable under any interleaving corresponds to a state of the abstract
    queue reachable from the empty one, and every further step of the system is
    a step of the queue or leaves it unchanged. *)
Theorem two_slot_buffer_refines_queue (c : config) :
  0 <= cap -> wf_prog cap HNone prog -> rtc step (initial cap prog) c ->
  exists q, rtc qstep (Queue [] [] (published [] prog)) q /\ refines cap c q /\
    forall c', step c c' -> exists q', (q' = q \/ qstep q q') /\ refines cap c' q'.
Proof.
  intros Hcap Hwf Hr. destruct (reachable_refines cap prog c Hcap Hwf Hr) as (q & Hqs & Hq).
  exists q. split; [done|]. split; [done|]. intros c' Hs. by eapply simulation_step.
Qed.

(** C9: Nothing is lost, duplicated or reordered: whenever both threads have
    finished, under any interleaving, the writer has written exactly the
    chunks the producer published, in order; chunks published before
    [finish()] are still written after it. *)
Theorem pipeline_writes_published (c : config) :
  0 <= cap -> wf_prog cap HNone prog -> rtc step (initial cap prog) c -> final c ->
  c_file c = concat (published [] prog).
Proof.
  intros Hcap Hwf Hr Hf.
  destruct (reachable_refines cap prog c Hcap Hwf Hr) as (q & Hqs & Hq).
  apply refines_final in Hq; [|done]. apply rtc_qstep_total in Hqs. subst q.
  unfold q_total in Hqs. simpl in Hqs. by rewrite app_nil_r in Hqs.
Qed.

End properties.

(** ** Concrete runs *)

(** Three chunks through slots of 8 bytes. *)
Definition demo_prog : list pact :=
  [PNext; PFill (str "abc"); PPublish 3; PNext; PFill (str "defgh"); PPublish 5;
   PNext; PFill (str "ij"); PPublish 2; PFinish].

Lemma demo_prog_wf : wf_prog 8 HNone demo_prog.
Proof.
  unfold demo_prog.
  apply wf_next, wf_fill; [vm_compute; discriminate|].
  apply (wf_publish 8 (str "abc")), wf_next, wf_fill; [vm_compute; discriminate|].
  apply (wf_publish 8 (str "defgh")), wf_next, wf_fill; [vm_compute; discriminate|].
  apply (wf_publish 8 (str "ij")), wf_finish.
Defined.

(** A state in which the writer writes one slot while the producer fills the
    other one. *)
Definition demo_busy : config := exec (fun k => (1 <=? k)%nat) 5 (initial 8 demo_prog).

Lemma demo_busy_reachable : rtc step (initial 8 demo_prog) demo_busy.
Proof. apply rtc_tstep_step, exec_steps. Defined.

Lemma slots_mutually_exclusive_witness :
  c_writer demo_busy = WWrite 0 3 /\ 0 <> producer_slot_ (c_buf demo_busy).
Proof.
  split; [vm_compute; reflexivity|].
  apply (slots_mutually_exclusive 8 demo_prog demo_busy 0 3);
    [lia|exact demo_prog_wf|exact demo_busy_reachable| |vm_compute; reflexivity].
  left. do 2 eexists. vm_compute. reflexivity.
Defined.

Lemma pipeline_never_deadlocks_witness : exists c', tstep demo_busy c'.
Proof.
  apply (pipeline_never_deadlocks 8 demo_prog demo_busy);
    [lia|exact demo_prog_wf|exact demo_busy_reachable|].
  intros [H _]. vm_compute in H. discriminate.
Defined.

Lemma pipeline_terminates_witness :
  (forall k c, nsteps tstep k (initial 8 demo_prog) c ->
     (k <= measure (initial 8 demo_prog))%nat) /\
  final (exec Nat.even (measure (initial 8 demo_prog)) (initial 8 demo_prog)).
Proof. apply (pipeline_terminates 8 demo_prog Nat.even); [lia|exact demo_prog_wf]. Defined.

Lemma two_slot_buffer_refines_queue_witness :
  exists q, rtc qstep (Queue [] [] [str "abc"; str "defgh"; str "ij"]) q /\
    refines 8 demo_busy q /\
    forall c', step demo_busy c' -> exists q', (q' = q \/ qstep q q') /\ refines 8 c' q'.
Proof.
  apply (two_slot_buffer_refines_queue 8 demo_prog demo_busy);
    [lia|exact demo_prog_wf|exact demo_busy_reachable].
Defined.

Lemma pipeline_writes_published_witness :
  c_file (exec Nat.odd (measure (initial 8 demo_prog)) (initial 8 demo_prog))
  = str "abcdefghij".
Proof.
  apply (pipeline_writes_published 8 demo_prog);
    [lia|exact demo_prog_wf|apply rtc_tstep_step, exec_steps|vm_compute; split; reflexivity].
Defined.
