(* ===== verification/Transfer.v ===== *)
(** How a file travels, in both directions: cut into chunks, each announced by
    an encrypted [MEAT_CHUNK] or, for the last one, [END_CHUNK] message and
    followed by the chunk as a raw blob.  These are the specifications the
    loops of the server (FSOperator) and of the client (Agents) are compared
    with; nothing here is code of the repository. *)

From S2P Require Import Prelude Sodium Constants Fs Terminal World Net SessionEnc TwoSlotBuffer.

(** ** Cutting a file into chunks *)

(** [chunks n d cs]: reading [d] by [n] bytes until the end of the file gives
    [cs]: full chunks and a last one that is shorter, possibly empty. *)
Inductive chunks (n : nat) : bytes -> list bytes -> Prop :=
  | chunks_last d : (length d < n)%nat -> chunks n d [d]
  | chunks_cons c d cs : length c = n -> chunks n d cs -> chunks n (c ++ d) (c :: cs).

Lemma chunks_exist n d : (0 < n)%nat -> exists cs, chunks n d cs.
Proof.
  intros Hn. remember (length d) as k eqn:E. revert d E. induction k as [k IH] using lt_wf_ind.
  intros d ->. destruct (Nat.lt_ge_cases (length d) n) as [?|Hge].
  - exists [d]. by constructor.
  - destruct (IH (length (drop n d))) with (d := drop n d) as [cs Hcs]; [rewrite length_drop; lia|done|].
    exists (take n d :: cs). rewrite <- (take_drop n d) at 1. constructor; [|done].
    rewrite length_take. lia.
Qed.

Lemma chunks_concat n d cs : chunks n d cs -> concat cs = d.
Proof. induction 1; simpl; [by rewrite app_nil_r|by rewrite IHchunks]. Qed.

Lemma chunks_nonempty n d cs : chunks n d cs -> cs <> [].
Proof. by destruct 1. Qed.

Lemma chunks_bound n d cs : chunks n d cs -> Forall (fun c => (length c <= n)%nat) cs.
Proof. induction 1; constructor; auto; lia. Qed.

Lemma chunks_count n d cs : (0 < n)%nat -> chunks n d cs -> (length cs <= S (length d))%nat.
Proof. intros Hn. induction 1; simpl; rewrite ?length_app; lia. Qed.

(** ** Frames *)

Section frames.
Context {SO : Sodium}.

Definition blob (c : bytes) : bytes := le_encode 8 (blen c) ++ c.

(** The bytes that carry the chunks [cs], from the sender's nonce [nonce]. *)
Fixpoint chunk_frames (tx nonce : bytes) (cs : list bytes) : bytes :=
  match cs with
  | [] => []
  | c :: cs' =>
      wire tx nonce (int_encode (match cs' with [] => END_CHUNK | _ => MEAT_CHUNK end))
        ++ blob c ++ chunk_frames tx (sodium_increment nonce) cs'
  end.

(** The sender's nonce after [k] messages. *)
Definition nonce_after (k : nat) (nonce : bytes) : bytes := Nat.iter k sodium_increment nonce.

(** A whole upload: the client's [init_send] messages and the chunks. *)
Definition upload_stream (tx nonce name header salt : bytes) (cs : list bytes) : bytes :=
  wire tx nonce [x01] ++ wire tx (nonce_after 1 nonce) name
  ++ wire tx (nonce_after 2 nonce) header ++ wire tx (nonce_after 3 nonce) salt
  ++ chunk_frames tx (nonce_after 4 nonce) cs.

(** A whole download: the server's answer to a request for a stored file. *)
Definition download_stream (tx nonce header salt : bytes) (cs : list bytes) : bytes :=
  wire tx nonce header ++ wire tx (nonce_after 1 nonce) salt
  ++ chunk_frames tx (nonce_after 2 nonce) cs.

(** What pushing the chunks [cs] through a secret stream gives: the last chunk
    carries the final tag. *)
Fixpoint push_all (st : ss_state) (cs : list bytes) : list bytes :=
  match cs with
  | [] => []
  | c :: cs' =>
      let tag := match cs' with
                 | [] => crypto_secretstream_xchacha20poly1305_TAG_FINAL
                 | _ => 0
                 end in
      let '(e, st') := ss_push st c tag in
      e :: push_all st' cs'
  end.

End frames.

Lemma length_int_encode z : length (int_encode z) = 4%nat.
Proof. done. Qed.

#[export] Hint Rewrite length_int_encode : len.

(** ** Buffer operations *)

(** What a producer does with the chunks [cs]. *)
Definition chunk_ops (cs : list bytes) : list pact :=
  flat_map (fun c => [PNext; PFill c; PPublish (blen c)]) cs ++ [PFinish].

Lemma chunk_ops_cons c cs :
  chunk_ops (c :: cs) = [PNext; PFill c; PPublish (blen c)] ++ chunk_ops cs.
Proof. done. Qed.

Lemma chunk_ops_wf cap cs :
  Forall (fun c => blen c <= cap) cs -> wf_prog cap HNone (chunk_ops cs).
Proof.
  induction 1 as [|c cs Hc _ IH]; [apply wf_finish|].
  rewrite chunk_ops_cons. by apply wf_next, wf_fill, wf_publish.
Qed.

Lemma chunk_ops_published cs : published [] (chunk_ops cs) = cs.
Proof.
  induction cs as [|c cs IH]; [done|]. rewrite chunk_ops_cons. simpl.
  by rewrite to_nat_blen, firstn_all, IH.
Qed.

Lemma chunk_ops_pipeline sch cap cs :
  0 <= cap -> Forall (fun c => blen c <= cap) cs ->
  run_pipeline sch cap (chunk_ops cs) = concat cs.
Proof.
  intros Hcap Hcs. rewrite run_pipeline_published by auto using chunk_ops_wf.
  by rewrite chunk_ops_published.
Qed.

Section transfer_lemmas.
Context {SO : Sodium} {SL : SodiumLaws SO}.

Lemma length_nonce_after k nonce : length (nonce_after k nonce) = length nonce.
Proof. unfold nonce_after. induction k; simpl; rewrite ?length_increment; done. Qed.

Lemma nonce_after_S k nonce : nonce_after k (sodium_increment nonce) = nonce_after (S k) nonce.
Proof. unfold nonce_after. by rewrite Nat.iter_succ_r. Qed.

(** Encrypting chunk by chunk keeps the chunk structure: cutting the stored
    ciphertext by the encrypted chunk size gives back the encrypted chunks. *)
Lemma push_all_chunks st d cs :
  chunks (Z.to_nat CHUNK_SIZE) d cs ->
  chunks (Z.to_nat FILE_ENCRYPTED_CHUNK_SIZE) (concat (push_all st cs)) (push_all st cs).
Proof.
  intros H. revert st. induction H as [d Hd|c d cs Hc H IH]; intros st.
  - simpl. destruct (ss_push st d _) as [e st'] eqn:E. simpl. rewrite app_nil_r.
    apply length_ss_push in E. constructor. consts. unfold blen in E. lia.
  - pose proof (chunks_nonempty _ _ _ H). destruct cs as [|c' cs]; [done|].
    cbn [push_all]. destruct (ss_push st c 0) as [e st'] eqn:E.
    apply length_ss_push in E. constructor; [consts; unfold blen in E; lia|]. apply IH.
Qed.

Lemma push_all_nonempty st cs : cs <> [] -> push_all st cs <> [].
Proof. destruct cs; [done|]. simpl. by destruct (ss_push _ _ _). Qed.

Lemma blen_wire tx nonce m :
  blen (wire tx nonce m) = 8 + blen nonce + blen m + crypto_aead_chacha20poly1305_ABYTES.
Proof.
  unfold wire. rewrite !blen_app, blen_seal. unfold blen.
  rewrite length_le_encode, length_increment. consts; lia.
Qed.

Lemma length_chunk_frames tx nonce cs : (length cs <= length (chunk_frames tx nonce cs))%nat.
Proof.
  revert nonce. induction cs as [|c cs IH]; intros nonce; [done|]. cbn [chunk_frames].
  rewrite !length_app. specialize (IH (sodium_increment nonce)).
  unfold blob. rewrite length_app, length_le_encode. simpl length. lia.
Qed.

End transfer_lemmas.

(** Receive the message [m], sent under the key [tx] with the sender's nonce
    [nonce], and unwrap it if the program does so next. *)
Ltac read_message tx nonce m :=
  eapply runs_bind;
    [apply (runs_reader tx nonce m);
       [consts; len|by rewrite ?length_nonce_after, ?length_increment|
        first [eassumption|done]]|];
  rsimpl; rewrite ?not_corrupted_sealed;
  try rewrite (unwrap_sealed tx nonce m) by (consts; len); rsimpl.
