(* ===== verification/FSOperator.v ===== *)
(** The server side of a session after login: the class [FS_Operator] of
    include/read_write_handlers.h and src/server/read_write_handlers.cpp, with
    the handlers for uploading ([WTFS_Handler__Server]), downloading
    ([RFFS_Handler__Server]), listing ([LFFS_Handler__Server]) and deleting
    ([DFFS_Handler__Server]) files, and the two calls that receive the client's
    next action. *)

From S2P Require Import Prelude Sodium Constants Fs Terminal World Net SessionEnc TwoSlotBuffer Transfer.

Record FS_Operator := FSO {
  client_sock : Z;
  user_dir : bytes;
  server_rx : bytes;
  server_tx : bytes;
  op_nonce : bytes
}.

Definition set_op_nonce (n : bytes) (op : FS_Operator) : FS_Operator :=
  FSO (client_sock op) (user_dir op) (server_rx op) (server_tx op) n.

Section fsoperator.
Context {SO : Sodium} {EN : Env}.

(** The constructor; also returns the caller's [server_rx] and [server_tx],
    which it zeroes after copying them. *)
Definition FS_Operator_new (sock : Z) (username rx tx : bytes) : IO (FS_Operator * bytes * bytes) :=
  let user_dir := base_dir ++ username ++ [slash] in
  _ ← make_directories user_dir;
  nonce ← randombytes crypto_aead_chacha20poly1305_NPUBBYTES;
  mret (FSO sock user_dir rx tx nonce, sodium_memzero rx, sodium_memzero tx).

Definition FS_Operator_destroy (op : FS_Operator) : FS_Operator :=
  FSO (-420) (sodium_memzero (user_dir op)) (sodium_memzero (server_rx op))
    (sodium_memzero (server_tx op)) (sodium_memzero (op_nonce op)).

(** An uninitialised [unsigned long long]. *)
Definition indet_ull (v : string) : Z := le_decode (indet v sizeof_ull).

(** [init_read]: the return code and the contents of [file_name_buf], [header]
    and [salt].  When the client has no such file, the message to [std::cerr]
    reads [file_name_buf], which nothing has written yet, up to its first NUL.
    [confirm_file_exists] is a [bool], which only the bytes 0 and 1 represent;
    [decrypted_file_name_length] is written unless the message is shorter than
    its tag (code 3). *)
Definition init_read (op : FS_Operator) (file_name_buf header salt : bytes)
    : IO (Z * bytes * bytes * bytes) :=
  confirm_wrap ← SessionEncWrapper_reader;
  let '(rc, _, confirm_file_exists, _) :=
    unwrap confirm_wrap (server_rx op) sizeof_bool [x00] (indet_ull "confirm_file_exists_bytes") in
  if negb (rc =? 0) then mret (6, file_name_buf, header, salt) else
  _ ← initialised (bool_decide (confirm_file_exists = [x00] \/ confirm_file_exists = [x01]));
  if bool_decide (confirm_file_exists = [x00]) then
    _ ← defined (c_str file_name_buf);
    mret (5, file_name_buf, header, salt)
  else
  file_name_wrap ← SessionEncWrapper_reader;
  if is_corrupted file_name_wrap then mret (9, file_name_buf, header, salt) else
  let '(rc, _, file_name_buf, decrypted_file_name_length) :=
    unwrap file_name_wrap (server_rx op) PRE_EXT_FILE_NAME_LEN file_name_buf
      (indet_ull "decrypted_file_name_length") in
  if rc =? 2 then mret (8, file_name_buf, header, salt) else
  _ ← initialised (negb (rc =? 3));
  if MAX_FILE_NAME_LENGTH <? u64 (decrypted_file_name_length + blen ext) then
    mret (7, file_name_buf, header, salt) else
  file_name_buf ← defined (store_byte file_name_buf decrypted_file_name_length x00);
  header_wrap ← SessionEncWrapper_reader;
  if is_corrupted header_wrap then mret (4, file_name_buf, header, salt) else
  let '(rc, header_wrap, header, _) :=
    unwrap header_wrap (server_rx op)
      (Z.of_nat crypto_secretstream_xchacha20poly1305_HEADERBYTES) header
      (indet_ull "decrypted_header_length") in
  if negb (rc =? 0) && is_corrupted header_wrap then mret (3, file_name_buf, header, salt) else
  salt_wrap ← SessionEncWrapper_reader;
  if is_corrupted salt_wrap then mret (2, file_name_buf, header, salt) else
  let '(rc, _, salt, _) :=
    unwrap salt_wrap (server_rx op) (Z.of_nat crypto_pwhash_SALTBYTES) salt
      (indet_ull "decrypted_salt_length") in
  if negb (rc =? 0) then mret (1, file_name_buf, header, salt) else
  mret (0, file_name_buf, header, salt).

(** The receiving loop of [WTFS_Handler__Server]: the value the handler returns
    and the operations it performs on the double buffer, the final [finish()]
    included. *)
Fixpoint WTFS_loop (fuel : nat) (op : FS_Operator) (prefix : bytes) : IO (Z * list pact) :=
  match fuel with
  | O => diverge
  | S fuel' =>
      prefix_wrap ← SessionEncWrapper_reader;
      if is_corrupted prefix_wrap then mret (0, [PFinish]) else
      let '(rc, _, prefix, _) :=
        unwrap prefix_wrap (server_rx op) sizeof_int prefix (indet_ull "decrypted_prefix_len") in
      if negb (rc =? 0) then mret (0, [PFinish]) else
      blob ← recv_raw_blob FILE_ENCRYPTED_CHUNK_SIZE 0;
      let '(rc, slot, decrypted_file_chunk_len) := blob in
      if negb (rc =? 0) then mret (1, [PNext; PFill slot; PFinish]) else
      let ops := [PNext; PFill slot; PPublish decrypted_file_chunk_len] in
      if int_decode prefix =? END_CHUNK then mret (0, ops ++ [PFinish]) else
      if int_decode prefix =? MEAT_CHUNK then
        r ← WTFS_loop fuel' op prefix;
        let '(rc, ops') := r in mret (rc, ops ++ ops')
      else mret (0, ops ++ [PFinish])
  end.

(** Every iteration that goes on reads at least one byte. *)
Definition net_fuel (w : world) : nat := S (length (stream (w_in w))).

Definition WTFS_Handler__Server (op : FS_Operator) : IO Z :=
  r ← init_read op (indet "file_name_buf" (Z.to_nat FILE_ENCRYPTED_CHUNK_SIZE))
        (indet "header" crypto_secretstream_xchacha20poly1305_HEADERBYTES)
        (indet "salt" crypto_pwhash_SALTBYTES);
  let '(rc, file_name_buf, header, salt) := r in
  if negb (rc =? 0) then mret 1 else
  name ← defined (c_str file_name_buf);
  file ← open_out (user_dir op ++ name ++ ext);
  _ ← write_out file header;
  _ ← write_out file salt;
  fuel ← gets net_fuel;
  r ← WTFS_loop fuel op (int_encode END_CHUNK);
  let '(rc, ops) := r in
  _ ← write_out file (run_pipeline sched FILE_ENCRYPTED_CHUNK_SIZE ops);
  mret rc.

(** The sending loop of [RFFS_Handler__Server]; returns the nonce. *)
Fixpoint RFFS_loop (fuel : nat) (op : FS_Operator) (file : ifstream) (nonce : bytes) : IO bytes :=
  match fuel with
  | O => diverge
  | S fuel' =>
      let '(file_chunk, file) := ifstream_read (Z.to_nat FILE_ENCRYPTED_CHUNK_SIZE) file in
      nonce ← wrap_and_send (int_encode (if if_eof file then END_CHUNK else MEAT_CHUNK))
                (server_tx op) nonce;
      _ ← send_raw_blob file_chunk;
      if if_eof file then mret nonce else RFFS_loop fuel' op file nonce
  end.

(** A read that does not reach the end of a regular file takes at least one
    byte of it. *)
Definition file_fuel (file : ifstream) : nat := S (length (if_rest file)).

Definition RFFS_Handler__Server (op : FS_Operator) : IO (Z * FS_Operator) :=
  nonce ← randombytes crypto_aead_chacha20poly1305_NPUBBYTES;
  encrypted_file_name ← SessionEncWrapper_reader;
  if is_corrupted encrypted_file_name then mret (3, set_op_nonce nonce op) else
  let '(rc, _, file_name_buf, _) :=
    unwrap encrypted_file_name (server_rx op) PRE_EXT_FILE_NAME_LEN
      (indet "file_name_buf" (Z.to_nat MAX_FILE_NAME_LENGTH))
      (indet_ull "decrypted_file_name_length") in
  if negb (rc =? 0) then mret (2, set_op_nonce nonce op) else
  name ← defined (c_str file_name_buf);
  file ← open_in (user_dir op ++ name);
  if if_fail file then mret (1, set_op_nonce nonce op) else
  let '(hb, file) := ifstream_read crypto_secretstream_xchacha20poly1305_HEADERBYTES file in
  nonce ← wrap_and_send
    (overwrite (indet "header" crypto_secretstream_xchacha20poly1305_HEADERBYTES) hb)
    (server_tx op) nonce;
  let '(sb, file) := ifstream_read crypto_pwhash_SALTBYTES file in
  nonce ← wrap_and_send (overwrite (indet "salt" crypto_pwhash_SALTBYTES) sb)
    (server_tx op) nonce;
  nonce ← RFFS_loop (file_fuel file) op file nonce;
  mret (0, set_op_nonce nonce op).

(** The second loop of [LFFS_Handler__Server]. *)
Fixpoint LFFS_loop (op : FS_Operator) (names : list bytes) (nonce : bytes) : IO bytes :=
  match names with
  | [] => mret nonce
  | filename :: names' =>
      nonce ← randombytes crypto_aead_chacha20poly1305_NPUBBYTES;
      nonce ← wrap_and_send (filename ++ [x00]) (server_tx op) nonce;
      LFFS_loop op names' nonce
  end.

(** [directory_iterator(user_dir)] *)
Definition list_dir (p : bytes) : IO (list bytes) :=
  fs_call (fun f => (fun l => (dir_order l, f)) <$> directory_entries f p).

Definition LFFS_Handler__Server (op : FS_Operator) : IO (Z * FS_Operator) :=
  entries ← list_dir (user_dir op);
  let file_count := Z.of_nat (length entries) in
  nonce ← randombytes crypto_aead_chacha20poly1305_NPUBBYTES;
  nonce ← wrap_and_send (int_encode file_count) (server_tx op) nonce;
  entries ← list_dir (user_dir op);
  nonce ← LFFS_loop op entries nonce;
  mret (0, set_op_nonce nonce op).

Definition DFFS_Handler__Server (op : FS_Operator) : IO (Z * FS_Operator) :=
  nonce ← randombytes crypto_aead_chacha20poly1305_NPUBBYTES;
  name_wrap ← SessionEncWrapper_reader;
  if is_corrupted name_wrap then mret (2, set_op_nonce nonce op) else
  let '(rc, _, file_name_buf, _) :=
    unwrap name_wrap (server_rx op) PRE_EXT_FILE_NAME_LEN
      (replicate (Z.to_nat MAX_FILE_NAME_LENGTH) x00) (indet_ull "decrypted_len") in
  if negb (rc =? 0) then mret (1, set_op_nonce nonce op) else
  name ← defined (c_str file_name_buf);
  removed ← fs_call (fun f => fs_remove f (user_dir op ++ name));
  let result := if removed : bool then ACK_SUC else ACK_FAIL in
  nonce ← randombytes crypto_aead_chacha20poly1305_NPUBBYTES;
  nonce ← wrap_and_send (int_encode result) (server_tx op) nonce;
  mret (0, set_op_nonce nonce op).

(** [notice] and [intent] are uninitialised [int]s: a message shorter than one
    leaves bytes of them unwritten. *)
Definition receive_notice_of_new_action (op : FS_Operator) : IO Z :=
  notice_wrap ← SessionEncWrapper_reader;
  if is_corrupted notice_wrap then mret 3 else
  let '(rc, _, notice, decrypted_notice_length) :=
    unwrap notice_wrap (server_rx op) sizeof_int (indet "notice" 4)
      (indet_ull "decrypted_notice_length") in
  if negb (rc =? 0) then mret 2 else
  _ ← initialised (sizeof_int <=? decrypted_notice_length);
  if negb (int_decode notice =? NEW_ACTION) then mret 1 else mret 0.

Definition read_intent (op : FS_Operator) : IO Z :=
  intent_wrap ← SessionEncWrapper_reader;
  if is_corrupted intent_wrap then mret INVALID_READ_INTENT else
  let '(rc, _, intent, decrypted_data_length) :=
    unwrap intent_wrap (server_rx op) sizeof_int (indet "intent" 4)
      (indet_ull "decrypted_data_length") in
  if negb (rc =? 0) then mret INVALID_READ_INTENT else
  _ ← initialised (sizeof_int <=? decrypted_data_length);
  mret (int_decode intent).

End fsoperator.

(** ** Behaviour of the operations *)

Section fsoperator_lemmas.
Context {SO : Sodium} {EN : Env} {SL : SodiumLaws SO} {EL : EnvLaws EN}.

Lemma runs_net_fuel a : runs (gets net_fuel) a (S (length (a_in a))) a.
Proof.
  intros w Hw. exists w. split; [|done]. unfold gets, net_fuel.
  by rewrite (repr_in _ _ Hw).
Qed.

Lemma runs_defined {A} (o : option A) v (a : aworld) : o = Some v -> runs (defined o) a v a.
Proof. intros ->. apply runs_ret. Qed.

Lemma runs_initialised b (a : aworld) : b = true -> runs (initialised b) a tt a.
Proof. intros ->. apply runs_ret. Qed.

(** A message that holds an [int] writes all of it. *)
Lemma runs_int_written z (a : aworld) :
  runs (initialised (sizeof_int <=? blen (int_encode z))) a tt a.
Proof. apply runs_initialised. unfold blen, int_encode. by rewrite length_le_encode. Qed.

Lemma WTFS_loop_runs op cs : forall nonce fuel prefix a rest,
  cs <> [] -> (length cs <= fuel)%nat -> length prefix = 4%nat ->
  length nonce = crypto_aead_chacha20poly1305_NPUBBYTES ->
  Forall (fun c => blen c <= FILE_ENCRYPTED_CHUNK_SIZE) cs ->
  a_in a = chunk_frames (server_rx op) nonce cs ++ rest ->
  runs (WTFS_loop fuel op prefix) a (0, chunk_ops cs) (a_set_in rest a).
Proof.
  induction cs as [|c cs IH]; intros nonce fuel prefix a rest Hne Hfuel Hpre Hn Hcs Ha; [done|].
  destruct fuel as [|fuel]; [simpl in *; lia|]. simpl in Hfuel.
  apply Forall_cons in Hcs as [Hc Hcs].
  cbn [chunk_frames] in Ha. unfold blob in Ha. rewrite <- !app_assoc in Ha.
  cbn [WTFS_loop].
  set (k := match cs with [] => END_CHUNK | _ => MEAT_CHUNK end) in *.
  read_message (server_rx op) nonce (int_encode k).
  eapply runs_bind; [apply runs_recv_raw_blob; [done|consts; lia|done]|]. rsimpl.
  rewrite overwrite_full by (by rewrite Hpre).
  destruct cs as [|c' cs]; subst k.
  - rewrite int_decode_encode by (unfold END_CHUNK; lia). rewrite Z.eqb_refl. apply runs_ret.
  - rewrite int_decode_encode by (unfold MEAT_CHUNK; lia).
    change (MEAT_CHUNK =? END_CHUNK) with false. rewrite Z.eqb_refl. rsimpl.
    eapply runs_bind; [apply (IH (sodium_increment nonce) fuel)|];
      [done|simpl in *; lia|done|by rewrite length_increment|done|done|].
    apply runs_ret.
Qed.

(** The four messages of [init_send] make [init_read] return the file name, the
    header and the salt. *)
Lemma init_read_runs op name header salt buf h0 s0 nonce a rest :
  length nonce = crypto_aead_chacha20poly1305_NPUBBYTES ->
  blen name <= PRE_EXT_FILE_NAME_LEN -> PRE_EXT_FILE_NAME_LEN < blen buf ->
  length header = length h0 -> length h0 = crypto_secretstream_xchacha20poly1305_HEADERBYTES ->
  length salt = length s0 -> length s0 = crypto_pwhash_SALTBYTES ->
  a_in a = wire (server_rx op) nonce [x01]
    ++ wire (server_rx op) (nonce_after 1 nonce) name
    ++ wire (server_rx op) (nonce_after 2 nonce) header
    ++ wire (server_rx op) (nonce_after 3 nonce) salt ++ rest ->
  exists tail,
    runs (init_read op buf h0 s0) a (0, name ++ x00 :: tail, header, salt) (a_set_in rest a).
Proof.
  intros Hn Hname Hbuf Hh Hh0 Hs Hs0 Ha.
  assert (exists b tail, overwrite buf name = name ++ b :: tail) as (b & tail & Hov).
  { unfold overwrite. destruct (drop (length name) buf) as [|b tail] eqn:E; [|eauto].
    apply (f_equal length) in E. rewrite length_drop in E. simpl in E. unfold blen in *. lia. }
  exists tail. unfold init_read.
  read_message (server_rx op) nonce [x01].
  eapply runs_bind; [apply runs_initialised, bool_decide_eq_true_2; by right|].
  rewrite bool_decide_eq_false_2 by done.
  read_message (server_rx op) (nonce_after 1 nonce) name.
  eapply runs_bind; [by apply runs_initialised|].
  pose proof (blen_nonneg name).
  rewrite u64_small by (consts; change (blen ext) with 4; lia).
  rewrite (proj2 (Z.ltb_ge MAX_FILE_NAME_LENGTH _)) by (consts; change (blen ext) with 4; lia).
  rewrite Hov, store_byte_end. eapply runs_bind; [by apply runs_defined|].
  read_message (server_rx op) (nonce_after 2 nonce) header.
  rewrite overwrite_full by done. cbn [Z.eqb negb andb].
  read_message (server_rx op) (nonce_after 3 nonce) salt.
  rewrite overwrite_full by done. apply runs_ret.
Qed.

Lemma plain_name_ext name : no_slash name -> plain_name (name ++ ext).
Proof.
  intros Hn. split_and!.
  - by destruct name.
  - intros E%(f_equal length). rewrite length_app in E. simpl in E. lia.
  - intros E%(f_equal length). rewrite length_app in E. simpl in E. lia.
  - apply Forall_app. split; [done|]. by repeat constructor.
Qed.

(** The file system after an upload. *)
Definition stored (f : fs) (p : path) (content : bytes) : fs :=
  set_nodes f (<[p := NFile content]> (fs_nodes f)).

Lemma WTFS_runs op name header salt cs nonce d a rest :
  length nonce = crypto_aead_chacha20poly1305_NPUBBYTES ->
  blen name <= PRE_EXT_FILE_NAME_LEN -> no_nul name -> no_slash name ->
  length header = crypto_secretstream_xchacha20poly1305_HEADERBYTES ->
  length salt = crypto_pwhash_SALTBYTES ->
  cs <> [] -> Forall (fun c => blen c <= FILE_ENCRYPTED_CHUNK_SIZE) cs ->
  dir_string (user_dir op) -> resolve_dir (a_fs a) (user_dir op) = Some d ->
  fs_nodes (a_fs a) !! (d ++ [name ++ ext]) <> Some NDir ->
  a_in a = upload_stream (server_rx op) nonce name header salt cs ++ rest ->
  runs (WTFS_Handler__Server op) a 0
    (a_set_in rest
      (a_set_fs (stored (a_fs a) (d ++ [name ++ ext]) (header ++ salt ++ concat cs)) a)).
Proof.
  intros Hn Hname Hnul Hsl Hh Hs Hne Hcs Hdir Hres Hnd Ha.
  unfold upload_stream in Ha. rewrite <- !app_assoc in Ha. unfold WTFS_Handler__Server.
  destruct (init_read_runs op name header salt
    (indet "file_name_buf" (Z.to_nat FILE_ENCRYPTED_CHUNK_SIZE))
    (indet "header" crypto_secretstream_xchacha20poly1305_HEADERBYTES)
    (indet "salt" crypto_pwhash_SALTBYTES) nonce a
    (chunk_frames (server_rx op) (nonce_after 4 nonce) cs ++ rest)) as [tail Hinit];
    rewrite ?length_indet; auto.
  { unfold blen. rewrite length_indet. consts; lia. }
  eapply runs_bind; [exact Hinit|]. rsimpl.
  eapply runs_bind; [apply runs_defined, c_str_app; done|].
  eapply runs_bind.
  { apply runs_open_out, (ofstream_open_plain _ _ d); simpl a_fs;
      [done|done|by apply plain_name_ext| |done].
    rewrite blen_app. change (blen ext) with 4. unfold NAME_MAX. consts; lia. }
  eapply runs_bind; [apply runs_write_out|].
  eapply runs_bind; [apply runs_write_out|].
  eapply runs_bind; [apply runs_net_fuel|].
  eapply runs_bind.
  { apply (WTFS_loop_runs op cs (nonce_after 4 nonce)); auto.
    - cbn [a_in a_set_in a_set_fs]. rewrite length_app.
      pose proof (length_chunk_frames (server_rx op) (nonce_after 4 nonce) cs). lia.
    - by rewrite length_nonce_after. }
  rsimpl. rewrite chunk_ops_pipeline by (done || (consts; lia)).
  eapply runs_bind; [apply runs_write_out|].
  cbn [a_fs a_set_in a_set_fs]. rewrite <- !ofstream_write_app.
  cbn [ofstream_write fs_nodes set_nodes]. rewrite lookup_insert_eq. cbn [app].
  unfold stored, set_nodes. cbn [fs_nodes fs_cwd].
  rewrite insert_insert_eq. apply runs_ret.
Qed.

(** *** Downloading *)

Lemma RFFS_loop_runs op cs : forall data nonce fuel a g,
  chunks (Z.to_nat FILE_ENCRYPTED_CHUNK_SIZE) data cs -> (length data < fuel)%nat ->
  runs (RFFS_loop fuel op (IFStream false data false false g) nonce) a
    (nonce_after (length cs) nonce)
    (a_set_out (a_out a ++ chunk_frames (server_tx op) nonce cs) a).
Proof.
  intros data nonce fuel a g H. revert nonce fuel a g.
  induction H as [data Hd|c data cs Hc H IH]; intros nonce fuel a g Hfuel.
  - destruct fuel as [|fuel]; [lia|]. cbn [RFFS_loop ifstream_read if_eof if_fail orb if_dir if_rest].
    rewrite take_ge by lia. rewrite (proj2 (Nat.ltb_lt _ _)) by done. rsimpl. cbn [if_eof].
    eapply runs_bind; [apply runs_wrap_and_send; consts; len|].
    eapply runs_bind; [apply runs_send_raw_blob|].
    cbn [chunk_frames]. rewrite app_nil_r. unfold blob. cbn [a_out a_set_out].
    rewrite <- app_assoc. apply runs_ret.
  - destruct fuel as [|fuel]; [lia|]. cbn [RFFS_loop ifstream_read if_eof if_fail orb if_dir if_rest].
    rewrite take_app_length', drop_app_length' by done.
    rewrite (proj2 (Nat.ltb_ge _ _)) by lia. rsimpl. cbn [if_eof].
    eapply runs_bind; [apply runs_wrap_and_send; consts; len|].
    eapply runs_bind; [apply runs_send_raw_blob|].
    pose proof (chunks_nonempty _ _ _ H). destruct cs as [|c' cs]; [done|].
    eapply runs_conv; [apply (IH (sodium_increment nonce) fuel)| |].
    + rewrite length_app in Hfuel. consts. lia.
    + by rewrite nonce_after_S.
    + unfold a_set_out. cbn [a_in a_out a_fs a_rng a_stdin a_stdout]. f_equal.
      cbn [chunk_frames]. unfold blob. by rewrite <- !app_assoc.
Qed.

(** A file name received with its terminator is read back from the buffer. *)
Lemma c_str_received name buf :
  no_nul name -> c_str (overwrite buf (name ++ [x00])) = Some name.
Proof. intros Hn. unfold overwrite. rewrite <- app_assoc. by apply c_str_app. Qed.

Lemma RFFS_runs_open op name header salt enc cs rnonce a rest :
  length rnonce = crypto_aead_chacha20poly1305_NPUBBYTES ->
  blen name < PRE_EXT_FILE_NAME_LEN -> no_nul name ->
  length header = crypto_secretstream_xchacha20poly1305_HEADERBYTES ->
  length salt = crypto_pwhash_SALTBYTES ->
  chunks (Z.to_nat FILE_ENCRYPTED_CHUNK_SIZE) enc cs ->
  ifstream_open (a_fs a) (user_dir op ++ name) = IFStream false (header ++ salt ++ enc) false false 0 ->
  a_in a = wire (server_rx op) rnonce (name ++ [x00]) ++ rest ->
  let '(nonce, r) := randombytes_buf (a_rng a) crypto_aead_chacha20poly1305_NPUBBYTES in
  runs (RFFS_Handler__Server op) a
    (0, set_op_nonce (nonce_after (2 + length cs) nonce) op)
    (a_set_in rest (a_set_rng r
      (a_set_out (a_out a ++ download_stream (server_tx op) nonce header salt cs) a))).
Proof.
  intros Hn Hname Hnul Hh Hs Hcs Hopen Ha.
  destruct (randombytes_buf _ _) as [nonce r] eqn:Er. unfold RFFS_Handler__Server.
  eapply runs_bind; [apply runs_randombytes|]. rewrite Er. cbn [fst snd].
  read_message (server_rx op) rnonce (name ++ [x00]).
  eapply runs_bind; [by apply runs_defined, c_str_received|].
  eapply runs_bind; [apply runs_open_in|].
  cbn [a_fs a_set_in a_set_rng]. rewrite Hopen.
  cbn [if_fail]. rewrite (ifstream_read_full header) by done. rsimpl.
  rewrite overwrite_full by (by rewrite length_indet).
  eapply runs_bind; [apply runs_wrap_and_send; consts; len|].
  rewrite (ifstream_read_full salt) by done. rsimpl.
  rewrite overwrite_full by (by rewrite length_indet).
  eapply runs_bind; [apply runs_wrap_and_send; consts; len|].
  eapply runs_bind; [apply (RFFS_loop_runs op cs enc); [done|unfold file_fuel; simpl; lia]|].
  eapply runs_conv; [apply runs_ret| |].
  - by rewrite !nonce_after_S.
  - unfold a_set_in, a_set_out, a_set_rng. simpl. f_equal. unfold download_stream.
    by rewrite <- !app_assoc.
Qed.

Lemma RFFS_runs op name header salt enc cs rnonce d a rest :
  length rnonce = crypto_aead_chacha20poly1305_NPUBBYTES ->
  blen name < PRE_EXT_FILE_NAME_LEN -> no_nul name -> plain_name name ->
  length header = crypto_secretstream_xchacha20poly1305_HEADERBYTES ->
  length salt = crypto_pwhash_SALTBYTES ->
  chunks (Z.to_nat FILE_ENCRYPTED_CHUNK_SIZE) enc cs ->
  dir_string (user_dir op) -> resolve_dir (a_fs a) (user_dir op) = Some d ->
  has_file (a_fs a) (d ++ [name]) (header ++ salt ++ enc) ->
  a_in a = wire (server_rx op) rnonce (name ++ [x00]) ++ rest ->
  let '(nonce, r) := randombytes_buf (a_rng a) crypto_aead_chacha20poly1305_NPUBBYTES in
  runs (RFFS_Handler__Server op) a
    (0, set_op_nonce (nonce_after (2 + length cs) nonce) op)
    (a_set_in rest (a_set_rng r
      (a_set_out (a_out a ++ download_stream (server_tx op) nonce header salt cs) a))).
Proof. intros. eapply RFFS_runs_open; eauto using ifstream_open_plain. Qed.

(** A request for a file that is not there is answered with nothing. *)
Lemma RFFS_missing op name rnonce d a rest :
  length rnonce = crypto_aead_chacha20poly1305_NPUBBYTES ->
  blen name < PRE_EXT_FILE_NAME_LEN -> no_nul name -> plain_name name ->
  dir_string (user_dir op) -> resolve_dir (a_fs a) (user_dir op) = Some d ->
  fs_nodes (a_fs a) !! (d ++ [name]) = None ->
  a_in a = wire (server_rx op) rnonce (name ++ [x00]) ++ rest ->
  let '(nonce, r) := randombytes_buf (a_rng a) crypto_aead_chacha20poly1305_NPUBBYTES in
  runs (RFFS_Handler__Server op) a (1, set_op_nonce nonce op) (a_set_in rest (a_set_rng r a)).
Proof.
  intros Hn Hname Hnul Hpl Hdir Hres Hf Ha.
  destruct (randombytes_buf _ _) as [nonce r] eqn:Er. unfold RFFS_Handler__Server.
  eapply runs_bind; [apply runs_randombytes|]. rewrite Er. cbn [fst snd].
  read_message (server_rx op) rnonce (name ++ [x00]).
  eapply runs_bind; [by apply runs_defined, c_str_received|].
  eapply runs_bind; [apply runs_open_in|].
  cbn [a_fs a_set_in a_set_rng]. unfold ifstream_open. rewrite (locate_plain _ _ d) by done.
  rewrite Hf. apply runs_ret.
Qed.

(** A name that does not fit the receiver's capacity is refused. *)
Lemma RFFS_name_too_long op name rnonce a rest :
  length rnonce = crypto_aead_chacha20poly1305_NPUBBYTES ->
  PRE_EXT_FILE_NAME_LEN <= blen name <= NAME_MAX ->
  a_in a = wire (server_rx op) rnonce (name ++ [x00]) ++ rest ->
  let '(nonce, r) := randombytes_buf (a_rng a) crypto_aead_chacha20poly1305_NPUBBYTES in
  runs (RFFS_Handler__Server op) a (2, set_op_nonce nonce op) (a_set_in rest (a_set_rng r a)).
Proof.
  intros Hn Hname Ha. unfold NAME_MAX in Hname.
  destruct (randombytes_buf _ _) as [nonce r] eqn:Er. unfold RFFS_Handler__Server.
  eapply runs_bind; [apply runs_randombytes|]. rewrite Er. cbn [fst snd].
  read_message (server_rx op) rnonce (name ++ [x00]).
  rewrite unwrap_sealed_too_long by (consts; len). apply runs_ret.
Qed.

(** *** Deleting and listing *)

Lemma DFFS_runs op name rnonce removed f' a rest :
  length rnonce = crypto_aead_chacha20poly1305_NPUBBYTES ->
  blen name < PRE_EXT_FILE_NAME_LEN -> no_nul name ->
  fs_remove (a_fs a) (user_dir op ++ name) = Some (removed, f') ->
  a_in a = wire (server_rx op) rnonce (name ++ [x00]) ++ rest ->
  let '(_, r) := randombytes_buf (a_rng a) crypto_aead_chacha20poly1305_NPUBBYTES in
  let '(nonce, r') := randombytes_buf r crypto_aead_chacha20poly1305_NPUBBYTES in
  runs (DFFS_Handler__Server op) a (0, set_op_nonce (sodium_increment nonce) op)
    (a_set_in rest (a_set_rng r' (a_set_fs f'
      (a_set_out (a_out a ++ wire (server_tx op) nonce
         (int_encode (if removed : bool then ACK_SUC else ACK_FAIL))) a)))).
Proof.
  intros Hn Hname Hnul Hrm Ha.
  destruct (randombytes_buf (a_rng a) _) as [n0 r] eqn:Er.
  destruct (randombytes_buf r _) as [nonce r'] eqn:Er'. unfold DFFS_Handler__Server.
  eapply runs_bind; [apply runs_randombytes|]. rewrite Er. cbn [fst snd].
  read_message (server_rx op) rnonce (name ++ [x00]).
  eapply runs_bind; [by apply runs_defined, c_str_received|].
  eapply runs_bind; [apply runs_fs_call; exact Hrm|].
  eapply runs_bind; [apply runs_randombytes|]. cbn [a_rng a_set_in a_set_rng a_set_fs].
  rewrite Er'. cbn [fst snd].
  eapply runs_bind; [apply runs_wrap_and_send; consts; len|]. apply runs_ret.
Qed.

(** [remove] throwing is not caught. *)
Lemma DFFS_throws op name rnonce a rest :
  length rnonce = crypto_aead_chacha20poly1305_NPUBBYTES ->
  blen name < PRE_EXT_FILE_NAME_LEN -> no_nul name ->
  fs_remove (a_fs a) (user_dir op ++ name) = None ->
  a_in a = wire (server_rx op) rnonce (name ++ [x00]) ++ rest ->
  throws (DFFS_Handler__Server op) a filesystem_error
    (a_set_in rest (a_set_rng (snd (randombytes_buf (a_rng a)
       crypto_aead_chacha20poly1305_NPUBBYTES)) a)).
Proof.
  intros Hn Hname Hnul Hrm Ha. unfold DFFS_Handler__Server.
  eapply throws_bind_r; [apply runs_randombytes|].
  eapply throws_bind_r; [by apply (runs_reader (server_rx op) rnonce (name ++ [x00])); [consts; len|..]|].
  rewrite not_corrupted_sealed, unwrap_sealed by (consts; len). rsimpl.
  eapply throws_bind_r; [by apply runs_defined, c_str_received|].
  by eapply throws_bind_l, throws_fs_call.
Qed.

(** The nonces and generator state of a listing's names, and its bytes. *)
Fixpoint list_frames (tx : bytes) (names : list bytes) (r : rng) (nonce : bytes)
    : bytes * rng * bytes :=
  match names with
  | [] => ([], r, nonce)
  | n :: names' =>
      let '(nonce, r) := randombytes_buf r crypto_aead_chacha20poly1305_NPUBBYTES in
      let '(bs, r', nonce') := list_frames tx names' r (sodium_increment nonce) in
      (wire tx nonce (n ++ [x00]) ++ bs, r', nonce')
  end.

Lemma LFFS_loop_runs op names : forall nonce a,
  Forall (fun n => blen n <= NAME_MAX) names ->
  let '(bs, r, nonce') := list_frames (server_tx op) names (a_rng a) nonce in
  runs (LFFS_loop op names nonce) a nonce' (a_set_rng r (a_set_out (a_out a ++ bs) a)).
Proof.
  induction names as [|n names IH]; intros nonce a Hl.
  - cbn [list_frames LFFS_loop]. rewrite app_nil_r.
    eapply runs_conv; [apply runs_ret|done|by destruct a].
  - apply Forall_cons in Hl as [Hn Hl]. unfold NAME_MAX in Hn. cbn [list_frames LFFS_loop].
    destruct (randombytes_buf (a_rng a) _) as [n1 r1] eqn:Er.
    specialize (IH (sodium_increment n1)
      (a_set_out (a_out a ++ wire (server_tx op) n1 (n ++ [x00])) (a_set_rng r1 a)) Hl).
    cbn [a_rng a_set_out a_set_rng] in IH.
    destruct (list_frames (server_tx op) names r1 _) as [[bs r] n2].
    eapply runs_bind; [apply runs_randombytes|]. rewrite Er. cbn [fst snd].
    eapply runs_bind; [apply runs_wrap_and_send; consts; len|].
    eapply runs_conv; [exact IH|done|].
    unfold a_set_out, a_set_rng. simpl. f_equal. by rewrite <- app_assoc.
Qed.

End fsoperator_lemmas.

(** ** Properties *)

Section fsoperator_properties.
Context {SO : Sodium} {EN : Env} {SL : SodiumLaws SO} {EL : EnvLaws EN}.

(** A request for a file that does not exist gets no answer: the handler
    returns 1 without sending a byte, so the client goes on waiting. *)
Theorem missing_file_unanswered (op : FS_Operator) (name rnonce rest : bytes) (d : path)
    (a : aworld) :
  length rnonce = crypto_aead_chacha20poly1305_NPUBBYTES ->
  blen name < PRE_EXT_FILE_NAME_LEN -> no_nul name -> plain_name name ->
  dir_string (user_dir op) -> resolve_dir (a_fs a) (user_dir op) = Some d ->
  fs_nodes (a_fs a) !! (d ++ [name]) = None ->
  a_in a = wire (server_rx op) rnonce (name ++ [x00]) ++ rest ->
  exists op' r, runs (RFFS_Handler__Server op) a (1, op') (a_set_in rest (a_set_rng r a)).
Proof.
  intros Hn Hl Hnul Hpl Hd Hr Hf Ha.
  pose proof (RFFS_missing op name rnonce d a rest Hn Hl Hnul Hpl Hd Hr Hf Ha) as H.
  destruct (randombytes_buf _ _). eauto.
Qed.

(** Names of 246 to 250 bytes can be uploaded but not downloaded: the
    upload handler stores [name].enc, and the download handler refuses the
    request for [name].enc with code 2, whatever the file system holds. *)
Theorem long_names_only_upload (op : FS_Operator) (name header salt n1 n2 rest : bytes)
    (cs : list bytes) (d : path) (a b : aworld) :
  246 <= blen name <= 250 -> no_nul name -> no_slash name ->
  length n1 = crypto_aead_chacha20poly1305_NPUBBYTES ->
  length n2 = crypto_aead_chacha20poly1305_NPUBBYTES ->
  length header = crypto_secretstream_xchacha20poly1305_HEADERBYTES ->
  length salt = crypto_pwhash_SALTBYTES ->
  cs <> [] -> Forall (fun c => blen c <= FILE_ENCRYPTED_CHUNK_SIZE) cs ->
  dir_string (user_dir op) -> resolve_dir (a_fs a) (user_dir op) = Some d ->
  fs_nodes (a_fs a) !! (d ++ [name ++ ext]) <> Some NDir ->
  a_in a = upload_stream (server_rx op) n1 name header salt cs ++ rest ->
  a_in b = wire (server_rx op) n2 ((name ++ ext) ++ [x00]) ++ rest ->
  runs (WTFS_Handler__Server op) a 0
    (a_set_in rest
      (a_set_fs (stored (a_fs a) (d ++ [name ++ ext]) (header ++ salt ++ concat cs)) a)) /\
  exists op' r, runs (RFFS_Handler__Server op) b (2, op') (a_set_in rest (a_set_rng r b)).
Proof.
  intros Hlen Hnul Hsl Hn1 Hn2 Hh Hs Hne Hcs Hd Hres Hnd Ha Hb. split.
  - eapply (WTFS_runs op name header salt cs n1 d); try done. consts; lia.
  - pose proof (RFFS_name_too_long op (name ++ ext) n2 b rest Hn2) as H.
    destruct (randombytes_buf _ _). do 2 eexists. apply H; [|done].
    rewrite blen_app. change (blen ext) with 4. unfold NAME_MAX. consts; lia.
Qed.

(** Deleting the empty name is deleting the user's directory: when that
    directory is not empty, [remove] throws, and the handler does not catch the
    exception. *)
Lemma delete_empty_name_throws (op : FS_Operator) (rnonce rest : bytes) (d : path) (a : aworld) :
  length rnonce = crypto_aead_chacha20poly1305_NPUBBYTES ->
  dir_string (user_dir op) -> resolve_dir (a_fs a) (user_dir op) = Some d ->
  children (fs_nodes (a_fs a)) d <> [] ->
  a_in a = wire (server_rx op) rnonce [x00] ++ rest ->
  exists a', throws (DFFS_Handler__Server op) a filesystem_error a'.
Proof.
  intros Hn Hd Hres Hc Ha. eexists. eapply (DFFS_throws op [] rnonce); try done; [constructor|].
  unfold fs_remove. rewrite (locate_in_dir _ _ d) by (done || constructor).
  rewrite bool_decide_eq_true_2 by tauto. rewrite bool_decide_eq_true_2 by done.
  unfold remove_dir. rewrite bool_decide_eq_false_2; [done|tauto].
Qed.

Lemma send_Ok d (w : world) : exists n w', send d w = Ok n w'.
Proof. unfold send. repeat case_match; eauto. Qed.

(** Sending goes on whatever becomes of the connection. *)
Lemma wrap_and_send_Ok data tx nonce (w : world) :
  blen data <= FILE_ENCRYPTED_CHUNK_SIZE ->
  exists w', wrap_and_send data tx nonce w = Ok (sodium_increment nonce) w'.
Proof.
  intros Hd. unfold wrap_and_send, SessionEncWrapper_sender, encrypt_stream_buffer.
  rewrite aead_encrypt_seal.
  rewrite (proj2 (Z.ltb_ge _ _)) by (rewrite blen_seal; consts; lia).
  unfold mbind, M_bind, mret, M_ret, send_all. cbn [enc_wrap_type].
  rewrite bool_decide_eq_false_2 by (intros H; by apply H).
  match goal with |- context [send ?d w] => destruct (send_Ok d w) as (n & w' & ->) end. eauto.
Qed.

Lemma send_raw_blob_Ok data (w : world) : exists rc w', send_raw_blob data w = Ok rc w'.
Proof.
  unfold send_raw_blob, mbind, M_bind. destruct (send_Ok (le_encode 8 (blen data)) w) as (n & w1 & ->).
  destruct (negb _); [by do 2 eexists|]. destruct (_ <? _); [|by do 2 eexists].
  destruct (send_Ok data w1) as (n2 & w2 & ->). destruct (negb _); by do 2 eexists.
Qed.

Lemma RFFS_loop_directory fuel : forall op nonce g (w : world),
  RFFS_loop fuel op (IFStream true [] false true g) nonce w = Diverge.
Proof.
  induction fuel as [|fuel IH]; intros op nonce g w; [done|].
  cbn [RFFS_loop ifstream_read if_eof if_fail orb if_dir if_rest].
  destruct (wrap_and_send_Ok (int_encode MEAT_CHUNK) (server_tx op) nonce w) as [w1 E1];
    [consts; len|].
  rewrite (bind_Ok _ _ _ _ _ E1).
  destruct (send_raw_blob_Ok [] w1) as (rc & w2 & E2). rewrite (bind_Ok _ _ _ _ _ E2). apply IH.
Qed.

(** C38: A request for the empty name opens the user's directory, which cannot
    be read and never reaches its end: the handler never returns.  However many
    rounds it is given, its loop announces another empty chunk, even when the
    client is gone. *)
Theorem download_of_directory_never_ends (op : FS_Operator) (rnonce rest : bytes) (d : path)
    (a : aworld) (w : world) :
  length rnonce = crypto_aead_chacha20poly1305_NPUBBYTES ->
  dir_string (user_dir op) -> resolve_dir (a_fs a) (user_dir op) = Some d ->
  a_in a = wire (server_rx op) rnonce [x00] ++ rest -> repr w a ->
  RFFS_Handler__Server op w = Diverge /\
  forall fuel nonce w', RFFS_loop fuel op
    (snd (ifstream_read 1 (ifstream_open (a_fs a) (user_dir op)))) nonce w' = Diverge.
Proof.
  intros Hn Hd Hres Ha Hw.
  assert (ifstream_open (a_fs a) (user_dir op ++ []) = IFStream true [] false false 0) as Hopen.
  { unfold ifstream_open. rewrite (locate_in_dir _ _ d) by (done || constructor).
    by rewrite bool_decide_eq_true_2 by tauto. }
  split; [|intros; rewrite app_nil_r in Hopen; rewrite Hopen; apply RFFS_loop_directory].
  unfold RFFS_Handler__Server.
  destruct (runs_randombytes crypto_aead_chacha20poly1305_NPUBBYTES a w Hw) as (w1 & E1 & Hw1).
  rewrite (bind_Ok _ _ _ _ _ E1).
  destruct (runs_reader (server_rx op) rnonce [x00] rest (a_set_rng (snd (randombytes_buf (a_rng a)
    crypto_aead_chacha20poly1305_NPUBBYTES)) a)) with (w := w1) as (w2 & E2 & Hw2);
    [consts; len|done|done|done|].
  rewrite (bind_Ok _ _ _ _ _ E2), not_corrupted_sealed, unwrap_sealed by (consts; len). rsimpl.
  cbn [Z.eqb negb]. rewrite (bind_Ok _ _ _ [] w2) by (by rewrite (c_str_received []) by constructor).
  destruct (runs_open_in (user_dir op ++ []) _ w2 Hw2) as (w3 & E3 & Hw3).
  cbn [a_fs a_set_in a_set_rng] in E3. rewrite Hopen in E3.
  rewrite (bind_Ok _ _ _ _ _ E3). cbn [if_fail ifstream_read if_eof if_dir orb]. rsimpl.
  edestruct (fun d => wrap_and_send_Ok d (server_tx op)) as [w4 E4]; [|rewrite (bind_Ok _ _ _ _ _ E4)].
  { rewrite overwrite_nil. unfold blen. rewrite length_indet. consts; lia. }
  edestruct (fun d => wrap_and_send_Ok d (server_tx op)) as [w5 E5]; [|rewrite (bind_Ok _ _ _ _ _ E5)].
  { rewrite overwrite_nil. unfold blen. rewrite length_indet. consts; lia. }
  unfold mbind, M_bind. by rewrite RFFS_loop_directory.
Qed.

(** C36: A download is not confined to the user's directory: the name
    ../<other>/<file> makes the handler send the other user's file. *)
Theorem download_escapes_directory (op : FS_Operator) (other file header salt enc rnonce rest : bytes)
    (cs : list bytes) (d : path) (u : bytes) (a : aworld) :
  let name := str "../" ++ other ++ slash :: file in
  dir_string (user_dir op) -> resolve_dir (a_fs a) (user_dir op) = Some (d ++ [u]) ->
  plain_name other -> plain_name file -> no_nul other -> no_nul file ->
  blen name < PRE_EXT_FILE_NAME_LEN ->
  fs_nodes (a_fs a) !! (d ++ [other]) = Some NDir ->
  has_file (a_fs a) (d ++ [other; file]) (header ++ salt ++ enc) ->
  length header = crypto_secretstream_xchacha20poly1305_HEADERBYTES ->
  length salt = crypto_pwhash_SALTBYTES ->
  chunks (Z.to_nat FILE_ENCRYPTED_CHUNK_SIZE) enc cs ->
  length rnonce = crypto_aead_chacha20poly1305_NPUBBYTES ->
  a_in a = wire (server_rx op) rnonce (name ++ [x00]) ++ rest ->
  exists nonce op' a', runs (RFFS_Handler__Server op) a (0, op') a' /\
    a_out a' = a_out a ++ download_stream (server_tx op) nonce header salt cs.
Proof.
  intros name Hd Hres Ho Hfl Hon Hfn Hlen Hdir Hfile Hh Hs Hcs Hn Ha.
  pose proof (RFFS_runs_open op name header salt enc cs rnonce a rest Hn Hlen) as Hr.
  destruct (randombytes_buf _ _) as [nonce r]. exists nonce. do 2 eexists.
  split; [apply Hr; try done|done].
  - repeat constructor; try done. apply Forall_app. split; [done|]. by constructor.
  - unfold ifstream_open.
    assert (locate (a_fs a) (user_dir op ++ name) = TName (d ++ [other]) file) as ->.
    { replace (user_dir op ++ name) with ((user_dir op ++ str "../" ++ other ++ [slash]) ++ file)
        by (unfold name; by rewrite <- !app_assoc).
      apply locate_plain; [| |done].
      - exists (user_dir op ++ str "../" ++ other). split; [by destruct Hd as ([|] & ? & ->)|].
        by rewrite <- !app_assoc.
      - by apply (resolve_up (a_fs a) (user_dir op) d u other). }
    rewrite <- (app_assoc d [other] [file]). cbn [app]. unfold has_file in Hfile. by rewrite Hfile.
Qed.

Lemma unwrap_forged ct nn rx cap buf l0 m :
  crypto_aead_chacha20poly1305_ABYTES <= blen ct <= stream_chunk_size ->
  blen ct - crypto_aead_chacha20poly1305_ABYTES <= cap ->
  aead_decrypt rx nn ct = None -> aead_reject rx nn ct = (m, 0) ->
  unwrap (SEW false ct nn (blen ct) READER) rx cap buf l0 =
    (1, SEW true ct nn (blen ct) READER, overwrite buf m, 0).
Proof.
  intros Hc Hcap Hd Hr. unfold unwrap. cbn [enc_wrap_type corrupted session_encrypted_data_length
    session_encrypted_data sew_nonce].
  rewrite bool_decide_eq_false_2 by (intros H; by apply H).
  rewrite u64_small by (consts; lia).
  rewrite !(proj2 (Z.ltb_ge _ _)) by (consts; lia). by rewrite Hd, Hr.
Qed.

(** C39: The file name of an upload is not authenticated: [init_read] only
    looks for the code 2 of [unwrap], so a name message that fails decryption
    (code 1, with the length libsodium reports then, 0) is taken as the empty
    name and the upload goes on, with 0 as the result. *)
Theorem forged_name_accepted (op : FS_Operator) (ct nn m header salt buf h0 s0 nonce rest : bytes)
    (a : aworld) :
  length nonce = crypto_aead_chacha20poly1305_NPUBBYTES ->
  length nn = crypto_aead_chacha20poly1305_NPUBBYTES ->
  crypto_aead_chacha20poly1305_ABYTES <= blen ct <= PRE_EXT_FILE_NAME_LEN ->
  aead_decrypt (server_rx op) nn ct = None -> aead_reject (server_rx op) nn ct = (m, 0) ->
  length buf = Z.to_nat FILE_ENCRYPTED_CHUNK_SIZE ->
  length header = length h0 -> length h0 = crypto_secretstream_xchacha20poly1305_HEADERBYTES ->
  length salt = length s0 -> length s0 = crypto_pwhash_SALTBYTES ->
  a_in a = wire (server_rx op) nonce [x01]
    ++ le_encode sizeof_ull (blen ct) ++ nn ++ ct
    ++ wire (server_rx op) (nonce_after 2 nonce) header
    ++ wire (server_rx op) (nonce_after 3 nonce) salt ++ rest ->
  exists buf', runs (init_read op buf h0 s0) a (0, buf', header, salt) (a_set_in rest a) /\
    c_str buf' = Some [].
Proof.
  intros Hn Hnn Hct Hd Hr Hbuf Hh Hh0 Hs Hs0 Ha.
  assert (exists b tail, overwrite buf m = b :: tail) as (b & tail & Hov).
  { unfold overwrite. destruct m as [|b m]; [|eauto]. destruct buf; [done|]. simpl. eauto. }
  exists (x00 :: tail). split; [|done]. unfold init_read.
  read_message (server_rx op) nonce [x01].
  eapply runs_bind; [apply runs_initialised, bool_decide_eq_true_2; by right|].
  rewrite bool_decide_eq_false_2 by done.
  eapply runs_bind; [apply (runs_reader_raw ct nn); [consts; lia|done|done]|]. cbn [is_corrupted corrupted].
  rewrite (unwrap_forged ct nn _ _ _ _ m) by (done || (consts; lia)). rsimpl. cbn [Z.eqb negb].
  eapply runs_bind; [by apply runs_initialised|].
  change (MAX_FILE_NAME_LENGTH <? u64 (0 + blen ext)) with false.
  rewrite Hov. eapply runs_bind; [by apply runs_defined, (store_byte_end [])|].
  read_message (server_rx op) (nonce_after 2 nonce) header.
  rewrite overwrite_full by done. cbn [Z.eqb negb andb].
  read_message (server_rx op) (nonce_after 3 nonce) salt.
  rewrite overwrite_full by done. apply runs_ret.
Qed.

End fsoperator_properties.

(** ** Concrete runs *)

Section fsoperator_runs.
#[local] Existing Instances toy_sodium toy_sodium_laws toy_env toy_env_laws.

Definition demo_header : bytes := le_encode 24 9.
Definition demo_salt : bytes := le_encode 16 8.

(** Two users; bob has a file. *)
Definition demo_user_fs : fs :=
  Fs [] (<[[str "MEF_S"] := NDir]> (<[[str "MEF_S"; str "ann"] := NDir]>
    (<[[str "MEF_S"; str "bob"] := NDir]>
      (<[[str "MEF_S"; str "bob"; str "f.enc"] := NFile (demo_header ++ demo_salt ++ str "enc")]> ∅)))).

Definition demo_op (user : string) : FS_Operator :=
  FSO 5 (base_dir ++ str user ++ [slash]) demo_key demo_key demo_nonce.

Definition demo_server (i : bytes) : aworld := @AWorld toy_sodium i [] demo_user_fs 0 demo_cin [].

Lemma demo_dir_string u : str u <> [] -> dir_string (user_dir (demo_op u)).
Proof. intros Hu. exists (base_dir ++ str u). simpl user_dir. by rewrite <- app_assoc. Qed.

Lemma missing_file_unanswered_witness :
  exists op' r, runs (RFFS_Handler__Server (demo_op "ann"))
    (demo_server (wire demo_key demo_nonce (str "x.enc" ++ [x00]))) (1, op')
    (a_set_in [] (a_set_rng r (demo_server (wire demo_key demo_nonce (str "x.enc" ++ [x00]))))).
Proof.
  apply (missing_file_unanswered (demo_op "ann") (str "x.enc") demo_nonce []
    [str "MEF_S"; str "ann"]); [reflexivity|reflexivity| | |by apply demo_dir_string| | |].
  - repeat constructor; discriminate.
  - split_and!; try discriminate. repeat constructor; discriminate.
  - vm_compute. reflexivity.
  - vm_compute. reflexivity.
  - rewrite app_nil_r. reflexivity.
Defined.

Lemma long_names_only_upload_witness :
  let name := replicate 248 x61 in
  let a := demo_server (upload_stream demo_key demo_nonce name demo_header demo_salt [str "c"]) in
  let b := demo_server (wire demo_key demo_nonce ((name ++ ext) ++ [x00])) in
  runs (WTFS_Handler__Server (demo_op "ann")) a 0
    (a_set_in [] (a_set_fs (stored (a_fs a) ([str "MEF_S"; str "ann"] ++ [name ++ ext])
      (demo_header ++ demo_salt ++ concat [str "c"])) a)) /\
  exists op' r, runs (RFFS_Handler__Server (demo_op "ann")) b (2, op')
    (a_set_in [] (a_set_rng r b)).
Proof.
  intros name a b.
  apply (long_names_only_upload (demo_op "ann") name demo_header demo_salt demo_nonce demo_nonce
    [] [str "c"] [str "MEF_S"; str "ann"] a b);
    [split; vm_compute; discriminate| | |reflexivity|reflexivity|reflexivity|reflexivity
    |discriminate| |by apply demo_dir_string| | | |].
  - apply Forall_replicate. discriminate.
  - apply Forall_replicate. discriminate.
  - repeat constructor. vm_compute. discriminate.
  - vm_compute. reflexivity.
  - vm_compute. discriminate.
  - rewrite app_nil_r. reflexivity.
  - rewrite app_nil_r. reflexivity.
Defined.

Lemma delete_empty_name_throws_witness :
  exists a', throws (DFFS_Handler__Server (demo_op "bob"))
    (demo_server (wire demo_key demo_nonce [x00])) filesystem_error a'.
Proof.
  apply (delete_empty_name_throws (demo_op "bob") demo_nonce [] [str "MEF_S"; str "bob"]);
    [reflexivity|by apply demo_dir_string| | |].
  - vm_compute. reflexivity.
  - vm_compute. discriminate.
  - rewrite app_nil_r. reflexivity.
Defined.

Lemma download_of_directory_never_ends_witness :
  let a := demo_server (wire demo_key demo_nonce [x00]) in
  RFFS_Handler__Server (demo_op "ann") (concretize a) = Diverge.
Proof.
  intros a.
  apply (download_of_directory_never_ends (demo_op "ann") demo_nonce [] [str "MEF_S"; str "ann"] a);
    [reflexivity|by apply demo_dir_string| | |apply repr_concretize].
  - vm_compute. reflexivity.
  - rewrite app_nil_r. reflexivity.
Defined.

Lemma download_escapes_directory_witness :
  let a := demo_server (wire demo_key demo_nonce (str "../bob/f.enc" ++ [x00])) in
  exists nonce op' a', runs (RFFS_Handler__Server (demo_op "ann")) a (0, op') a' /\
    a_out a' = a_out a ++ download_stream demo_key nonce demo_header demo_salt [str "enc"].
Proof.
  intros a.
  apply (download_escapes_directory (demo_op "ann") (str "bob") (str "f.enc") demo_header demo_salt
    (str "enc") demo_nonce [] [str "enc"] [str "MEF_S"] (str "ann") a);
    [by apply demo_dir_string| | | | | |reflexivity| | |reflexivity|reflexivity| |reflexivity|].
  - vm_compute. reflexivity.
  - split_and!; try discriminate. repeat constructor; discriminate.
  - split_and!; try discriminate. repeat constructor; discriminate.
  - repeat constructor; discriminate.
  - repeat constructor; discriminate.
  - vm_compute. reflexivity.
  - vm_compute. reflexivity.
  - constructor. consts. simpl. lia.
  - rewrite app_nil_r. reflexivity.
Defined.

Lemma forged_name_accepted_witness :
  let buf := replicate (Z.to_nat FILE_ENCRYPTED_CHUNK_SIZE) x00 in
  let ct := replicate 20 x07 in
  let a := demo_server (wire demo_key demo_nonce [x01]
    ++ le_encode sizeof_ull (blen ct) ++ demo_nonce ++ ct
    ++ wire demo_key (nonce_after 2 demo_nonce) demo_header
    ++ wire demo_key (nonce_after 3 demo_nonce) demo_salt) in
  exists buf', runs (init_read (demo_op "ann") buf demo_header demo_salt) a
    (0, buf', demo_header, demo_salt) (a_set_in [] a) /\ c_str buf' = Some [].
Proof.
  intros buf ct a.
  apply (forged_name_accepted (demo_op "ann") ct demo_nonce (replicate 4 x00) demo_header demo_salt
    buf demo_header demo_salt demo_nonce [] a); try reflexivity.
  - split; vm_compute; discriminate.
Defined.

End fsoperator_runs.
