(* ===== verification/Agents.v ===== *)
(** The client's agents: [Comms_Agent], [Sender_Agent] and [Receiver_Agent] of
    include/authed_entry.h and src/client/authed_entry.cpp.  A sender encrypts a
    local file chunk by chunk and uploads it; a receiver downloads an encrypted
    file and decrypts it into a local one through the double buffer. *)

From S2P Require Import Prelude Sodium Constants Fs Terminal World Net SessionEnc TwoSlotBuffer Transfer FSOperator.

Record Comms_Agent := CommsAgent {
  ca_client_sock : Z;
  client_tx : bytes;
  client_rx : bytes
}.

(** [buffer] has room for [CHUNK_SIZE + crypto_secretstream_ABYTES] bytes, of
    which [size] are filled. *)
Record Sender_Agent := SenderAgent {
  sa_nonce : bytes;
  sa_buffer : bytes;
  sa_size : Z;
  sa_key : bytes;
  sa_salt : bytes
}.

Record Receiver_Agent := ReceiverAgent {
  ra_nonce : bytes;
  ra_size : Z;
  ra_key : bytes
}.

Definition get_socket (CA : Comms_Agent) : Z := ca_client_sock CA.
Definition get_client_tx (CA : Comms_Agent) : bytes := client_tx CA.
Definition get_client_rx (CA : Comms_Agent) : bytes := client_rx CA.
Definition get_nonce (RA : Receiver_Agent) : bytes := ra_nonce RA.

Definition set_sa_nonce (n : bytes) (SA : Sender_Agent) : Sender_Agent :=
  SenderAgent n (sa_buffer SA) (sa_size SA) (sa_key SA) (sa_salt SA).
Definition set_sa_buffer (b : bytes) (n : Z) (SA : Sender_Agent) : Sender_Agent :=
  SenderAgent (sa_nonce SA) b n (sa_key SA) (sa_salt SA).
Definition set_sa_crypto (k s : bytes) (SA : Sender_Agent) : Sender_Agent :=
  SenderAgent (sa_nonce SA) (sa_buffer SA) (sa_size SA) k s.

Section agents.
Context {SO : Sodium} {EN : Env}.

(** The constructor zeroes the caller's keys after copying them; they are
    returned as well. *)
Definition Comms_Agent_new (tx rx : bytes) (sock : Z) : Comms_Agent * bytes * bytes :=
  (CommsAgent sock tx rx, sodium_memzero tx, sodium_memzero rx).

Definition Comms_Agent_destroy (CA : Comms_Agent) : Comms_Agent :=
  CommsAgent (-420) (sodium_memzero (client_tx CA)) (sodium_memzero (client_rx CA)).

(** Returns 0 and the caller's nonce. *)
Definition notify_server_of_action (CA : Comms_Agent) (action : Z) (original_nonce : bytes)
    : IO (Z * bytes) :=
  nonce ← wrap_and_send (int_encode action) (get_client_tx CA) original_nonce;
  mret (0, nonce).

(** ** [Sender_Agent] *)

Definition set_key (new_key : bytes) (SA : Sender_Agent) : Sender_Agent * bytes :=
  (set_sa_crypto new_key (sa_salt SA) SA, sodium_memzero new_key).

Definition set_salt (new_salt : bytes) (SA : Sender_Agent) : Sender_Agent * bytes :=
  (set_sa_crypto (sa_key SA) new_salt SA, sodium_memzero new_salt).

(** Draws a fresh salt and derives the file key from the password. *)
Definition set_crypto (SA : Sender_Agent) (password : bytes) : IO (Z * Sender_Agent) :=
  salt ← randombytes crypto_pwhash_SALTBYTES;
  match pwhash crypto_box_SEEDBYTES password salt with
  | None => mret (1, set_sa_crypto (pwhash_reject (sa_key SA)) salt SA)
  | Some key => mret (0, set_sa_crypto key salt SA)
  end.

Definition Sender_Agent_new (password : bytes) : IO Sender_Agent :=
  nonce ← randombytes crypto_aead_chacha20poly1305_NPUBBYTES;
  r ← set_crypto
        (SenderAgent nonce (indet "Sender_Agent::buffer" (Z.to_nat FILE_ENCRYPTED_CHUNK_SIZE)) 0
           (indet "Sender_Agent::key" crypto_box_SEEDBYTES)
           (indet "Sender_Agent::salt" crypto_pwhash_SALTBYTES)) password;
  mret (snd r).

Definition Sender_Agent_destroy (SA : Sender_Agent) : Sender_Agent :=
  SenderAgent (sa_nonce SA) (sa_buffer SA) 0 (sodium_memzero (sa_key SA))
    (sodium_memzero (sa_salt SA)).

Definition send_buffer (SA : Sender_Agent) : IO Z :=
  send_raw_blob (take (Z.to_nat (sa_size SA)) (sa_buffer SA)).

Definition send_end_buffer (SA : Sender_Agent) : Sender_Agent :=
  set_sa_buffer (sodium_memzero (sa_buffer SA)) FILE_ENCRYPTED_CHUNK_SIZE SA.

(** Sends the file's status, and when it could be opened its name, the stream
    header and the salt. *)
Definition init_send (CA : Comms_Agent) (SA : Sender_Agent) (file : ifstream)
    (file_name header salt : bytes) : IO (Z * Sender_Agent) :=
  let client_tx := get_client_tx CA in
  let file_exist := negb (if_fail file) in
  nonce ← wrap_and_send [if file_exist then x01 else x00] client_tx (sa_nonce SA);
  if negb file_exist then mret (1, set_sa_nonce nonce SA) else
  nonce ← wrap_and_send file_name client_tx nonce;
  nonce ← wrap_and_send header client_tx nonce;
  nonce ← wrap_and_send salt client_tx nonce;
  mret (0, set_sa_nonce nonce SA).

(** The encrypting loop of [encrypt_and_send_to_server]. *)
Fixpoint send_file_loop (fuel : nat) (CA : Comms_Agent) (SA : Sender_Agent) (file : ifstream)
    (state : ss_state) : IO Sender_Agent :=
  match fuel with
  | O => diverge
  | S fuel' =>
      let '(file_chunk, file) := ifstream_read (Z.to_nat CHUNK_SIZE) file in
      let ciphertext_len := crypto_secretstream_xchacha20poly1305_ABYTES + blen file_chunk in
      let tag := if if_eof file then crypto_secretstream_xchacha20poly1305_TAG_FINAL else 0 in
      let '(c, state) := ss_push state file_chunk tag in
      let SA := set_sa_buffer (overwrite (sa_buffer SA) c) ciphertext_len SA in
      nonce ← wrap_and_send
        (int_encode (if tag =? crypto_secretstream_xchacha20poly1305_TAG_FINAL
                     then END_CHUNK else MEAT_CHUNK)) (get_client_tx CA) (sa_nonce SA);
      let SA := set_sa_nonce nonce SA in
      _ ← send_buffer SA;
      if if_eof file then mret SA else send_file_loop fuel' CA SA file state
  end.

Definition encrypt_and_send_to_server (CA : Comms_Agent) (SA : Sender_Agent)
    (file_name password : bytes) : IO (Z * Sender_Agent) :=
  r ← set_crypto SA password;
  let '(_, SA) := r in
  file ← open_in file_name;
  r ← crypto_secretstream_init_push (sa_key SA);
  let '(state, header) := r in
  r ← init_send CA SA file file_name header (sa_salt SA);
  let '(rc, SA) := r in
  if negb (rc =? 0) then mret (1, SA) else
  SA ← send_file_loop (file_fuel file) CA SA file state;
  mret (0, set_sa_crypto (sodium_memzero (sa_key SA)) (sodium_memzero (sa_salt SA)) SA).

(** ** [Receiver_Agent] *)

Definition Receiver_Agent_new : IO Receiver_Agent :=
  nonce ← randombytes crypto_aead_chacha20poly1305_NPUBBYTES;
  mret (ReceiverAgent nonce 0 (indet "Receiver_Agent::key" crypto_box_SEEDBYTES)).

Definition Receiver_Agent_destroy (RA : Receiver_Agent) : Receiver_Agent :=
  ReceiverAgent (ra_nonce RA) 0 (sodium_memzero (ra_key RA)).

(** [Receiver_Agent::init_read] *)
Definition receiver_init_read (CA : Comms_Agent) (header salt : bytes) : IO (Z * bytes * bytes) :=
  header_wrap ← SessionEncWrapper_reader;
  let '(rc, _, header, _) :=
    unwrap header_wrap (get_client_rx CA)
      (Z.of_nat crypto_secretstream_xchacha20poly1305_HEADERBYTES) header
      (indet_ull "decrypted_header_len") in
  if negb (rc =? 0) then mret (2, header, salt) else
  salt_wrap ← SessionEncWrapper_reader;
  let '(rc, _, salt, _) :=
    unwrap salt_wrap (get_client_rx CA) (Z.of_nat crypto_pwhash_SALTBYTES) salt
      (indet_ull "decrypted_salt_len") in
  if negb (rc =? 0) then mret (1, header, salt) else
  mret (0, header, salt).

(** The decrypting loop of [decrypt_and_read_from_server]: the value it returns
    and the operations it performs on the double buffer. *)
Fixpoint receive_file_loop (fuel : nat) (CA : Comms_Agent) (prefix : bytes) (state : ss_state)
    : IO (Z * list pact) :=
  match fuel with
  | O => diverge
  | S fuel' =>
      prefix_wrap ← SessionEncWrapper_reader;
      let '(_, _, prefix, _) :=
        unwrap prefix_wrap (get_client_rx CA) sizeof_int prefix
          (indet_ull "decrypted_prefix_len") in
      blob ← recv_raw_blob FILE_ENCRYPTED_CHUNK_SIZE 0;
      let '(rc, file_chunk, file_chunk_len) := blob in
      if negb (rc =? 0) then mret (1, [PFinish]) else
      match ss_pull state file_chunk with
      | None => mret (2, [PNext; PFinish])
      | Some (m, tag, state) =>
          let ops := [PNext; PFill m;
            PPublish (u64 (file_chunk_len - crypto_secretstream_xchacha20poly1305_ABYTES))] in
          if negb (int_decode prefix =? END_CHUNK) then
            r ← receive_file_loop fuel' CA prefix state;
            let '(rc, ops') := r in mret (rc, ops ++ ops')
          else mret (0, ops ++ [PFinish])
      end
  end.

Definition decrypt_and_read_from_server (CA : Comms_Agent) (RA : Receiver_Agent)
    (file : ofstream) (password : bytes) : IO (Z * Receiver_Agent) :=
  r ← receiver_init_read CA
        (indet "header" crypto_secretstream_xchacha20poly1305_HEADERBYTES)
        (indet "salt" crypto_pwhash_SALTBYTES);
  let '(rc, header, salt) := r in
  if negb (rc =? 0) then mret (1, RA) else
  match pwhash crypto_box_SEEDBYTES password salt with
  | None => mret (1, ReceiverAgent (ra_nonce RA) (ra_size RA) (pwhash_reject (ra_key RA)))
  | Some key =>
      let RA := ReceiverAgent (ra_nonce RA) (ra_size RA) key in
      match ss_init_pull header key with
      | None => mret (2, RA)
      | Some state =>
          fuel ← gets net_fuel;
          r ← receive_file_loop fuel CA (int_encode END_CHUNK) state;
          let '(rc, ops) := r in
          _ ← write_out file (run_pipeline sched FILE_ENCRYPTED_CHUNK_SIZE ops);
          mret (rc, RA)
      end
  end.

End agents.

(** ** Behaviour of the agents *)

Section agents_lemmas.
Context {SO : Sodium} {EN : Env} {SL : SodiumLaws SO} {EL : EnvLaws EN}.

Lemma take_overwrite_prefix buf c n :
  n = blen c -> take (Z.to_nat n) (overwrite buf c) = c.
Proof. intros ->. by rewrite to_nat_blen, take_overwrite. Qed.

Lemma send_file_loop_runs CA cs : forall data st SA fuel a g,
  chunks (Z.to_nat CHUNK_SIZE) data cs -> (length data < fuel)%nat ->
  exists SA',
    runs (send_file_loop fuel CA SA (IFStream false data false false g) st) a SA'
      (a_set_out (a_out a ++ chunk_frames (client_tx CA) (sa_nonce SA) (push_all st cs)) a) /\
    sa_key SA' = sa_key SA /\ sa_salt SA' = sa_salt SA /\
    sa_nonce SA' = nonce_after (length cs) (sa_nonce SA).
Proof.
  intros data st SA fuel a g H. revert st SA fuel a g.
  induction H as [data Hd|c data cs Hc H IH]; intros st SA fuel a g Hfuel.
  - destruct fuel as [|fuel]; [lia|].
    cbn [send_file_loop ifstream_read if_eof if_fail orb if_dir if_rest].
    rewrite take_ge by lia. rewrite (proj2 (Nat.ltb_lt _ _)) by done. rsimpl. cbn [if_eof].
    rewrite Z.eqb_refl. cbn [push_all].
    destruct (ss_push st data _) as [e st'] eqn:E.
    pose proof (length_ss_push _ _ _ _ _ E) as He.
    eexists. split.
    { eapply runs_bind; [apply runs_wrap_and_send; consts; len|].
      unfold send_buffer. cbn [sa_size sa_buffer set_sa_nonce set_sa_buffer sa_nonce].
      rewrite take_overwrite_prefix by lia.
      eapply runs_bind; [apply runs_send_raw_blob|].
      eapply runs_conv; [apply runs_ret|done|].
      cbn [chunk_frames a_out a_set_out]. unfold blob, get_client_tx.
      by rewrite app_nil_r, <- app_assoc. }
    done.
  - destruct fuel as [|fuel]; [lia|].
    cbn [send_file_loop ifstream_read if_eof if_fail orb if_dir if_rest].
    rewrite take_app_length', drop_app_length' by done.
    rewrite (proj2 (Nat.ltb_ge _ _)) by lia. rsimpl. cbn [if_eof].
    pose proof (chunks_nonempty _ _ _ H). destruct cs as [|c' cs]; [done|].
    cbn [push_all]. destruct (ss_push st c 0) as [e st'] eqn:E.
    pose proof (length_ss_push _ _ _ _ _ E) as He.
    set (SA1 := set_sa_nonce (sodium_increment (sa_nonce SA))
      (set_sa_buffer (overwrite (sa_buffer SA) e)
        (crypto_secretstream_xchacha20poly1305_ABYTES + blen c) SA)).
    rewrite length_app in Hfuel.
    destruct (IH st' SA1 fuel
      (a_set_out ((a_out a ++ wire (client_tx CA) (sa_nonce SA) (int_encode MEAT_CHUNK))
        ++ blob e) a) (length c)) as (SA' & Hr & Hk & Hs & Hn); [consts; lia|].
    exists SA'. split; [|split_and!; [done|done|rewrite Hn; apply nonce_after_S]].
    + eapply runs_bind; [apply runs_wrap_and_send; consts; len|].
      unfold send_buffer. cbn [sa_size sa_buffer set_sa_nonce set_sa_buffer sa_nonce].
      rewrite take_overwrite_prefix by lia.
      eapply runs_bind; [apply runs_send_raw_blob|].
      eapply runs_conv; [exact Hr|done|].
      unfold a_set_out. cbn [a_in a_out a_fs a_rng a_stdin a_stdout]. f_equal.
      cbn [push_all chunk_frames]. destruct (ss_push st' c' _). cbn [chunk_frames].
      by rewrite <- !app_assoc.
Qed.

Lemma init_send_runs CA SA file name header salt a :
  if_fail file = false -> blen name <= FILE_ENCRYPTED_CHUNK_SIZE ->
  blen header <= FILE_ENCRYPTED_CHUNK_SIZE -> blen salt <= FILE_ENCRYPTED_CHUNK_SIZE ->
  runs (init_send CA SA file name header salt) a
    (0, set_sa_nonce (nonce_after 4 (sa_nonce SA)) SA)
    (a_set_out (a_out a ++ wire (client_tx CA) (sa_nonce SA) [x01]
       ++ wire (client_tx CA) (nonce_after 1 (sa_nonce SA)) name
       ++ wire (client_tx CA) (nonce_after 2 (sa_nonce SA)) header
       ++ wire (client_tx CA) (nonce_after 3 (sa_nonce SA)) salt) a).
Proof.
  intros Hf Hn Hh Hs. unfold init_send. rewrite Hf. rsimpl.
  do 4 (eapply runs_bind; [apply runs_wrap_and_send; first [done|consts; len]|]).
  eapply runs_conv; [apply runs_ret|done|].
  unfold a_set_out. cbn [a_in a_out a_fs a_rng a_stdin a_stdout]. f_equal.
  by rewrite <- !app_assoc.
Qed.

(** A file that cannot be opened is announced as missing; nothing else is sent. *)
Lemma init_send_missing CA SA file name header salt a :
  if_fail file = true ->
  runs (init_send CA SA file name header salt) a
    (1, set_sa_nonce (sodium_increment (sa_nonce SA)) SA)
    (a_set_out (a_out a ++ wire (client_tx CA) (sa_nonce SA) [x00]) a).
Proof.
  intros Hf. unfold init_send. rewrite Hf. rsimpl.
  eapply runs_bind; [apply runs_wrap_and_send; consts; len|]. apply runs_ret.
Qed.

Lemma set_crypto_runs SA password salt r1 a :
  randombytes_buf (a_rng a) crypto_pwhash_SALTBYTES = (salt, r1) ->
  runs (set_crypto SA password) a
    (match pwhash crypto_box_SEEDBYTES password salt with
     | None => (1, set_sa_crypto (pwhash_reject (sa_key SA)) salt SA)
     | Some key => (0, set_sa_crypto key salt SA)
     end) (a_set_rng r1 a).
Proof.
  intros Hs. unfold set_crypto. eapply runs_bind; [apply runs_randombytes|].
  rewrite Hs. cbn [fst snd]. destruct (pwhash _ _ _); apply runs_ret.
Qed.

(** Uploading the file [data]: the bytes sent are an [upload_stream] of the
    encrypted chunks, under a key derived from the password and a fresh salt,
    and the key and the salt are wiped from the agent. *)
Lemma encrypt_and_send_runs CA SA file_name password data cs salt r1 key st header r2 a :
  ifstream_open (a_fs a) file_name = IFStream false data false false 0 ->
  chunks (Z.to_nat CHUNK_SIZE) data cs ->
  blen file_name <= FILE_ENCRYPTED_CHUNK_SIZE ->
  randombytes_buf (a_rng a) crypto_pwhash_SALTBYTES = (salt, r1) ->
  pwhash crypto_box_SEEDBYTES password salt = Some key ->
  ss_init_push r1 key = (st, header, r2) ->
  exists SA',
    runs (encrypt_and_send_to_server CA SA file_name password) a (0, SA')
      (a_set_rng r2 (a_set_out (a_out a ++
         upload_stream (client_tx CA) (sa_nonce SA) file_name header salt (push_all st cs)) a)) /\
    sa_key SA' = replicate crypto_box_SEEDBYTES x00 /\
    sa_salt SA' = replicate crypto_pwhash_SALTBYTES x00.
Proof.
  intros Hopen Hcs Hname Hsalt Hkey Hpush.
  pose proof (length_randombytes (a_rng a) crypto_pwhash_SALTBYTES) as Hls.
  rewrite Hsalt in Hls. cbn [fst] in Hls.
  destruct (ss_init_sync _ _ _ _ _ Hpush) as [Hlh _].
  set (SA1 := set_sa_nonce (nonce_after 4 (sa_nonce SA)) (set_sa_crypto key salt SA)).
  set (a1 := a_set_rng r2 (a_set_out (a_out a ++ wire (client_tx CA) (sa_nonce SA) [x01]
       ++ wire (client_tx CA) (nonce_after 1 (sa_nonce SA)) file_name
       ++ wire (client_tx CA) (nonce_after 2 (sa_nonce SA)) header
       ++ wire (client_tx CA) (nonce_after 3 (sa_nonce SA)) salt) a)).
  destruct (send_file_loop_runs CA cs data st SA1 (file_fuel (IFStream false data false false 0))
    a1 0 Hcs) as (SA' & Hr & Hk & Hs & Hn).
  { unfold file_fuel. simpl. lia. }
  eexists. split; [|split].
  - unfold encrypt_and_send_to_server.
    eapply runs_bind; [by apply set_crypto_runs|]. rewrite Hkey. rsimpl.
    eapply runs_bind; [apply runs_open_in|]. cbn [a_fs a_set_rng]. rewrite Hopen.
    eapply runs_bind; [by apply runs_init_push|]. rsimpl.
    eapply runs_bind; [apply init_send_runs; [done|done|consts; len|consts; len]|]. rsimpl.
    eapply runs_bind; [exact Hr|].
    eapply runs_conv; [apply runs_ret|done|].
    unfold a1, SA1, a_set_rng, a_set_out, upload_stream.
    cbn [a_in a_out a_fs a_rng a_stdin a_stdout sa_nonce set_sa_nonce]. f_equal.
    by rewrite <- !app_assoc.
  - simpl. rewrite memzero_zero, Hk. simpl. by rewrite (length_pwhash _ _ _ _ Hkey).
  - simpl. rewrite memzero_zero, Hs. simpl. by rewrite Hls.
Qed.

(** *** Downloading *)

Lemma receive_file_loop_runs CA d cs : chunks (Z.to_nat CHUNK_SIZE) d cs ->
  forall st st' nonce fuel prefix a rest,
  ss_sync st st' -> (length cs <= fuel)%nat -> length prefix = 4%nat ->
  length nonce = crypto_aead_chacha20poly1305_NPUBBYTES ->
  a_in a = chunk_frames (client_rx CA) nonce (push_all st cs) ++ rest ->
  runs (receive_file_loop fuel CA prefix st') a (0, chunk_ops cs) (a_set_in rest a).
Proof.
  induction 1 as [d Hd|c d cs Hc H IH]; intros st st' nonce fuel prefix a rest Hsync Hfuel Hpre Hn Ha.
  - destruct fuel as [|fuel]; [simpl in *; lia|]. cbn [push_all] in Ha.
    destruct (ss_push st d _) as [e st1] eqn:E.
    pose proof (length_ss_push _ _ _ _ _ E) as He. unfold blen in He.
    destruct (ss_push_pull _ _ _ crypto_secretstream_xchacha20poly1305_TAG_FINAL _ _ Hsync
      ltac:(unfold crypto_secretstream_xchacha20poly1305_TAG_FINAL; lia) E) as (st1' & Ep & _).
    cbn [chunk_frames] in Ha. unfold blob in Ha. rewrite <- !app_assoc in Ha.
    cbn [receive_file_loop].
    read_message (client_rx CA) nonce (int_encode END_CHUNK).
    eapply runs_bind;
      [apply (runs_recv_raw_blob _ _ e); [unfold blen; consts; lia|consts; lia|done]|]. rsimpl.
    cbn [negb Z.eqb]. rewrite Ep. rewrite overwrite_full by (by rewrite Hpre).
    rewrite int_decode_encode by (unfold END_CHUNK; lia). rewrite Z.eqb_refl. rsimpl.
    rewrite u64_small by (unfold blen; consts; lia).
    replace (blen e - crypto_secretstream_xchacha20poly1305_ABYTES) with (blen d)
      by (unfold blen; lia). apply runs_ret.
  - destruct fuel as [|fuel]; [simpl in *; lia|].
    pose proof (chunks_nonempty _ _ _ H). destruct cs as [|c' cs]; [done|].
    cbn [push_all] in Ha. destruct (ss_push st c 0) as [e st1] eqn:E.
    pose proof (length_ss_push _ _ _ _ _ E) as He. unfold blen in He.
    destruct (ss_push_pull _ _ _ 0 _ _ Hsync ltac:(lia) E) as (st1' & Ep & Hsync').
    change (let '(e, st'0) := ss_push st1 c' _ in e :: push_all st'0 cs)
      with (push_all st1 (c' :: cs)) in Ha.
    destruct (push_all st1 (c' :: cs)) as [|e' es] eqn:Epush;
      [by apply push_all_nonempty in Epush|].
    cbn [chunk_frames] in Ha. unfold blob at 1 in Ha. rewrite <- (app_assoc (wire _ _ _)) in Ha.
    rewrite <- !app_assoc in Ha.
    cbn [receive_file_loop].
    read_message (client_rx CA) nonce (int_encode MEAT_CHUNK).
    eapply runs_bind;
      [apply (runs_recv_raw_blob _ _ e); [unfold blen; consts; lia|consts; lia|done]|]. rsimpl.
    cbn [negb Z.eqb]. rewrite Ep. rewrite overwrite_full by (by rewrite Hpre).
    rewrite int_decode_encode by (unfold MEAT_CHUNK; lia).
    change (MEAT_CHUNK =? END_CHUNK) with false. rsimpl.
    rewrite u64_small by (unfold blen; consts; lia).
    replace (blen e - crypto_secretstream_xchacha20poly1305_ABYTES) with (blen c)
      by (unfold blen; lia).
    eapply runs_bind; [apply (IH st1 st1' (sodium_increment nonce) fuel)|];
      [done|simpl in *; lia|done|by rewrite length_increment| |].
    { rewrite Epush. cbn [chunk_frames]. by rewrite <- !app_assoc. }
    apply runs_ret.
Qed.

Lemma receiver_init_read_runs CA header salt h0 s0 nonce a rest :
  length nonce = crypto_aead_chacha20poly1305_NPUBBYTES ->
  length header = length h0 -> length h0 = crypto_secretstream_xchacha20poly1305_HEADERBYTES ->
  length salt = length s0 -> length s0 = crypto_pwhash_SALTBYTES ->
  a_in a = wire (client_rx CA) nonce header ++ wire (client_rx CA) (nonce_after 1 nonce) salt ++ rest ->
  runs (receiver_init_read CA h0 s0) a (0, header, salt) (a_set_in rest a).
Proof.
  intros Hn Hh Hh0 Hs Hs0 Ha. unfold receiver_init_read.
  read_message (client_rx CA) nonce header. rewrite overwrite_full by done.
  read_message (client_rx CA) (nonce_after 1 nonce) salt. rewrite overwrite_full by done.
  apply runs_ret.
Qed.

(** Downloading a [download_stream] of the encrypted chunks of [data] appends
    [data] to the local file. *)
Lemma decrypt_and_read_runs CA RA file password data cs salt key rp st header rp' nonce a rest :
  chunks (Z.to_nat CHUNK_SIZE) data cs ->
  length nonce = crypto_aead_chacha20poly1305_NPUBBYTES ->
  length salt = crypto_pwhash_SALTBYTES ->
  pwhash crypto_box_SEEDBYTES password salt = Some key ->
  ss_init_push rp key = (st, header, rp') ->
  a_in a = download_stream (client_rx CA) nonce header salt (push_all st cs) ++ rest ->
  runs (decrypt_and_read_from_server CA RA file password) a
    (0, ReceiverAgent (ra_nonce RA) (ra_size RA) key)
    (a_set_in rest (a_set_fs (ofstream_write file data (a_fs a)) a)).
Proof.
  intros Hcs Hn Hsalt Hkey Hpush Ha.
  destruct (ss_init_sync _ _ _ _ _ Hpush) as (Hlh & st' & Hpull & Hsync).
  unfold download_stream in Ha. rewrite <- !app_assoc in Ha.
  unfold decrypt_and_read_from_server.
  eapply runs_bind; [apply (receiver_init_read_runs CA header salt _ _ nonce);
    rewrite ?length_indet; done|]. rsimpl. cbn [Z.eqb negb].
  rewrite Hkey, Hpull.
  eapply runs_bind; [apply runs_net_fuel|].
  eapply runs_bind.
  { apply (receive_file_loop_runs CA data cs Hcs st st' (nonce_after 2 nonce)); auto.
    - cbn [a_in a_set_in]. rewrite length_app.
      pose proof (length_chunk_frames (client_rx CA) (nonce_after 2 nonce) (push_all st cs)).
      assert (length (push_all st cs) = length cs); [|lia].
      clear. revert st. induction cs; intros st; simpl; [done|].
      destruct (ss_push _ _ _). simpl. by rewrite IHcs.
    - by rewrite length_nonce_after. }
  rsimpl. rewrite chunk_ops_pipeline.
  2: consts; lia.
  2: { eapply Forall_impl; [by eapply chunks_bound|]. intros c Hc. unfold blen. cbv beta in Hc.
       consts; lia. }
  rewrite (chunks_concat _ _ _ Hcs).
  eapply runs_bind; [apply runs_write_out|]. apply runs_ret.
Qed.

End agents_lemmas.

(** ** Properties *)

Section agents_properties.
Context {SO : Sodium} {EN : Env} {SL : SodiumLaws SO} {EL : EnvLaws EN}.

(** C40: The client does not notice a truncated download: it stops at the
    server's [END_CHUNK] without looking at the tag of the secret stream, so an
    answer that announces the first chunk of a longer file as its last one is
    accepted, and the local file holds that chunk alone. *)
Theorem truncated_download_accepted (CA : Comms_Agent) (RA : Receiver_Agent) (file : ofstream)
    (password salt key header nonce c rest : bytes) (st st1 : ss_state) (rp rp' : rng)
    (e : bytes) (a : aworld) :
  length nonce = crypto_aead_chacha20poly1305_NPUBBYTES ->
  length salt = crypto_pwhash_SALTBYTES ->
  pwhash crypto_box_SEEDBYTES password salt = Some key ->
  ss_init_push rp key = (st, header, rp') ->
  ss_push st c 0 = (e, st1) -> blen c = CHUNK_SIZE ->
  a_in a = download_stream (client_rx CA) nonce header salt [e] ++ rest ->
  runs (decrypt_and_read_from_server CA RA file password) a
    (0, ReceiverAgent (ra_nonce RA) (ra_size RA) key)
    (a_set_in rest (a_set_fs (ofstream_write file c (a_fs a)) a)).
Proof.
  intros Hn Hsalt Hkey Hpush He Hc Ha.
  destruct (ss_init_sync _ _ _ _ _ Hpush) as (Hlh & st' & Hpull & Hsync).
  destruct (ss_push_pull _ _ _ 0 _ _ Hsync ltac:(lia) He) as (st1' & Ep & _).
  pose proof (length_ss_push _ _ _ _ _ He) as Hle.
  unfold download_stream in Ha. cbn [chunk_frames] in Ha. unfold blob in Ha.
  rewrite app_nil_r, <- !app_assoc in Ha.
  unfold decrypt_and_read_from_server.
  eapply runs_bind; [apply (receiver_init_read_runs CA header salt _ _ nonce);
    rewrite ?length_indet; done|]. rsimpl. cbn [Z.eqb negb]. rewrite Hkey, Hpull.
  eapply runs_bind; [apply runs_net_fuel|].
  eapply runs_bind.
  { cbn [receive_file_loop].
    read_message (client_rx CA) (nonce_after 2 nonce) (int_encode END_CHUNK).
    eapply runs_bind;
      [apply (runs_recv_raw_blob _ _ e); [consts; lia|consts; lia|done]|]. rsimpl.
    cbn [negb Z.eqb]. rewrite Ep. rewrite overwrite_full by done.
    rewrite int_decode_encode by (unfold END_CHUNK; lia). rewrite Z.eqb_refl. rsimpl.
    rewrite u64_small by (consts; lia).
    replace (blen e - crypto_secretstream_xchacha20poly1305_ABYTES) with (blen c) by (consts; lia).
    apply runs_ret. }
  rsimpl. rewrite (chunk_ops_pipeline _ _ [c]).
  2: consts; lia.
  2: { repeat constructor. consts; lia. }
  cbn [concat]. rewrite app_nil_r.
  eapply runs_bind; [apply runs_write_out|]. apply runs_ret.
Qed.

End agents_properties.

(** ** Concrete runs *)

Section agents_runs.
#[local] Existing Instances toy_sodium toy_sodium_laws toy_env toy_env_laws.

Definition demo_agent : Comms_Agent := CommsAgent 5 demo_key demo_key.

Lemma truncated_download_accepted_witness :
  let c := replicate (Z.to_nat CHUNK_SIZE) x00 in
  let '(st, header, _) := @ss_init_push toy_sodium 3 (le_encode 32 (le_decode (str "pw") + 5 * 8)) in
  let e := fst (ss_push st c 0) in
  let a := demo_server (download_stream demo_key demo_nonce header demo_salt [e]) in
  runs (decrypt_and_read_from_server demo_agent (ReceiverAgent [] 0 []) None (str "pw")) a
    (0, ReceiverAgent [] 0 (le_encode 32 (le_decode (str "pw") + 5 * 8)))
    (a_set_in [] (a_set_fs (ofstream_write None c (a_fs a)) a)).
Proof.
  intros c.
  destruct (@ss_init_push toy_sodium 3 (le_encode 32 (le_decode (str "pw") + 5 * 8))) as [[st header] r] eqn:E.
  intros e a.
  apply (truncated_download_accepted demo_agent (ReceiverAgent [] 0 []) None (str "pw") demo_salt
    (le_encode 32 (le_decode (str "pw") + 5 * 8)) header demo_nonce c [] st
    (snd (ss_push st c 0)) 3 r e a); [reflexivity|reflexivity| |exact E| | |].
  - reflexivity.
  - apply surjective_pairing.
  - unfold c, blen. rewrite length_replicate. reflexivity.
  - rewrite app_nil_r. reflexivity.
Defined.

End agents_runs.
