(* ===== verification/Closed.v ===== *)
(** Properties of computations that hold of a whole handler because they hold of
    the calls it is made of.

    [P A m] is a property of the computation [m].  [Closed P] says that it holds
    of results and passes to sequences; [ClosedNet] that it holds of the calls on
    the connection, the random generator and the key exchange; [ClosedFs ok] that
    it holds of the calls on the file system, where only paths that satisfy [ok]
    are removed.  The lemmas then give [P] for every operation of the server and
    of the client's agents, once for all properties: that an operation consumes
    its input (Progress), that it does not depend on how the connection is cut
    into pieces (Segments), that it keeps the file system well formed (Tree),
    that it leaves the files alone (Confine). *)

From S2P Require Import Prelude Sodium Constants Fs Terminal World Net SessionEnc TwoSlotBuffer Transfer FSOperator Agents.

Section classes.
Context {SO : Sodium} {EN : Env}.

(** [m] can return [v]. *)
Definition returns {A} (m : IO A) (v : A) : Prop := exists w w', m w = Ok v w'.

Definition holds (P : forall A, IO A -> Prop) {A} (m : IO A) : Prop := P A m.

(** Whatever [m] returns satisfies [Q]. *)
Definition post {A} (Q : A -> Prop) (m : IO A) : Prop := forall v, returns m v -> Q v.

Lemma post_ret {A} (Q : A -> Prop) v : Q v -> post Q (mret v).
Proof. by intros HQ v' (w & w' & [= <- <-]). Qed.

Lemma post_bind {A B} (Q : B -> Prop) (m : IO A) (k : A -> IO B) :
  (forall v, returns m v -> post Q (k v)) -> post Q (m ≫= k).
Proof.
  intros Hk v (w & w' & (a & w1 & E1 & E2)%bind_Ok_inv).
  apply (Hk a); [by exists w, w1|by exists w1, w'].
Qed.

Class Closed (P : forall A, IO A -> Prop) : Prop := {
  closed_ret A (v : A) : holds P (mret v);
  closed_bind_returns A B (m : IO A) (k : A -> IO B) :
    holds P m -> (forall v, returns m v -> holds P (k v)) -> holds P (m ≫= k);
  closed_diverge A : holds P (@diverge _ A);
  closed_undefined A k : holds P (@undefined _ A k)
}.

Class ClosedNet (P : forall A, IO A -> Prop) : Prop := {
  closed_net :: Closed P;
  closed_send d : holds P (send d);
  closed_recv_fully n : holds P (recv_fully n);
  closed_randombytes n : holds P (randombytes n);
  closed_kx_keypair : holds P crypto_kx_keypair;
  closed_init_push k : holds P (crypto_secretstream_init_push k);
  closed_net_fuel : holds P (gets net_fuel)
}.

Class ClosedFs (ok : bytes -> Prop) (P : forall A, IO A -> Prop) : Prop := {
  closed_fs :: ClosedNet P;
  closed_open_out p : holds P (open_out p);
  closed_write_out h d : holds P (write_out h d);
  closed_open_in p : holds P (open_in p);
  closed_make_directories p : holds P (make_directories p);
  closed_list_dir p : holds P (list_dir p);
  closed_remove p : ok p -> holds P (fs_call (fun f => fs_remove f p))
}.

End classes.

Create HintDb closed.
#[export] Hint Resolve closed_ret closed_diverge closed_undefined closed_send closed_recv_fully
  closed_randombytes closed_kx_keypair closed_init_push closed_net_fuel closed_open_out
  closed_write_out closed_open_in closed_make_directories closed_list_dir closed_remove : closed.

Section closed_lemmas.
Context {SO : Sodium} {EN : Env} (P : forall A, IO A -> Prop).

Lemma closed_bind `{!Closed P} {A B} (m : IO A) (k : A -> IO B) :
  holds P m -> (forall v, holds P (k v)) -> holds P (m ≫= k).
Proof. intros Hm Hk. apply closed_bind_returns; auto. Qed.

Lemma closed_defined `{!Closed P} {A} (o : option A) : holds P (defined o).
Proof. destruct o; [apply closed_ret|apply closed_undefined]. Qed.

Lemma closed_initialised `{!Closed P} b : holds P (initialised b).
Proof. destruct b; [apply closed_ret|apply closed_undefined]. Qed.

End closed_lemmas.

#[export] Hint Resolve closed_defined closed_initialised : closed.

(** Prove a property of the results of a sequence of operations. *)
Ltac post :=
  repeat first
    [ progress intros
    | solve [apply post_ret; eauto with typeclass_instances]
    | apply post_bind
    | progress cbv beta iota zeta
    | case_match ].

(** Prove a closed property of a sequence of operations. *)
Ltac closed :=
  repeat first
    [ progress intros
    | solve [eauto with closed typeclass_instances]
    | apply closed_bind; [typeclasses eauto| |]
    | progress cbv beta iota zeta
    | case_match ].

(** ** Messages and keys *)

Section closed_net_operations.
Context {SO : Sodium} {EN : Env} (P : forall A, IO A -> Prop) {CN : ClosedNet P}.

Lemma closed_send_raw_blob d : holds P (send_raw_blob d).
Proof. unfold send_raw_blob. closed. Qed.

Lemma closed_recv_raw_blob cap l : holds P (recv_raw_blob cap l).
Proof. unfold recv_raw_blob. closed. Qed.

Lemma closed_reader : holds P SessionEncWrapper_reader.
Proof. unfold SessionEncWrapper_reader. closed. Qed.

Lemma closed_wrap_and_send d tx n : holds P (wrap_and_send d tx n).
Proof. unfold wrap_and_send, SessionEncWrapper_sender, send_all. closed. Qed.

Lemma closed_server_crypt_gen k1 k2 : holds P (server_crypt_gen k1 k2).
Proof. unfold server_crypt_gen. closed. Qed.

Lemma closed_client_crypt_gen k1 k2 : holds P (client_crypt_gen k1 k2).
Proof. unfold client_crypt_gen. closed. Qed.

End closed_net_operations.

#[export] Hint Resolve closed_send_raw_blob closed_recv_raw_blob closed_reader
  closed_wrap_and_send closed_server_crypt_gen closed_client_crypt_gen : closed.

(** ** Parts of the state that the network does not touch *)

(** [g] is no part of the connection nor of the random generator. *)
Class OffNet {SO : Sodium} {X} (g : world -> X) : Prop := {
  off_in i w : g (set_in i w) = g w;
  off_sent s o w : g (set_sent s o w) = g w;
  off_errno e w : g (set_errno e w) = g w;
  off_rng r w : g (set_rng r w) = g w
}.

#[export] Instance w_fs_off {SO : Sodium} : OffNet w_fs.
Proof. by split. Qed.

#[export] Instance w_tty_off {SO : Sodium} : OffNet w_tty.
Proof. by split. Qed.

Section keeps.
Context {SO : Sodium} {EN : Env} {X : Type} (g : world -> X) {OF : OffNet g}.

(** [m] leaves [g] as it is and does not throw. *)
Definition keeps {A} (m : IO A) : Prop :=
  forall w, match m w with
            | Ok _ w' => g w' = g w
            | Throw _ _ => False
            | _ => True
            end.

Definition keeps_of (A : Type) (m : IO A) : Prop := keeps m.

#[export] Instance keeps_closed : Closed keeps_of.
Proof.
  split; try by intros; intros w. unfold holds. intros A B m k Hm Hk w.
  unfold mbind, M_bind. specialize (Hm w). destruct (m w) as [v w1| | |] eqn:E; try done.
  specialize (Hk v (ex_intro _ w (ex_intro _ w1 E)) w1). destruct (k v w1); congruence.
Qed.

Lemma keeps_recv n : keeps (recv n).
Proof.
  intros w. unfold recv. repeat case_match; simplify_eq; by rewrite ?off_errno, ?off_in.
Qed.

Lemma keeps_send d : keeps (send d).
Proof.
  intros w. unfold send. repeat case_match; simplify_eq; by rewrite ?off_errno, ?off_sent.
Qed.

Lemma keeps_recv_loop fuel : forall len got, keeps (recv_loop fuel len got).
Proof.
  induction fuel as [|fuel IH]; intros [|len] got; try by intros w.
  rewrite recv_loop_unfold. apply (closed_bind keeps_of); [apply keeps_recv|].
  intros [rc bs]. destruct (_ <=? _); [|apply IH].
  apply (closed_bind keeps_of); [by intros w|]. intros e.
  destruct (_ =? _); [apply IH|by intros w].
Qed.

#[export] Instance keeps_closed_net : ClosedNet keeps_of.
Proof.
  split; unfold holds; intros; try apply _.
  - apply keeps_send.
  - intros w. apply keeps_recv_loop.
  - intros w. unfold randombytes. destruct (randombytes_buf _ _). by rewrite off_rng.
  - intros w. unfold crypto_kx_keypair. destruct (kx_keypair _) as [[? ?] ?]. by rewrite off_rng.
  - intros w. unfold crypto_secretstream_init_push.
    destruct (ss_init_push _ _) as [[? ?] ?]. by rewrite off_rng.
  - by intros w.
Qed.

End keeps.

(** ** The server's handlers *)

Section closed_server.
Context {SO : Sodium} {EN : Env} (P : forall A, IO A -> Prop).

Lemma closed_init_read `{!ClosedNet P} op b h s : holds P (init_read op b h s).
Proof. unfold init_read. closed. Qed.

Lemma closed_WTFS_loop `{!ClosedNet P} fuel : forall op prefix, holds P (WTFS_loop fuel op prefix).
Proof. induction fuel as [|fuel IH]; intros op prefix; cbn [WTFS_loop]; closed. Qed.

Lemma closed_RFFS_loop `{!ClosedNet P} fuel : forall op file nonce, holds P (RFFS_loop fuel op file nonce).
Proof. induction fuel as [|fuel IH]; intros op file nonce; cbn [RFFS_loop]; closed. Qed.

Lemma closed_LFFS_loop `{!ClosedNet P} op names : forall nonce, holds P (LFFS_loop op names nonce).
Proof. induction names as [|n names IH]; intros nonce; cbn [LFFS_loop]; closed. Qed.

Lemma closed_read_intent `{!ClosedNet P} op : holds P (read_intent op).
Proof. unfold read_intent. closed. Qed.

Lemma closed_receive_notice `{!ClosedNet P} op : holds P (receive_notice_of_new_action op).
Proof. unfold receive_notice_of_new_action. closed. Qed.

#[local] Hint Resolve closed_init_read closed_WTFS_loop closed_RFFS_loop closed_LFFS_loop : closed.

Context {ok : bytes -> Prop} {CF : ClosedFs ok P}.

Lemma closed_FS_Operator_new sock u rx tx : holds P (FS_Operator_new sock u rx tx).
Proof. unfold FS_Operator_new. closed. Qed.

Lemma closed_WTFS op : holds P (WTFS_Handler__Server op).
Proof. unfold WTFS_Handler__Server. closed. Qed.

Lemma closed_RFFS op : holds P (RFFS_Handler__Server op).
Proof. unfold RFFS_Handler__Server. closed. Qed.

Lemma closed_LFFS op : holds P (LFFS_Handler__Server op).
Proof. unfold LFFS_Handler__Server. closed. Qed.

Lemma closed_DFFS op : (forall name, ok (user_dir op ++ name)) -> holds P (DFFS_Handler__Server op).
Proof. unfold DFFS_Handler__Server. closed. Qed.

End closed_server.

(** ** The client's agents *)

Section closed_agents.
Context {SO : Sodium} {EN : Env} (P : forall A, IO A -> Prop).

Lemma closed_set_crypto `{!ClosedNet P} SA p : holds P (set_crypto SA p).
Proof. unfold set_crypto. closed. Qed.

#[local] Hint Resolve closed_set_crypto : closed.

Lemma closed_Sender_Agent_new `{!ClosedNet P} p : holds P (Sender_Agent_new p).
Proof. unfold Sender_Agent_new. closed. Qed.

Lemma closed_Receiver_Agent_new `{!ClosedNet P} : holds P Receiver_Agent_new.
Proof. unfold Receiver_Agent_new. closed. Qed.

Lemma closed_notify `{!ClosedNet P} CA action nonce : holds P (notify_server_of_action CA action nonce).
Proof. unfold notify_server_of_action. closed. Qed.

Lemma closed_send_file_loop `{!ClosedNet P} fuel : forall CA SA file st,
  holds P (send_file_loop fuel CA SA file st).
Proof.
  induction fuel as [|fuel IH]; intros CA SA file st; cbn [send_file_loop]; [closed|].
  unfold send_buffer. closed.
Qed.

Lemma closed_receive_file_loop `{!ClosedNet P} fuel : forall CA prefix st,
  holds P (receive_file_loop fuel CA prefix st).
Proof. induction fuel as [|fuel IH]; intros CA prefix st; cbn [receive_file_loop]; closed. Qed.

#[local] Hint Resolve closed_send_file_loop closed_receive_file_loop : closed.

Context {ok : bytes -> Prop} {CF : ClosedFs ok P}.

Lemma closed_encrypt_and_send CA SA name p : holds P (encrypt_and_send_to_server CA SA name p).
Proof. unfold encrypt_and_send_to_server, init_send. closed. Qed.

Lemma closed_decrypt_and_read CA RA file p : holds P (decrypt_and_read_from_server CA RA file p).
Proof. unfold decrypt_and_read_from_server, receiver_init_read. closed. Qed.

End closed_agents.

#[export] Hint Resolve closed_init_read closed_WTFS_loop closed_RFFS_loop closed_LFFS_loop
  closed_read_intent closed_receive_notice closed_FS_Operator_new closed_WTFS
  closed_RFFS closed_LFFS closed_DFFS closed_Sender_Agent_new closed_Receiver_Agent_new
  closed_notify closed_encrypt_and_send closed_decrypt_and_read : closed.
