(* ===== verification/Progress.v ===== *)
(** Why the loops end: what the operations can only consume.

    A [Gauge] counts something of the state that no operation gives back: the
    bytes still to come on the connection, or the characters still to be read
    from the terminal.  [mono] says that an operation does not raise a gauge;
    it is proved for every operation of the program by composition.  The loops
    that receive a file take at least one byte of the connection per iteration,
    so that the number of iterations the model allows them is never the reason
    why they stop.  The loops that hold a session are looked at round by round:
    [Rounds] bounds the rounds of a loop by what each of them takes. *)

From S2P Require Import Prelude Sodium Constants Fs Terminal World Net SessionEnc TwoSlotBuffer Transfer FSOperator Agents Closed.

Section progress.
Context {SO : Sodium} {EN : Env}.

(** [m] does not raise [f] when it returns. *)
Definition mono {A} (f : world -> nat) (m : IO A) : Prop :=
  forall w v w', m w = Ok v w' -> (f w' <= f w)%nat.

Class Gauge (f : world -> nat) : Prop := {
  gauge_sent s o w : f (set_sent s o w) = f w;
  gauge_errno e w : f (set_errno e w) = f w;
  gauge_fs h w : f (set_fs h w) = f w;
  gauge_rng r w : f (set_rng r w) = f w;
  gauge_stdout o w : f (set_stdout o w) = f w;
  gauge_recv n : mono f (recv n);
  gauge_stdin c w : (length (cin_rest c) <= length (cin_rest (w_stdin w)))%nat ->
    (f (read_stdin c w) <= f w)%nat
}.

(** The bytes still to come, and the characters still to be read. *)
Definition stream_left (w : world) : nat := length (stream (w_in w)).
Definition stdin_left (w : world) : nat := length (cin_rest (w_stdin w)).

#[export] Instance stream_gauge : Gauge stream_left.
Proof.
  split; try done. intros n w v w' H.
  unfold recv in H. unfold stream_left. destruct (w_in w) as [|[bs|e] evs] eqn:E; [|destruct (_ <=? _)%nat|];
    simplify_eq; rewrite ?E; cbn [set_in set_errno w_in]; try done.
  all: change (stream (RData bs :: evs)) with (bs ++ stream evs).
  - rewrite length_app. lia.
  - change (stream (RData (drop n bs) :: evs)) with (drop n bs ++ stream evs).
    rewrite !length_app, length_drop. lia.
Qed.

#[export] Instance stdin_gauge : Gauge stdin_left.
Proof.
  split; try done. intros n w v w' H. unfold recv in H. unfold stdin_left.
  destruct (w_in w) as [|[bs|e] evs]; [by simplify_eq| |by simplify_eq].
  destruct (_ <=? _)%nat; by simplify_eq.
Qed.

(** ** Composition *)

Section mono.
Context (f : world -> nat) {G : Gauge f}.

Lemma mono_ret {A} (v : A) : mono f (mret v).
Proof. intros w v' w' [= <- <-]. done. Qed.

Lemma mono_bind {A B} (m : IO A) (k : A -> IO B) :
  mono f m -> (forall v, mono f (k v)) -> mono f (m ≫= k).
Proof.
  intros Hm Hk w v w' (a & w1 & E1 & E2)%bind_Ok_inv.
  apply Hm in E1. apply Hk in E2. lia.
Qed.

Lemma mono_diverge {A} : mono f (@diverge _ A).
Proof. by intros w v w'. Qed.

Lemma mono_undefined {A} k : mono f (@undefined _ A k).
Proof. by intros w v w'. Qed.

Lemma mono_throw {A} e : mono f (@throw _ A e).
Proof. by intros w v w'. Qed.

Lemma mono_gets {A} (g : world -> A) : mono f (gets g).
Proof. by intros w v w' [= <- <-]. Qed.

Lemma mono_defined {A} (o : option A) : mono f (defined o).
Proof. destruct o; [apply mono_ret|apply mono_undefined]. Qed.

Lemma mono_initialised b : mono f (initialised b).
Proof. destruct b; [apply mono_ret|apply mono_undefined]. Qed.

Lemma mono_send d : mono f (send d).
Proof.
  intros w v w' H. unfold send in H.
  destruct (w_snd w) as [|[| |] s]; simplify_eq;
    by rewrite ?gauge_errno, ?gauge_sent.
Qed.

Lemma mono_randombytes n : mono f (randombytes n).
Proof.
  intros w v w' H. unfold randombytes in H. destruct (randombytes_buf _ _). simplify_eq.
  by rewrite gauge_rng.
Qed.

Lemma mono_kx_keypair : mono f crypto_kx_keypair.
Proof.
  intros w v w' H. unfold crypto_kx_keypair in H. destruct (kx_keypair _) as [[? ?] ?].
  simplify_eq. by rewrite gauge_rng.
Qed.

Lemma mono_init_push k : mono f (crypto_secretstream_init_push k).
Proof.
  intros w v w' H. unfold crypto_secretstream_init_push in H.
  destruct (ss_init_push _ _) as [[? ?] ?]. simplify_eq. by rewrite gauge_rng.
Qed.

Lemma mono_open_out p : mono f (open_out p).
Proof.
  intros w v w' H. unfold open_out in H. destruct (ofstream_open _ _). simplify_eq.
  by rewrite gauge_fs.
Qed.

Lemma mono_write_out h d : mono f (write_out h d).
Proof. intros w v w' H. unfold write_out, modify in H. simplify_eq. by rewrite gauge_fs. Qed.

Lemma mono_fs_call {A} (g : fs -> option (A * fs)) : mono f (fs_call g).
Proof.
  intros w v w' H. unfold fs_call in H. destruct (g _) as [[? ?]|]; simplify_eq.
  by rewrite gauge_fs.
Qed.

Lemma mono_make_directories p : mono f (make_directories p).
Proof.
  intros w v w' H. unfold make_directories in H. destruct (create_directories _ _); simplify_eq.
  by rewrite gauge_fs.
Qed.

End mono.
End progress.

(** The gauge [f] has not grown in the run [H]. *)
Lemma mono_Ok {SO : Sodium} (f : world -> nat) {A} (m : IO A) (w : world) v w' :
  m w = Ok v w' -> mono f m -> (f w' <= f w)%nat.
Proof. intros H Hm. by eapply Hm. Qed.

Create HintDb mono.
#[export] Hint Resolve mono_ret mono_diverge mono_undefined mono_throw mono_gets mono_defined
  mono_initialised
  mono_send mono_randombytes mono_kx_keypair mono_init_push mono_open_out mono_write_out
  mono_fs_call mono_make_directories gauge_recv : mono.

(** Prove [mono] of a sequence of operations. *)
Ltac mono :=
  repeat first
    [ progress intros
    | solve [auto with mono typeclass_instances]
    | apply mono_bind
    | progress cbv beta iota zeta
    | case_match ].

Ltac use_mono f H := apply (mono_Ok f) in H; [|solve [mono]].

Section progress_operations.
Context {SO : Sodium} {EN : Env} (f : world -> nat) {G : Gauge f}.

Lemma mono_recv_loop fuel : forall len got, mono f (recv_loop fuel len got).
Proof.
  induction fuel as [|fuel IH]; intros [|len] got; rewrite ?recv_loop_0; auto with mono.
  rewrite recv_loop_unfold. mono.
Qed.

Lemma mono_recv_fully n : mono f (recv_fully n).
Proof. intros w v w' H. by eapply mono_recv_loop. Qed.

#[local] Hint Resolve mono_recv_fully : mono.

(** [mono] is closed, so that it holds of every operation. *)
#[export] Instance mono_closed : ClosedFs (fun _ => True) (fun A => @mono SO A f).
Proof.
  split; [split; [split|..]|..]; unfold holds; intros; auto with mono.
  - intros w v w' (a & w1 & E1 & E2)%bind_Ok_inv.
    match goal with
    | Hm : mono f m, Hk : forall v, returns m v -> _ |- _ =>
        pose proof (Hm _ _ _ E1); apply Hk in E2; [lia|by exists w, w1]
    end.
  - unfold open_in. auto with mono.
  - unfold list_dir. auto with mono.
Qed.

Lemma mono_holds {A} (m : IO A) : holds (fun A => @mono SO A f) m -> mono f m.
Proof. done. Qed.

End progress_operations.

#[export] Hint Resolve mono_recv_fully : mono.

(** A closed property of a whole operation, for [mono]. *)
#[export] Hint Extern 3 (mono ?f _) =>
  solve [apply (mono_holds f); eauto with closed typeclass_instances] : mono.

(** ** What a successful read takes from the connection *)

Section takes.
Context {SO : Sodium} {EN : Env}.

Lemma recv_takes n (w : world) rc bs w' :
  recv n w = Ok (rc, bs) w' -> 0 < rc ->
  (stream_left w' + Z.to_nat rc)%nat = stream_left w.
Proof.
  intros H Hrc. unfold recv in H. unfold stream_left.
  destruct (w_in w) as [|[d|e] evs]; [by simplify_eq| |by simplify_eq].
  change (stream (RData d :: evs)) with (d ++ stream evs).
  destruct (Nat.leb_spec (length d) n); simplify_eq; cbn [set_in w_in].
  - rewrite length_app, to_nat_blen. lia.
  - change (stream (RData (drop n d) :: evs)) with (drop n d ++ stream evs).
    rewrite !length_app, length_drop, Nat2Z.id. lia.
Qed.

Lemma recv_loop_takes fuel : forall len got (w : world) all w',
  recv_loop fuel len got w = Ok (true, all) w' ->
  (stream_left w' + len <= stream_left w)%nat.
Proof.
  induction fuel as [|fuel IH]; intros [|len] got w all w' H;
    rewrite ?recv_loop_0 in H; try (injection H as <- <-; lia); [done|].
  rewrite recv_loop_unfold in H. apply bind_Ok_inv in H as ([rc bs] & w1 & Hr & H).
  pose proof (gauge_recv _ _ _ _ Hr : (stream_left _ <= _)%nat) as Hm.
  pose proof (recv_length _ _ _ _ _ Hr) as [Hl Hrc].
  destruct (Z.leb_spec rc 0).
  - unfold mbind, M_bind, gets in H. destruct (_ =? _); [apply IH in H; lia|done].
  - apply recv_takes in Hr; [|done]. apply IH in H. specialize (Hrc ltac:(lia)). lia.
Qed.

Lemma recv_fully_takes n (w : world) bs w' :
  recv_fully n w = Ok (true, bs) w' -> (stream_left w' + n <= stream_left w)%nat.
Proof. apply recv_loop_takes. Qed.

(** A message that is not corrupted takes at least its length and its nonce. *)
Lemma reader_takes (w : world) s w' :
  SessionEncWrapper_reader w = Ok s w' -> is_corrupted s = false ->
  (stream_left w' + 16 <= stream_left w)%nat.
Proof.
  unfold SessionEncWrapper_reader, is_corrupted. intros H Hc.
  apply bind_Ok_inv in H as ([[] b1] & w1 & H1 & H); cbn [negb] in H; [|by injection H as <- <-].
  destruct (_ <? _); [by injection H as <- <-|].
  apply bind_Ok_inv in H as ([[] b2] & w2 & H2 & H); cbn [negb] in H; [|by injection H as <- <-].
  apply bind_Ok_inv in H as ([[] b3] & w3 & H3 & H); cbn [negb] in H;
    injection H as <- <-; [|done].
  apply recv_fully_takes in H1, H2, H3. consts. lia.
Qed.

(** A blob takes at least its length. *)
Lemma recv_raw_blob_takes cap l0 (w : world) bs n w' :
  recv_raw_blob cap l0 w = Ok (0, bs, n) w' -> (stream_left w' + 8 <= stream_left w)%nat.
Proof.
  unfold recv_raw_blob. intros H.
  apply bind_Ok_inv in H as ([[] b1] & w1 & H1 & H); cbn [negb] in H; [|done].
  apply recv_fully_takes in H1. destruct (_ <? _); [done|].
  destruct (_ <? _); [|injection H as <- <- <-; lia].
  apply bind_Ok_inv in H as ([[] b2] & w2 & H2 & H); cbn [negb] in H; [|done].
  injection H as <- <- <-.
  apply recv_fully_takes in H2. lia.
Qed.

(** Both ends of a sequence agree when they agree after every first result. *)
Lemma bind_ext {A B} (m : IO A) (k1 k2 : A -> IO B) (w : world) :
  (forall v w', m w = Ok v w' -> k1 v w' = k2 v w') -> (m ≫= k1) w = (m ≫= k2) w.
Proof. intros H. unfold mbind, M_bind. destruct (m w); auto. Qed.

Lemma WTFS_loop_bound f1 : forall f2 op prefix (w : world),
  (stream_left w < f1)%nat -> (stream_left w < f2)%nat ->
  WTFS_loop f1 op prefix w = WTFS_loop f2 op prefix w.
Proof.
  induction f1 as [|f1 IH]; intros [|f2] op prefix w H1 H2; try lia. cbn [WTFS_loop].
  apply bind_ext. intros s w1 Hs.
  destruct (is_corrupted s) eqn:Hc; [done|].
  apply reader_takes in Hs; [|done].
  destruct (unwrap _ _ _ _ _) as [[[rc s'] prefix'] l]. destruct (negb _); [done|].
  apply bind_ext. intros [[rc2 slot] n] w2 Hb.
  use_mono stream_left Hb. destruct (negb _); [done|].
  destruct (_ =? _); [done|]. destruct (_ =? _); [|done].
  unfold mbind, M_bind. by rewrite (IH f2) by lia.
Qed.

Lemma receive_file_loop_bound f1 : forall f2 CA prefix st (w : world),
  (stream_left w < f1)%nat -> (stream_left w < f2)%nat ->
  receive_file_loop f1 CA prefix st w = receive_file_loop f2 CA prefix st w.
Proof.
  induction f1 as [|f1 IH]; intros [|f2] CA prefix st w H1 H2; try lia.
  cbn [receive_file_loop]. apply bind_ext. intros s w1 Hs.
  use_mono stream_left Hs.
  destruct (unwrap _ _ _ _ _) as [[[rc s'] prefix'] l].
  apply bind_ext. intros [[rc2 c] n] w2 Hb. destruct (Z.eqb_spec rc2 0) as [->|]; [|done].
  apply recv_raw_blob_takes in Hb. cbn [negb].
  destruct (ss_pull st c) as [[[m tag] st']|]; [|done]. destruct (negb _); [|done].
  unfold mbind, M_bind. by rewrite (IH f2) by lia.
Qed.

(** C27: The loops that receive a file end: every iteration that goes on has
    taken bytes from the connection, so with any number of iterations above the
    number of bytes still to come, whatever those bytes are, the upload loop of
    the server and the download loop of the client behave as in the model;
    running out of iterations is never why they stop. *)
Theorem receiving_loops_bound_enough (w : world) (f : nat) (op : FS_Operator)
    (CA : Comms_Agent) (prefix : bytes) (st : ss_state) :
  (net_fuel w <= f)%nat ->
  WTFS_loop f op prefix w = WTFS_loop (net_fuel w) op prefix w /\
  receive_file_loop f CA prefix st w = receive_file_loop (net_fuel w) CA prefix st w.
Proof.
  unfold net_fuel. intros Hf.
  split; [apply WTFS_loop_bound|apply receive_file_loop_bound]; unfold stream_left; lia.
Qed.

End takes.

(** ** Loops made of rounds *)

(** The outcome of a loop after one round, which either goes on from [y] or ends
    the loop with [r]. *)
Definition and_then {SO : Sodium} {X R} (loop : X -> IO R) (o : outcome world (X + R)) :
    outcome world R :=
  match o with
  | Ok (inl y) w' => loop y w'
  | Ok (inr r) w' => Ok r w'
  | Throw e w' => Throw e w'
  | Undefined k => Undefined k
  | Diverge => Diverge
  end.

(** [loop] repeats [round], and a round that goes on takes at least [k] of the
    gauge [g]. *)
Class Rounds {SO : Sodium} {X R} (round : X -> IO (X + R)) (loop : nat -> X -> IO R)
    (g : world -> nat) (k : nat) : Prop := {
  rounds_O x w : loop O x w = Diverge;
  rounds_S f x w : loop (S f) x w = and_then (loop f) (round x w);
  rounds_pos : (0 < k)%nat;
  rounds_step x w y w' : round x w = Ok (inl y) w' -> (g w' + k <= g w)%nat
}.

(** From one round to the next. *)
Definition next_round {SO : Sodium} {X R} (round : X -> IO (X + R)) (p q : X * world) : Prop :=
  round (fst p) (snd p) = Ok (inl (fst q)) (snd q).

Section rounds.
Context {SO : Sodium} {X R : Type} (round : X -> IO (X + R)) (loop : nat -> X -> IO R)
  (g : world -> nat) (k : nat) {RO : Rounds round loop g k}.

Lemma rounds_take n p q : nsteps (next_round round) n p q -> (g (snd q) + k * n <= g (snd p))%nat.
Proof. induction 1 as [|n p q r H _ IH]; [lia|]. apply (rounds_step (k := k) (g := g)) in H. lia. Qed.

Lemma rounds_loop n p q f : nsteps (next_round round) n p q ->
  loop (n + f) (fst p) (snd p) = loop f (fst q) (snd q).
Proof.
  induction 1 as [|n p q r H _ IH]; [done|]. rewrite Nat.add_succ_l, rounds_S.
  unfold next_round in H. by rewrite H.
Qed.

Lemma rounds_fuel f1 : forall f2 x (w : world),
  (g w < f1)%nat -> (g w < f2)%nat -> loop f1 x w = loop f2 x w.
Proof.
  induction f1 as [|f1 IH]; intros [|f2] x w H1 H2; try lia. rewrite !rounds_S.
  destruct (round x w) as [[y|r] w'| | |] eqn:E; try done. cbn [and_then].
  apply rounds_step in E. pose proof rounds_pos. apply IH; lia.
Qed.

(** When the loop has no result, some round it gets to has none. *)
Lemma rounds_stuck f : forall x (w : world),
  (g w < f)%nat -> loop f x w = Diverge ->
  exists n q, nsteps (next_round round) n (x, w) q /\ round (fst q) (snd q) = Diverge.
Proof.
  induction f as [|f IH]; intros x w Hf; [lia|]. rewrite rounds_S.
  destruct (round x w) as [[y|r] w'| | |] eqn:E; intros H; try done.
  - pose proof (rounds_step _ _ _ _ E). pose proof rounds_pos.
    destruct (IH y w') as (n & q & Hn & Hq); [lia|done|]. exists (S n), q. split; [|done].
    by apply (nsteps_l _ _ _ (y, w')).
  - exists 0%nat, (x, w). split; [constructor|done].
Qed.

(** What a loop made of rounds does. *)
Lemma rounds_bounded x (w : world) :
  (forall n q, nsteps (next_round round) n (x, w) q ->
     (k * n <= g w)%nat /\ forall f, loop (n + f) x w = loop f (fst q) (snd q)) /\
  (forall f, (S (g w) <= f)%nat ->
     loop f x w = loop (S (g w)) x w /\
     (loop f x w = Diverge ->
      exists n q, nsteps (next_round round) n (x, w) q /\ round (fst q) (snd q) = Diverge)).
Proof.
  split.
  - intros n q H. split; [apply rounds_take in H; simpl in H; lia|].
    intros f. by apply (rounds_loop n (x, w)).
  - intros f Hf. split; [apply rounds_fuel; lia|]. apply rounds_stuck. lia.
Qed.

End rounds.

(** ** Concrete runs *)

Section progress_runs.
#[local] Existing Instances toy_sodium toy_sodium_laws toy_env toy_env_laws.

Lemma receiving_loops_bound_enough_witness :
  let w := demo_world [RData (str "not a message at all")] in
  WTFS_loop 1000 (demo_op "ann") [] w = WTFS_loop (net_fuel w) (demo_op "ann") [] w /\
  receive_file_loop 1000 demo_agent [] (0, 0) w =
    receive_file_loop (net_fuel w) demo_agent [] (0, 0) w.
Proof.
  intros w. apply (receiving_loops_bound_enough w 1000 (demo_op "ann") demo_agent [] (0, 0)).
  apply Nat.leb_le. vm_compute. reflexivity.
Defined.

End progress_runs.
