(* ===== verification/Client.v ===== *)
(** The client program, src/client/client.cpp: [disable_echo] and [enable_echo],
    the terminal loop [get_stuff], [send_credentials], [send_intention], the four
    handlers [RFFS_Handler], [WTFS_Handler], [LFFS_Handler], [DFFS_Handler], the
    session loop [authed_comms] and [main].  What these functions write to [std::cout] is kept
    in [w_stdout], one entry per statement; [std::cerr] is not modelled.

    The theorems of this file: the session loop ends with its input, and
    [get_stuff] spins for ever once the input has nothing to offer.  The
    handlers meet the server's in EndToEnd. *)

From stdpp Require Import pretty.
From S2P Require Import Prelude Sodium Constants Fs Terminal World Net SessionEnc TwoSlotBuffer Transfer FSOperator Agents Closed Progress.

(** [std::cout << n] for an [int]. *)
Definition print_int (n : Z) : bytes := str (pretty n).

(** [get_stuff<T>]: the loop around [std::cin >> stuff_holder], which after a
    failure clears the error flags and ignores one character. *)
Fixpoint get_stuff_loop {A} (fuel : nat) (get : cin -> option A * cin) (c : cin)
    : option (A * cin) :=
  match fuel with
  | O => None
  | S fuel' =>
      match get c with
      | (Some v, c') => Some (v, c')
      | (None, c') => get_stuff_loop fuel' get (cin_ignore (cin_clear c'))
      end
  end.

(** One iteration per remaining character, one at the end of the input, and
    one for the first try. *)
Definition get_fuel (c : cin) : nat := S (S (length (cin_rest c))).

Section client.
Context {SO : Sodium} {EN : Env}.

(** [disable_echo] and [enable_echo]: [tcgetattr], one flag, [tcsetattr]. *)
Definition disable_echo : IO unit := modify (fun w =>
  set_tty (clear_echo <$> w_tty w) w).

Definition enable_echo : IO unit := modify (fun w =>
  set_tty (set_echo <$> w_tty w) w).

Definition print (s : bytes) : IO unit := modify (fun w => set_stdout (w_stdout w ++ [s]) w).

Definition get_stuff {A} (get : cin -> option A * cin) : IO A := fun w =>
  match get_stuff_loop (get_fuel (w_stdin w)) get (w_stdin w) with
  | Some (v, c) => Ok v (read_stdin c w)
  | None => Diverge
  end.

(** [std::cin >> x] with [x] holding [v0] before: the new value of [x]. *)
Definition cin_read {A} (get : cin -> option A * cin) (v0 : A) : IO A := fun w =>
  let '(r, c) := get (w_stdin w) in
  Ok (match r with Some v => v | None => v0 end) (read_stdin c w).

(** Returns 0, the wiped user name, the password and the caller's nonce. *)
Definition send_credentials (client_tx original_nonce : bytes) : IO (Z * bytes * bytes * bytes) :=
  _ ← print (str "enter username: ");
  username ← get_stuff get_string;
  _ ← print (str "enter password: ");
  _ ← disable_echo;
  password ← get_stuff get_string;
  _ ← print [x0a];
  _ ← enable_echo;
  nonce ← wrap_and_send (username ++ [x00]) client_tx original_nonce;
  nonce ← wrap_and_send (password ++ [x00]) client_tx nonce;
  r ← recv 4;
  let auth_stat := int_decode (overwrite (int_encode (-1)) (snd r)) in
  if auth_stat =? -1 then
    _ ← print (str "you sir/madam are not authenticated." ++ [x0a]);
    throw (process_exit (-1))
  else
  mret (0, sodium_memzero username, password, nonce).

Definition send_intention (client_tx : bytes) (intent : Z) (original_nonce : bytes)
    : IO (Z * bytes) :=
  nonce ← wrap_and_send (int_encode intent) client_tx original_nonce;
  mret (0, nonce).

Definition RFFS_Handler (CA : Comms_Agent) (RA : Receiver_Agent) (password : bytes)
    : IO (Z * Receiver_Agent) :=
  _ ← print (str "enter file name to grab from server (ends in .enc extension): ");
  file_name ← cin_read get_string [];
  _ ← print [x0a];
  nonce ← wrap_and_send (file_name ++ [x00]) (get_client_tx CA) (get_nonce RA);
  let RA := ReceiverAgent nonce (ra_size RA) (ra_key RA) in
  let n := u64 (blen file_name - 4) in
  if 2 ^ 63 <=? n then throw length_error else
  file ← open_out (take (Z.to_nat n) file_name);
  r ← decrypt_and_read_from_server CA RA file password;
  mret (0, snd r).

Definition WTFS_Handler (CA : Comms_Agent) (SA : Sender_Agent) (password : bytes)
    : IO (Z * Sender_Agent) :=
  _ ← print (str "enter file name to send to server:" ++ [x0a]);
  file_name ← get_stuff get_string;
  r ← encrypt_and_send_to_server CA SA file_name password;
  let '(rc, SA) := r in
  if negb (rc =? 0) then mret (1, SA) else mret (0, SA).

(** The loop of [LFFS_Handler], [n] names from the end. *)
Fixpoint LFFS_client_loop (CA : Comms_Agent) (n : nat) : IO Z :=
  match n with
  | O => mret 0
  | S n' =>
      name_wrap ← SessionEncWrapper_reader;
      if is_corrupted name_wrap then mret 1 else
      let '(rc, _, filename, _) :=
        unwrap name_wrap (get_client_rx CA) (MAX_FILE_NAME_LENGTH - 1)
          (replicate (Z.to_nat MAX_FILE_NAME_LENGTH) x00) (indet_ull "decrypted_len") in
      if negb (rc =? 0) then mret 1 else
      name ← defined (c_str filename);
      _ ← print (str "  " ++ name ++ [x0a]);
      LFFS_client_loop CA n'
  end.

Definition LFFS_Handler (CA : Comms_Agent) : IO Z :=
  count_wrap ← SessionEncWrapper_reader;
  if is_corrupted count_wrap then mret 1 else
  let '(rc, _, file_count, decrypted_len) :=
    unwrap count_wrap (get_client_rx CA) sizeof_int (indet "file_count" 4)
      (indet_ull "decrypted_len") in
  if negb (rc =? 0) then mret 1 else
  _ ← initialised (sizeof_int <=? decrypted_len);
  let file_count := int_decode file_count in
  _ ← print (x0a :: str "--- Stored Files (" ++ print_int file_count ++ str ") ---" ++ [x0a]);
  rc ← LFFS_client_loop CA (Z.to_nat file_count);
  if negb (rc =? 0) then mret rc else
  _ ← print (str "--------------------------" ++ [x0a]);
  mret 0.

Definition DFFS_Handler (CA : Comms_Agent) : IO Z :=
  _ ← print (str "enter file name to delete (ends in .enc): ");
  file_name ← cin_read get_string [];
  nonce ← randombytes crypto_aead_chacha20poly1305_NPUBBYTES;
  _ ← wrap_and_send (file_name ++ [x00]) (get_client_tx CA) nonce;
  result_wrap ← SessionEncWrapper_reader;
  if is_corrupted result_wrap then mret 1 else
  let '(rc, _, result, decrypted_len) :=
    unwrap result_wrap (get_client_rx CA) sizeof_int (indet "result" 4)
      (indet_ull "decrypted_len") in
  if negb (rc =? 0) then mret 1 else
  _ ← initialised (sizeof_int <=? decrypted_len);
  _ ← print (if int_decode result =? ACK_SUC then str "deleted successfully" ++ [x0a]
             else str "failed to delete (file may not exist)" ++ [x0a]);
  mret 0.

(** The handler the intention selects; returns the caller's nonce.  The result
    of a handler is only reported on [std::cerr]. *)
Definition perform (CA : Comms_Agent) (SA : Sender_Agent) (RA : Receiver_Agent)
    (intention : Z) (password original_nonce : bytes) : IO bytes :=
  if intention =? READ_FROM_FILESYSTEM then
    r ← send_intention (get_client_tx CA) intention original_nonce;
    _ ← RFFS_Handler CA RA password;
    mret (snd r)
  else if intention =? WRITE_TO_FILESYSTEM then
    r ← send_intention (get_client_tx CA) intention original_nonce;
    _ ← WTFS_Handler CA SA password;
    mret (snd r)
  else if intention =? LIST_FILES then
    r ← send_intention (get_client_tx CA) intention original_nonce;
    _ ← LFFS_Handler CA;
    mret (snd r)
  else if intention =? DELETE_FILE then
    r ← send_intention (get_client_tx CA) intention original_nonce;
    _ ← DFFS_Handler CA;
    mret (snd r)
  else mret original_nonce.

(** The loop of [authed_comms]: [None] when the function returns -1 from inside
    it, otherwise the caller's nonce after the loop. *)
Fixpoint authed_loop (fuel : nat) (CA : Comms_Agent) (password : bytes)
    (perform_next : byte) (original_nonce : bytes) : IO (option bytes) :=
  match fuel with
  | O => diverge
  | S fuel' =>
      r ← notify_server_of_action CA NEW_ACTION original_nonce;
      let '(rc, nonce) := r in
      if negb (rc =? 0) then mret (Some nonce) else
      _ ← print (str "enter your intention (1 == read || 2 == write || 3 == list files || 4 == delete file)" ++ [x0a]);
      intention ← get_stuff get_int;
      SA ← Sender_Agent_new password;
      RA ← Receiver_Agent_new;
      if intention =? CONFUSION then mret None else
      nonce ← perform CA SA RA intention password nonce;
      _ ← print (str "perform another action? ");
      perform_next ← cin_read get_char perform_next;
      if bool_decide (perform_next = x79) || bool_decide (perform_next = x59)
      then authed_loop fuel' CA password perform_next nonce
      else mret (Some nonce)
  end.

(** Every iteration reads at least one character of the input. *)
Definition authed_fuel (w : world) : nat := S (length (cin_rest (w_stdin w))).

(** Returns the password as the caller finds it, wiped, and the caller's keys,
    which the construction of the agent wipes. *)
Definition authed_comms (client_tx client_rx password original_nonce : bytes) (client_sock : Z)
    : IO (Z * bytes * bytes * bytes) :=
  let '(CA, client_tx, client_rx) := Comms_Agent_new client_tx client_rx client_sock in
  fuel ← gets authed_fuel;
  r ← authed_loop fuel CA password x6e original_nonce;
  match r with
  | None => mret (-1, password, client_tx, client_rx)
  | Some nonce =>
      r ← notify_server_of_action CA NO_ACTION nonce;
      mret (0, sodium_memzero password, client_tx, client_rx)
  end.

(** [main] after the socket is set up, with the results of the set-up as
    arguments: whether each address given on the command line is well formed and
    whether [bind] succeeds. *)
Definition client_main (inet_pton_ok bind_ok : bytes -> bool) (client_sock : Z)
    (argv : list bytes) : IO Z :=
  let server_ip := match argv with _ :: ip :: _ => ip | _ => str "127.0.0.1" end in
  if negb (inet_pton_ok server_ip) then mret 1 else
  let source := match argv with _ :: _ :: src :: _ => Some src | _ => None end in
  if match source with Some src => negb (inet_pton_ok src) | None => false end then mret 1 else
  if match source with Some src => negb (bind_ok src) | None => false end then mret 1 else
  r ← client_crypt_gen (indet "client_rx" crypto_kx_SESSIONKEYBYTES)
        (indet "client_tx" crypto_kx_SESSIONKEYBYTES);
  let '(rc, _, _, client_rx, client_tx) := r in
  if negb (rc =? 0) then mret 1 else
  original_nonce ← randombytes crypto_aead_chacha20poly1305_NPUBBYTES;
  r ← send_credentials client_tx original_nonce;
  let '(rc, _, password, original_nonce) := r in
  if negb (rc =? 0) then mret 2 else
  _ ← authed_comms client_tx client_rx password original_nonce client_sock;
  mret 0.

End client.

(** ** [get_stuff] *)

(** What the loop relies on in an extraction: it never puts characters back,
    and there is nothing to extract after the last character. *)
Class Extractor {A} (get : cin -> option A * cin) : Prop := {
  get_shrinks c : (length (cin_rest (snd (get c))) <= length (cin_rest c))%nat;
  get_at_end e f : exists e' f', get (Cin [] e f) = (None, Cin [] e' f')
}.

Lemma skip_spaces_length s : (length (skip_spaces s) <= length s)%nat.
Proof. induction s as [|b s IH]; simpl; [lia|]. destruct (isspace b); simpl; lia. Qed.

Lemma span_length p s : (length (fst (span p s)) + length (snd (span p s)) = length s)%nat.
Proof.
  induction s as [|b s IH]; simpl; [done|]. destruct (p b); [|done].
  destruct (span p s) as [x y]. simpl in *. lia.
Qed.

Lemma sentry_length c r c' :
  sentry c = (r, c') ->
  match r with
  | Some s => (length s <= length (cin_rest c))%nat /\ (0 < length s)%nat /\
              cin_rest c' = s /\ cin_good c = true /\ s = skip_spaces (cin_rest c)
  | None => (length (cin_rest c') <= length (cin_rest c))%nat
  end.
Proof.
  unfold sentry. pose proof (skip_spaces_length (cin_rest c)).
  destruct (cin_good c); simpl; [|by intros [= <- <-]].
  destruct (skip_spaces (cin_rest c)) as [|b s] eqn:E; intros [= <- <-]; simpl in *.
  - lia.
  - split_and!; auto; lia.
Qed.

Lemma get_string_shrinks c :
  match get_string c with
  | (Some w, c') => (length (cin_rest c') <= length (cin_rest c))%nat
  | (None, c') => (length (cin_rest c') <= length (cin_rest c))%nat
  end.
Proof.
  unfold get_string. destruct (sentry c) as [[s|] c'] eqn:E; apply sentry_length in E; [|done].
  destruct E as (Hl & _). pose proof (span_length (fun b => negb (isspace b)) s).
  destruct (span _ s) as [x y]. simpl in *. lia.
Qed.

(** A successful extraction of an integer takes at least one character. *)
Lemma get_int_shrinks c :
  match get_int c with
  | (Some v, c') => (length (cin_rest c') < length (cin_rest c))%nat
  | (None, c') => (length (cin_rest c') <= length (cin_rest c))%nat
  end.
Proof.
  unfold get_int. destruct (sentry c) as [[s|] c'] eqn:E; apply sentry_length in E; [|done].
  destruct E as (Hl & _).
  set (p := match s with [] => _ | b :: s' => _ end).
  assert (length (snd p) <= length s)%nat as Hp.
  { unfold p. destruct s as [|b s']; simpl; [lia|]. repeat case_bool_decide; simpl; lia. }
  destruct p as [sg s1]. simpl in Hp. pose proof (span_length isdigit s1).
  destruct (span isdigit s1) as [[|d ds] rest]; simpl in *; [lia|].
  destruct (_ || _); simpl; lia.
Qed.

#[export] Instance get_string_extractor : Extractor get_string.
Proof.
  split.
  - intros c. pose proof (get_string_shrinks c). by destruct (get_string c) as [[w|] c'].
  - intros [] []; by repeat eexists.
Qed.

#[export] Instance get_int_extractor : Extractor get_int.
Proof.
  split.
  - intros c. pose proof (get_int_shrinks c).
    destruct (get_int c) as [[w|] c']; simpl; lia.
  - intros [] []; by repeat eexists.
Qed.

Section get_stuff_lemmas.
Context {A : Type} (get : cin -> option A * cin) {EX : Extractor get}.

Lemma get_stuff_loop_at_end fuel e f : get_stuff_loop fuel get (Cin [] e f) = None.
Proof.
  revert e f. induction fuel as [|fuel IH]; intros e f; simpl; [done|].
  destruct (get_at_end e f) as (e' & f' & ->). apply IH.
Qed.

Lemma cin_ignore_length c :
  cin_rest c <> [] -> (length (cin_rest (cin_ignore (cin_clear c))) < length (cin_rest c))%nat.
Proof. destruct c as [[|b s] e f]; simpl; [done|lia]. Qed.

Lemma get_stuff_loop_bound f1 : forall f2 c,
  (length (cin_rest c) < f1)%nat -> (length (cin_rest c) < f2)%nat ->
  get_stuff_loop f1 get c = get_stuff_loop f2 get c.
Proof.
  induction f1 as [|f1 IH]; intros [|f2] c H1 H2; try lia. simpl.
  pose proof (get_shrinks c) as Hs. destruct (get c) as [[v|] c'] eqn:E; [done|]. simpl in Hs.
  destruct (decide (cin_rest c' = [])) as [Hn|Hn].
  - destruct c' as [? e f]. simpl in Hn. subst.
    change (cin_ignore (cin_clear (Cin [] e f))) with (Cin [] true false). by rewrite !get_stuff_loop_at_end.
  - apply cin_ignore_length in Hn. apply IH; lia.
Qed.

Lemma get_stuff_loop_shrinks fuel : forall c v c',
  get_stuff_loop fuel get c = Some (v, c') ->
  (length (cin_rest c') <= length (cin_rest c))%nat.
Proof.
  induction fuel as [|fuel IH]; intros c v c'; simpl; [done|].
  pose proof (get_shrinks c) as Hs. destruct (get c) as [[v1|] c1]; simpl in Hs.
  - by intros [= <- <-].
  - intros H%IH. destruct c1 as [[|b s] e f]; simpl in *; lia.
Qed.

End get_stuff_lemmas.

Lemma get_stuff_int_shrinks fuel : forall c v c',
  get_stuff_loop fuel get_int c = Some (v, c') ->
  (length (cin_rest c') < length (cin_rest c))%nat.
Proof.
  induction fuel as [|fuel IH]; intros c v c'; simpl; [done|].
  pose proof (get_int_shrinks c) as Hs. destruct (get_int c) as [[v1|] c1].
  - by intros [= <- <-].
  - intros H%IH. destruct c1 as [[|b s] e f]; simpl in *; lia.
Qed.

Lemma skip_spaces_all s : Forall (fun b => isspace b = true) s -> skip_spaces s = [].
Proof. induction 1 as [|b s Hb _ IH]; simpl; [done|]. by rewrite Hb. Qed.

Lemma skip_spaces_app sp s :
  Forall (fun b => isspace b = true) sp -> skip_spaces (sp ++ s) = skip_spaces s.
Proof. induction 1 as [|b sp Hb _ IH]; simpl; [done|]. by rewrite Hb. Qed.

Lemma span_stop p w rest :
  Forall (fun b => p b = true) w -> match rest with [] => True | b :: _ => p b = false end ->
  span p (w ++ rest) = (w, rest).
Proof.
  intros Hw Hr. induction Hw as [|b w Hb _ IH]; simpl.
  - destruct rest as [|b r]; simpl; [done|]. by rewrite Hr.
  - by rewrite Hb, IH.
Qed.

(** An extraction that fails with its sentry never ends on white space. *)
Lemma get_stuff_loop_spins {A} (get : cin -> option A * cin) :
  (forall c c', sentry c = (None, c') -> get c = (None, c')) ->
  forall fuel c, Forall (fun b => isspace b = true) (cin_rest c) ->
  get_stuff_loop fuel get c = None.
Proof.
  intros Hget fuel. induction fuel as [|fuel IH]; intros c Hc; [done|]. simpl.
  assert (exists c', sentry c = (None, c') /\ (cin_rest c' = cin_rest c \/ cin_rest c' = []))
    as (c' & Hs & Hrest).
  { unfold sentry. destruct (cin_good c); simpl; [rewrite skip_spaces_all by done|]; eauto. }
  rewrite (Hget _ _ Hs). apply IH.
  destruct c' as [[|b s] e f]; simpl in *; [constructor|].
  destruct Hrest as [Hrest|]; [|done]. rewrite <- Hrest in Hc. apply Forall_cons in Hc. apply Hc.
Qed.

(** A word as [std::cin] splits its input: not empty, without white space. *)
Definition word (w : bytes) : Prop := w <> [] /\ Forall (fun b => isspace b = false) w.

(** What follows a word: the end of the input or white space. *)
Definition word_end (rest : bytes) : Prop :=
  match rest with [] => True | b :: _ => isspace b = true end.

(** The next word of an input in a good state, and the state after it. *)
Lemma get_string_word sp w rest :
  Forall (fun b => isspace b = true) sp -> word w -> word_end rest ->
  get_string (Cin (sp ++ w ++ rest) false false) = (Some w, Cin rest (is_nil rest) false).
Proof.
  intros Hsp [Hne Hw] Hr. unfold get_string, sentry. cbn [cin_good cin_eof cin_fail orb negb cin_rest].
  rewrite skip_spaces_app by done.
  destruct w as [|b w]; [done|]. apply Forall_cons in Hw as [Hb Hw].
  assert (skip_spaces ((b :: w) ++ rest) = (b :: w) ++ rest) as -> by (simpl; by rewrite Hb).
  cbn [app]. change (b :: w ++ rest) with ((b :: w) ++ rest).
  rewrite span_stop; [done| |].
  - constructor; [by rewrite Hb|]. eapply Forall_impl; [exact Hw|]. by intros x ->.
  - destruct rest; simpl in *; [done|]. by rewrite Hr.
Qed.

(** ** The session loop *)

Section session_progress.
Context {SO : Sodium} {EN : Env}.

Lemma get_stuff_Ok {A} (get : cin -> option A * cin) (w : world) v w' :
  get_stuff get w = Ok v w' ->
  exists c, get_stuff_loop (get_fuel (w_stdin w)) get (w_stdin w) = Some (v, c) /\
    w' = read_stdin c w.
Proof.
  unfold get_stuff. destruct (get_stuff_loop _ _ _) as [[v' c]|]; intros [= <- <-]. eauto.
Qed.

(** [get_stuff] reads the next word. *)
Lemma get_stuff_word sp wd rest (w : world) :
  w_stdin w = Cin (sp ++ wd ++ rest) false false ->
  Forall (fun b => isspace b = true) sp -> word wd -> word_end rest ->
  get_stuff get_string w = Ok wd (read_stdin (Cin rest (is_nil rest) false) w).
Proof.
  intros Hw Hsp Hwd Hr. unfold get_stuff, get_fuel. rewrite Hw. cbn [get_stuff_loop].
  by rewrite get_string_word.
Qed.

Lemma get_char_shrinks c : (length (cin_rest (snd (get_char c))) <= length (cin_rest c))%nat.
Proof.
  unfold get_char. destruct (sentry c) as [[[|b s]|] c'] eqn:E; apply sentry_length in E;
    simpl in *; destruct_and?; lia.
Qed.

Section gauge.
Context (f : world -> nat) {G : Gauge f}.

Lemma mono_print s : mono f (print s).
Proof. intros w v w' H. unfold print, modify in H. injection H as <- <-. by rewrite gauge_stdout. Qed.

Lemma mono_get_stuff {A} (get : cin -> option A * cin) {EX : Extractor get} :
  mono f (get_stuff get).
Proof.
  intros w v w' (c & E & ->)%get_stuff_Ok. apply gauge_stdin.
  by eapply (get_stuff_loop_shrinks get).
Qed.

Lemma mono_cin_read {A} (get : cin -> option A * cin) v0 :
  (forall c, (length (cin_rest (snd (get c))) <= length (cin_rest c))%nat) ->
  mono f (cin_read get v0).
Proof.
  intros Hg w v w' H. unfold cin_read in H. specialize (Hg (w_stdin w)).
  destruct (get (w_stdin w)) as [r c]. injection H as <- <-. by apply gauge_stdin.
Qed.

Lemma mono_cin_string v0 : mono f (cin_read get_string v0).
Proof. apply mono_cin_read, get_shrinks. Qed.

Lemma mono_cin_char v0 : mono f (cin_read get_char v0).
Proof. apply mono_cin_read, get_char_shrinks. Qed.

End gauge.

#[local] Hint Resolve mono_print mono_get_stuff mono_cin_string mono_cin_char : mono.

(** ** Closed properties of the client *)

(** Properties that also hold of the calls on the terminal. *)
Class ClosedTerm (P : forall A, IO A -> Prop) : Prop := {
  closed_term :: ClosedFs (fun _ => True) P;
  closed_throw A e : holds P (@throw _ A e);
  closed_print s : holds P (print s);
  closed_get_string : holds P (get_stuff get_string);
  closed_get_int : holds P (get_stuff get_int);
  closed_cin_string v : holds P (cin_read get_string v);
  closed_cin_char v : holds P (cin_read get_char v);
  closed_authed_fuel : holds P (gets authed_fuel)
}.

#[local] Hint Resolve closed_throw closed_print closed_get_string closed_get_int
  closed_cin_string closed_cin_char closed_authed_fuel : closed.

Section closed_client.
Context (P : forall A, IO A -> Prop) {CT : ClosedTerm P}.

Lemma closed_LFFS_client_loop CA n : holds P (LFFS_client_loop CA n).
Proof. induction n as [|n IH]; cbn [LFFS_client_loop]; closed. Qed.

#[local] Hint Resolve closed_LFFS_client_loop : closed.

Lemma closed_perform CA SA RA i p n : holds P (perform CA SA RA i p n).
Proof.
  unfold perform, send_intention, RFFS_Handler, WTFS_Handler, LFFS_Handler, DFFS_Handler. closed.
Qed.

#[local] Hint Resolve closed_perform : closed.

Lemma closed_authed_loop fuel : forall CA p pn nonce, holds P (authed_loop fuel CA p pn nonce).
Proof. induction fuel as [|fuel IH]; intros CA p pn nonce; cbn [authed_loop]; closed. Qed.

#[local] Hint Resolve closed_authed_loop : closed.

Lemma closed_authed_comms tx rx p nonce sock : holds P (authed_comms tx rx p nonce sock).
Proof. unfold authed_comms, Comms_Agent_new. closed. Qed.

End closed_client.

#[export] Instance mono_closed_term (f : world -> nat) {G : Gauge f} :
  ClosedTerm (fun A => @mono SO A f).
Proof. split; [apply _|..]; unfold holds; auto with mono typeclass_instances. Qed.

#[local] Hint Resolve closed_perform : closed.

(** One round of the client's loop; between rounds it keeps [perform_next] and
    the caller's nonce. *)
Definition authed_round (CA : Comms_Agent) (password : bytes) (x : byte * bytes)
    : IO (byte * bytes + option bytes) :=
  r ← notify_server_of_action CA NEW_ACTION (snd x);
  let '(rc, nonce) := r in
  if negb (rc =? 0) then mret (inr (Some nonce)) else
  _ ← print (str "enter your intention (1 == read || 2 == write || 3 == list files || 4 == delete file)" ++ [x0a]);
  intention ← get_stuff get_int;
  SA ← Sender_Agent_new password;
  RA ← Receiver_Agent_new;
  if intention =? CONFUSION then mret (inr None) else
  nonce ← perform CA SA RA intention password nonce;
  _ ← print (str "perform another action? ");
  perform_next ← cin_read get_char (fst x);
  if bool_decide (perform_next = x79) || bool_decide (perform_next = x59)
  then mret (inl (perform_next, nonce)) else mret (inr (Some nonce)).

Lemma authed_loop_S f CA p x (w : world) :
  authed_loop (S f) CA p (fst x) (snd x) w =
    and_then (fun y => authed_loop f CA p (fst y) (snd y)) (authed_round CA p x w).
Proof.
  cbn [authed_loop]. unfold authed_round, mbind, M_bind.
  destruct (notify_server_of_action CA NEW_ACTION (snd x) w) as [[rc n1] w1| | |]; try done.
  destruct (negb _); [done|]. cbn [print modify].
  destruct (get_stuff get_int _) as [i w3| | |]; try done.
  destruct (Sender_Agent_new p w3) as [SA w4| | |]; try done.
  destruct (Receiver_Agent_new w4) as [RA w5| | |]; try done.
  destruct (_ =? _); [done|]. destruct (perform CA SA RA i p n1 w5) as [n2 w6| | |]; try done.
  cbn [print modify]. destruct (cin_read get_char (fst x) _) as [pn w8| | |]; try done.
  by destruct (_ || _).
Qed.

(** A round that goes on has read the number of the intention. *)
#[export] Instance authed_rounds CA p :
  Rounds (authed_round CA p) (fun f x => authed_loop f CA p (fst x) (snd x)) stdin_left 1.
Proof.
  split; [done|intros; apply authed_loop_S|lia|].
  intros x w y w' ([rc n1] & w1 & Hn & H)%bind_Ok_inv. use_mono stdin_left Hn.
  destruct (negb _); [done|].
  apply bind_Ok_inv in H as (u & w2 & Hp & H). use_mono stdin_left Hp.
  apply bind_Ok_inv in H as (i & w3 & (c & Hi & ->)%get_stuff_Ok & H).
  apply get_stuff_int_shrinks in Hi. fold (stdin_left w2) in Hi.
  assert (stdin_left (read_stdin c w2) < stdin_left w2)%nat as Hlt by exact Hi.
  apply bind_Ok_inv in H as (SA & w4 & HS & H). use_mono stdin_left HS.
  apply bind_Ok_inv in H as (RA & w5 & HR & H). use_mono stdin_left HR.
  destruct (_ =? _); [done|].
  apply bind_Ok_inv in H as (n2 & w6 & Hf & H). use_mono stdin_left Hf.
  apply bind_Ok_inv in H as (u2 & w7 & Hq & H). use_mono stdin_left Hq.
  apply bind_Ok_inv in H as (pn & w8 & Hc & H). use_mono stdin_left Hc.
  destruct (_ || _); [|done]. injection H as <- <-. lia.
Qed.

(** C29: The client's session loop makes at most one round for every character
    of its input, for every round reads the number of an intention.  The number
    of rounds the model allows is therefore enough: with any larger one the loop
    gives the same result, and when it gives none (the model's [Diverge]), it
    has come after some rounds to one in which a call never returns; at the end
    of the input, [get_stuff] is such a call. *)
Theorem client_rounds_bounded (CA : Comms_Agent) (password nonce : bytes) (perform_next : byte)
    (w : world) :
  let x := (perform_next, nonce) in
  (forall n q, nsteps (next_round (authed_round CA password)) n (x, w) q ->
     (n <= length (cin_rest (w_stdin w)))%nat /\
     forall f, authed_loop (n + f) CA password perform_next nonce w =
       authed_loop f CA password (fst (fst q)) (snd (fst q)) (snd q)) /\
  (forall f, (authed_fuel w <= f)%nat ->
     authed_loop f CA password perform_next nonce w =
       authed_loop (authed_fuel w) CA password perform_next nonce w /\
     (authed_loop f CA password perform_next nonce w = Diverge ->
      exists n q, nsteps (next_round (authed_round CA password)) n (x, w) q /\
        authed_round CA password (fst q) (snd q) = Diverge)).
Proof.
  intros x. destruct (rounds_bounded (authed_round CA password) _ stdin_left 1 x w) as [Hn Hf].
  split; [|exact Hf]. intros n q H. apply Hn in H as [Hle Hl].
  rewrite Nat.mul_1_l in Hle. by split.
Qed.

(** Once the input holds nothing but white space, [get_stuff] never
    returns, neither for a string nor for an integer: after each failure it
    clears the flags, ignores a character that is not there, and tries again. *)
Theorem get_stuff_spins_at_end (w : world) :
  Forall (fun b => isspace b = true) (cin_rest (w_stdin w)) ->
  get_stuff get_string w = Diverge /\ get_stuff get_int w = Diverge /\
  forall fuel, get_stuff_loop fuel get_string (w_stdin w) = None /\
               get_stuff_loop fuel get_int (w_stdin w) = None.
Proof.
  intros Hw.
  assert (forall fuel, get_stuff_loop fuel get_string (w_stdin w) = None) as Hs.
  { intros fuel. apply get_stuff_loop_spins; [|done]. unfold get_string. by intros c c' ->. }
  assert (forall fuel, get_stuff_loop fuel get_int (w_stdin w) = None) as Hi.
  { intros fuel. apply get_stuff_loop_spins; [|done]. unfold get_int. by intros c c' ->. }
  unfold get_stuff. by rewrite Hs, Hi.
Qed.

End session_progress.

(** ** Concrete runs *)

Section client_runs.
#[local] Existing Instances toy_sodium toy_sodium_laws toy_env toy_env_laws.

Definition demo_terminal (s : bytes) : world :=
  @World toy_sodium [] [] [] 0 demo_fs 0 (Cin s false false) [] None.

(** A round with an unknown intention, after which the user goes on. *)
Lemma client_rounds_bounded_witness :
  let w := demo_terminal (str "7 y 7 n") in
  exists q, nsteps (next_round (authed_round demo_agent (str "pw"))) 1 ((x6e, demo_nonce), w) q /\
    (1 <= length (cin_rest (w_stdin w)))%nat /\
    authed_loop 8 demo_agent (str "pw") x6e demo_nonce w =
      authed_loop 7 demo_agent (str "pw") (fst (fst q)) (snd (fst q)) (snd q).
Proof.
  intros w.
  assert (match authed_round demo_agent (str "pw") (x6e, demo_nonce) w with
          | Ok (inl _) _ => true | _ => false end = true) as Hgo by (vm_compute; reflexivity).
  destruct (authed_round _ _ _ w) as [[y|r] w'| | |] eqn:E; try discriminate Hgo.
  assert (nsteps (next_round (authed_round demo_agent (str "pw"))) 1 ((x6e, demo_nonce), w) (y, w'))
    as H by (by apply nsteps_once).
  destruct (proj1 (client_rounds_bounded demo_agent (str "pw") demo_nonce x6e w) 1%nat (y, w') H)
    as [Hb Hl].
  exists (y, w'). split_and!; [done|exact Hb|exact (Hl 7%nat)].
Defined.

Lemma get_stuff_spins_at_end_witness :
  get_stuff get_string (demo_terminal [x20; x0a]) = Diverge /\
  get_stuff get_int (demo_terminal [x20; x0a]) = Diverge.
Proof.
  destruct (get_stuff_spins_at_end (demo_terminal [x20; x0a])) as (H1 & H2 & _);
    [repeat constructor|]. exact (conj H1 H2).
Defined.

End client_runs.
