(* ===== verification/EndToEnd.v ===== *)
(** The client and the server together: what one side sends is what the other
    one expects, for each of the four actions.

    The headline theorem follows a file through the whole system: the client
    encrypts and uploads it, the server stores it, a later session asks for it,
    the server sends what it stored and the client decrypts it into a local file
    with the original content. *)

From S2P Require Import Prelude Sodium Constants Fs Terminal World Net SessionEnc TwoSlotBuffer Transfer FSOperator Agents Closed Progress Client.

(** The keys of both ends of a session, as [key_exchange_agrees] leaves them. *)
Definition keys_match (CA : Comms_Agent) (op : FS_Operator) : Prop :=
  client_tx CA = server_rx op /\ client_rx CA = server_tx op.

(** File names that the client's terminal can read and that denote an entry of
    the user's directory. *)
Definition file_name_ok (name : bytes) : Prop :=
  word name /\ no_nul name /\ plain_name name.

Section client_lemmas.
Context {SO : Sodium} {EN : Env} {SL : SodiumLaws SO} {EL : EnvLaws EN}.

Lemma runs_print s a : runs (print s) a tt (a_set_stdout (a_stdout a ++ [s]) a).
Proof.
  intros w [Hg Hi Hs Ho Hf Hr Hsi Hso]. unfold print, modify.
  eexists; split; [done|]. split; simpl; congruence.
Qed.

Lemma runs_get_string sp wd rest a :
  a_stdin a = Cin (sp ++ wd ++ rest) false false ->
  Forall (fun b => isspace b = true) sp -> word wd -> word_end rest ->
  runs (get_stuff get_string) a wd (a_set_stdin (Cin rest (is_nil rest) false) a).
Proof.
  intros Ha Hsp Hwd Hr w Hw. exists (read_stdin (Cin rest (is_nil rest) false) w).
  split; [|by destruct Hw; split]. apply (get_stuff_word sp); [|done..].
  by rewrite (repr_stdin _ _ Hw).
Qed.

Lemma runs_cin_string sp wd rest a v0 :
  a_stdin a = Cin (sp ++ wd ++ rest) false false ->
  Forall (fun b => isspace b = true) sp -> word wd -> word_end rest ->
  runs (cin_read get_string v0) a wd (a_set_stdin (Cin rest (is_nil rest) false) a).
Proof.
  intros Ha Hsp Hwd Hr w Hw. exists (read_stdin (Cin rest (is_nil rest) false) w).
  split; [|by destruct Hw; split].
  unfold cin_read. rewrite (repr_stdin _ _ Hw), Ha. by rewrite get_string_word.
Qed.

(** Uploading through [WTFS_Handler]. *)
Lemma WTFS_Handler_runs CA SA password sp name trail data cs salt r1 key st header r2 a :
  a_stdin a = Cin (sp ++ name ++ trail) false false ->
  Forall (fun b => isspace b = true) sp -> word name -> word_end trail ->
  ifstream_open (a_fs a) name = IFStream false data false false 0 ->
  chunks (Z.to_nat CHUNK_SIZE) data cs -> blen name <= FILE_ENCRYPTED_CHUNK_SIZE ->
  randombytes_buf (a_rng a) crypto_pwhash_SALTBYTES = (salt, r1) ->
  pwhash crypto_box_SEEDBYTES password salt = Some key ->
  ss_init_push r1 key = (st, header, r2) ->
  exists SA',
    runs (WTFS_Handler CA SA password) a (0, SA')
      (a_set_rng r2 (a_set_out (a_out a ++ upload_stream (client_tx CA) (sa_nonce SA) name
           header salt (push_all st cs))
         (a_set_stdin (Cin trail (is_nil trail) false)
           (a_set_stdout (a_stdout a ++ [str "enter file name to send to server:" ++ [x0a]]) a)))).
Proof.
  intros Hin Hsp Hw Ht Hopen Hcs Hname Hsalt Hkey Hpush.
  destruct (encrypt_and_send_runs CA SA name password data cs salt r1 key st header r2
    (a_set_stdin (Cin trail (is_nil trail) false)
      (a_set_stdout (a_stdout a ++ [str "enter file name to send to server:" ++ [x0a]]) a)))
    as (SA' & Hrun & _); auto.
  exists SA'. unfold WTFS_Handler.
  eapply runs_bind; [apply runs_print|].
  eapply runs_bind; [by apply (runs_get_string sp name trail)|].
  eapply runs_bind; [exact Hrun|]. rsimpl. apply runs_ret.
Qed.

(** Downloading through [RFFS_Handler]. *)
Lemma RFFS_Handler_runs CA RA password sp name trail data cs salt key rp st header rp' nonce h f a
    rest :
  a_stdin a = Cin (sp ++ (name ++ ext) ++ trail) false false ->
  Forall (fun b => isspace b = true) sp -> word (name ++ ext) -> word_end trail ->
  blen name <= 65000 ->
  ofstream_open (a_fs a) name = (h, f) ->
  chunks (Z.to_nat CHUNK_SIZE) data cs ->
  length nonce = crypto_aead_chacha20poly1305_NPUBBYTES ->
  length salt = crypto_pwhash_SALTBYTES ->
  pwhash crypto_box_SEEDBYTES password salt = Some key ->
  ss_init_push rp key = (st, header, rp') ->
  a_in a = download_stream (client_rx CA) nonce header salt (push_all st cs) ++ rest ->
  exists RA' so,
    runs (RFFS_Handler CA RA password) a (0, RA')
      (a_set_in rest (a_set_fs (ofstream_write h data f)
        (a_set_out (a_out a ++ wire (client_tx CA) (ra_nonce RA) ((name ++ ext) ++ [x00]))
          (a_set_stdin (Cin trail (is_nil trail) false) (a_set_stdout so a))))).
Proof.
  intros Hin Hsp Hw Ht Hlen Hopen Hcs Hn Hsalt Hkey Hpush Ha. do 2 eexists. unfold RFFS_Handler.
  eapply runs_bind; [apply runs_print|].
  eapply runs_bind; [by apply (runs_cin_string sp (name ++ ext) trail)|].
  eapply runs_bind; [apply runs_print|].
  assert (blen (name ++ ext) = blen name + 4) as Hx by (by rewrite blen_app).
  eapply runs_bind; [apply runs_wrap_and_send; rewrite blen_app, Hx; consts; len|].
  pose proof (blen_nonneg name).
  rewrite Hx, Z.add_simpl_r, u64_small by lia.
  rewrite (proj2 (Z.leb_gt _ _)) by lia. rsimpl.
  rewrite to_nat_blen, take_app_length.
  eapply runs_bind; [by apply runs_open_out|].
  eapply runs_bind; [by apply (decrypt_and_read_runs CA _ h password data cs salt key rp st
    header rp' nonce _ rest)|].
  apply runs_ret.
Qed.

End client_lemmas.

Lemma word_ext name : word name -> word (name ++ ext).
Proof.
  intros [Hne Hs]. split; [by destruct name|].
  apply Forall_app. split; [done|]. by repeat constructor.
Qed.

Lemma no_nul_ext name : no_nul name -> no_nul (name ++ ext).
Proof. intros Hn. apply Forall_app. split; [done|]. by repeat constructor. Qed.

(** What a stored file gives back: a server that holds the header, the salt and
    the encrypted chunks of [data] answers a request for it so that the client
    that asked, with the right password, writes [data]. *)
Section download.
Context {SO : Sodium} {EN : Env} {SL : SodiumLaws SO} {EL : EnvLaws EN}.

Lemma stored_file_downloads CA RA op c s name data cs password salt key rp st header rp' d sp trail :
  keys_match CA op -> length (ra_nonce RA) = crypto_aead_chacha20poly1305_NPUBBYTES ->
  file_name_ok name -> blen name <= 245 ->
  chunks (Z.to_nat CHUNK_SIZE) data cs -> length salt = crypto_pwhash_SALTBYTES ->
  pwhash crypto_box_SEEDBYTES password salt = Some key ->
  ss_init_push rp key = (st, header, rp') ->
  dir_string (user_dir op) -> resolve_dir (a_fs s) (user_dir op) = Some d ->
  has_file (a_fs s) (d ++ [name ++ ext]) (header ++ salt ++ concat (push_all st cs)) ->
  a_stdin c = Cin (sp ++ (name ++ ext) ++ trail) false false ->
  Forall (fun b => isspace b = true) sp -> word_end trail ->
  fs_nodes (a_fs c) !! (fs_cwd (a_fs c) ++ [name]) <> Some NDir ->
  exists req down,
    (forall rest,
       exists op' s', runs (RFFS_Handler__Server op) (a_set_in (req ++ rest) s) (0, op') s' /\
         a_out s' = a_out s ++ down /\ a_in s' = rest /\ a_fs s' = a_fs s) /\
    (forall rest,
       exists RA' c', runs (RFFS_Handler CA RA password) (a_set_in (down ++ rest) c) (0, RA') c' /\
         a_out c' = a_out c ++ req /\ a_in c' = rest /\
         a_fs c' = stored (a_fs c) (fs_cwd (a_fs c) ++ [name]) data).
Proof.
  intros [Hk Hk'] Hn (Hword & Hnul & Hplain) Hlen Hcs Hls Hkey Hpush Hdir Hres Hf Hin Hsp Ht Hnd.
  assert (no_slash name) by apply Hplain.
  pose proof (push_all_chunks st data cs Hcs) as Hecs.
  pose proof (ss_init_sync _ _ _ _ _ Hpush) as [Hlh _].
  destruct (randombytes_buf (a_rng s) crypto_aead_chacha20poly1305_NPUBBYTES) as [nonce r] eqn:En.
  pose proof (length_randombytes (a_rng s) crypto_aead_chacha20poly1305_NPUBBYTES) as Hln.
  rewrite En in Hln. cbn [fst] in Hln.
  exists (wire (client_tx CA) (ra_nonce RA) ((name ++ ext) ++ [x00])),
    (download_stream (server_tx op) nonce header salt (push_all st cs)). split.
  - intros rest. rewrite Hk.
    pose proof (RFFS_runs op (name ++ ext) header salt (concat (push_all st cs))
      (push_all st cs) (ra_nonce RA) d (a_set_in (wire (server_rx op) (ra_nonce RA)
        ((name ++ ext) ++ [x00]) ++ rest) s) rest) as Hr.
    cbn [a_rng a_set_in] in Hr. rewrite En in Hr.
    do 2 eexists. split; [apply Hr|]; auto using no_nul_ext, plain_name_ext.
    rewrite blen_app. change (blen ext) with 4. consts; lia.
  - intros rest. rewrite <- Hk'.
    destruct (RFFS_Handler_runs CA RA password sp name trail data cs salt key rp st header rp' nonce
      (Some (fs_cwd (a_fs c) ++ [name]))
      (set_nodes (a_fs c) (<[fs_cwd (a_fs c) ++ [name] := NFile []]> (fs_nodes (a_fs c))))
      (a_set_in (download_stream (client_rx CA) nonce header salt (push_all st cs) ++ rest) c) rest)
      as (RA' & so & Hrun); auto using word_ext; [lia| |].
    { apply ofstream_open_located; [by apply locate_cwd|unfold NAME_MAX; lia|done]. }
    do 2 eexists. split; [exact Hrun|]. split_and!; try done.
    cbn [a_fs a_set_in a_set_fs]. unfold ofstream_write. cbn [fs_nodes set_nodes].
    rewrite lookup_insert_eq. unfold stored, set_nodes. cbn [fs_nodes fs_cwd app].
    by rewrite insert_insert_eq.
Qed.

End download.

(** ** Listing *)

Section listing.
Context {SO : Sodium} {EN : Env} {SL : SodiumLaws SO} {EL : EnvLaws EN}.

(** The line the client prints for a name. *)
Definition list_line (n : bytes) : bytes := str "  " ++ n ++ [x0a].

Lemma LFFS_client_loop_runs CA names : forall r nonce bs r' nonce' a rest,
  Forall (fun n => no_nul n /\ blen n < MAX_FILE_NAME_LENGTH - 1) names ->
  list_frames (client_rx CA) names r nonce = (bs, r', nonce') ->
  a_in a = bs ++ rest ->
  runs (LFFS_client_loop CA (length names)) a 0
    (a_set_in rest (a_set_stdout (a_stdout a ++ map list_line names) a)).
Proof.
  induction names as [|n names IH]; intros r nonce bs r' nonce' a rest Hl Hf Ha.
  - injection Hf as <- <- <-. simpl in Ha. simpl. rewrite app_nil_r.
    eapply runs_conv; [apply runs_ret|done|]. destruct a; simpl in *. by subst.
  - apply Forall_cons in Hl as [[Hnul Hlen] Hl]. cbn [list_frames] in Hf.
    pose proof (length_randombytes r crypto_aead_chacha20poly1305_NPUBBYTES) as Hln.
    destruct (randombytes_buf r _) as [n1 r1]. cbn [fst] in Hln.
    destruct (list_frames _ names r1 _) as [[bs1 r2] n2] eqn:E.
    apply pair_eq in Hf as [[<- _]%pair_eq _].
    rewrite <- (app_assoc (wire _ _ _)) in Ha. cbn [LFFS_client_loop length].
    read_message (client_rx CA) n1 (n ++ [x00]).
    eapply runs_bind; [by apply runs_defined, c_str_received|].
    eapply runs_bind; [apply runs_print|].
    eapply runs_conv; [by eapply (IH r1 (sodium_increment n1) bs1 r2 n2)|done|].
    unfold a_set_in, a_set_stdout. simpl. by rewrite <- app_assoc.
Qed.

Lemma LFFS_runs op d a :
  user_dir op <> [] -> resolve_dir (a_fs a) (user_dir op) = Some d ->
  let names := dir_order (children (fs_nodes (a_fs a)) d) in
  Forall (fun n => blen n <= NAME_MAX) names ->
  let '(nonce, r) := randombytes_buf (a_rng a) crypto_aead_chacha20poly1305_NPUBBYTES in
  let '(bs, r', nonce') := list_frames (server_tx op) names r (sodium_increment nonce) in
  runs (LFFS_Handler__Server op) a (0, set_op_nonce nonce' op)
    (a_set_rng r' (a_set_out
      (a_out a ++ wire (server_tx op) nonce (int_encode (Z.of_nat (length names))) ++ bs) a)).
Proof.
  intros Hne Hres names Hl.
  destruct (randombytes_buf (a_rng a) _) as [nonce r] eqn:Er.
  pose proof (LFFS_loop_runs op names (sodium_increment nonce)
    (a_set_out (a_out a ++ wire (server_tx op) nonce (int_encode (Z.of_nat (length names))))
      (a_set_rng r a)) Hl) as Hloop. cbn [a_rng a_set_out a_set_rng a_out] in Hloop.
  destruct (list_frames (server_tx op) names r _) as [[bs r'] nonce'].
  assert (forall a', a_fs a' = a_fs a -> runs (list_dir (user_dir op)) a' names a') as Hdir.
  { intros a' Hfs. eapply runs_conv; [apply runs_fs_call|done|].
    - unfold directory_entries. rewrite Hfs, bool_decide_eq_false_2, Hres by done. done.
    - destruct a'; simpl in *; by subst. }
  unfold LFFS_Handler__Server.
  eapply runs_bind; [by apply Hdir|].
  eapply runs_bind; [apply runs_randombytes|]. rewrite Er. cbn [fst snd].
  eapply runs_bind; [apply runs_wrap_and_send; consts; len|].
  eapply runs_bind; [by apply Hdir|].
  eapply runs_bind; [exact Hloop|].
  eapply runs_conv; [apply runs_ret|done|]. unfold a_set_rng, a_set_out. simpl.
  by rewrite <- app_assoc.
Qed.

End listing.

(** ** Properties *)

Section end_to_end.
Context {SO : Sodium} {EN : Env} {SL : SodiumLaws SO} {EL : EnvLaws EN}.

(** C2: A file survives the system.  A client uploads the local file [name]
    with content [data] (any content, any length, the empty file included)
    under [password]; then

    - the bytes it sends make the server's upload handler return 0 and leave
      some [content] in the file [name].enc of the user's directory, and nothing
      else changed in the server's file system; the client's own files are as
      they were;
    - whenever a server holds that [content] under that name, in this or in a
      later session with other keys, the request sent by a client that asks for
      [name].enc makes the download handler send an answer from which that
      client, given the same password, writes exactly [data] into its local
      file [name]. *)
Theorem upload_download_roundtrip (CA1 : Comms_Agent) (SA1 : Sender_Agent) (op1 : FS_Operator)
    (c1 : aworld) (name data password sp1 trail1 : bytes) (d : path) :
  keys_match CA1 op1 -> length (sa_nonce SA1) = crypto_aead_chacha20poly1305_NPUBBYTES ->
  file_name_ok name -> blen name <= 245 ->
  a_stdin c1 = Cin (sp1 ++ name ++ trail1) false false ->
  Forall (fun b => isspace b = true) sp1 -> word_end trail1 ->
  has_file (a_fs c1) (fs_cwd (a_fs c1) ++ [name]) data ->
  (forall salt, is_Some (pwhash crypto_box_SEEDBYTES password salt)) ->
  dir_string (user_dir op1) ->
  exists up content SA1' c1',
    (runs (WTFS_Handler CA1 SA1 password) c1 (0, SA1') c1' /\ a_out c1' = a_out c1 ++ up /\
       a_fs c1' = a_fs c1) /\
    (forall s1 rest, a_in s1 = up ++ rest -> resolve_dir (a_fs s1) (user_dir op1) = Some d ->
       fs_nodes (a_fs s1) !! (d ++ [name ++ ext]) <> Some NDir ->
       runs (WTFS_Handler__Server op1) s1 0
         (a_set_in rest (a_set_fs (stored (a_fs s1) (d ++ [name ++ ext]) content) s1))) /\
    (forall CA2 RA2 op2 c2 s2 sp2 trail2,
       keys_match CA2 op2 -> length (ra_nonce RA2) = crypto_aead_chacha20poly1305_NPUBBYTES ->
       dir_string (user_dir op2) -> resolve_dir (a_fs s2) (user_dir op2) = Some d ->
       has_file (a_fs s2) (d ++ [name ++ ext]) content ->
       a_stdin c2 = Cin (sp2 ++ (name ++ ext) ++ trail2) false false ->
       Forall (fun b => isspace b = true) sp2 -> word_end trail2 ->
       fs_nodes (a_fs c2) !! (fs_cwd (a_fs c2) ++ [name]) <> Some NDir ->
       exists req down,
         (forall rest,
            exists op2' s2', runs (RFFS_Handler__Server op2) (a_set_in (req ++ rest) s2) (0, op2') s2' /\
              a_out s2' = a_out s2 ++ down /\ a_in s2' = rest /\ a_fs s2' = a_fs s2) /\
         (forall rest,
            exists RA2' c2',
              runs (RFFS_Handler CA2 RA2 password) (a_set_in (down ++ rest) c2) (0, RA2') c2' /\
              a_out c2' = a_out c2 ++ req /\ a_in c2' = rest /\
              a_fs c2' = stored (a_fs c2) (fs_cwd (a_fs c2) ++ [name]) data)).
Proof.
  intros [Hk1 _] Hn1 (Hword & Hnul & Hplain) Hlen Hin1 Hsp1 Ht1 Hfile Hpw Hdir1.
  assert (no_slash name) as Hns by apply Hplain.
  destruct (chunks_exist (Z.to_nat CHUNK_SIZE) data) as [cs Hcs]; [consts; lia|].
  destruct (randombytes_buf (a_rng c1) crypto_pwhash_SALTBYTES) as [salt r1] eqn:Esalt.
  destruct (Hpw salt) as [key Hkey].
  destruct (ss_init_push r1 key) as [[st header] r2] eqn:Epush.
  pose proof (ss_init_sync _ _ _ _ _ Epush) as [Hlh _].
  pose proof (length_randombytes (a_rng c1) crypto_pwhash_SALTBYTES) as Hls.
  rewrite Esalt in Hls. cbn [fst] in Hls.
  assert (ifstream_open (a_fs c1) name = IFStream false data false false 0) as Hopen.
  { unfold ifstream_open. rewrite locate_cwd by done. unfold has_file in Hfile. by rewrite Hfile. }
  pose proof (push_all_chunks st data cs Hcs) as Hecs.
  destruct (WTFS_Handler_runs CA1 SA1 password sp1 name trail1 data cs salt r1 key st header r2 c1)
    as [SA1' Hup]; auto; [consts; lia|].
  exists (upload_stream (client_tx CA1) (sa_nonce SA1) name header salt (push_all st cs)),
    (header ++ salt ++ concat (push_all st cs)), SA1'. eexists.
  split; [split_and!; [exact Hup|done|done]|].
  split.
  - intros s1 rest Hs1 Hres Hnd. rewrite Hk1 in Hs1.
    eapply WTFS_runs; eauto; [consts; lia|by eapply push_all_nonempty, chunks_nonempty|].
    eapply Forall_impl; [by eapply chunks_bound|]. intros c Hc. unfold blen. cbv beta in Hc.
    consts; lia.
  - intros CA2 RA2 op2 c2 s2 sp2 trail2 Hk2 Hn2 Hdir2 Hres2 Hf2 Hin2 Hsp2 Ht2 Hnd2.
    by eapply stored_file_downloads.
Qed.


(** Listing.  When the user's directory exists and every name in it fits
    the client's buffer, the server's answer makes the client print the number
    of files and each name of the directory exactly once (in the order the
    directory is read), and changes no file. *)
Theorem listing_shows_directory (CA : Comms_Agent) (op : FS_Operator) (c s : aworld) (d : path) :
  keys_match CA op -> user_dir op <> [] -> resolve_dir (a_fs s) (user_dir op) = Some d ->
  Forall (fun n => no_nul n /\ blen n < MAX_FILE_NAME_LENGTH - 1) (children (fs_nodes (a_fs s)) d) ->
  Z.of_nat (length (children (fs_nodes (a_fs s)) d)) < 2 ^ 31 ->
  exists down names op' s',
    names ≡ₚ children (fs_nodes (a_fs s)) d /\
    (runs (LFFS_Handler__Server op) s (0, op') s' /\
       a_out s' = a_out s ++ down /\ a_fs s' = a_fs s) /\
    forall rest,
      runs (LFFS_Handler CA) (a_set_in (down ++ rest) c) 0
        (a_set_in rest (a_set_stdout (a_stdout c
           ++ [x0a :: str "--- Stored Files (" ++ print_int (Z.of_nat (length names))
                ++ str ") ---" ++ [x0a]]
           ++ map list_line names ++ [str "--------------------------" ++ [x0a]]) c)).
Proof.
  intros [_ Hk] Hne Hres Hl Hcount.
  pose proof (dir_order_perm (children (fs_nodes (a_fs s)) d)) as Hperm.
  set (names := dir_order (children (fs_nodes (a_fs s)) d)) in *.
  rewrite <- Hperm in Hl. rewrite <- (Permutation_length Hperm) in Hcount.
  pose proof (LFFS_runs op d s Hne Hres) as Hs. cbv zeta in Hs. fold names in Hs.
  pose proof (length_randombytes (a_rng s) crypto_aead_chacha20poly1305_NPUBBYTES) as Hln.
  destruct (randombytes_buf (a_rng s) _) as [nonce r]. cbn [fst] in Hln.
  destruct (list_frames (server_tx op) names r (sodium_increment nonce)) as [[bs r'] nonce'] eqn:E.
  exists (wire (server_tx op) nonce (int_encode (Z.of_nat (length names))) ++ bs), names.
  do 2 eexists. split; [done|]. split.
  - split; [apply Hs|done]. eapply Forall_impl; [exact Hl|]. intros n [_ Hn]. unfold NAME_MAX.
    consts. lia.
  - intros rest. rewrite <- (app_assoc (wire _ _ _)), <- Hk. unfold LFFS_Handler.
    read_message (client_rx CA) nonce (int_encode (Z.of_nat (length names))).
    eapply runs_bind; [apply runs_int_written|].
    rewrite overwrite_full by (by rewrite length_indet).
    rewrite int_decode_encode by lia. rewrite Nat2Z.id.
    eapply runs_bind; [apply runs_print|]. rewrite <- Hk in E.
    eapply runs_bind; [by eapply (LFFS_client_loop_runs CA names _ _ _ _ _ _ rest Hl E)|].
    cbn [Z.eqb negb]. eapply runs_bind; [apply runs_print|].
    eapply runs_conv; [apply runs_ret|done|]. unfold a_set_in, a_set_stdout. simpl.
    by rewrite <- !app_assoc.
Qed.

(** Deleting.  For the plain name of a stored file, the request the client
    sends makes the server remove that file and nothing else, and its answer
    makes the client report success. *)
Theorem delete_removes_file (CA : Comms_Agent) (op : FS_Operator) (c s : aworld) (d : path)
    (name content sp trail : bytes) :
  keys_match CA op -> dir_string (user_dir op) -> resolve_dir (a_fs s) (user_dir op) = Some d ->
  file_name_ok name -> blen name < PRE_EXT_FILE_NAME_LEN ->
  has_file (a_fs s) (d ++ [name]) content ->
  a_stdin c = Cin (sp ++ name ++ trail) false false ->
  Forall (fun b => isspace b = true) sp -> word_end trail ->
  exists req down,
    (forall rest,
       exists op' s', runs (DFFS_Handler__Server op) (a_set_in (req ++ rest) s) (0, op') s' /\
         a_out s' = a_out s ++ down /\ a_in s' = rest /\
         a_fs s' = set_nodes (a_fs s) (delete (d ++ [name]) (fs_nodes (a_fs s)))) /\
    (forall rest,
       exists c', runs (DFFS_Handler CA) (a_set_in (down ++ rest) c) 0 c' /\
         a_out c' = a_out c ++ req /\ a_in c' = rest /\
         a_stdout c' = a_stdout c ++ [str "enter file name to delete (ends in .enc): ";
                                      str "deleted successfully" ++ [x0a]]).
Proof.
  intros [Hk Hk'] Hdir Hres (Hword & Hnul & Hplain) Hlen Hf Hin Hsp Ht.
  destruct (randombytes_buf (a_rng c) crypto_aead_chacha20poly1305_NPUBBYTES) as [cn rc] eqn:Ec.
  destruct (randombytes_buf (a_rng s) crypto_aead_chacha20poly1305_NPUBBYTES) as [n0 r0] eqn:E0.
  destruct (randombytes_buf r0 crypto_aead_chacha20poly1305_NPUBBYTES) as [sn rs] eqn:Es.
  pose proof (length_randombytes (a_rng c) crypto_aead_chacha20poly1305_NPUBBYTES) as Hcn.
  pose proof (length_randombytes r0 crypto_aead_chacha20poly1305_NPUBBYTES) as Hsn.
  rewrite Ec in Hcn. rewrite Es in Hsn. cbn [fst] in Hcn, Hsn.
  exists (wire (client_tx CA) cn (name ++ [x00])), (wire (server_tx op) sn (int_encode ACK_SUC)).
  split.
  - intros rest. rewrite Hk.
    pose proof (DFFS_runs op name cn true (set_nodes (a_fs s) (delete (d ++ [name]) (fs_nodes (a_fs s))))
      (a_set_in (wire (server_rx op) cn (name ++ [x00]) ++ rest) s) rest Hcn Hlen Hnul) as Hr.
    cbn [a_rng a_set_in] in Hr. rewrite E0, Es in Hr.
    do 2 eexists. split; [apply Hr; [|done]|done].
    unfold fs_remove. cbn [a_fs a_set_in]. rewrite (locate_plain _ _ d) by done.
    unfold has_file in Hf. by rewrite Hf.
  - intros rest. rewrite <- Hk'. eexists. split.
    + unfold DFFS_Handler. eapply runs_bind; [apply runs_print|].
      eapply runs_bind; [by apply (runs_cin_string sp name trail)|].
      eapply runs_bind; [apply runs_randombytes|]. cbn [a_rng a_set_in a_set_stdin a_set_stdout].
      rewrite Ec. cbn [fst snd].
      eapply runs_bind; [apply runs_wrap_and_send; consts; len|].
      read_message (client_rx CA) sn (int_encode ACK_SUC).
      eapply runs_bind; [apply runs_int_written|].
      rewrite overwrite_full by (by rewrite length_indet).
      rewrite int_decode_encode by (unfold ACK_SUC; lia). rewrite Z.eqb_refl.
      eapply runs_bind; [apply runs_print|]. apply runs_ret.
    + cbn [a_out a_in a_stdout a_set_in a_set_out a_set_stdout a_set_stdin a_set_rng].
      split_and!; [done|done|by rewrite <- app_assoc].
Qed.

(** The client has no such file: it says so and returns 1. *)
Lemma WTFS_Handler_missing CA SA password sp name trail (c : aworld) :
  word name -> a_stdin c = Cin (sp ++ name ++ trail) false false ->
  Forall (fun b => isspace b = true) sp -> word_end trail ->
  if_fail (ifstream_open (a_fs c) name) = true ->
  exists r SA', forall i,
    runs (WTFS_Handler CA SA password) (a_set_in i c) (1, SA')
      (a_set_in i (a_set_out (a_out c ++ wire (client_tx CA) (sa_nonce SA) [x00]) (a_set_rng r
        (a_set_stdin (Cin trail (is_nil trail) false) (a_set_stdout
          (a_stdout c ++ [str "enter file name to send to server:" ++ [x0a]]) c))))).
Proof.
  intros Hw Hin Hsp Ht Hfail.
  destruct (randombytes_buf (a_rng c) crypto_pwhash_SALTBYTES) as [salt r1] eqn:Es.
  pose proof (fun a => set_crypto_runs SA password salt r1 a) as Hsc.
  set (q := match pwhash crypto_box_SEEDBYTES password salt with None => _ | Some _ => _ end) in Hsc.
  assert (sa_nonce (snd q) = sa_nonce SA) as Hq by (unfold q; by destruct (pwhash _ _ _)).
  destruct q as [qrc SA1]. cbn [snd] in Hq.
  destruct (ss_init_push r1 (sa_key SA1)) as [[st header] r2] eqn:Ep.
  exists r2. eexists. intros i. unfold WTFS_Handler. eapply runs_bind; [apply runs_print|].
  eapply runs_bind; [by apply (runs_get_string sp name trail)|].
  eapply runs_bind.
  { unfold encrypt_and_send_to_server. eapply runs_bind; [by apply Hsc|]. rsimpl.
    eapply runs_bind; [apply runs_open_in|].
    eapply runs_bind; [by apply runs_init_push|]. rsimpl.
    eapply runs_bind; [by apply init_send_missing|]. rsimpl. cbn [Z.eqb negb].
    rewrite Hq. apply runs_ret. }
  rsimpl. cbn [Z.eqb negb]. apply runs_ret.
Qed.

(** The server is told that there is no file; it prints its uninitialised name
    buffer and returns 1. *)
Lemma WTFS_Server_missing op nonce s rest :
  length nonce = crypto_aead_chacha20poly1305_NPUBBYTES ->
  is_Some (c_str (indet "file_name_buf" (Z.to_nat FILE_ENCRYPTED_CHUNK_SIZE))) ->
  a_in s = wire (server_rx op) nonce [x00] ++ rest ->
  runs (WTFS_Handler__Server op) s 1 (a_set_in rest s).
Proof.
  intros Hn [junk Hjunk] Hs. unfold WTFS_Handler__Server. eapply runs_bind.
  { unfold init_read. read_message (server_rx op) nonce [x00].
    eapply runs_bind; [apply runs_initialised, bool_decide_eq_true_2; by left|].
    rewrite bool_decide_eq_true_2 by done. eapply runs_bind; [by apply runs_defined|].
    apply runs_ret. }
  rsimpl. apply runs_ret.
Qed.

(** Uploading a file that cannot be opened: the client announces that and
    returns 1; what it sent makes the server's handler return 1 as well, with its
    file system unchanged and no byte of the session lost, provided that the
    uninitialised name buffer it prints then holds a NUL somewhere. *)
Theorem missing_upload_refused (CA : Comms_Agent) (SA : Sender_Agent) (op : FS_Operator)
    (c : aworld) (name password sp trail : bytes) :
  keys_match CA op -> length (sa_nonce SA) = crypto_aead_chacha20poly1305_NPUBBYTES ->
  word name -> a_stdin c = Cin (sp ++ name ++ trail) false false ->
  Forall (fun b => isspace b = true) sp -> word_end trail ->
  if_fail (ifstream_open (a_fs c) name) = true ->
  is_Some (c_str (indet "file_name_buf" (Z.to_nat FILE_ENCRYPTED_CHUNK_SIZE))) ->
  exists up SA' c',
    (runs (WTFS_Handler CA SA password) c (1, SA') c' /\
       a_out c' = a_out c ++ up /\ a_fs c' = a_fs c) /\
    forall s rest, a_in s = up ++ rest ->
      runs (WTFS_Handler__Server op) s 1 (a_set_in rest s).
Proof.
  intros [Hk _] Hn Hw Hin Hsp Ht Hfail Hjunk.
  destruct (WTFS_Handler_missing CA SA password sp name trail c) as (r & SA' & Hr); [done..|].
  exists (wire (client_tx CA) (sa_nonce SA) [x00]), SA'. eexists. split; [split|].
  - specialize (Hr (a_in c)). by destruct c.
  - done.
  - intros s rest Hs. rewrite Hk in Hs. by apply (WTFS_Server_missing op (sa_nonce SA)).
Qed.

End end_to_end.

(** ** Concrete runs *)

Section end_to_end_runs.
#[local] Existing Instances toy_sodium toy_sodium_laws toy_env toy_env_laws.

(** A client with a local file [notes], and what its user types. *)
Definition demo_client (typed i : bytes) : aworld :=
  @AWorld toy_sodium i [] (Fs [] {[ [str "notes"] := NFile (str "hello") ]}) 0
    (Cin typed false false) [].

Definition demo_sender : Sender_Agent := SenderAgent demo_nonce [] 0 [] [].
Definition demo_receiver : Receiver_Agent := ReceiverAgent demo_nonce 0 [].

Lemma demo_name_ok : file_name_ok (str "notes").
Proof.
  split; [|split].
  - split; [discriminate|]. by repeat constructor.
  - repeat constructor; discriminate.
  - split_and!; try discriminate. repeat constructor; discriminate.
Qed.

Lemma demo_resolve (u : string) : u = "ann"%string \/ u = "bob"%string ->
  resolve_dir demo_user_fs (user_dir (demo_op u)) = Some [str "MEF_S"; str u].
Proof. intros [-> | ->]; vm_compute; reflexivity. Qed.

(** The files of the server once [content] is stored as ann's notes.enc. *)
Definition demo_stored (content : bytes) : fs :=
  stored demo_user_fs ([str "MEF_S"; str "ann"] ++ [str "notes" ++ ext]) content.

(** The client uploads notes; another client, which has no files, fetches
    notes.enc from the server that stored it. *)
Lemma upload_download_roundtrip_witness :
  exists up content SA c',
    (runs (WTFS_Handler demo_agent demo_sender (str "pw")) (demo_client (str "notes n") []) (0, SA) c' /\
       a_out c' = up /\ a_fs c' = a_fs (demo_client [] [])) /\
    runs (WTFS_Handler__Server (demo_op "ann")) (demo_server up) 0
      (a_set_in [] (a_set_fs (demo_stored content) (demo_server up))) /\
    exists req down op' s' RA' c2',
      runs (RFFS_Handler__Server (demo_op "ann"))
        (a_set_in (req ++ []) (a_set_fs (demo_stored content) (demo_server []))) (0, op') s' /\
      a_out s' = down /\
      runs (RFFS_Handler demo_agent demo_receiver (str "pw"))
        (a_set_in (down ++ []) (a_set_fs (Fs [] ∅) (demo_client (str "notes.enc") []))) (0, RA') c2' /\
      a_out c2' = req /\ fs_nodes (a_fs c2') = {[ [str "notes"] := NFile (str "hello") ]}.
Proof.
  destruct (upload_download_roundtrip demo_agent demo_sender (demo_op "ann")
    (demo_client (str "notes n") []) (str "notes") (str "hello") (str "pw") [] (str " n")
    [str "MEF_S"; str "ann"]) as (up & content & SA & c' & (Hc & Ho & Hf) & Hs & Hd);
    [by split|reflexivity|apply demo_name_ok|vm_compute; discriminate|reflexivity|constructor
    |reflexivity|vm_compute; reflexivity|intros salt; by eexists|by apply demo_dir_string|].
  exists up, content, SA, c'. split; [by split_and!|]. split.
  - apply (Hs (demo_server up) []); [by rewrite app_nil_r|apply demo_resolve; by left|].
    vm_compute. discriminate.
  - destruct (Hd demo_agent demo_receiver (demo_op "ann")
      (a_set_fs (Fs [] ∅) (demo_client (str "notes.enc") []))
      (a_set_fs (demo_stored content) (demo_server [])) [] [])
      as (req & down & Hsrv & Hcl);
      [by split|reflexivity|by apply demo_dir_string|vm_compute; reflexivity
      |vm_compute; reflexivity|reflexivity|constructor|exact I|vm_compute; discriminate|].
    destruct (Hsrv []) as (op' & s' & Hr & Hsout & _).
    destruct (Hcl []) as (RA' & c2' & Hr2 & Hcout & _ & Hcf).
    exists req, down, op', s', RA', c2'. split_and!; [done|done|done|done|].
    by rewrite Hcf.
Defined.

Lemma listing_shows_directory_witness :
  exists down names op' s',
    names ≡ₚ children (fs_nodes demo_user_fs) [str "MEF_S"; str "bob"] /\
    runs (LFFS_Handler__Server (demo_op "bob")) (demo_server []) (0, op') s' /\ a_out s' = down.
Proof.
  destruct (listing_shows_directory demo_agent (demo_op "bob") (demo_client [] [])
    (demo_server []) [str "MEF_S"; str "bob"]) as (down & names & op' & s' & Hp & (Hs & Ho & _) & _);
    [by split|discriminate|apply demo_resolve; by right| | |].
  - replace (children _ _) with [str "f.enc"] by (vm_compute; reflexivity).
    repeat constructor; try discriminate.
  - vm_compute. reflexivity.
  - exists down, names, op', s'. by split.
Defined.

Lemma delete_removes_file_witness :
  exists req, exists op' s',
    runs (DFFS_Handler__Server (demo_op "bob")) (demo_server (req ++ [])) (0, op') s' /\
    a_fs s' = set_nodes demo_user_fs
      (delete ([str "MEF_S"; str "bob"] ++ [str "f.enc"]) (fs_nodes demo_user_fs)).
Proof.
  destruct (delete_removes_file demo_agent (demo_op "bob") (demo_client (str "f.enc") [])
    (demo_server []) [str "MEF_S"; str "bob"] (str "f.enc") (demo_header ++ demo_salt ++ str "enc")
    [] []) as (req & down & Hs & _);
    [by split|by apply demo_dir_string|apply demo_resolve; by right| |reflexivity
    |vm_compute; reflexivity|reflexivity|constructor|exact I|].
  - split; [|split].
    + split; [discriminate|]. by repeat constructor.
    + repeat constructor; discriminate.
    + split_and!; try discriminate. repeat constructor; discriminate.
  - destruct (Hs []) as (op' & s' & Hr & _ & _ & Hfs). exists req, op', s'. exact (conj Hr Hfs).
Defined.

Lemma missing_upload_refused_witness :
  exists up SA' c',
    (runs (WTFS_Handler demo_agent demo_sender (str "pw")) (demo_client (str "gone") []) (1, SA') c' /\
       a_out c' = up /\ a_fs c' = a_fs (demo_client (str "gone") [])) /\
    forall s rest, a_in s = up ++ rest ->
      runs (WTFS_Handler__Server (demo_op "ann")) s 1 (a_set_in rest s).
Proof.
  apply (missing_upload_refused demo_agent demo_sender (demo_op "ann")
    (demo_client (str "gone") []) (str "gone") (str "pw") [] []);
    [by split|reflexivity| |reflexivity|constructor|exact I|vm_compute; reflexivity|by eexists].
  split; [discriminate|]. by repeat constructor.
Defined.

End end_to_end_runs.
