(* ===== verification/Auth.v ===== *)
(** Logging in: [login] of src/server/auth.cpp and [verify_credentials] of
    src/server/server.cpp.

    The user table is an sqlite3 database, reached through a prepared
    statement; sqlite is not part of the repository, and what [login] sees of it
    is the record [database].

    The theorems: [login] succeeds exactly when the table has a hash for the
    user name that verifies the received password bytes, and wipes both buffers
    exactly then; the credentials the client sends reach [login] unchanged, and the
    client goes on unless the answer reads -1; the terminal shows nothing that is
    typed after the line of the user name; a message that fails to decrypt is
    passed on to [login] all the same. *)

From S2P Require Import Prelude Sodium Constants Fs Terminal World Net SessionEnc TwoSlotBuffer Transfer FSOperator Agents Closed Progress Client EndToEnd.

(** What the database answers: whether the statement can be prepared, and for
    the value bound to [username] the first row's [hashed_pswd] column ([None]
    when [sqlite3_step] does not return [SQLITE_ROW], [Some None] for a NULL
    column). *)
Record database := Database {
  db_prepare : bool;
  db_row : bytes -> option (option bytes)
}.

Section auth.
Context {SO : Sodium} {EN : Env}.

(** The first [n] bytes of a buffer; undefined outside it. *)
Definition read_bytes (buf : bytes) (n : Z) : option bytes :=
  if (0 <=? n) && (n <=? blen buf) then Some (take (Z.to_nat n) buf) else None.

(** [sodium_memzero(buf, n)] *)
Definition memzero_n (buf : bytes) (n : Z) : option bytes :=
  (fun p => overwrite buf (sodium_memzero p)) <$> read_bytes buf n.

(** [login]: the return code and the two buffers after the call. *)
Definition login (DB : database) (username : bytes) (username_len : Z) (password : bytes)
    (password_len : Z) : IO (Z * bytes * bytes) :=
  if negb (db_prepare DB) then mret (1, username, password) else
  name ← defined (c_str username);
  match db_row DB name with
  | None => mret (1, username, password)
  | Some column =>
      db_password_hash ← defined column;
      pw ← defined (read_bytes password password_len);
      if negb (pwhash_str_verify db_password_hash pw) then mret (1, username, password) else
      username ← defined (memzero_n username username_len);
      password ← defined (memzero_n password password_len);
      mret (0, username, password)
  end.

(** Whether [unwrap] has written the length: when it called libsodium. *)
Definition length_written (rc : Z) : bool := (rc =? 0) || (rc =? 1).

(** [verify_credentials]: the return code and the user name.  The results of
    both [unwrap] calls are ignored, and the two lengths are passed on whether
    or not they have been written. *)
Definition verify_credentials (DB : database) (server_rx : bytes) : IO (Z * bytes) :=
  username_wrapper ← SessionEncWrapper_reader;
  let '(rc1, _, decrypted_username, decrypted_username_len) :=
    unwrap username_wrapper server_rx FILE_ENCRYPTED_CHUNK_SIZE
      (indet "decrypted_username" (Z.to_nat FILE_ENCRYPTED_CHUNK_SIZE))
      (indet_ull "decrypted_username_len") in
  username ← defined (c_str decrypted_username);
  password_wrapper ← SessionEncWrapper_reader;
  let '(rc2, _, decrypted_password, decrypted_password_len) :=
    unwrap password_wrapper server_rx FILE_ENCRYPTED_CHUNK_SIZE
      (indet "decrypted_password" (Z.to_nat FILE_ENCRYPTED_CHUNK_SIZE))
      (indet_ull "decrypted_password_len") in
  _ ← initialised (length_written rc1 && length_written rc2);
  r ← login DB decrypted_username decrypted_username_len decrypted_password
        decrypted_password_len;
  let '(rc, _, _) := r in
  if negb (rc =? 0) then mret (1, username) else mret (0, username).

(** The table accepts the user name with these password bytes. *)
Definition accepts (DB : database) (name pw : bytes) : bool :=
  db_prepare DB &&
  match db_row DB name with
  | Some (Some h) => pwhash_str_verify h pw
  | _ => false
  end.

(** No row of the table has a NULL hash. *)
Definition no_null_hash (DB : database) : Prop := forall name, db_row DB name <> Some None.

End auth.

Section auth_lemmas.
Context {SO : Sodium} {EN : Env} {SL : SodiumLaws SO} {EL : EnvLaws EN}.

Lemma read_bytes_prefix m buf : read_bytes (m ++ buf) (blen m) = Some m.
Proof.
  unfold read_bytes. pose proof (blen_nonneg m). pose proof (blen_nonneg buf).
  rewrite blen_app, (proj2 (Z.leb_le 0 _)), (proj2 (Z.leb_le _ _)) by lia. simpl.
  by rewrite to_nat_blen, take_app_length.
Qed.

Lemma memzero_n_prefix m buf :
  memzero_n (m ++ buf) (blen m) = Some (replicate (length m) x00 ++ buf).
Proof.
  unfold memzero_n. rewrite read_bytes_prefix. simpl. f_equal. rewrite memzero_zero.
  unfold overwrite. by rewrite length_replicate, drop_app_length.
Qed.

(** [login] on buffers that start with a terminated name and a password. *)
Lemma login_spec DB name pw ubuf pbuf (w : world) :
  no_nul name -> no_null_hash DB ->
  login DB (name ++ x00 :: ubuf) (blen name + 1) (pw ++ pbuf) (blen pw) w =
    if accepts DB name pw
    then Ok (0, replicate (length name + 1) x00 ++ ubuf, replicate (length pw) x00 ++ pbuf) w
    else Ok (1, name ++ x00 :: ubuf, pw ++ pbuf) w.
Proof.
  intros Hn Hnn. unfold login, accepts. destruct (db_prepare DB); [|done]. cbn [negb andb].
  rewrite c_str_app by done. unfold mbind, M_bind, defined at 1. unfold mret, M_ret.
  specialize (Hnn name). destruct (db_row DB name) as [[h|]|]; [|done|done].
  cbn [defined]. unfold mret, M_ret. rewrite read_bytes_prefix. cbn [defined].
  unfold mret, M_ret. destruct (pwhash_str_verify h pw); [|done]. cbn [negb].
  rewrite memzero_n_prefix.
  replace (name ++ x00 :: ubuf) with ((name ++ [x00]) ++ ubuf) by (by rewrite <- app_assoc).
  replace (blen name + 1) with (blen (name ++ [x00])) by (by rewrite blen_app).
  rewrite memzero_n_prefix, length_app. done.
Qed.

Lemma received_buffer buf m : overwrite buf (m ++ [x00]) = m ++ x00 :: drop (length m + 1) buf.
Proof. unfold overwrite. rewrite <- app_assoc, length_app. done. Qed.

(** The credentials arrive at [login] as they were typed, each with its
    terminating NUL. *)
Lemma verify_credentials_runs DB rx name pw nonce a rest :
  length nonce = crypto_aead_chacha20poly1305_NPUBBYTES -> no_null_hash DB ->
  no_nul name -> blen name < FILE_ENCRYPTED_CHUNK_SIZE -> blen pw < FILE_ENCRYPTED_CHUNK_SIZE ->
  a_in a = wire rx nonce (name ++ [x00])
    ++ wire rx (sodium_increment nonce) (pw ++ [x00]) ++ rest ->
  runs (verify_credentials DB rx) a
    (if accepts DB name (pw ++ [x00]) then 0 else 1, name) (a_set_in rest a).
Proof.
  intros Hn Hnn Hnul Hname Hpw Ha. unfold verify_credentials.
  read_message rx nonce (name ++ [x00]).
  eapply runs_bind; [by apply runs_defined, c_str_received|].
  read_message rx (sodium_increment nonce) (pw ++ [x00]).
  eapply runs_bind; [by apply runs_initialised|].
  rewrite !received_buffer. intros w Hw. exists w. split; [|done].
  replace (blen (name ++ [x00])) with (blen name + 1) by (by rewrite blen_app).
  rewrite (snoc_app pw).
  unfold mbind, M_bind. rewrite login_spec by done. by destruct (accepts _ _ _).
Qed.

End auth_lemmas.

(** ** The client's side *)

Section credentials.
Context {SO : Sodium} {EN : Env} {SL : SodiumLaws SO} {EL : EnvLaws EN}.

(** [runs] for operations that do not read the connection, which stays cut into
    the same pieces. *)
Definition runs_unread {A} (m : IO A) (a : aworld) (v : A) (a' : aworld) : Prop :=
  forall w, repr w a -> exists w', m w = Ok v w' /\ repr w' a' /\ w_in w' = w_in w.

(** [reaches m a k a']: without reading the connection, [m] gets from [a] to
    running [k] in [a']. *)
Definition reaches {A} (m : IO A) (a : aworld) (k : IO A) (a' : aworld) : Prop :=
  forall w, repr w a -> exists w', m w = k w' /\ repr w' a' /\ w_in w' = w_in w.

Lemma reaches_refl {A} (m : IO A) a : reaches m a m a.
Proof. intros w Hw. by exists w. Qed.

Lemma reaches_bind {A B} (m : IO A) (f : A -> IO B) k a v a1 a' :
  runs_unread m a v a1 -> reaches (f v) a1 k a' -> reaches (m ≫= f) a k a'.
Proof.
  intros Hm Hf w Hw. destruct (Hm w Hw) as (w1 & E & Hr & Hi).
  destruct (Hf w1 Hr) as (w2 & E2 & Hr2 & Hi2). exists w2.
  split; [|split; [done|congruence]]. by rewrite (bind_Ok _ _ _ _ _ E).
Qed.

Lemma runs_unread_intro {A} (m : IO A) a v a' :
  runs m a v a' -> (forall w v' w', m w = Ok v' w' -> w_in w' = w_in w) -> runs_unread m a v a'.
Proof. intros Hm Hk w Hw. destruct (Hm w Hw) as (w' & E & ?). eauto. Qed.

Lemma wrap_and_send_unread d tx n (w : world) v w' :
  wrap_and_send d tx n w = Ok v w' -> w_in w' = w_in w.
Proof.
  unfold wrap_and_send, SessionEncWrapper_sender, encrypt_stream_buffer.
  destruct (aead_encrypt _ _ _) as [c|]; [destruct (_ <? _); [done|]|];
    unfold send_all, mbind, M_bind, mret, M_ret; cbn [enc_wrap_type];
    rewrite bool_decide_eq_false_2 by (intros H; by apply H);
    unfold send; destruct (w_snd w) as [|[| |] s]; intros [= <- <-]; done.
Qed.

Lemma unread_print t a : runs_unread (print t) a tt (a_set_stdout (a_stdout a ++ [t]) a).
Proof. apply runs_unread_intro; [apply runs_print|by intros w v w' [= <- <-]]. Qed.

(** The echo mode is no part of the abstract state. *)
Lemma unread_disable_echo a : runs_unread disable_echo a tt a.
Proof.
  apply runs_unread_intro; [|by intros w v w' [= <- <-]].
  intros w [????????]. eexists. split; [done|by split].
Qed.

Lemma unread_enable_echo a : runs_unread enable_echo a tt a.
Proof.
  apply runs_unread_intro; [|by intros w v w' [= <- <-]].
  intros w [????????]. eexists. split; [done|by split].
Qed.

Lemma unread_get_string sp wd rest a :
  a_stdin a = Cin (sp ++ wd ++ rest) false false ->
  Forall (fun b => isspace b = true) sp -> word wd -> word_end rest ->
  runs_unread (get_stuff get_string) a wd (a_set_stdin (Cin rest (is_nil rest) false) a).
Proof.
  intros. apply runs_unread_intro; [by apply (runs_get_string sp)|].
  by intros w v w' (c & _ & ->)%get_stuff_Ok.
Qed.

Lemma unread_wrap_and_send data tx nonce a :
  blen data <= FILE_ENCRYPTED_CHUNK_SIZE ->
  runs_unread (wrap_and_send data tx nonce) a (sodium_increment nonce)
    (a_set_out (a_out a ++ wire tx nonce data) a).
Proof.
  intros. apply runs_unread_intro; [by apply runs_wrap_and_send|apply wrap_and_send_unread].
Qed.

(** The end of [send_credentials]. *)
Definition await_ack (name pw nonce : bytes) : IO (Z * bytes * bytes * bytes) :=
  r ← recv 4;
  let auth_stat := int_decode (overwrite (int_encode (-1)) (snd r)) in
  if auth_stat =? -1 then
    _ ← print (str "you sir/madam are not authenticated." ++ [x0a]);
    throw (process_exit (-1))
  else mret (0, sodium_memzero name, pw, nonce).

(** The state after the credentials are sent. *)
Definition credentials_sent (tx nonce name pw trail : bytes) (a : aworld) : aworld :=
  a_set_out (a_out a ++ wire tx nonce (name ++ [x00])
               ++ wire tx (sodium_increment nonce) (pw ++ [x00]))
    (a_set_stdin (Cin trail (is_nil trail) false)
      (a_set_stdout (a_stdout a ++ [str "enter username: "; str "enter password: "; [x0a]]) a)).

Lemma send_credentials_reaches tx nonce sp1 name sp2 pw trail a :
  a_stdin a = Cin (sp1 ++ name ++ sp2 ++ pw ++ trail) false false ->
  Forall (fun b => isspace b = true) sp1 -> Forall (fun b => isspace b = true) sp2 ->
  sp2 <> [] -> word name -> word pw -> word_end trail ->
  blen name < FILE_ENCRYPTED_CHUNK_SIZE -> blen pw < FILE_ENCRYPTED_CHUNK_SIZE ->
  reaches (send_credentials tx nonce) a
    (await_ack name pw (sodium_increment (sodium_increment nonce)))
    (credentials_sent tx nonce name pw trail a).
Proof.
  intros Hin Hsp1 Hsp2 Hne Hname Hpw Ht Hln Hlp. unfold send_credentials.
  assert (word_end (sp2 ++ pw ++ trail) /\ is_nil (sp2 ++ pw ++ trail) = false) as [Hwe Hnil].
  { destruct sp2; [done|]. apply Forall_cons in Hsp2 as [? _]. done. }
  eapply reaches_bind; [apply unread_print|].
  eapply reaches_bind; [by apply (unread_get_string sp1 name (sp2 ++ pw ++ trail))|].
  rewrite Hnil. eapply reaches_bind; [apply unread_print|].
  eapply reaches_bind; [apply unread_disable_echo|].
  eapply reaches_bind; [by apply (unread_get_string sp2 pw trail)|].
  eapply reaches_bind; [apply unread_print|].
  eapply reaches_bind; [apply unread_enable_echo|].
  eapply reaches_bind; [apply unread_wrap_and_send; len|].
  eapply reaches_bind; [apply unread_wrap_and_send; len|].
  cbn [a_out a_stdout a_set_out a_set_stdin a_set_stdout].
  unfold credentials_sent. rewrite <- !(app_assoc (a_stdout a)), <- (app_assoc (a_out a)).
  apply reaches_refl.
Qed.

End credentials.

(** ** Properties *)

Section auth_properties.
Context {SO : Sodium} {EN : Env} {SL : SodiumLaws SO} {EL : EnvLaws EN}.

(** [login] decides by the table alone: given a terminated user name and a
    password of the stated lengths, it returns 0 exactly when the statement can
    be prepared and the user's stored hash verifies these password bytes, and
    then both buffers are zeroed over their stated lengths; in every other case
    it returns 1 and leaves both buffers as they were. *)
Theorem login_exact (DB : database) (name pw ubuf pbuf : bytes) (w : world) :
  no_nul name -> no_null_hash DB ->
  login DB (name ++ x00 :: ubuf) (blen name + 1) (pw ++ pbuf) (blen pw) w =
    if accepts DB name pw
    then Ok (0, replicate (length name + 1) x00 ++ ubuf, replicate (length pw) x00 ++ pbuf) w
    else Ok (1, name ++ x00 :: ubuf, pw ++ pbuf) w.
Proof. apply login_spec. Qed.

Lemma recv_total len (w : world) : exists r w', recv len w = Ok r w'.
Proof. unfold recv. repeat case_match; eauto. Qed.

(** What [recv] returns and leaves depends on the connection alone. *)
Lemma recv_same_in len (w1 w2 : world) r w1' :
  w_in w2 = w_in w1 -> recv len w1 = Ok r w1' ->
  exists w2', recv len w2 = Ok r w2' /\ w_in w2' = w_in w1' /\ w_out w2' = w_out w2.
Proof.
  intros E. unfold recv. rewrite E. destruct (w_in w1) as [|[bs|e] evs] eqn:E1.
  - intros [= <- <-]. exists w2. split_and!; [done|congruence|done].
  - destruct (_ <=? _)%nat; intros [= <- <-]; by eexists.
  - intros [= <- <-]. by eexists.
Qed.

(** C12: Logging in, both sides.  The client sends the two words typed at its
    terminal; from these bytes the server's [verify_credentials] decides as the
    table does about the password with its terminating NUL, and names the user.
    Then the client looks at what one [recv] of four bytes brings, written over
    an [int] that holds -1: when the [int] is still or again -1 (the server's
    [ACK_FAIL], nothing at all because the connection is closed, an
    interruption) it exits with -1, and on every other value (the server's
    [ACK_SUC], but also a part of it) it goes on with the password, the user
    name wiped.  So a whole answer of the server is understood. *)
Theorem login_agrees (DB : database) (key nonce sp1 name sp2 pw trail : bytes) (c : aworld) :
  a_stdin c = Cin (sp1 ++ name ++ sp2 ++ pw ++ trail) false false ->
  Forall (fun b => isspace b = true) sp1 -> Forall (fun b => isspace b = true) sp2 ->
  sp2 <> [] -> word name -> word pw -> word_end trail -> no_nul name ->
  blen name < FILE_ENCRYPTED_CHUNK_SIZE -> blen pw < FILE_ENCRYPTED_CHUNK_SIZE ->
  length nonce = crypto_aead_chacha20poly1305_NPUBBYTES -> no_null_hash DB ->
  exists creds,
    (forall s rest, a_in s = creds ++ rest ->
       runs (verify_credentials DB key) s
         (if accepts DB name (pw ++ [x00]) then 0 else 1, name) (a_set_in rest s)) /\
    (forall w, repr w c ->
       exists n got w0 w', recv 4 w = Ok (n, got) w0 /\
         send_credentials key nonce w =
           (if int_decode (overwrite (int_encode (-1)) got) =? -1
            then Throw (process_exit (-1)) w'
            else Ok (0, replicate (length name) x00, pw, nonce_after 2 nonce) w') /\
         w_out w' = a_out c ++ creds /\ w_in w' = w_in w0) /\
    (forall w evs, repr w c -> w_in w = RData (int_encode ACK_SUC) :: evs ->
       exists w', send_credentials key nonce w =
           Ok (0, replicate (length name) x00, pw, nonce_after 2 nonce) w' /\
         w_out w' = a_out c ++ creds /\ w_in w' = evs) /\
    (forall w evs, repr w c -> w_in w = RData (int_encode ACK_FAIL) :: evs ->
       exists w', send_credentials key nonce w = Throw (process_exit (-1)) w' /\
         w_out w' = a_out c ++ creds).
Proof.
  intros Hin Hsp1 Hsp2 Hne Hname Hpw Ht Hnul Hln Hlp Hn Hnn.
  exists (wire key nonce (name ++ [x00]) ++ wire key (sodium_increment nonce) (pw ++ [x00])).
  pose proof (send_credentials_reaches key nonce sp1 name sp2 pw trail c Hin Hsp1 Hsp2 Hne
    Hname Hpw Ht Hln Hlp) as Hreach.
  split_and!.
  - intros s rest Hs. rewrite <- (app_assoc (wire _ _ _)) in Hs.
    by apply (verify_credentials_runs DB key name pw nonce).
  - intros w Hw. destruct (Hreach w Hw) as (w1 & -> & Hr & Hi1).
    destruct (recv_total 4 w) as ([n got] & w0 & E). exists n, got, w0.
    destruct (recv_same_in 4 w w1 _ _ Hi1 E) as (w2 & E2 & Hin2 & Hout2).
    unfold await_ack. rewrite (bind_Ok _ _ _ _ _ E2), memzero_zero. cbn [snd].
    rewrite (repr_out _ _ Hr) in Hout2.
    destruct (_ =? -1); eexists; split_and!; [done|reflexivity|exact Hout2|exact Hin2
      |done|reflexivity|exact Hout2|exact Hin2].
  - intros w evs Hw Hi. destruct (Hreach w Hw) as (w1 & -> & Hr & Hi1).
    rewrite Hi in Hi1. unfold await_ack. rewrite (bind_Ok _ _ _ _ _ (recv_data _ _ 4 _ Hi1)).
    cbn [snd]. rewrite overwrite_full by done.
    rewrite memzero_zero. exists (set_in evs w1). split; [done|].
    split; [apply (repr_out _ _ Hr)|done].
  - intros w evs Hw Hi. destruct (Hreach w Hw) as (w1 & -> & Hr & Hi1).
    rewrite Hi in Hi1. unfold await_ack. rewrite (bind_Ok _ _ _ _ _ (recv_data _ _ 4 _ Hi1)).
    cbn [snd]. rewrite overwrite_full by done. eexists. split; [reflexivity|].
    apply (repr_out _ _ Hr).
Qed.

(** The client reads the answer to its login with a single [recv]: when the
    four bytes of [ACK_SUC] arrive in two pieces, it takes the first piece, goes
    on as authenticated, and leaves the second one in front of the session's
    messages. *)
Theorem split_ack_leaves_bytes (key nonce sp1 name sp2 pw trail : bytes) (c : aworld)
    (w : world) (k : nat) (evs : list recv_event) :
  repr w c -> a_stdin c = Cin (sp1 ++ name ++ sp2 ++ pw ++ trail) false false ->
  Forall (fun b => isspace b = true) sp1 -> Forall (fun b => isspace b = true) sp2 ->
  sp2 <> [] -> word name -> word pw -> word_end trail ->
  blen name < FILE_ENCRYPTED_CHUNK_SIZE -> blen pw < FILE_ENCRYPTED_CHUNK_SIZE ->
  (0 < k < 4)%nat ->
  w_in w = RData (take k (int_encode ACK_SUC)) :: RData (drop k (int_encode ACK_SUC)) :: evs ->
  exists w', send_credentials key nonce w =
      Ok (0, replicate (length name) x00, pw, nonce_after 2 nonce) w' /\
    w_in w' = RData (drop k (int_encode ACK_SUC)) :: evs.
Proof.
  intros Hw Hin Hsp1 Hsp2 Hne Hname Hpw Ht Hln Hlp Hk Hi.
  destruct (send_credentials_reaches key nonce sp1 name sp2 pw trail c Hin Hsp1 Hsp2 Hne
    Hname Hpw Ht Hln Hlp w Hw) as (w1 & -> & Hr & Hi1).
  rewrite Hi in Hi1. unfold await_ack. rewrite memzero_zero. eexists.
  destruct k as [|[|[|[|k]]]]; [lia| | | |lia];
    by rewrite (bind_Ok _ _ _ _ _ (recv_data _ _ 4 _ Hi1)).
Qed.

(** Whether it returns or throws, [m] leaves the terminal as it is. *)
Definition leaves_tty {A} (m : IO A) : Prop :=
  forall w, match m w with Ok _ w' | Throw _ w' => w_tty w' = w_tty w | _ => True end.

Lemma leaves_tty_bind {A B} (m : IO A) (k : A -> IO B) :
  keeps w_tty m -> (forall v, leaves_tty (k v)) -> leaves_tty (m ≫= k).
Proof.
  intros Hm Hk w. unfold mbind, M_bind. specialize (Hm w). destruct (m w) as [v w1| | |]; try done.
  specialize (Hk v w1). destruct (k v w1); congruence.
Qed.

Lemma await_ack_tty name pw nonce : leaves_tty (await_ack name pw nonce).
Proof.
  unfold await_ack. apply leaves_tty_bind; [apply (keeps_recv w_tty)|]. intros r.
  cbv zeta. by destruct (_ =? _).
Qed.

(** What reading a word makes a terminal show. *)
Lemma echo_word sp wd rest e (t : tty) :
  word wd ->
  echo (Cin (sp ++ wd ++ rest) false false) (Cin rest e false) (Some t) =
    Some (Tty (c_lflag t)
      (tty_shown t ++ if echoing t then drop (tty_ahead t) (sp ++ wd ++ first_line rest) else [])
      (Nat.max (tty_ahead t) (length (sp ++ wd ++ first_line rest)) - length (sp ++ wd))).
Proof.
  intros [Hne Hw]. unfold echo. rewrite (app_assoc sp wd rest), used_prefix. cbn [cin_rest].
  destruct wd as [|b wd _] using rev_ind; [done|].
  apply Forall_app in Hw as [_ Hb]. apply Forall_cons in Hb as [Hb _].
  rewrite needed_word by done. by rewrite <- !app_assoc.
Qed.

(** C14: What the terminal shows of a login.  A terminal in canonical mode
    shows a character when it is typed, if it echoes then, and hands over whole
    lines.  Whatever the modes are and however the login ends,
    [send_credentials] makes it show what has to be typed for the user name:
    the characters up to the end of the line the name ends on, without those
    typed (and shown) before; of what is typed after that line it shows nothing,
    and afterwards the terminal echoes, with its other modes as they were.  So
    with a newline between name and password nothing of the password is shown
    (unless it was typed ahead); a password typed on the line of the user name
    is. *)
Theorem password_not_echoed (tx nonce sp1 name sp2 pw trail : bytes) (w : world) (t : tty) :
  w_stdin w = Cin (sp1 ++ name ++ sp2 ++ pw ++ trail) false false -> w_tty w = Some t ->
  Forall (fun b => isspace b = true) sp1 -> Forall (fun b => isspace b = true) sp2 ->
  sp2 <> [] -> word name -> word pw -> word_end trail ->
  match send_credentials tx nonce w with
  | Ok _ w' | Throw _ w' =>
      exists t', w_tty w' = Some t' /\ c_lflag t' = Z.lor (c_lflag t) ECHO /\
        tty_shown t' = tty_shown t ++
          (if echoing t
           then drop (tty_ahead t) (sp1 ++ name ++ first_line (sp2 ++ pw ++ trail)) else []) /\
        (x0a ∈ sp2 -> first_line (sp2 ++ pw ++ trail) = first_line sp2)
  | Undefined _ | Diverge => True
  end.
Proof.
  intros Hin Ht Hsp1 Hsp2 Hne Hname Hpw Htr. unfold send_credentials.
  assert (word_end (sp2 ++ pw ++ trail) /\ is_nil (sp2 ++ pw ++ trail) = false) as [Hwe Hnil].
  { destruct sp2; [done|]. apply Forall_cons in Hsp2 as [? _]. done. }
  erewrite bind_Ok by reflexivity.
  erewrite bind_Ok by (apply (get_stuff_word sp1 name (sp2 ++ pw ++ trail)); done).
  do 2 erewrite bind_Ok by reflexivity.
  erewrite bind_Ok by (apply (get_stuff_word sp2 pw trail); [by rewrite Hnil|done..]).
  do 2 erewrite bind_Ok by reflexivity.
  match goal with |- match (_ ≫= ?k) ?w1 with _ => _ end =>
    assert (leaves_tty (wrap_and_send (name ++ [x00]) tx nonce ≫= k)) as Hk end.
  { do 2 (apply leaves_tty_bind; [apply (closed_wrap_and_send (keeps_of w_tty))|intros ?]).
    apply await_ack_tty. }
  match goal with |- match ?m ?w1 with _ => _ end => specialize (Hk w1); destruct (m w1) end; try done.
  all: rewrite Hk; cbn [w_tty set_tty set_stdout read_stdin w_stdin];
    rewrite Hnil, Ht, Hin, echo_word by done; cbn [fmap option_fmap option_map];
    rewrite echo_word, echoing_clear_echo, app_nil_r by done; cbn [fmap option_fmap option_map];
    eexists; (split; [reflexivity|]); cbn [set_echo clear_echo c_lflag tty_shown];
    split_and!; [apply set_clear_echo|done|apply first_line_app].
Qed.

End auth_properties.

(** ** Concrete runs *)

Section auth_runs.
#[local] Existing Instances toy_sodium toy_sodium_laws toy_env toy_env_laws.

(** A table with one user. *)
Definition demo_db : database :=
  Database true (fun u => if bool_decide (u = str "ann") then Some (Some (str "pw" ++ [x00])) else None).

Lemma demo_db_no_null : no_null_hash demo_db.
Proof. intros name. unfold demo_db. simpl. by case_bool_decide. Qed.

Lemma login_exact_witness :
  login demo_db (str "ann" ++ x00 :: str "..") 4 ((str "pw" ++ [x00]) ++ str "..") 3
    (demo_terminal []) =
  Ok (0, replicate 4 x00 ++ str "..", replicate 3 x00 ++ str "..") (demo_terminal []).
Proof.
  apply (login_exact demo_db (str "ann") (str "pw" ++ [x00]) (str "..") (str "..") (demo_terminal []));
    [repeat constructor; discriminate|apply demo_db_no_null].
Defined.

Lemma demo_word (s : string) : str s <> [] ->
  forallb (fun b => negb (isspace b)) (str s) = true -> word (str s).
Proof.
  intros Hne Hs. split; [done|]. rewrite forallb_forall in Hs. apply Forall_forall.
  intros b Hb%list_elem_of_In. apply Hs in Hb. by destruct (isspace b).
Qed.

Lemma login_agrees_witness :
  let c := demo_client (str "ann pw") [] in
  exists creds,
    (forall s rest, a_in s = creds ++ rest ->
       runs (verify_credentials demo_db demo_key) s (0, str "ann") (a_set_in rest s)) /\
    (forall w evs, repr w c -> w_in w = RData (int_encode ACK_SUC) :: evs ->
       exists w', send_credentials demo_key demo_nonce w =
           Ok (0, replicate 3 x00, str "pw", nonce_after 2 demo_nonce) w' /\
         w_out w' = creds /\ w_in w' = evs).
Proof.
  intros c.
  destruct (login_agrees demo_db demo_key demo_nonce [] (str "ann") [x20] (str "pw") [] c)
    as (creds & Hs & _ & Hc & _);
    [reflexivity|constructor|by repeat constructor|discriminate|by apply demo_word|by apply demo_word
    |exact I|repeat constructor; discriminate|reflexivity|reflexivity|reflexivity
    |apply demo_db_no_null|].
  exists creds. exact (conj Hs Hc).
Defined.

Lemma split_ack_leaves_bytes_witness :
  let w := @World toy_sodium [RData [x00]; RData [x00; x00; x00]] [] [] 0 demo_fs 0
             (Cin (str "ann pw") false false) [] None in
  exists w', send_credentials demo_key demo_nonce w =
      Ok (0, replicate 3 x00, str "pw", nonce_after 2 demo_nonce) w' /\
    w_in w' = [RData [x00; x00; x00]].
Proof.
  intros w.
  apply (split_ack_leaves_bytes demo_key demo_nonce [] (str "ann") [x20] (str "pw") []
    (@AWorld toy_sodium [x00; x00; x00; x00] [] demo_fs 0 (Cin (str "ann pw") false false) []) w 1 []);
    [|reflexivity|constructor|by repeat constructor|discriminate|by apply demo_word|by apply demo_word
    |exact I|reflexivity|reflexivity|lia|reflexivity].
  split; try reflexivity; repeat constructor; discriminate.
Defined.

Lemma password_not_echoed_witness :
  let w := @World toy_sodium [RData (int_encode ACK_SUC)] [] [] 0 demo_fs 0
             (Cin (str "ann" ++ [x0a] ++ str "pw" ++ [x0a]) false false) [] (Some (Tty 9 [] 0)) in
  exists v w' t', send_credentials demo_key demo_nonce w = Ok v w' /\ w_tty w' = Some t' /\
    c_lflag t' = 9 /\ tty_shown t' = str "ann" ++ [x0a].
Proof.
  intros w.
  assert (exists v w', send_credentials demo_key demo_nonce w = Ok v w') as (v & w' & E).
  { destruct (send_credentials_reaches demo_key demo_nonce [] (str "ann") [x0a] (str "pw") [x0a]
      (@AWorld toy_sodium (int_encode ACK_SUC) [] demo_fs 0 (w_stdin w) [])) with (w := w)
      as (w1 & -> & _ & Hi);
      [reflexivity|constructor|by repeat constructor|discriminate|by apply demo_word
      |by apply demo_word|reflexivity|reflexivity|reflexivity
      |split; try reflexivity; repeat constructor; discriminate|].
    unfold await_ack. rewrite (bind_Ok _ _ _ _ _ (recv_data _ _ 4 _ Hi)). by do 2 eexists. }
  pose proof (password_not_echoed demo_key demo_nonce [] (str "ann") [x0a] (str "pw") [x0a] w
    (Tty 9 [] 0)) as H. rewrite E in H.
  destruct H as (t' & Ht & Hf & Hs & Hl);
    [reflexivity|reflexivity|constructor|by repeat constructor|discriminate|by apply demo_word
    |by apply demo_word|reflexivity|].
  exists v, w', t'. split_and!; [done|done|done|]. rewrite Hs, Hl by (by apply elem_of_cons; left).
  reflexivity.
Defined.

End auth_runs.
