(* ===== verification/Connection.v ===== *)
(** One connection on the server: [handle_conn] of src/server/server.cpp, from
    the key exchange to the end of the session.

    What [handle_conn] does to the state shared with the other threads (the
    table [clients], the descriptor, the counter [live_connections]) is returned
    as a list of operations, in order; the threads that perform them are in
    Pool.

    The theorems: the session loop makes no more rounds than the bytes of the
    connection allow; the three ways a connection can end, and that files are
    only touched after the table accepted the credentials received on it; how the
    loop dispatches; and a whole session with an upload. *)

From S2P Require Import Prelude Sodium Constants Fs Terminal World Net SessionEnc TwoSlotBuffer Transfer FSOperator Agents Closed Progress Client EndToEnd Auth.

Inductive shared_op :=
  | EraseClient (fd : Z)     (* clients.erase(fd), under clients_mutex *)
  | CloseSock (fd : Z)       (* close(fd) *)
  | DecLive.                 (* --live_connections *)

Section connection.
Context {SO : Sodium} {EN : Env}.

(** The handler an intent selects. *)
Definition dispatch (intent : Z) (op : FS_Operator) : IO FS_Operator :=
  if intent =? READ_FROM_FILESYSTEM then r ← RFFS_Handler__Server op; mret (snd r)
  else if intent =? WRITE_TO_FILESYSTEM then _ ← WTFS_Handler__Server op; mret op
  else if intent =? LIST_FILES then r ← LFFS_Handler__Server op; mret (snd r)
  else if intent =? DELETE_FILE then r ← DFFS_Handler__Server op; mret (snd r)
  else mret op.

(** The loop of [handle_conn].  [perform_next] is true whenever the condition of
    the loop is evaluated. *)
Fixpoint conn_loop (fuel : nat) (op : FS_Operator) : IO FS_Operator :=
  match fuel with
  | O => diverge
  | S fuel' =>
      rc ← receive_notice_of_new_action op;
      if negb (rc =? 0) then mret op else
      intent ← read_intent op;
      if intent =? INVALID_READ_INTENT then conn_loop fuel' op else
      op ← dispatch intent op;
      conn_loop fuel' op
  end.

Definition handle_conn (DB : database) (client_sock : Z) : IO (list shared_op) :=
  r ← server_crypt_gen (indet "server_rx" crypto_kx_SESSIONKEYBYTES)
        (indet "server_tx" crypto_kx_SESSIONKEYBYTES);
  let '(rc, _, _, server_rx, server_tx) := r in
  if negb (rc =? 0) then mret [] else
  r ← verify_credentials DB server_rx;
  let '(rc, username) := r in
  if negb (rc =? 0) then
    _ ← send (int_encode ACK_FAIL);
    mret [DecLive]
  else
  _ ← send (int_encode ACK_SUC);
  r ← FS_Operator_new client_sock username server_rx server_tx;
  let '(OP, _, _) := r in
  fuel ← gets net_fuel;
  _ ← conn_loop fuel OP;
  mret [EraseClient client_sock; CloseSock client_sock; DecLive].

End connection.

(** ** The rounds of the session loop *)

Section connection_progress.
Context {SO : Sodium} {EN : Env}.

Lemma mono_dispatch i op : mono stream_left (dispatch i op).
Proof. unfold dispatch. mono. Qed.

#[local] Hint Resolve mono_dispatch : mono.

(** A notice takes at least the length and the nonce of its message. *)
Lemma notice_takes op (w : world) w' :
  receive_notice_of_new_action op w = Ok 0 w' -> (stream_left w' + 16 <= stream_left w)%nat.
Proof.
  unfold receive_notice_of_new_action. intros (s & w1 & Hs & H)%bind_Ok_inv.
  destruct (is_corrupted s) eqn:Hc; [done|]. apply reader_takes in Hs; [|done].
  destruct (unwrap _ _ _ _ _) as [[[rc s'] b] l]. destruct (negb (rc =? 0)); [done|].
  apply bind_Ok_inv in H as (u & w2 & Hu & H). unfold initialised in Hu.
  destruct (sizeof_int <=? l); [|done]. injection Hu as <- <-.
  destruct (negb _); [done|]. by injection H as <-.
Qed.

(** One round of the loop. *)
Definition conn_round (op : FS_Operator) : IO (FS_Operator + FS_Operator) :=
  rc ← receive_notice_of_new_action op;
  if negb (rc =? 0) then mret (inr op) else
  intent ← read_intent op;
  if intent =? INVALID_READ_INTENT then mret (inl op) else
  op ← dispatch intent op;
  mret (inl op).

(** A round that goes on has taken a notice from the connection. *)
#[export] Instance conn_rounds : Rounds conn_round conn_loop stream_left 16.
Proof.
  split; [done| |lia|].
  - intros f op w. cbn [conn_loop]. unfold conn_round, mbind, M_bind.
    destruct (receive_notice_of_new_action op w) as [rc w1| | |]; try done.
    destruct (negb _); [done|]. destruct (read_intent op w1) as [i w2| | |]; try done.
    destruct (_ =? _); [done|]. by destruct (dispatch i op w2).
  - intros op w op' w' (rc & w1 & Hn & H)%bind_Ok_inv.
    destruct (Z.eqb_spec rc 0) as [->|]; [|done]. apply notice_takes in Hn. cbn [negb] in H.
    apply bind_Ok_inv in H as (i & w2 & Hi & H). use_mono stream_left Hi.
    destruct (_ =? _); [injection H as <- <-; lia|].
    apply bind_Ok_inv in H as (op2 & w3 & Hd & H). use_mono stream_left Hd.
    injection H as <- <-. lia.
Qed.

(** C28: The session loop of [handle_conn] makes at most one round for every 16
    bytes of the connection, whatever the client sends, for every round that
    goes on has read a notice.  The number of rounds the model allows is
    therefore enough: with any larger one the loop gives the same result, and
    when it gives none (the model's [Diverge]), it has come after some rounds to
    one in which a call, a handler for instance, never returns. *)
Theorem session_rounds_bounded (op : FS_Operator) (w : world) :
  (forall n q, nsteps (next_round conn_round) n (op, w) q ->
     (16 * n <= length (stream (w_in w)))%nat /\
     forall f, conn_loop (n + f) op w = conn_loop f (fst q) (snd q)) /\
  (forall f, (net_fuel w <= f)%nat ->
     conn_loop f op w = conn_loop (net_fuel w) op w /\
     (conn_loop f op w = Diverge ->
      exists n q, nsteps (next_round conn_round) n (op, w) q /\
        conn_round (fst q) (snd q) = Diverge)).
Proof. exact (rounds_bounded conn_round conn_loop stream_left 16 op w). Qed.

End connection_progress.

(** ** Closed properties of a connection *)

Section closed_connection.
Context {SO : Sodium} {EN : Env} (P : forall A, IO A -> Prop).

Lemma closed_verify_credentials `{!ClosedNet P} DB rx : holds P (verify_credentials DB rx).
Proof. unfold verify_credentials, login. closed. Qed.

Context {ok : bytes -> Prop} {CF : ClosedFs ok P}.

(** No handler changes the user's directory. *)
Lemma dispatch_user_dir i op : post (fun op' => user_dir op' = user_dir op) (dispatch i op).
Proof.
  assert (forall m : IO (Z * FS_Operator), post (fun r => user_dir (snd r) = user_dir op) m ->
    post (fun op' => user_dir op' = user_dir op) (r ← m; mret (snd r))) as Hsnd.
  { intros m Hm. apply post_bind. intros r Hr. by apply post_ret, Hm. }
  unfold dispatch. repeat (destruct (_ =? _)); [apply Hsnd| |apply Hsnd|apply Hsnd|];
    unfold RFFS_Handler__Server, LFFS_Handler__Server, DFFS_Handler__Server; post.
Qed.

Lemma FS_Operator_new_user_dir fd u rx tx :
  post (fun r => user_dir (fst (fst r)) = base_dir ++ u ++ [slash]) (FS_Operator_new fd u rx tx).
Proof. unfold FS_Operator_new. post. Qed.

Lemma closed_dispatch i op :
  (forall name, ok (user_dir op ++ name)) -> holds P (dispatch i op).
Proof. unfold dispatch. closed. Qed.

Lemma closed_conn_loop fuel : forall op,
  (forall name, ok (user_dir op ++ name)) -> holds P (conn_loop fuel op).
Proof.
  induction fuel as [|fuel IH]; intros op Hop; cbn [conn_loop]; [closed|].
  apply closed_bind; [apply _|closed|]. intros rc. destruct (negb _); [closed|].
  apply closed_bind; [apply _|closed|]. intros i. destruct (_ =? _); [auto|].
  apply closed_bind_returns; [by apply closed_dispatch|].
  intros op' Hr%dispatch_user_dir. apply IH. by rewrite Hr.
Qed.

(** The user's directory is in [base_dir]. *)
Lemma closed_handle_conn DB fd :
  (forall name, ok (base_dir ++ name)) -> holds P (handle_conn DB fd).
Proof.
  intros Hok. unfold handle_conn.
  apply closed_bind; [apply _|closed|]. intros [[[[rc pk] sk] rx] tx].
  destruct (negb _); [closed|].
  apply closed_bind; [apply _|by apply closed_verify_credentials|]. intros [rc' u].
  destruct (negb _); [closed|].
  apply closed_bind; [apply _|closed|]. intros n.
  apply closed_bind_returns; [closed|]. intros [[OP k1] k2] HOP.
  apply closed_bind; [apply _|closed|]. intros fuel.
  apply closed_bind; [apply _| |closed]. apply closed_conn_loop.
  assert (user_dir OP = base_dir ++ u ++ [slash]) as ->.
  { by apply FS_Operator_new_user_dir in HOP. }
  intros name. rewrite <- !app_assoc. apply Hok.
Qed.

End closed_connection.

(** ** What comes before the login changes no file *)

Section keeps_fs.
Context {SO : Sodium} {EN : Env}.

Lemma keeps_fs_server_crypt_gen k1 k2 : keeps w_fs (server_crypt_gen k1 k2).
Proof. apply (closed_server_crypt_gen (keeps_of w_fs)). Qed.

Lemma keeps_fs_verify_credentials DB rx : keeps w_fs (verify_credentials DB rx).
Proof. apply (closed_verify_credentials (keeps_of w_fs)). Qed.

End keeps_fs.

Section connection_properties.
Context {SO : Sodium} {EN : Env}.

(** The bytes the next two messages put into the buffers for the user name and
    the password: the C string of the one, and as many bytes of the other as
    [unwrap] reports. *)
Definition credentials_received (rx : bytes) (w : world) (name pw : bytes) : Prop :=
  exists s1 w1 s2 w2,
    SessionEncWrapper_reader w = Ok s1 w1 /\ SessionEncWrapper_reader w1 = Ok s2 w2 /\
    (let '(_, _, ubuf, _) :=
       unwrap s1 rx FILE_ENCRYPTED_CHUNK_SIZE
         (indet "decrypted_username" (Z.to_nat FILE_ENCRYPTED_CHUNK_SIZE))
         (indet_ull "decrypted_username_len") in
     c_str ubuf = Some name) /\
    (let '(_, _, pbuf, len) :=
       unwrap s2 rx FILE_ENCRYPTED_CHUNK_SIZE
         (indet "decrypted_password" (Z.to_nat FILE_ENCRYPTED_CHUNK_SIZE))
         (indet_ull "decrypted_password_len") in
     read_bytes pbuf len = Some pw).

(** What [login] has decided when it returns. *)
Lemma login_decides DB ubuf ul pbuf pl (w : world) rc u p w' :
  login DB ubuf ul pbuf pl w = Ok (rc, u, p) w' ->
  (rc = 0 -> exists name pw, c_str ubuf = Some name /\ read_bytes pbuf pl = Some pw /\
     accepts DB name pw = true) /\
  (rc <> 0 -> forall name pw, c_str ubuf = Some name -> read_bytes pbuf pl = Some pw ->
     accepts DB name pw = false).
Proof.
  unfold login, accepts. destruct (db_prepare DB); cbn [negb andb];
    [|intros [= <- _ _ _]; by split].
  intros (name & w1 & Hn & H)%bind_Ok_inv. destruct (c_str ubuf) as [n|]; [|done].
  injection Hn as -> ->. destruct (db_row DB name) as [col|] eqn:E.
  - apply bind_Ok_inv in H as (h & w2 & Hh & H). destruct col as [h'|]; [|done].
    injection Hh as -> ->. apply bind_Ok_inv in H as (pw & w3 & Hp & H).
    destruct (read_bytes pbuf pl) as [pw'|]; [|done]. injection Hp as -> ->.
    destruct (pwhash_str_verify h pw) eqn:Ev; cbn [negb] in H.
    + apply bind_Ok_inv in H as (u1 & w4 & _ & H). apply bind_Ok_inv in H as (p1 & w5 & _ & H).
      injection H as <- _ _ _. split; [|done]. intros _. exists name, pw. by rewrite E.
    + injection H as <- _ _ _. split; [done|]. intros _ n' pw' [= <-] [= <-]. by rewrite E.
  - injection H as <- _ _ _. split; [done|]. intros _ n' pw' [= <-] _. by rewrite E.
Qed.

Lemma verify_credentials_decides DB rx (w : world) rc username w' :
  verify_credentials DB rx w = Ok (rc, username) w' ->
  (rc = 0 -> exists pw, credentials_received rx w username pw /\ accepts DB username pw = true) /\
  (rc <> 0 -> forall name pw, credentials_received rx w name pw -> accepts DB name pw = false).
Proof.
  unfold verify_credentials. intros (s1 & w1 & H1 & H)%bind_Ok_inv.
  destruct (unwrap s1 _ _ _ _) as [[[rc1 ?] ub] ul] eqn:Eu1.
  apply bind_Ok_inv in H as (name & w2 & Hn & H).
  destruct (c_str ub) as [n|] eqn:Ec; [|done]. injection Hn as -> ->.
  apply bind_Ok_inv in H as (s2 & w3 & H2 & H).
  destruct (unwrap s2 _ _ _ _) as [[[rc2 ?] pb] pl] eqn:Eu2.
  apply bind_Ok_inv in H as (un & w4 & Hu & H). unfold initialised in Hu.
  destruct (_ && _); [|done]. injection Hu as <- <-.
  apply bind_Ok_inv in H as ([[rcl u] p] & w5 & Hl & H).
  apply login_decides in Hl as [Hok Hno].
  destruct (Z.eqb_spec rcl 0) as [->|Hne]; injection H as <- <- _.
  - split; [|done]. intros _. destruct Hok as (n' & pw & [= <-]%(eq_trans (eq_sym Ec)) & Hp & Ha);
      [done|]. exists pw. split; [|done]. exists s1, w2, s2, w3. by rewrite Eu1, Eu2.
  - split; [done|]. intros _ n' pw (t1 & v1 & t2 & v2 & Et1 & Et2 & Hc & Hp).
    rewrite H1 in Et1. injection Et1 as <- <-. rewrite H2 in Et2. injection Et2 as <- <-.
    rewrite Eu1 in Hc. rewrite Eu2 in Hp. by apply (Hno Hne).
Qed.

(** The key exchange succeeds and leaves the state [w1] with the keys [rx], [tx]. *)
Definition keys_exchanged (w : world) (rx tx : bytes) (w1 : world) : Prop :=
  exists pk sk,
    server_crypt_gen (indet "server_rx" crypto_kx_SESSIONKEYBYTES)
      (indet "server_tx" crypto_kx_SESSIONKEYBYTES) w = Ok (0, pk, sk, rx, tx) w1.

(** The session loop runs, from [w] to [w'], in the directory of [user], which
    has been made if it was missing. *)
Definition session_of (user rx tx : bytes) (f0 : fs) (w' : world) : Prop :=
  exists op op' w, user_dir op = base_dir ++ user ++ [slash] /\
    server_rx op = rx /\ server_tx op = tx /\
    create_directories f0 (user_dir op) = Some (w_fs w) /\
    conn_loop (net_fuel w) op w = Ok op' w'.

(** What follows an accepted login. *)
Definition conn_session (fd : Z) (user rx tx : bytes) : IO (list shared_op) :=
  _ ← send (int_encode ACK_SUC);
  r ← FS_Operator_new fd user rx tx;
  let '(OP, _, _) := r in
  fuel ← gets net_fuel;
  _ ← conn_loop fuel OP;
  mret [EraseClient fd; CloseSock fd; DecLive].

Lemma conn_session_Ok fd user rx tx (w : world) ops w' :
  conn_session fd user rx tx w = Ok ops w' ->
  ops = [EraseClient fd; CloseSock fd; DecLive] /\ session_of user rx tx (w_fs w) w'.
Proof.
  unfold conn_session. intros (n & w1 & Hs & H)%bind_Ok_inv.
  pose proof (keeps_send w_fs (int_encode ACK_SUC) w) as Hk. rewrite Hs in Hk.
  apply bind_Ok_inv in H as ([[OP k1] k2] & w2 & Hnew & H).
  apply bind_Ok_inv in H as (fuel & w3 & Hf & H). injection Hf as <- <-.
  apply bind_Ok_inv in H as (OP' & w4 & Hl & H). injection H as <- <-. split; [done|].
  unfold FS_Operator_new in Hnew. apply bind_Ok_inv in Hnew as (u & w5 & Hm & Hnew).
  apply bind_Ok_inv in Hnew as (nn & w6 & Hr & Hnew). injection Hnew as <- _ _ <-.
  exists (FSO fd (base_dir ++ user ++ [slash]) rx tx nn), OP', w6. split_and!; try done.
  unfold randombytes in Hr. destruct (randombytes_buf _ _) as [bs r]. injection Hr as _ <-.
  unfold make_directories in Hm. rewrite Hk in Hm. cbn [user_dir w_fs set_rng].
  destruct (create_directories _ _); [|done]. by injection Hm as _ <-.
Qed.

(** C11: How a connection can end.  Whatever the client sends, when
    [handle_conn] returns, either

    - the key exchange failed, no file has changed and nothing of the shared
      state is updated (the descriptor stays open, the client stays in the table,
      the counter is not decremented); or
    - the table does not accept the user name and password in the two messages
      that follow the key exchange on this connection, no file has changed and
      only the counter is decremented; or
    - the table accepts this user name with these password bytes, the session
      ran in the directory of this user, and the client is erased, its
      descriptor closed and the counter decremented.

    An exception that ends the server also requires that the table accepts the
    credentials received on this connection. *)
Theorem connection_outcomes (DB : database) (fd : Z) (w : world) :
  match handle_conn DB fd w with
  | Ok ops w' =>
      (ops = [] /\ w_fs w' = w_fs w /\ forall rx tx w1, ~ keys_exchanged w rx tx w1) \/
      exists rx tx w1, keys_exchanged w rx tx w1 /\
        ((ops = [DecLive] /\ w_fs w' = w_fs w /\
            forall name pw, credentials_received rx w1 name pw -> accepts DB name pw = false) \/
         (ops = [EraseClient fd; CloseSock fd; DecLive] /\
            exists name pw, credentials_received rx w1 name pw /\ accepts DB name pw = true /\
              session_of name rx tx (w_fs w) w'))
  | Throw _ _ =>
      exists rx tx w1 name pw, keys_exchanged w rx tx w1 /\
        credentials_received rx w1 name pw /\ accepts DB name pw = true
  | Undefined _ | Diverge => True
  end.
Proof.
  unfold handle_conn, mbind at 1, M_bind at 1.
  pose proof (keeps_fs_server_crypt_gen (indet "server_rx" crypto_kx_SESSIONKEYBYTES)
    (indet "server_tx" crypto_kx_SESSIONKEYBYTES) w) as H1.
  destruct (server_crypt_gen _ _ w) as [[[[[rc pk] sk] rx] tx] w1| | |] eqn:Ek; try done.
  destruct (Z.eqb_spec rc 0) as [->|Hrc]; cbn [negb].
  2: { left. split_and!; [done|done|]. intros rx' tx' w' (pk' & sk' & E). congruence. }
  assert (keys_exchanged w rx tx w1) as Hkx by (exists pk, sk; exact Ek).
  unfold mbind at 1, M_bind at 1.
  pose proof (keeps_fs_verify_credentials DB rx w1) as H2.
  destruct (verify_credentials DB rx w1) as [[rc2 username] w2| | |] eqn:Ev; try done.
  apply verify_credentials_decides in Ev as [Hok Hno].
  destruct (Z.eqb_spec rc2 0) as [->|Hrc2]; cbn [negb].
  - destruct Hok as (pw & Hrec & Hacc); [done|]. fold (conn_session fd username rx tx).
    destruct (conn_session fd username rx tx w2) as [ops w3| | |] eqn:E; try done.
    + apply conn_session_Ok in E as [-> Hs]. right. exists rx, tx, w1. split; [done|]. right.
      split; [done|]. exists username, pw. split_and!; [done|done|congruence].
    + by exists rx, tx, w1, username, pw.
  - unfold mbind, M_bind. pose proof (keeps_send w_fs (int_encode ACK_FAIL) w2) as H3.
    destruct (send _ w2); try done. right. exists rx, tx, w1. split; [done|]. left.
    split_and!; [done|congruence|by apply Hno].
Qed.

End connection_properties.

(** ** Sessions *)

Section sessions.
Context {SO : Sodium} {EN : Env} {SL : SodiumLaws SO} {EL : EnvLaws EN}.

(** A message that carries an [int]. *)
Lemma notice_runs op action nonce a rest :
  length nonce = crypto_aead_chacha20poly1305_NPUBBYTES -> - 2 ^ 31 <= action < 2 ^ 31 ->
  a_in a = wire (server_rx op) nonce (int_encode action) ++ rest ->
  runs (receive_notice_of_new_action op) a (if action =? NEW_ACTION then 0 else 1)
    (a_set_in rest a).
Proof.
  intros Hn Hr Ha. unfold receive_notice_of_new_action.
  read_message (server_rx op) nonce (int_encode action).
  eapply runs_bind; [apply runs_int_written|].
  rewrite overwrite_full by (by rewrite length_indet). rewrite int_decode_encode by done.
  destruct (action =? NEW_ACTION); apply runs_ret.
Qed.

Lemma intent_runs op intent nonce a rest :
  length nonce = crypto_aead_chacha20poly1305_NPUBBYTES -> - 2 ^ 31 <= intent < 2 ^ 31 ->
  a_in a = wire (server_rx op) nonce (int_encode intent) ++ rest ->
  runs (read_intent op) a intent (a_set_in rest a).
Proof.
  intros Hn Hr Ha. unfold read_intent.
  read_message (server_rx op) nonce (int_encode intent).
  eapply runs_bind; [apply runs_int_written|].
  rewrite overwrite_full by (by rewrite length_indet). rewrite int_decode_encode by done.
  apply runs_ret.
Qed.

(** One round of the session loop, and its end. *)
Lemma conn_loop_round fuel op intent nonce op1 op2 a rest a1 a2 :
  length nonce = crypto_aead_chacha20poly1305_NPUBBYTES -> - 2 ^ 31 <= intent < 2 ^ 31 ->
  intent <> INVALID_READ_INTENT ->
  a_in a = wire (server_rx op) nonce (int_encode NEW_ACTION)
    ++ wire (server_rx op) (sodium_increment nonce) (int_encode intent) ++ rest ->
  runs (dispatch intent op) (a_set_in rest a) op1 a1 ->
  runs (conn_loop fuel op1) a1 op2 a2 ->
  runs (conn_loop (S fuel) op) a op2 a2.
Proof.
  intros Hn Hi Hv Ha Hd Hl. cbn [conn_loop].
  eapply runs_bind; [by apply (notice_runs op NEW_ACTION nonce)|]. rsimpl. rewrite Z.eqb_refl. rsimpl.
  eapply runs_bind; [apply (intent_runs op intent (sodium_increment nonce));
    [by rewrite length_increment|done|done]|].
  rewrite (proj2 (Z.eqb_neq _ _)) by done. eapply runs_bind; [exact Hd|exact Hl].
Qed.

Lemma conn_loop_end fuel op nonce a rest :
  length nonce = crypto_aead_chacha20poly1305_NPUBBYTES ->
  a_in a = wire (server_rx op) nonce (int_encode NO_ACTION) ++ rest ->
  runs (conn_loop (S fuel) op) a op (a_set_in rest a).
Proof.
  intros Hn Ha. cbn [conn_loop].
  eapply runs_bind; [by apply (notice_runs op NO_ACTION nonce)|]. apply runs_ret.
Qed.

Lemma length_wire_pos tx nonce m : (0 < length (wire tx nonce m))%nat.
Proof. unfold wire. rewrite length_app, length_le_encode. consts. lia. Qed.

(** The constructor of [FS_Operator] makes the user's directory. *)
Lemma FS_Operator_new_runs sock username rx tx f' a :
  create_directories (a_fs a) (base_dir ++ username ++ [slash]) = Some f' ->
  let '(nonce, r) := randombytes_buf (a_rng a) crypto_aead_chacha20poly1305_NPUBBYTES in
  runs (FS_Operator_new sock username rx tx) a
    (FSO sock (base_dir ++ username ++ [slash]) rx tx nonce, sodium_memzero rx, sodium_memzero tx)
    (a_set_rng r (a_set_fs f' a)).
Proof.
  intros Hc. destruct (randombytes_buf _ _) as [nonce r] eqn:Er. unfold FS_Operator_new.
  eapply runs_bind; [by apply runs_make_directories|].
  eapply runs_bind; [apply runs_randombytes|]. cbn [a_rng a_set_fs]. rewrite Er. apply runs_ret.
Qed.

Lemma user_dir_string username : username <> [] -> dir_string (base_dir ++ username ++ [slash]).
Proof. intros Hu. exists (base_dir ++ username). by rewrite <- app_assoc. Qed.

Lemma user_dir_resolves f username f' :
  plain_name username -> create_directories f (base_dir ++ username ++ [slash]) = Some f' ->
  resolve_dir f' (base_dir ++ username ++ [slash]) = Some (fs_cwd f ++ [str "MEF_S"; username]).
Proof.
  intros Hu Hc. destruct (create_directories_resolve _ _ _ Hc) as ([d Hd] & Hcwd & _).
  rewrite Hd. f_equal. apply (resolve_two_names f f'); [|done|exact Hd|done].
  split_and!; try done. repeat constructor; done.
Qed.

(** A connection whose key exchange and login succeed: what is left is the
    session loop, on what follows the credentials. *)
Lemma handle_conn_runs DB fd s f' cpk spk ssk rs rx tx on ro user pw cn loop_in op' a' :
  kx_keypair (a_rng s) = (spk, ssk, rs) -> length cpk = crypto_kx_PUBLICKEYBYTES ->
  kx_server_session_keys spk ssk cpk = Some (rx, tx) ->
  randombytes_buf rs crypto_aead_chacha20poly1305_NPUBBYTES = (on, ro) ->
  no_null_hash DB -> accepts DB user (pw ++ [x00]) = true -> no_nul user ->
  blen user < FILE_ENCRYPTED_CHUNK_SIZE -> blen pw < FILE_ENCRYPTED_CHUNK_SIZE ->
  length cn = crypto_aead_chacha20poly1305_NPUBBYTES ->
  create_directories (a_fs s) (base_dir ++ user ++ [slash]) = Some f' ->
  a_in s = cpk ++ wire rx cn (user ++ [x00]) ++ wire rx (sodium_increment cn) (pw ++ [x00])
    ++ loop_in ->
  runs (conn_loop (S (length loop_in)) (FSO fd (base_dir ++ user ++ [slash]) rx tx on))
    (a_set_in loop_in (a_set_rng ro (a_set_fs f'
      (a_set_out (a_out s ++ spk ++ int_encode ACK_SUC) s)))) op' a' ->
  runs (handle_conn DB fd) s [EraseClient fd; CloseSock fd; DecLive] a'.
Proof.
  intros Hkp Hcpk Hkx Hro Hnn Hacc Hnul Hul Hpl Hcn Hdirs Ha Hloop. unfold handle_conn.
  eapply runs_bind; [by eapply (runs_server_crypt_gen _ _ _ _ _ cpk)|].
  rsimpl. cbn [Z.eqb negb].
  eapply runs_bind; [by eapply (verify_credentials_runs DB rx user pw cn)|].
  rewrite Hacc. rsimpl. cbn [Z.eqb negb].
  eapply runs_bind; [apply runs_send|].
  eapply runs_bind.
  { match goal with |- runs _ ?a _ _ =>
      pose proof (FS_Operator_new_runs fd user rx tx f' a Hdirs) as Hnew end.
    cbn [a_rng a_set_in a_set_out a_set_rng] in Hnew. rewrite Hro in Hnew. exact Hnew. }
  rsimpl. eapply runs_bind; [apply runs_net_fuel|].
  eapply runs_bind; [|apply runs_ret].
  unfold a_set_in, a_set_rng, a_set_fs, a_set_out in *.
  cbn [a_in a_out a_fs a_rng a_stdin a_stdout] in *. rewrite <- app_assoc. exact Hloop.
Qed.

(** C6: A whole session with an upload, from [accept]'s descriptor to [close]:
    a client exchanges keys, sends credentials the table accepts, announces an
    action, asks to write, uploads a file and announces no further action.
    [handle_conn] answers with its public key and [ACK_SUC], creates the user's
    directory when it is missing, stores the header, the salt and the chunks in
    MEF_S/<user>/<name>.enc, and erases, closes and counts off the client. *)
Theorem upload_session (DB : database) (fd : Z) (s : aworld) (f' : fs)
    cpk spk ssk rs rx tx user pw name header salt cs cn nn un en rest :
  kx_keypair (a_rng s) = (spk, ssk, rs) -> length cpk = crypto_kx_PUBLICKEYBYTES ->
  kx_server_session_keys spk ssk cpk = Some (rx, tx) ->
  no_null_hash DB -> accepts DB user (pw ++ [x00]) = true ->
  no_nul user -> plain_name user -> blen user <= NAME_MAX -> blen pw < FILE_ENCRYPTED_CHUNK_SIZE ->
  no_nul name -> no_slash name -> blen name <= PRE_EXT_FILE_NAME_LEN ->
  length header = crypto_secretstream_xchacha20poly1305_HEADERBYTES ->
  length salt = crypto_pwhash_SALTBYTES ->
  cs <> [] -> Forall (fun c => blen c <= FILE_ENCRYPTED_CHUNK_SIZE) cs ->
  Forall (fun n => length n = crypto_aead_chacha20poly1305_NPUBBYTES) [cn; nn; un; en] ->
  create_directories (a_fs s) (base_dir ++ user ++ [slash]) = Some f' ->
  let p := fs_cwd (a_fs s) ++ [str "MEF_S"; user; name ++ ext] in
  fs_nodes f' !! p <> Some NDir ->
  a_in s = cpk ++ wire rx cn (user ++ [x00]) ++ wire rx (sodium_increment cn) (pw ++ [x00])
    ++ wire rx nn (int_encode NEW_ACTION)
    ++ wire rx (sodium_increment nn) (int_encode WRITE_TO_FILESYSTEM)
    ++ upload_stream rx un name header salt cs
    ++ wire rx en (int_encode NO_ACTION) ++ rest ->
  exists r,
    runs (handle_conn DB fd) s [EraseClient fd; CloseSock fd; DecLive]
      (a_set_in rest (a_set_rng r
        (a_set_fs (stored f' p (header ++ salt ++ concat cs))
          (a_set_out (a_out s ++ spk ++ int_encode ACK_SUC) s)))).
Proof.
  intros Hkp Hcpk Hkx Hnn Hacc Hunul Hu Hul Hpl Hnul Hsl Hname Hh Hs Hne Hcs Hns Hdirs p Hnd Ha.
  rewrite !Forall_cons in Hns. destruct Hns as (Hcn & Hnn' & Hun & Hen & _).
  destruct (randombytes_buf rs crypto_aead_chacha20poly1305_NPUBBYTES) as [on ro] eqn:Eo.
  exists ro. unfold NAME_MAX in Hul.
  eapply (handle_conn_runs DB fd s f' cpk spk ssk rs rx tx on ro user pw cn);
    [done..|consts; lia|done|done|done|exact Ha|].
  set (op := FSO fd _ rx tx on). set (a := a_set_in _ _).
  assert (exists k, length (a_in a) = S k) as [k Hk].
  { pose proof (length_wire_pos rx nn (int_encode NEW_ACTION)). cbn [a a_in a_set_in].
    rewrite length_app. destruct (length (wire rx nn _)); [lia|]. simpl. eauto. }
  cbn [a a_in a_set_in] in Hk. rewrite Hk.
  eapply (conn_loop_round _ op WRITE_TO_FILESYSTEM nn op); [done|done|done|reflexivity| |].
  - unfold dispatch. cbn [Z.eqb]. eapply runs_bind; [|apply runs_ret].
    eapply (WTFS_runs op name header salt cs un (fs_cwd (a_fs s) ++ [str "MEF_S"; user])); try done.
    + apply user_dir_string, Hu.
    + by apply user_dir_resolves.
    + cbn [a_fs a a_set_in a_set_fs a_set_out a_set_rng]. rewrite <- app_assoc. exact Hnd.
  - eapply runs_conv; [by eapply (conn_loop_end _ op en)|done|].
    unfold a, a_set_in, a_set_rng, a_set_fs, a_set_out.
    cbn [a_in a_out a_fs a_rng a_stdin a_stdout]. by rewrite <- !app_assoc.
Qed.

End sessions.

(** ** Concrete runs *)

Section connection_runs.
#[local] Existing Instances toy_sodium toy_sodium_laws toy_env toy_env_laws.

(** A round with an intent that selects no handler. *)
Lemma session_rounds_bounded_witness :
  let op := demo_op "ann" in
  let w := concretize (demo_server (wire demo_key demo_nonce (int_encode NEW_ACTION)
             ++ wire demo_key demo_nonce (int_encode 77))) in
  exists y, nsteps (next_round conn_round) 1 (op, w) y /\ (16 <= length (stream (w_in w)))%nat /\
    conn_loop 9 op w = conn_loop 8 (fst y) (snd y).
Proof.
  intros op w.
  assert (match conn_round op w with Ok (inl _) _ => true | _ => false end = true) as Hgo
    by (vm_compute; reflexivity).
  destruct (conn_round op w) as [[op'|r] w'| | |] eqn:E; try discriminate Hgo.
  assert (nsteps (next_round conn_round) 1 (op, w) (op', w')) as H by (by apply nsteps_once).
  destruct (proj1 (session_rounds_bounded op w) 1%nat (op', w') H) as [Hb Hl].
  exists (op', w'). split_and!; [done|lia|exact (Hl 8%nat)].
Defined.

(** A session of ann without an action. *)
Lemma connection_outcomes_witness :
  let cpk := le_encode 32 1234 in
  let rx := le_encode 32 (1234 + 1000 + 1) in
  let s := demo_server (cpk ++ wire rx demo_nonce (str "ann" ++ [x00])
    ++ wire rx (sodium_increment demo_nonce) (str "pw" ++ [x00])
    ++ wire rx demo_nonce (int_encode NO_ACTION) ++ []) in
  exists w', handle_conn demo_db 5 (concretize s) = Ok [EraseClient 5; CloseSock 5; DecLive] w' /\
    exists rx tx w1 name pw, keys_exchanged (concretize s) rx tx w1 /\
      credentials_received rx w1 name pw /\ accepts demo_db name pw = true /\
      session_of name rx tx demo_user_fs w'.
Proof.
  intros cpk rx s.
  assert (exists a', runs (handle_conn demo_db 5) s [EraseClient 5; CloseSock 5; DecLive] a')
    as [a' Hrun].
  { eexists. eapply (handle_conn_runs demo_db 5 s demo_user_fs cpk (le_encode 32 1000)
      (le_encode 32 0) 1 rx (le_encode 32 (1234 + 1000)) _ _ (str "ann") (str "pw") demo_nonce);
      [reflexivity|reflexivity|vm_compute; reflexivity|reflexivity|apply demo_db_no_null|reflexivity
      |repeat constructor; discriminate|reflexivity|reflexivity|reflexivity|vm_compute; reflexivity
      |reflexivity|].
    by apply (conn_loop_end _ _ demo_nonce). }
  destruct (Hrun _ (repr_concretize s)) as (w' & E & _). exists w'. split; [done|].
  pose proof (connection_outcomes demo_db 5 (concretize s)) as H. rewrite E in H.
  destruct H as [(H & _)|(rx1 & tx1 & w1 & Hk & [(H & _)|(_ & name & pw & Hr & Ha & Hs)])];
    [discriminate H|discriminate H|].
  exists rx1, tx1, w1, name, pw. exact (conj Hk (conj Hr (conj Ha Hs))).
Defined.

Lemma upload_session_witness :
  let cpk := le_encode 32 1234 in
  let rx := le_encode 32 (1234 + 1000 + 1) in
  let s := demo_server (cpk ++ wire rx demo_nonce (str "ann" ++ [x00])
    ++ wire rx (sodium_increment demo_nonce) (str "pw" ++ [x00])
    ++ wire rx demo_nonce (int_encode NEW_ACTION)
    ++ wire rx (sodium_increment demo_nonce) (int_encode WRITE_TO_FILESYSTEM)
    ++ upload_stream rx demo_nonce (str "notes") demo_header demo_salt [str "chunk"]
    ++ wire rx demo_nonce (int_encode NO_ACTION) ++ []) in
  exists r,
    runs (handle_conn demo_db 5) s [EraseClient 5; CloseSock 5; DecLive]
      (a_set_in [] (a_set_rng r
        (a_set_fs (stored demo_user_fs [str "MEF_S"; str "ann"; str "notes" ++ ext]
             (demo_header ++ demo_salt ++ concat [str "chunk"]))
          (a_set_out ([] ++ le_encode 32 1000 ++ int_encode ACK_SUC) s)))).
Proof.
  intros cpk rx s.
  apply (upload_session demo_db 5 s demo_user_fs cpk (le_encode 32 1000) (le_encode 32 0) 1 rx
    (le_encode 32 (1234 + 1000)) (str "ann") (str "pw") (str "notes") demo_header demo_salt
    [str "chunk"] demo_nonce demo_nonce demo_nonce demo_nonce []);
    [reflexivity|reflexivity| |apply demo_db_no_null|reflexivity|repeat constructor; discriminate
    | |vm_compute; discriminate|reflexivity|repeat constructor; discriminate
    |repeat constructor; discriminate|vm_compute; discriminate|reflexivity|reflexivity|discriminate
    | |by repeat constructor| | |reflexivity].
  - vm_compute. reflexivity.
  - split_and!; try discriminate. repeat constructor; discriminate.
  - repeat constructor. vm_compute. discriminate.
  - vm_compute. reflexivity.
  - vm_compute. discriminate.
Defined.

End connection_runs.
