(* ===== verification/Segments.v ===== *)
(** The pieces a connection is cut into do not matter.

    [recv] delivers the bytes of a connection in pieces the kernel chooses.
    [read_items] is the reference definition of [recv_fully]: it reads the bytes
    one by one, in front of the errors that happen between them.  [recv_fully]
    agrees with it on every connection whose pieces are not empty; so two
    connections that carry the same bytes and errors in the same order cannot be
    told apart by a program that reads with [recv_fully], which the server does
    throughout and the client does after its login (whose answer it reads with
    [recv]: [split_ack_leaves_bytes] in Auth). *)

From S2P Require Import Prelude Sodium Constants Fs Terminal World Net SessionEnc TwoSlotBuffer Transfer FSOperator Agents Closed Progress Client EndToEnd Auth Connection.

(** ** Reading byte by byte *)

Abbreviation item := (byte + Z)%type.

Definition event_items (e : recv_event) : list item :=
  match e with RData bs => inl <$> bs | RErr e => [inr e] end.

Definition items (evs : list recv_event) : list item := evs ≫= event_items.

(** [recv] returns 0 only at the end of the connection. *)
Definition nonempty_event (e : recv_event) : Prop :=
  match e with RData bs => bs <> [] | RErr _ => True end.

(** Read [n] bytes: whether all were there, the bytes, what is left and [errno];
    [None] when the reader never returns, at the end of the connection with a
    stale [EINTR]. *)
Fixpoint read_items (n : nat) (its : list item) (errno : Z) {struct its}
    : option (bool * bytes * list item * Z) :=
  match n, its with
  | O, _ => Some (true, [], its, errno)
  | S _, [] => if errno =? EINTR then None else Some (false, [], [], errno)
  | S n', inl b :: its' =>
      (fun '(ok, bs, more, e) => (ok, b :: bs, more, e)) <$> read_items n' its' errno
  | S _, inr e :: its' =>
      if e =? EINTR then read_items n its' e else Some (false, [], its', e)
  end.

Lemma read_items_0 its e : read_items 0 its e = Some (true, [], its, e).
Proof. by destruct its. Qed.

Lemma read_items_data bs : forall n its e,
  read_items n ((inl <$> bs) ++ its) e =
    if (length bs <=? n)%nat
    then (fun '(ok, cs, more, e) => (ok, bs ++ cs, more, e)) <$> read_items (n - length bs) its e
    else Some (true, take n bs, (inl <$> drop n bs) ++ its, e).
Proof.
  induction bs as [|b bs IH]; intros n its e.
  - rewrite Nat.sub_0_r. simpl.
    by destruct (read_items n its e) as [[[[ok cs] more] e']|].
  - destruct n as [|n]; [done|]. cbn [fmap list_fmap app read_items]. rewrite IH. simpl.
    destruct (_ <=? _)%nat; [|done].
    by destruct (read_items _ its e) as [[[[ok cs] more] e']|].
Qed.

Section recv_reference.
Context {SO : Sodium}.

Lemma recv_loop_stale fuel : forall len got (w : world),
  w_in w = [] -> w_errno w = EINTR -> recv_loop fuel (S len) got w = Diverge.
Proof.
  induction fuel as [|fuel IH]; intros len got w Hi He; [done|].
  rewrite recv_loop_unfold. unfold mbind, M_bind, recv, gets. rewrite Hi. simpl.
  rewrite He, Z.eqb_refl. by apply IH.
Qed.

Lemma recv_loop_end fuel len got (w : world) :
  w_in w = [] -> w_errno w <> EINTR -> recv_loop (S fuel) (S len) got w = Ok (false, got) w.
Proof.
  intros Hi He. rewrite recv_loop_unfold. unfold mbind, M_bind, recv, gets. rewrite Hi. simpl.
  by rewrite (proj2 (Z.eqb_neq _ _)).
Qed.

Lemma recv_loop_error e evs fuel len got (w : world) :
  w_in w = RErr e :: evs ->
  recv_loop (S fuel) (S len) got w =
    if e =? EINTR then recv_loop fuel (S len) got (set_errno e (set_in evs w))
    else Ok (false, got) (set_errno e (set_in evs w)).
Proof.
  intros Hi. rewrite recv_loop_unfold. unfold mbind, M_bind, recv, gets. rewrite Hi. simpl.
  by destruct (e =? EINTR).
Qed.

(** [recv_loop] does what [read_items] says to the connection of [w]. *)
Definition reads_as (o : outcome world (bool * bytes)) (got : bytes) (w : world)
    (r : option (bool * bytes * list item * Z)) : Prop :=
  match r with
  | None => o = Diverge
  | Some (ok, bs, its, e) =>
      exists evs, o = Ok (ok, got ++ bs) (set_errno e (set_in evs w)) /\
        items evs = its /\ Forall nonempty_event evs
  end.

Lemma recv_loop_reads evs : forall (w : world) fuel len got,
  w_in w = evs -> (length evs < fuel)%nat -> Forall nonempty_event evs ->
  reads_as (recv_loop fuel len got w) got w (read_items len (items evs) (w_errno w)).
Proof.
  induction evs as [|ev evs IH]; intros w fuel len got Hw Hfuel Hne.
  all: destruct len as [|len];
    [rewrite recv_loop_0, read_items_0; eexists; rewrite app_nil_r;
       split; [by rewrite set_in_errno_id|by rewrite Hw]|].
  all: destruct fuel as [|fuel]; [simpl in *; lia|].
  - simpl. destruct (Z.eqb_spec (w_errno w) EINTR); simpl; [by apply recv_loop_stale|].
    exists []. rewrite recv_loop_end by done. split; [|done].
    rewrite <- Hw, set_in_errno_id. by rewrite app_nil_r.
  - simpl in Hfuel. apply Forall_cons in Hne as [Hev Hne]. destruct ev as [bs|e].
    + rewrite (recv_loop_data bs evs) by done.
      change (items (RData bs :: evs)) with ((inl <$> bs) ++ items evs).
      rewrite read_items_data. destruct (Nat.leb_spec (length bs) (S len)).
      * pose proof (IH (set_in evs w) fuel (S len - length bs)%nat (got ++ bs) eq_refl
          ltac:(lia) Hne) as Hr. cbn [set_in w_errno] in Hr.
        destruct (read_items _ _ _) as [[[[ok cs] its] e]|]; [|done]. simpl in *.
        destruct Hr as (evs' & -> & Hits). exists evs'. by rewrite app_assoc.
      * exists (RData (drop (S len) bs) :: evs). split; [by destruct w|]. split; [done|].
        constructor; [|done]. simpl. intros E%(f_equal length).
        rewrite length_drop in E. simpl in E. lia.
    + rewrite (recv_loop_error e evs) by done.
      change (items (RErr e :: evs)) with (inr e :: items evs). cbn [read_items].
      destruct (e =? EINTR).
      * pose proof (IH (set_errno e (set_in evs w)) fuel (S len) got eq_refl ltac:(lia) Hne) as Hr.
        cbn [set_errno w_errno] in Hr.
        destruct (read_items _ _ _) as [[[[ok cs] its] e']|]; [|done]. simpl in *.
        destruct Hr as (evs' & -> & Hits). by exists evs'.
      * exists evs. by rewrite app_nil_r.
Qed.

(** C19: [recv_fully] is the byte-by-byte reader: on every connection without
    empty pieces, whatever bytes and errors it carries and wherever it ends,
    [recv_fully] returns what [read_items] returns, leaves the same bytes,
    errors and [errno] behind, and never returns exactly when [read_items] says
    so. *)
Theorem recv_fully_is_bytewise (n : nat) (w : world) :
  Forall nonempty_event (w_in w) ->
  reads_as (recv_fully n w) [] w (read_items n (items (w_in w)) (w_errno w)).
Proof. intros Hne. by apply recv_loop_reads; [|lia|]. Qed.

End recv_reference.

(** ** Worlds that differ in the pieces only *)

Section segments.
Context {SO : Sodium} {EN : Env}.

Record weq (w1 w2 : world) : Prop := {
  weq_left : Forall nonempty_event (w_in w1);
  weq_right : Forall nonempty_event (w_in w2);
  weq_items : items (w_in w1) = items (w_in w2);
  weq_rest : w2 = set_in (w_in w2) w1
}.

#[export] Instance weq_per : RelationClasses.PER weq.
Proof.
  split.
  - intros w1 w2 [H1 H2 H3 H4]. split; try done. rewrite H4. by destruct w1.
  - intros w1 w2 w3 [H1 H2 H3 H4] [H5 H6 H7 H8]. split; try done; [congruence|].
    rewrite H8, H4. by destruct w1.
Qed.

(** Outcomes that differ in the pieces of the connection only. *)
Definition oeq {A} (o1 o2 : outcome world A) : Prop :=
  match o1, o2 with
  | Ok v1 w1, Ok v2 w2 => v1 = v2 /\ weq w1 w2
  | Throw e1 w1, Throw e2 w2 => e1 = e2 /\ weq w1 w2
  | Undefined k1, Undefined k2 => k1 = k2
  | Diverge, Diverge => True
  | _, _ => False
  end.

(** [m] cannot tell the pieces apart. *)
Definition segment_free {A} (m : IO A) : Prop := Proper (weq ==> oeq) m.

Lemma weq_set_in evs w1 w2 :
  weq w1 w2 -> Forall nonempty_event evs -> weq (set_in evs w1) (set_in evs w2).
Proof. intros [H1 H2 H3 H4] He. split; try done. rewrite H4. by destruct w1. Qed.

(** What does not look at the connection carries it along. *)
Definition map_world {A} (f : world -> world) (o : outcome world A) : outcome world A :=
  match o with
  | Ok v w => Ok v (f w)
  | Throw e w => Throw e (f w)
  | Undefined k => Undefined k
  | Diverge => Diverge
  end.

Definition carries {A} (m : IO A) : Prop :=
  forall w evs, m (set_in evs w) = map_world (set_in evs) (m w).

Lemma set_in_id (w : world) : set_in (w_in w) w = w.
Proof. by destruct w. Qed.

Lemma weq_carried (w1 w2 w : world) :
  weq w1 w2 -> w = set_in (w_in w1) w -> weq w (set_in (w_in w2) w).
Proof.
  intros [H1 H2 H3 H4] Hw. assert (w_in w = w_in w1) as Hi by (by rewrite Hw).
  split; rewrite ?Hi; done.
Qed.

Lemma segment_free_carries {A} (m : IO A) : carries m -> segment_free m.
Proof.
  intros Hm w1 w2 Hw. pose proof (Hm w1 (w_in w1)) as Hi. rewrite set_in_id in Hi.
  rewrite (weq_rest _ _ Hw), Hm.
  destruct (m w1) as [v w|e w| |]; simpl in *; try done;
    (injection Hi as Hi; split; [done|by apply (weq_carried w1)]).
Qed.

Lemma segment_free_recv_fully n : segment_free (recv_fully n).
Proof.
  intros w1 w2 [H1 H2 H3 H4]. pose proof (recv_loop_reads (w_in w1) w1 (S (length (w_in w1))) n []
    eq_refl ltac:(lia) H1) as R1.
  pose proof (recv_loop_reads (w_in w2) w2 (S (length (w_in w2))) n [] eq_refl ltac:(lia) H2) as R2.
  unfold recv_fully. assert (w_errno w2 = w_errno w1) as He by (by rewrite H4).
  rewrite <- H3, He in R2.
  destruct (read_items _ _ _) as [[[[ok bs] its] e]|]; simpl in R1, R2; [|by rewrite R1, R2].
  destruct R1 as (evs1 & -> & Hi1 & Hn1), R2 as (evs2 & -> & Hi2 & Hn2).
  simpl. split; [done|]. split; try done; simpl; [congruence|]. rewrite H4. by destruct w1.
Qed.

#[export] Instance segment_free_closed : Closed (@segment_free).
Proof.
  split; unfold holds; intros.
  - by intros w1 w2 Hw.
  - intros w1 w2 Hw. unfold mbind, M_bind. specialize (H w1 w2 Hw).
    destruct (m w1) as [v1 w1'| | |] eqn:E1, (m w2) as [v2 w2'| | |] eqn:E2; simpl in H; try done.
    destruct H as [<- Hw']. apply H0; [by exists w1, w1'|done].
  - by intros w1 w2 Hw.
  - by intros w1 w2 Hw.
Qed.

Lemma net_fuel_items (w : world) :
  net_fuel w = S (length (omap (fun i => match i with inl b => Some b | inr _ => None end)
                            (items (w_in w)))).
Proof.
  unfold net_fuel. f_equal. f_equal. unfold stream, items.
  induction (w_in w) as [|[bs|e] evs IH]; [done| |done]. cbn [mbind list_bind].
  rewrite omap_app, IH. f_equal. clear. simpl. induction bs as [|b bs IH]; [done|].
  cbn. by rewrite IH at 1.
Qed.

#[export] Instance segment_free_closed_net : ClosedNet (@segment_free).
Proof.
  split; unfold holds; intros; try apply _; try apply segment_free_recv_fully.
  5: { intros w1 w2 Hw. unfold gets. simpl. split; [|done].
       by rewrite !net_fuel_items, (weq_items _ _ Hw). }
  all: apply segment_free_carries; intros w evs.
  - unfold send. simpl. by destruct (w_snd w) as [|[| |] ?].
  - unfold randombytes. simpl. by destruct (randombytes_buf _ _).
  - unfold crypto_kx_keypair. simpl. by destruct (kx_keypair _) as [[? ?] ?].
  - unfold crypto_secretstream_init_push. simpl. by destruct (ss_init_push _ _) as [[? ?] ?].
Qed.

Lemma carries_fs_call {A} (f : fs -> option (A * fs)) : carries (fs_call f).
Proof. intros w evs. unfold fs_call. simpl. by destruct (f _) as [[? ?]|]. Qed.

#[export] Instance segment_free_closed_fs : ClosedFs (fun _ => True) (@segment_free).
Proof.
  split; unfold holds; intros; try apply _; apply segment_free_carries;
    try apply carries_fs_call; intros w evs; try done.
  - unfold open_out. simpl. by destruct (ofstream_open _ _).
  - unfold make_directories. simpl. by destruct (create_directories (w_fs w) _).
Qed.

#[export] Instance segment_free_closed_term : ClosedTerm (@segment_free).
Proof.
  split; unfold holds; intros; try apply _; apply segment_free_carries; intros w evs; try done.
  all: unfold get_stuff, cin_read; cbn [set_in w_stdin]; by repeat case_match.
Qed.

(** C5: How a connection is cut into pieces does not matter.  Two connections
    that carry the same bytes and errors in the same order lead [handle_conn],
    whatever the bytes are, to the same result: the same operations on the
    shared state, the same bytes sent, the same files, or the same exception,
    undefined behaviour or endless loop; and the client's [authed_comms], the
    whole of its session after the login, likewise. *)
Theorem sessions_segment_free (DB : database) (fd : Z)
    (client_tx client_rx password nonce : bytes) (w1 w2 : world) :
  weq w1 w2 ->
  oeq (handle_conn DB fd w1) (handle_conn DB fd w2) /\
  oeq (authed_comms client_tx client_rx password nonce fd w1)
      (authed_comms client_tx client_rx password nonce fd w2).
Proof.
  intros Hw. split.
  - by apply (closed_handle_conn (@segment_free)).
  - by apply (closed_authed_comms (@segment_free)).
Qed.

End segments.

(** ** Concrete runs *)

Section segments_runs.
#[local] Existing Instances toy_sodium toy_sodium_laws toy_env toy_env_laws.

Lemma recv_fully_is_bytewise_witness :
  reads_as (recv_fully 4 (demo_world [RData (str "a"); RErr EINTR; RData (str "bc"); RErr EAGAIN]))
    [] (demo_world [RData (str "a"); RErr EINTR; RData (str "bc"); RErr EAGAIN])
    (Some (false, str "abc", [], EAGAIN)).
Proof.
  apply (recv_fully_is_bytewise 4
    (demo_world [RData (str "a"); RErr EINTR; RData (str "bc"); RErr EAGAIN])).
  repeat constructor; discriminate.
Defined.

Lemma sessions_segment_free_witness :
  let w1 := demo_world [RData (str "abc"); RData (str "d")] in
  let w2 := demo_world [RData (str "a"); RData (str "bcd")] in
  oeq (handle_conn demo_db 5 w1) (handle_conn demo_db 5 w2) /\
  oeq (authed_comms demo_key demo_key (str "pw") demo_nonce 5 w1)
      (authed_comms demo_key demo_key (str "pw") demo_nonce 5 w2).
Proof.
  intros w1 w2. apply (sessions_segment_free demo_db 5 demo_key demo_key (str "pw") demo_nonce w1 w2).
  split; try reflexivity; repeat constructor; discriminate.
Defined.

End segments_runs.
