(* ===== verification/Tree.v ===== *)
(** The directory tree of the server stays well formed.

    [tree_ok] is the invariant of the file system: the working directory exists,
    every node is in an existing directory, and every name is one the kernel
    would accept.  Every call on the file system keeps it, [remove] because the
    paths the server removes lead through MEF_S in the working directory, which
    is therefore not empty; so every connection keeps it, whatever its client
    sends, also when it ends in an exception.  Safety relies on it. *)

From S2P Require Import Prelude Sodium Constants Fs Terminal World Net SessionEnc TwoSlotBuffer Transfer FSOperator Agents Closed Progress Client EndToEnd Auth Connection.

(** A name the kernel accepts. *)
Definition valid_name (c : bytes) : Prop := plain_name c /\ blen c <= NAME_MAX.

Definition fs_names (f : fs) : Prop :=
  forall d c n, fs_nodes f !! (d ++ [c]) = Some n -> valid_name c.

Definition tree_ok (f : fs) : Prop := fs_wf f /\ fs_names f.

(** ** Names that come from path strings *)

Lemma split_slash_no_slash p : Forall no_slash (split_slash p).
Proof.
  induction p as [|b p IH]; simpl; [by repeat constructor|].
  destruct (split_slash p) as [|c cs]; [done|]. apply Forall_cons in IH as [Hc IH].
  case_bool_decide; [by repeat constructor|]. by repeat constructor.
Qed.

Lemma Forall_last {A} (P : A -> Prop) l x : l <> [] -> Forall P l -> P (List.last l x).
Proof.
  intros Hl. rewrite (app_removelast_last x Hl) at 1. by intros [_ [? _]%Forall_cons]%Forall_app.
Qed.

Lemma locate_valid f p d n : locate f p = TName d n -> blen n <= NAME_MAX -> valid_name n.
Proof.
  unfold locate. case_bool_decide; [done|]. destruct (walk _ _ _); [|done].
  case_bool_decide as Hl; [done|]. intros [= <- <-] Hb. split; [|done].
  split_and!; [tauto..|]. apply Forall_last; [|apply split_slash_no_slash].
  by destruct (split_slash_cons p) as (c & cs & ->).
Qed.

(** ** Each call keeps the tree *)

Lemma fs_names_insert f d c v :
  fs_names f -> valid_name c -> fs_names (set_nodes f (<[d ++ [c] := v]> (fs_nodes f))).
Proof.
  intros Hf Hc d' c' n. simpl. destruct (decide (d ++ [c] = d' ++ [c'])) as [E|Hne].
  - by apply app_inj_tail in E as [_ <-].
  - rewrite lookup_insert_ne by done. apply Hf.
Qed.

Lemma ofstream_open_tree f p h f' : tree_ok f -> ofstream_open f p = (h, f') -> tree_ok f'.
Proof.
  intros [Hw Hn] H. split; [by eapply ofstream_open_wf|]. revert H. unfold ofstream_open.
  destruct (locate f p) as [d n| |] eqn:E; try (by intros [= <- <-]).
  destruct (Z.ltb_spec NAME_MAX (blen n)); [by intros [= <- <-]|].
  apply locate_valid in E; [|done].
  by destruct (fs_nodes f !! _) as [[]|]; intros [= <- <-]; try done; apply fs_names_insert.
Qed.

Lemma ofstream_write_tree h data f : tree_ok f -> tree_ok (ofstream_write h data f).
Proof.
  intros [Hw Hn]. split; [by apply ofstream_write_wf|]. destruct h as [p|]; [|done]. simpl.
  destruct (fs_nodes f !! p) as [[]|] eqn:E; try done.
  destruct (proj2 Hw p _ E) as [Hp _]. destruct (exists_last Hp) as (d & c & ->).
  apply fs_names_insert; [done|]. by eapply Hn.
Qed.

Lemma mkdirs_tree cwd m cur cs :
  Forall no_slash cs -> tree_ok (Fs cwd m) -> is_dir m cur = true ->
  tree_ok (Fs cwd (snd (mkdirs m cur cs))).
Proof.
  intros Hcs. revert m cur. induction Hcs as [|c cs Hc _ IH]; intros m cur [Hw Hn] Hcur; simpl.
  { done. }
  case_bool_decide; [by apply IH|].
  case_bool_decide; [apply IH; [done|]; by eapply is_dir_parent; [apply Hw|]|].
  destruct (Z.ltb_spec NAME_MAX (blen c)); [done|].
  destruct (m !! (cur ++ [c])) as [[]|] eqn:E; [done| |].
  - apply IH; [done|]. apply is_dir_lookup. by right.
  - apply IH.
    + split; [apply (fs_wf_insert (Fs cwd m)); [done|done|by right]|].
      apply (fs_names_insert (Fs cwd m)); [done|]. split; [|done]. by split_and!; [tauto..|].
    + apply is_dir_lookup. right. apply lookup_insert_eq.
Qed.

Lemma start_dir_is_dir f p : fs_wf f -> is_dir (fs_nodes f) (start_dir f p) = true.
Proof. intros [Hc _]. destruct p as [|b p]; simpl; [done|]. by case_bool_decide. Qed.

(** Also the directories made before an exception. *)
Lemma made_directories_tree f p : tree_ok f -> tree_ok (made_directories f p).
Proof.
  intros Hf. apply (mkdirs_tree _ (fs_nodes f)).
  - apply split_slash_no_slash.
  - by destruct f.
  - apply start_dir_is_dir, Hf.
Qed.

Lemma create_directories_made f p f' :
  create_directories f p = Some f' -> f' = made_directories f p.
Proof.
  unfold create_directories, made_directories. destruct (mkdirs _ _ _) as [[] m]; [|done].
  by intros [= <-].
Qed.

(** ** Removing *)

Lemma elem_of_children m d c : c ∈ children m d <-> exists n, m !! (d ++ [c]) = Some n.
Proof.
  unfold children. rewrite list_elem_of_omap. split.
  - intros ([q n] & Hq%elem_of_map_to_list & Hc). unfold child_name in Hc. simpl in Hc.
    case_bool_decide as Hl; [|done]. injection Hc as Hc. exists n. by rewrite <- Hc, <- Hl.
  - intros [n Hn]. exists (d ++ [c], n). split; [by apply elem_of_map_to_list|].
    unfold child_name. simpl. by rewrite last_last, bool_decide_eq_true_2.
Qed.

Lemma children_nil m d c n : children m d = [] -> m !! (d ++ [c]) <> Some n.
Proof.
  intros Hc Hn. assert (c ∈ children m d) as H by (apply elem_of_children; eauto).
  rewrite Hc in H. by apply not_elem_of_nil in H.
Qed.

Lemma is_dir_delete m p q : is_dir m q = true -> q <> p \/ m !! p <> Some NDir ->
  is_dir (delete p m) q = true.
Proof.
  rewrite !is_dir_lookup. intros [->|Hq] Hp; [by left|]. right.
  rewrite lookup_delete_ne; [done|]. intros ->. by destruct Hp.
Qed.

(** A file, or a directory with nothing in it that is not the working
    directory, can go. *)
Lemma delete_tree f p :
  tree_ok f -> fs_nodes f !! p <> Some NDir \/ (p <> fs_cwd f /\ children (fs_nodes f) p = []) ->
  tree_ok (set_nodes f (delete p (fs_nodes f))).
Proof.
  intros [[Hc Hw] Hn] Hp. split; [split|].
  - apply is_dir_delete; [done|]. destruct Hp as [?|[? _]]; [by right|by left].
  - simpl. intros q n [Hne Hq]%lookup_delete_Some. destruct (Hw q n Hq) as [Hq0 Hd].
    split; [done|]. apply is_dir_delete; [done|]. destruct Hp as [?|[_ Hch]]; [by right|left].
    intros <-. destruct (exists_last Hq0) as (d & c & ->). rewrite parent_snoc in Hch.
    by eapply children_nil.
  - intros d c n. simpl. intros [_ H]%lookup_delete_Some. by eapply Hn.
Qed.

(** A path string that starts with [base_dir]. *)
Definition in_base (p : bytes) : Prop := exists name, p = base_dir ++ name.

Lemma in_base_app p name : in_base p -> in_base (p ++ name).
Proof. intros [d ->]. exists (d ++ name). by rewrite app_assoc. Qed.

#[export] Hint Resolve in_base_app : closed.

(** What such a string denotes is reached through MEF_S, so the working
    directory is not empty. *)
Lemma in_base_walk f p d :
  in_base p -> walk (fs_nodes f) (start_dir f p) (removelast (split_slash p)) = Some d ->
  children (fs_nodes f) (fs_cwd f) <> [].
Proof.
  intros [name ->]. change (base_dir ++ name) with (str "MEF_S" ++ slash :: name).
  rewrite split_slash_app, (split_slash_plain (str "MEF_S")) by (by repeat constructor).
  destruct (split_slash_cons name) as (c & cs & ->).
  change (removelast ([str "MEF_S"] ++ c :: cs)) with (str "MEF_S" :: removelast (c :: cs)).
  change (start_dir f _) with (fs_cwd f). cbn [walk].
  rewrite !bool_decide_eq_false_2 by (try intros [?|?]; done).
  destruct (is_dir _ _) eqn:Hd; [|done]. intros _ Hch. apply is_dir_lookup in Hd as [Hd|Hd].
  - by destruct (fs_cwd f).
  - by eapply children_nil.
Qed.

Lemma remove_dir_tree f p b f' :
  tree_ok f -> children (fs_nodes f) (fs_cwd f) <> [] -> remove_dir f p = Some (b, f') ->
  tree_ok f'.
Proof.
  intros Hf Hc. unfold remove_dir. case_bool_decide as Hp; [|done]. intros [= <- <-].
  apply delete_tree; [done|]. right. destruct Hp as [_ Hp]. split; [|done]. congruence.
Qed.

Lemma fs_remove_tree f p b f' :
  tree_ok f -> in_base p -> fs_remove f p = Some (b, f') -> tree_ok f'.
Proof.
  intros Hf Hp. unfold fs_remove, locate. case_bool_decide; [by intros [= <- <-]|].
  destruct (walk _ _ _) as [d|] eqn:E; [|destruct (_ || _); [by intros [= <- <-]|done]].
  apply in_base_walk in E; [|done]. case_bool_decide.
  - case_bool_decide; [|done]. by apply remove_dir_tree.
  - set (q := d ++ _). destruct (fs_nodes f !! q) as [[]|] eqn:Eq.
    + intros [= <- <-]. apply delete_tree; [done|]. left. congruence.
    + by apply remove_dir_tree.
    + destruct (_ <? _); [done|]. by intros [= <- <-].
Qed.

(** ** Every operation keeps the tree *)

Section tree.
Context {SO : Sodium} {EN : Env}.

(** When it returns or throws. *)
Definition keeps_tree {A} (m : IO A) : Prop :=
  forall w, tree_ok (w_fs w) ->
    match m w with Ok _ w' | Throw _ w' => tree_ok (w_fs w') | _ => True end.

#[export] Instance keeps_tree_closed : Closed (@keeps_tree).
Proof.
  split; unfold holds; [by intros A v w Hw| |done|done]. intros A B m k Hm Hk w Hw. unfold mbind, M_bind.
  specialize (Hm w Hw). destruct (m w) as [v w1|e w1| |] eqn:E; try done.
  by apply (Hk v (ex_intro _ w (ex_intro _ w1 E))).
Qed.

(** A call that leaves the file system alone. *)
Lemma keeps_tree_keeps_fs {A} (m : IO A) : holds (keeps_of w_fs) m -> holds (@keeps_tree) m.
Proof. intros Hm w Hw. specialize (Hm w). destruct (m w); try done. by rewrite Hm. Qed.

#[export] Instance keeps_tree_closed_net : ClosedNet (@keeps_tree).
Proof. split; [apply _|..]; intros; apply keeps_tree_keeps_fs; closed. Qed.

Lemma keeps_tree_fs_call {A} (f : fs -> option (A * fs)) :
  (forall h v h', tree_ok h -> f h = Some (v, h') -> tree_ok h') -> keeps_tree (fs_call f).
Proof.
  intros Hf w Hw. unfold fs_call. destruct (f (w_fs w)) as [[v h]|] eqn:E; [|done]. by eapply Hf.
Qed.

#[export] Instance keeps_tree_closed_fs : ClosedFs in_base (@keeps_tree).
Proof.
  split; unfold holds; intros; [apply _|..].
  - intros w Hw. unfold open_out. destruct (ofstream_open _ _) eqn:E. by eapply ofstream_open_tree.
  - intros w Hw. by apply ofstream_write_tree.
  - by intros w Hw.
  - intros w Hw. unfold make_directories.
    destruct (create_directories _ _) as [f'|] eqn:E; [|by apply made_directories_tree].
    apply create_directories_made in E as ->. by apply made_directories_tree.
  - apply keeps_tree_fs_call. by intros h v h' Hh (l & _ & [= -> ->])%fmap_Some.
  - apply keeps_tree_fs_call. intros h v h' Hh. by apply fs_remove_tree.
Qed.

(** The server's directory tree stays well formed: from a file system whose
    working directory exists, whose nodes are in existing directories and whose
    names the kernel accepts, every connection leads to such a file system
    again, whatever the client sends and also when the connection ends in an
    exception. *)
Lemma connection_keeps_tree (DB : database) (fd : Z) (w : world) :
  tree_ok (w_fs w) ->
  match handle_conn DB fd w with
  | Ok _ w' | Throw _ w' => tree_ok (w_fs w')
  | Undefined _ | Diverge => True
  end.
Proof.
  intros Hw. apply (closed_handle_conn (@keeps_tree)); [|done]. intros name. by exists name.
Qed.

End tree.

(** ** Concrete runs *)

Section tree_runs.
#[local] Existing Instances toy_sodium toy_sodium_laws toy_env toy_env_laws.

Lemma demo_fs_tree : tree_ok demo_fs.
Proof.
  split; [split; [reflexivity|intros p n H]|intros d c n H]; by destruct (lookup_empty_Some p n H) || by destruct (lookup_empty_Some (d ++ [c]) n H).
Qed.

End tree_runs.
