(* ===== verification/Confine.v ===== *)
(** What one action of a session can change among the server's files: the one
    node that the name sent by the client denotes, starting from the user's
    directory.  An upload leaves a file there that begins with the header and the
    salt it received, a deletion leaves nothing there; a download, a listing and an
    unknown intent change nothing.  (A name with slashes can denote a node
    elsewhere; a plain one denotes an entry of the user's directory.) *)

From S2P Require Import Prelude Sodium Constants Fs Terminal World Net SessionEnc TwoSlotBuffer Transfer FSOperator Agents Closed Progress Client EndToEnd Auth Connection.

(** The node a path string denotes, which need not exist. *)
Definition denotes (f : fs) (p : bytes) (q : path) : Prop :=
  match locate f p with
  | TName d n => q = d ++ [n]
  | TDir d _ => q = d
  | TNone => False
  end.

Definition changed (f f' : fs) (q : path) : Prop := fs_nodes f' !! q <> fs_nodes f !! q.

Lemma denotes_plain f p d n q :
  dir_string p -> resolve_dir f p = Some d -> plain_name n -> denotes f (p ++ n) q -> q = d ++ [n].
Proof. intros Hp Hd Hn. unfold denotes. by rewrite (locate_plain f p d n). Qed.

(** ** The calls that change files *)

Lemma not_changed f q : ~ changed f f q.
Proof. intros H. by apply H. Qed.

(** An open stream writes to the node its path denotes, which it has emptied. *)
Lemma ofstream_open_denotes f p h f' :
  ofstream_open f p = (h, f') ->
  match h with
  | None => f' = f
  | Some q => denotes f p q /\ f' = set_nodes f (<[q := NFile []]> (fs_nodes f))
  end.
Proof.
  unfold ofstream_open, denotes. destruct (locate f p) as [d n| |]; [|by intros [= <- <-]..].
  destruct (_ <? _); [by intros [= <- <-]|].
  by destruct (fs_nodes f !! _) as [[]|]; intros [= <- <-].
Qed.

(** Opening, then writing. *)
Lemma write_denoted f p h f' data :
  ofstream_open f p = (h, f') ->
  fs_cwd (ofstream_write h data f') = fs_cwd f /\
  forall q, changed f (ofstream_write h data f') q ->
    denotes f p q /\ fs_nodes (ofstream_write h data f') !! q = Some (NFile data).
Proof.
  intros H%ofstream_open_denotes. destruct h as [q0|]; [destruct H as [Hd ->]|subst].
  2: { split; [done|]. intros q Hq. by apply not_changed in Hq. }
  cbn [ofstream_write fs_nodes set_nodes]. rewrite lookup_insert_eq.
  unfold changed. cbn [fs_nodes set_nodes fs_cwd app]. split; [done|]. intros q Hq.
  rewrite insert_insert_eq in *. destruct (decide (q = q0)) as [->|Hne].
  - by rewrite lookup_insert_eq.
  - by rewrite lookup_insert_ne in Hq.
Qed.

Lemma remove_denoted f p b f' :
  fs_remove f p = Some (b, f') ->
  fs_cwd f' = fs_cwd f /\
  forall q, changed f f' q -> denotes f p q /\ fs_nodes f' !! q = None.
Proof.
  assert (forall d q, changed f (set_nodes f (delete d (fs_nodes f))) q ->
    q = d /\ fs_nodes (set_nodes f (delete d (fs_nodes f))) !! q = None) as Hdel.
  { intros d q. unfold changed. cbn [fs_nodes set_nodes].
    destruct (decide (q = d)) as [->|Hne]; [by rewrite lookup_delete_eq|].
    by rewrite lookup_delete_ne. }
  assert (forall q (P : Prop), changed f f q -> P) as Hsame by (intros q P []%not_changed).
  unfold fs_remove, denotes, remove_dir. destruct (locate f p) as [d n|d l|].
  - destruct (fs_nodes f !! (d ++ [n])) as [[]|].
    + intros [= <- <-]. split; [done|apply Hdel].
    + case_bool_decide; [|done]. intros [= <- <-]. split; [done|apply Hdel].
    + destruct (_ <? _); [done|]. intros [= <- <-]. split; [done|]. intros q. apply Hsame.
  - repeat (case_bool_decide; [|done]). intros [= <- <-]. split; [done|apply Hdel].
  - destruct (_ || _); [|done]. intros [= <- <-]. split; [done|]. intros q. apply Hsame.
Qed.

(** ** The actions *)

Section confine.
Context {SO : Sodium} {EN : Env}.

(** What the handlers receive: the name, the header and the salt of an upload,
    and the name of a deletion. *)
Definition upload_request (op : FS_Operator) (w : world) (name header salt : bytes) : Prop :=
  exists buf w1,
    init_read op (indet "file_name_buf" (Z.to_nat FILE_ENCRYPTED_CHUNK_SIZE))
      (indet "header" crypto_secretstream_xchacha20poly1305_HEADERBYTES)
      (indet "salt" crypto_pwhash_SALTBYTES) w = Ok (0, buf, header, salt) w1 /\
    c_str buf = Some name.

Definition delete_request (op : FS_Operator) (w : world) (name : bytes) : Prop :=
  exists n w0 s w1,
    randombytes crypto_aead_chacha20poly1305_NPUBBYTES w = Ok n w0 /\
    SessionEncWrapper_reader w0 = Ok s w1 /\
    let '(rc, _, buf, _) :=
      unwrap s (server_rx op) PRE_EXT_FILE_NAME_LEN
        (replicate (Z.to_nat MAX_FILE_NAME_LENGTH) x00) (indet_ull "decrypted_len") in
    rc = 0 /\ c_str buf = Some name.

(** What an action may do to the files, when it returns or throws. *)
Definition allowed (i : Z) (op : FS_Operator) (w w' : world) : Prop :=
  fs_cwd (w_fs w') = fs_cwd (w_fs w) /\
  forall q, changed (w_fs w) (w_fs w') q ->
    (i = WRITE_TO_FILESYSTEM /\ exists name header salt rest,
       upload_request op w name header salt /\
       denotes (w_fs w) (user_dir op ++ name ++ ext) q /\
       fs_nodes (w_fs w') !! q = Some (NFile (header ++ salt ++ rest))) \/
    (i = DELETE_FILE /\ exists name,
       delete_request op w name /\ denotes (w_fs w) (user_dir op ++ name) q /\
       fs_nodes (w_fs w') !! q = None).

Lemma allowed_same i op (w w' : world) : w_fs w' = w_fs w -> allowed i op w w'.
Proof. intros E. split; [congruence|]. intros q. rewrite E. by intros ?%not_changed. Qed.

(** The outcome, if there is one, satisfies [Q]. *)
Definition ends {A} (Q : world -> Prop) (o : outcome world A) : Prop :=
  match o with Ok _ w' | Throw _ w' => Q w' | Undefined _ | Diverge => True end.

Lemma ends_bind {A B} (Q : world -> Prop) (m : IO A) (k : A -> IO B) (w : world) :
  (forall v w1, m w = Ok v w1 -> ends Q (k v w1)) ->
  (forall e w1, m w = Throw e w1 -> Q w1) -> ends Q ((m ≫= k) w).
Proof.
  intros Hk Ht. unfold mbind, M_bind. destruct (m w) as [v w1|e w1| |] eqn:E; try done;
    [by apply Hk|by eapply Ht].
Qed.

(** Leaving the files alone and throwing nothing. *)
Lemma ends_bind_keeps {A B} (Q : world -> Prop) (m : IO A) (k : A -> IO B) (w : world) :
  keeps w_fs m -> (forall v w1, m w = Ok v w1 -> w_fs w1 = w_fs w -> ends Q (k v w1)) ->
  ends Q ((m ≫= k) w).
Proof.
  intros Hm Hk. specialize (Hm w). apply ends_bind.
  - intros v w1 E. rewrite E in Hm. by apply Hk.
  - intros e w1 E. by rewrite E in Hm.
Qed.

(** Leaving the files alone, with or without an exception. *)
Definition leaves_fs {A} (m : IO A) : Prop := forall w, ends (fun w' => w_fs w' = w_fs w) (m w).

#[export] Instance leaves_fs_closed : Closed (@leaves_fs).
Proof.
  split; unfold holds; try by intros; intros w. intros A B m k Hm Hk w.
  apply ends_bind.
  - intros v w1 E. specialize (Hm w). rewrite E in Hm. simpl in Hm.
    specialize (Hk v (ex_intro _ w (ex_intro _ w1 E)) w1). destruct (k v w1); simpl in *; congruence.
  - intros e w1 E. specialize (Hm w). by rewrite E in Hm.
Qed.

Lemma leaves_fs_keeps {A} (m : IO A) : keeps w_fs m -> leaves_fs m.
Proof. intros Hm w. specialize (Hm w). by destruct (m w). Qed.

#[export] Instance leaves_fs_closed_net : ClosedNet (@leaves_fs).
Proof.
  split; [apply _|..]; unfold holds; intros; apply leaves_fs_keeps.
  - apply (closed_send (P := keeps_of w_fs)).
  - apply (closed_recv_fully (P := keeps_of w_fs)).
  - apply (closed_randombytes (P := keeps_of w_fs)).
  - apply (closed_kx_keypair (P := keeps_of w_fs)).
  - apply (closed_init_push (P := keeps_of w_fs)).
  - apply (closed_net_fuel (P := keeps_of w_fs)).
Qed.

Lemma leaves_fs_open_in p : holds (@leaves_fs) (open_in p).
Proof. by intros w. Qed.

Lemma leaves_fs_list_dir p : holds (@leaves_fs) (list_dir p).
Proof.
  intros w. unfold list_dir, fs_call. destruct (directory_entries _ _); [by destruct w|done].
Qed.

#[local] Hint Resolve leaves_fs_open_in leaves_fs_list_dir : closed.

Lemma leaves_fs_RFFS op : leaves_fs (RFFS_Handler__Server op).
Proof. change (holds (@leaves_fs) (RFFS_Handler__Server op)). unfold RFFS_Handler__Server. closed. Qed.

Lemma leaves_fs_LFFS op : leaves_fs (LFFS_Handler__Server op).
Proof. change (holds (@leaves_fs) (LFFS_Handler__Server op)). unfold LFFS_Handler__Server. closed. Qed.

Lemma leaves_fs_allowed {A B} (m : IO A) (k : A -> IO B) i op w :
  leaves_fs m -> (forall v, exists u, k v = mret u) -> ends (allowed i op w) ((m ≫= k) w).
Proof.
  intros Hm Hk. specialize (Hm w). apply ends_bind; intros v w1 E; rewrite E in Hm.
  - destruct (Hk v) as [u ->]. by apply allowed_same.
  - by apply allowed_same.
Qed.

Lemma WTFS_allowed op (w : world) :
  ends (allowed WRITE_TO_FILESYSTEM op w) (WTFS_Handler__Server op w).
Proof.
  unfold WTFS_Handler__Server.
  apply ends_bind_keeps; [apply (closed_init_read (keeps_of w_fs))|].
  intros [[[rc buf] header] salt] w1 E1 Hf1. destruct (Z.eqb_spec rc 0) as [->|];
    [|by apply allowed_same]. cbn [negb].
  apply ends_bind_keeps; [apply (closed_defined (keeps_of w_fs))|].
  intros name w2 E2 Hf2. destruct (c_str buf) as [name'|] eqn:Ec; [|done].
  injection E2 as -> ->. clear Hf2.
  unfold open_out, mbind at 1, M_bind at 1.
  destruct (ofstream_open (w_fs w2) _) as [h f'] eqn:Eo.
  do 2 erewrite bind_Ok by reflexivity. cbn [w_fs set_fs].
  apply ends_bind_keeps; [by intros w'|]. intros fuel w3 _ Hf3.
  apply ends_bind_keeps; [apply (closed_WTFS_loop (keeps_of w_fs))|].
  intros [rc ops] w4 _ Hf4. unfold mbind, M_bind, write_out, modify. cbn [ends mret M_ret].
  unfold allowed. cbn [w_fs set_fs]. rewrite Hf4, Hf3. cbn [w_fs set_fs].
  rewrite <- !ofstream_write_app. rewrite Hf1 in Eo.
  destruct (write_denoted _ _ _ _ (header ++ salt ++ run_pipeline sched FILE_ENCRYPTED_CHUNK_SIZE ops) Eo)
    as [Hc Hq]. split; [done|]. intros q [Hd Hl]%Hq. left. split; [done|].
  exists name, header, salt. eexists. split_and!; [|done|exact Hl]. by exists buf, w2.
Qed.

Lemma DFFS_allowed op (w : world) :
  ends (allowed DELETE_FILE op w) (DFFS_Handler__Server op w).
Proof.
  unfold DFFS_Handler__Server.
  apply ends_bind_keeps; [apply (closed_randombytes (P := keeps_of w_fs))|].
  intros n w1 E1 Hf1. apply ends_bind_keeps; [apply (closed_reader (keeps_of w_fs))|].
  intros s w2 E2 Hf2. destruct (is_corrupted s); [apply allowed_same; congruence|].
  destruct (unwrap s _ _ _ _) as [[[rc s'] buf] l] eqn:Eu.
  destruct (Z.eqb_spec rc 0) as [->|]; [|apply allowed_same; congruence]. cbn [negb].
  apply ends_bind_keeps; [apply (closed_defined (keeps_of w_fs))|].
  intros name w3 E3 _. destruct (c_str buf) as [name'|] eqn:Ec; [|done]. injection E3 as -> ->.
  assert (w_fs w3 = w_fs w) as Hf by congruence.
  unfold fs_call, mbind at 1, M_bind at 1.
  destruct (fs_remove (w_fs w3) _) as [[b f']|] eqn:Er; [|by apply allowed_same].
  rewrite Hf in Er. apply remove_denoted in Er as [Hc Hq].
  assert (forall w', w_fs w' = f' -> allowed DELETE_FILE op w w') as Hdone.
  { intros w' <-. split; [done|]. intros q [Hd Hl]%Hq. right. split; [done|].
    exists name. split_and!; [|done|done]. exists n, w1, s, w3. by rewrite Eu. }
  apply ends_bind_keeps; [apply (closed_randombytes (P := keeps_of w_fs))|]. intros n2 w4 _ Hf4.
  apply ends_bind_keeps; [apply (closed_wrap_and_send (keeps_of w_fs))|]. intros n3 w5 _ Hf5.
  apply Hdone. by rewrite Hf5, Hf4.
Qed.

(** C8: What an action can change.  Whatever the client sends, when the handler
    an intent selects returns or throws, the server's files are as before but for
    at most one node: for an upload the node that <name>.enc denotes from the
    user's directory, where [name] is the one received, and it now is a file that
    starts with the received header and salt; for a deletion the node that the
    received name denotes from the user's directory, which is gone.  A download,
    a listing and an unknown intent change no file. *)
Theorem action_touches_one_file (i : Z) (op : FS_Operator) (w : world) :
  match dispatch i op w with
  | Ok _ w' | Throw _ w' =>
      fs_cwd (w_fs w') = fs_cwd (w_fs w) /\
      forall q, changed (w_fs w) (w_fs w') q ->
        (i = WRITE_TO_FILESYSTEM /\ exists name header salt rest,
           upload_request op w name header salt /\
           denotes (w_fs w) (user_dir op ++ name ++ ext) q /\
           fs_nodes (w_fs w') !! q = Some (NFile (header ++ salt ++ rest))) \/
        (i = DELETE_FILE /\ exists name,
           delete_request op w name /\ denotes (w_fs w) (user_dir op ++ name) q /\
           fs_nodes (w_fs w') !! q = None)
  | Undefined _ | Diverge => True
  end.
Proof.
  change (ends (allowed i op w) (dispatch i op w)). unfold dispatch.
  destruct (_ =? _); [apply leaves_fs_allowed; [apply leaves_fs_RFFS|eauto]|].
  destruct (Z.eqb_spec i WRITE_TO_FILESYSTEM) as [->|_].
  { pose proof (WTFS_allowed op w) as H. unfold mbind, M_bind. by destruct (WTFS_Handler__Server op w). }
  destruct (_ =? _); [apply leaves_fs_allowed; [apply leaves_fs_LFFS|eauto]|].
  destruct (Z.eqb_spec i DELETE_FILE) as [->|_]; [|by apply allowed_same].
  pose proof (DFFS_allowed op w) as H. unfold mbind, M_bind. by destruct (DFFS_Handler__Server op w).
Qed.

End confine.

(** ** Concrete runs *)

Section confine_runs.
#[local] Existing Instances toy_sodium toy_sodium_laws toy_env toy_env_laws.

(** bob deletes f.enc, and nothing else changes. *)
Lemma action_touches_one_file_witness :
  let op := demo_op "bob" in
  let w := concretize (demo_server (wire demo_key demo_nonce (str "f.enc" ++ [x00]))) in
  exists op' w', dispatch DELETE_FILE op w = Ok op' w' /\
    changed (w_fs w) (w_fs w') [str "MEF_S"; str "bob"; str "f.enc"] /\
    forall q, changed (w_fs w) (w_fs w') q ->
      exists name, delete_request op w name /\ denotes (w_fs w) (user_dir op ++ name) q.
Proof.
  intros op w.
  assert (match dispatch DELETE_FILE op w with
          | Ok _ w' => bool_decide (fs_nodes (w_fs w') !! [str "MEF_S"; str "bob"; str "f.enc"] = None)
          | _ => false end = true) as Hgo by (vm_compute; reflexivity).
  pose proof (action_touches_one_file DELETE_FILE op w) as H.
  destruct (dispatch DELETE_FILE op w) as [op' w'| | |]; try discriminate Hgo.
  apply bool_decide_eq_true in Hgo.
  exists op', w'. split_and!; [reflexivity| |].
  - unfold changed. rewrite Hgo. vm_compute. discriminate.
  - intros q Hq. apply (proj2 H) in Hq as [[Hi _]|[_ (name & Hr & Hd & _)]]; [discriminate Hi|].
    exists name. exact (conj Hr Hd).
Defined.

End confine_runs.
