(* ===== verification/Safety.v ===== *)
(** Undefined behaviour.

    Once a client is logged in, nothing it sends makes the server read or write
    outside its buffers, given that the uninitialised name buffer has a NUL in
    its last bytes.  It can make the server use variables that nothing has
    written, or that hold no value of their type: the notice and the intent, when
    the message is shorter than an [int]; the length of a file name, when the
    message is shorter than its tag; the [bool] that says whether there is a file.
    Before the login a client can make the server read past a buffer, in every
    environment. *)

From S2P Require Import Prelude Sodium Constants Fs Terminal World Net SessionEnc TwoSlotBuffer Transfer FSOperator Agents Closed Progress Client EndToEnd Auth Connection Tree.

(** What the session relies on in its uninitialised variables. *)
Class Calm (EN : Env) : Prop := {
  nul_in_name_buf n : (Z.to_nat PRE_EXT_FILE_NAME_LEN < n)%nat ->
    x00 ∈ drop (Z.to_nat PRE_EXT_FILE_NAME_LEN) (indet "file_name_buf" n)
}.

(** [libsodium] reports a length of 0 when it rejects a message. *)
Definition reject_reports_zero (SO : Sodium) : Prop := forall k n c, snd (aead_reject k n c) = 0.

Section safety.
Context {SO : Sodium} {EN : Env} {SL : SodiumLaws SO} {EL : EnvLaws EN}.

(** No access outside an object. *)
Definition safe {A} (m : IO A) : Prop :=
  forall w, tree_ok (w_fs w) -> m w <> Undefined OutOfBounds.

(** [m] can return [v] on a well-formed tree. *)
Definition tree_returns {A} (m : IO A) (v : A) : Prop :=
  exists w w', tree_ok (w_fs w) /\ m w = Ok v w'.

Lemma safe_bind {A B} (m : IO A) (k : A -> IO B) :
  safe m -> holds (@keeps_tree SO) m -> (forall v, tree_returns m v -> safe (k v)) ->
  safe (m ≫= k).
Proof.
  intros Hm Ht Hk w Hw. unfold mbind, M_bind. specialize (Hm w Hw). specialize (Ht w Hw).
  destruct (m w) as [v w1| |k0|] eqn:E; try done; [apply Hk; [by exists w, w1|done]|].
  intros [= ->]. by apply Hm.
Qed.

Lemma safe_total {A} (m : IO A) : (forall w, m w <> Undefined OutOfBounds) -> safe m.
Proof. intros Hm w _. apply Hm. Qed.

Lemma safe_ret {A} (v : A) : safe (mret v).
Proof. by apply safe_total. Qed.

Lemma safe_send d : safe (send d).
Proof. apply safe_total. intros w. unfold send. by repeat case_match. Qed.

Lemma safe_recv_loop fuel : forall len got, safe (recv_loop fuel len got).
Proof.
  induction fuel as [|fuel IH]; intros [|len] got; try by intros w.
  rewrite recv_loop_unfold. apply safe_bind.
  - intros w _. unfold recv. by repeat case_match.
  - apply keeps_tree_keeps_fs, (keeps_recv w_fs).
  - intros [rc bs] _. destruct (_ <=? _); [|done]. apply safe_bind; [done|by intros w Hw|].
    intros e _. by destruct (_ =? _).
Qed.

Lemma safe_recv_fully n : safe (recv_fully n).
Proof. intros w. apply safe_recv_loop. Qed.

Lemma safe_randombytes n : safe (randombytes n).
Proof. apply safe_total. intros w. unfold randombytes. by destruct (randombytes_buf _ _). Qed.

Lemma safe_fs_call {A} (f : fs -> option (A * fs)) : safe (fs_call f).
Proof. apply safe_total. intros w. unfold fs_call. by destruct (f _) as [[? ?]|]. Qed.

Lemma safe_open_out p : safe (open_out p).
Proof. apply safe_total. intros w. unfold open_out. by destruct (ofstream_open _ _). Qed.

Lemma safe_defined {A} (o : option A) : is_Some o -> safe (defined o).
Proof. by intros [v ->]. Qed.

Lemma safe_initialised b : safe (initialised b).
Proof. by destruct b. Qed.

(** A message that fits is encrypted inside its buffer. *)
Lemma safe_wrap_and_send d tx n : blen d <= FILE_ENCRYPTED_CHUNK_SIZE -> safe (wrap_and_send d tx n).
Proof.
  intros Hd. apply safe_total. intros w.
  unfold wrap_and_send, SessionEncWrapper_sender, encrypt_stream_buffer.
  rewrite aead_encrypt_seal, (proj2 (Z.ltb_ge _ _)) by (rewrite blen_seal; consts; lia).
  unfold mbind, M_bind, mret, M_ret, send_all, send. by repeat case_match.
Qed.

End safety.

Create HintDb safe.
#[export] Hint Resolve safe_ret safe_send safe_recv_fully safe_randombytes safe_fs_call
  safe_open_out safe_wrap_and_send safe_initialised : safe.
#[export] Hint Extern 1 (safe diverge) => done : safe.
#[export] Hint Extern 1 (safe (gets _)) => done : safe.
#[export] Hint Extern 1 (safe (open_in _)) => done : safe.
#[export] Hint Extern 1 (safe (write_out _ _)) => done : safe.
#[export] Hint Extern 2 (_ <= FILE_ENCRYPTED_CHUNK_SIZE) => (consts; len) : safe.

(** Prove that a sequence of operations is safe. *)
Ltac safe :=
  repeat first
    [ progress intros
    | solve [eauto with safe]
    | apply safe_bind; [|solve [closed]|]
    | progress cbv beta iota zeta
    | case_match ].

(** ** Names received from a client *)

Lemma c_str_is_Some buf : x00 ∈ buf -> is_Some (c_str buf).
Proof.
  induction buf as [|b buf IH]; simpl; [by intros ?%elem_of_nil|].
  intros [<-|H]%elem_of_cons; [by rewrite bool_decide_eq_true_2|].
  case_bool_decide; [done|]. destruct (IH H) as [s ->]. eauto.
Qed.

Lemma elem_of_overwrite x buf data n :
  (length data <= n)%nat -> x ∈ drop n buf -> x ∈ overwrite buf data.
Proof.
  intros Hl Hx. unfold overwrite. apply elem_of_app. right.
  replace n with (length data + (n - length data))%nat in Hx by lia.
  rewrite <- drop_drop in Hx. rewrite <- (take_drop (n - length data) (drop _ buf)).
  apply elem_of_app. by right.
Qed.

Section safe_session.
Context {SO : Sodium} {EN : Env} {SL : SodiumLaws SO} {EL : EnvLaws EN}.

Lemma safe_reader : safe SessionEncWrapper_reader.
Proof. unfold SessionEncWrapper_reader. safe. Qed.

Lemma safe_recv_raw_blob cap l : safe (recv_raw_blob cap l).
Proof. unfold recv_raw_blob. safe. Qed.

Lemma safe_send_raw_blob d : safe (send_raw_blob d).
Proof. unfold send_raw_blob. safe. Qed.

Lemma reader_returns_wf s : tree_returns SessionEncWrapper_reader s -> reader_wf s.
Proof. intros (w & w' & _ & H). by eapply reader_reader_wf. Qed.

(** The name a reader has unwrapped is a C string when the buffer has a NUL
    behind the capacity. *)
Lemma unwrapped_c_str s rx cap buf l0 rc s' buf' l' :
  reader_wf s -> 0 <= cap <= blen buf -> unwrap s rx cap buf l0 = (rc, s', buf', l') -> rc = 0 ->
  x00 ∈ drop (Z.to_nat cap) buf -> is_Some (c_str buf').
Proof.
  intros Hs Hcap Hu Hrc Hx. destruct (unwrap_length _ _ _ _ _ _ _ _ _ Hs (proj2 Hcap) Hu) as [_ H].
  destruct (H Hrc) as (Hl & m & -> & Hm).
  apply c_str_is_Some, (elem_of_overwrite _ _ _ (Z.to_nat cap)); [|done]. unfold blen in *. lia.
Qed.

#[local] Hint Resolve safe_reader safe_recv_raw_blob safe_send_raw_blob : safe.

Lemma safe_receive_notice op : safe (receive_notice_of_new_action op).
Proof. unfold receive_notice_of_new_action. safe. Qed.

Lemma safe_read_intent op : safe (read_intent op).
Proof. unfold read_intent. safe. Qed.

Lemma zeros_nul k n : (k < n)%nat -> x00 ∈ drop k (replicate n x00).
Proof.
  intros Hk. rewrite drop_replicate. destruct (n - k)%nat eqn:E; [lia|]. by left.
Qed.

(** [DFFS_Handler__Server]: the name buffer is zeroed and longer than the
    capacity. *)
Lemma safe_DFFS op : in_base (user_dir op) -> safe (DFFS_Handler__Server op).
Proof.
  intros Hb. unfold DFFS_Handler__Server.
  apply safe_bind; [safe|closed|]. intros nonce _.
  apply safe_bind; [safe|closed|]. intros s Hs%reader_returns_wf.
  destruct (is_corrupted s); [safe|].
  destruct (unwrap _ _ _ _ _) as [[[rc s'] buf] l] eqn:Hu.
  destruct (Z.eqb_spec rc 0) as [Hrc|]; cbn [negb]; [|safe].
  apply safe_bind; [apply safe_defined|closed|].
  { eapply unwrapped_c_str; [done| |done|done|].
    - unfold blen. rewrite length_replicate. consts; lia.
    - apply zeros_nul. consts; lia. }
  intros name _. apply safe_bind; [safe| |safe].
  by apply closed_remove, in_base_app.
Qed.

(** [LFFS_Handler__Server]: the names in a directory are short. *)
Lemma list_dir_names p l : tree_returns (list_dir p) l -> Forall (fun n => blen n <= NAME_MAX) l.
Proof.
  intros (w & w' & [_ Hn] & H). unfold list_dir, fs_call in H.
  destruct (directory_entries (w_fs w) p) as [names|] eqn:E; [|done]. injection H as <- <-.
  unfold directory_entries in E. apply fmap_Some in E as (d & _ & ->).
  rewrite dir_order_perm. apply Forall_forall. intros c.
  intros [n [_ ?]%Hn]%elem_of_children. done.
Qed.

Lemma safe_LFFS_loop op names :
  Forall (fun n => blen n <= NAME_MAX) names -> forall nonce, safe (LFFS_loop op names nonce).
Proof.
  induction 1 as [|n names Hn _ IH]; intros nonce; cbn [LFFS_loop]; [safe|].
  unfold NAME_MAX in Hn. safe.
Qed.

Lemma safe_LFFS op : safe (LFFS_Handler__Server op).
Proof.
  unfold LFFS_Handler__Server. apply safe_bind; [unfold list_dir; safe|closed|]. intros names _.
  apply safe_bind; [safe|closed|]. intros n1 _. apply safe_bind; [safe|closed|]. intros n2 _.
  apply safe_bind; [unfold list_dir; safe|closed|]. intros names' Hn%list_dir_names.
  apply safe_bind; [by apply safe_LFFS_loop|closed|]. safe.
Qed.

Lemma safe_RFFS_loop fuel : forall op file nonce, safe (RFFS_loop fuel op file nonce).
Proof. induction fuel as [|fuel IH]; intros op file nonce; cbn [RFFS_loop]; safe. Qed.

Lemma safe_WTFS_loop fuel : forall op prefix, safe (WTFS_loop fuel op prefix).
Proof.
  induction fuel as [|fuel IH]; intros op prefix; cbn [WTFS_loop]; safe.
Qed.

#[local] Hint Resolve safe_RFFS_loop safe_WTFS_loop : safe.

Context {CA : Calm EN}.

Lemma length_ifstream_read n f : (length (fst (ifstream_read n f)) <= n)%nat.
Proof. unfold ifstream_read. repeat case_match; simpl; try lia. rewrite length_take. lia. Qed.

(** [RFFS_Handler__Server] relies on its uninitialised name buffer. *)
Lemma safe_RFFS op : safe (RFFS_Handler__Server op).
Proof.
  unfold RFFS_Handler__Server.
  apply safe_bind; [safe|closed|]. intros nonce _.
  apply safe_bind; [safe|closed|]. intros s Hs%reader_returns_wf.
  destruct (is_corrupted s); [safe|].
  destruct (unwrap _ _ _ _ _) as [[[rc s'] buf] l] eqn:Hu.
  destruct (Z.eqb_spec rc 0) as [Hrc|]; cbn [negb]; [|safe].
  apply safe_bind; [apply safe_defined|closed|].
  { eapply unwrapped_c_str; [done| |done|done|].
    - unfold blen. rewrite length_indet. consts; lia.
    - apply nul_in_name_buf. consts; lia. }
  intros name _. apply safe_bind; [safe|closed|]. intros file _. destruct (if_fail file); [safe|].
  destruct (ifstream_read _ file) as [hb file1] eqn:E1.
  pose proof (length_ifstream_read crypto_secretstream_xchacha20poly1305_HEADERBYTES file) as H1.
  rewrite E1 in H1. simpl in H1.
  apply safe_bind; [apply safe_wrap_and_send|closed|].
  { unfold blen. rewrite length_overwrite; rewrite length_indet; consts; lia. }
  intros n1 _. destruct (ifstream_read _ file1) as [sb file2] eqn:E2.
  pose proof (length_ifstream_read crypto_pwhash_SALTBYTES file1) as H2.
  rewrite E2 in H2. simpl in H2.
  apply safe_bind; [apply safe_wrap_and_send|closed|]; [|safe].
  unfold blen. rewrite length_overwrite; rewrite length_indet; consts; lia.
Qed.

(** [init_read] stores the NUL inside the buffer: behind the name, or at 0 for a
    message that was rejected. *)
Lemma name_length_in_range s rx buf rc s' buf' l' :
  reject_reports_zero SO -> reader_wf s -> is_corrupted s = false ->
  length buf = Z.to_nat FILE_ENCRYPTED_CHUNK_SIZE ->
  unwrap s rx PRE_EXT_FILE_NAME_LEN buf (indet_ull "decrypted_file_name_length")
    = (rc, s', buf', l') -> rc <> 2 -> rc <> 3 ->
  u64 (l' + blen ext) <= MAX_FILE_NAME_LENGTH -> 0 <= l' < blen buf'.
Proof.
  intros Hz Hs Hc Hb Hu Hrc Hrc3 Hl.
  assert (PRE_EXT_FILE_NAME_LEN <= blen buf) as Hcap by (unfold blen; rewrite Hb; consts; lia).
  destruct (unwrap_length _ _ _ _ _ _ _ _ _ Hs Hcap Hu) as [Hlen H0].
  unfold blen. rewrite Hlen, Hb. destruct Hs as [Ht _]. unfold is_corrupted in Hc.
  unfold unwrap in Hu. rewrite Ht, Hc, bool_decide_eq_false_2 in Hu by (intros H; by apply H).
  destruct (stream_chunk_size <? _); [by injection Hu as <- <- <- <-|].
  destruct (_ <? _); [by injection Hu as <- <- <- <-|].
  destruct (aead_decrypt _ _ _) as [m|].
  - injection Hu as <- <- <- <-. destruct (H0 eq_refl) as [? _]. consts; lia.
  - pose proof (Hz rx (sew_nonce s) (session_encrypted_data s)) as Hr.
    destruct (aead_reject _ _ _) as [m ml]. simpl in Hr. subst ml.
    injection Hu as <- <- <- <-. consts; lia.
Qed.

Lemma store_byte_is_Some buf i b : 0 <= i < blen buf -> is_Some (store_byte buf i b).
Proof.
  intros Hi. unfold store_byte. rewrite (proj2 (Z.leb_le _ _)), (proj2 (Z.ltb_lt _ _)) by lia. done.
Qed.

Lemma store_byte_elem buf i b buf' : store_byte buf i b = Some buf' -> b ∈ buf'.
Proof.
  unfold store_byte. destruct (Z.leb_spec 0 i), (Z.ltb_spec i (blen buf)); try done.
  intros [= <-]. apply list_elem_of_lookup. exists (Z.to_nat i). apply list_lookup_insert_eq.
  unfold blen in *. lia.
Qed.

Lemma indet_name_c_str n :
  (Z.to_nat PRE_EXT_FILE_NAME_LEN < n)%nat -> is_Some (c_str (indet "file_name_buf" n)).
Proof.
  intros Hn. apply c_str_is_Some. rewrite <- (take_drop (Z.to_nat PRE_EXT_FILE_NAME_LEN)).
  apply elem_of_app. right. by apply nul_in_name_buf.
Qed.

Lemma safe_init_read op h s :
  reject_reports_zero SO ->
  safe (init_read op (indet "file_name_buf" (Z.to_nat FILE_ENCRYPTED_CHUNK_SIZE)) h s).
Proof.
  intros Hz. unfold init_read. apply safe_bind; [safe|closed|]. intros s1 _.
  destruct (unwrap s1 _ _ _ _) as [[[rc1 ?] ce] ?]. destruct (negb _); [safe|].
  apply safe_bind; [safe|closed|]. intros _ _. case_bool_decide.
  { apply safe_bind; [|closed|safe]. apply safe_defined, indet_name_c_str. consts; lia. }
  apply safe_bind; [safe|closed|]. intros s2 Hs2%reader_returns_wf.
  destruct (is_corrupted s2) eqn:Hc; [safe|].
  destruct (unwrap s2 _ _ _ _) as [[[rc2 ?] buf] l] eqn:Hu.
  destruct (Z.eqb_spec rc2 2); [safe|].
  apply safe_bind; [safe|closed|]. intros u (w & w' & _ & Hi).
  destruct (Z.eqb_spec rc2 3); [done|].
  destruct (Z.ltb_spec MAX_FILE_NAME_LENGTH (u64 (l + blen ext))); [safe|].
  apply safe_bind; [|closed|safe]. apply safe_defined, store_byte_is_Some.
  eapply name_length_in_range; eauto. by rewrite length_indet.
Qed.

Lemma init_read_name op b h s :
  post (fun r => fst (fst (fst r)) = 0 -> is_Some (c_str (snd (fst (fst r))))) (init_read op b h s).
Proof.
  assert (forall rc b h s, rc <> 0 ->
    post (fun r => fst (fst (fst r)) = 0 -> is_Some (c_str (snd (fst (fst r)))))
      (mret (rc, b, h, s) : IO (Z * bytes * bytes * bytes))) as Herr.
  { intros. by apply post_ret. }
  unfold init_read. post; try by apply Herr.
  apply post_ret. intros _. simpl. apply c_str_is_Some.
  match goal with H : returns (defined (store_byte _ _ _)) ?v |- _ => destruct H as (w & w' & Hst) end.
  destruct (store_byte _ _ _) eqn:E; [|done]. unfold defined, mret, M_ret in Hst. injection Hst as <- <-. by eapply store_byte_elem.
Qed.

Lemma safe_WTFS op : reject_reports_zero SO -> safe (WTFS_Handler__Server op).
Proof.
  intros Hz. unfold WTFS_Handler__Server. apply safe_bind; [by apply safe_init_read|closed|].
  intros [[[rc buf] h] s] (w & w' & _ & Hr). destruct (Z.eqb_spec rc 0) as [->|]; cbn [negb]; [|safe].
  apply safe_bind; [|closed|safe]. apply safe_defined.
  by apply (init_read_name _ _ _ _ _ (ex_intro _ w (ex_intro _ w' Hr))).
Qed.

Lemma safe_dispatch i op : reject_reports_zero SO -> in_base (user_dir op) -> safe (dispatch i op).
Proof.
  intros Hz Hb. unfold dispatch. repeat (destruct (_ =? _)); [| | | |safe];
    (apply safe_bind; [|closed|safe]); auto using safe_RFFS, safe_WTFS, safe_LFFS, safe_DFFS.
Qed.


End safe_session.

(** ** Variables that nothing has written *)

Section unwritten.
Context {SO : Sodium} {EN : Env} {SL : SodiumLaws SO} {EL : EnvLaws EN}.

(** On every working connection, [m] uses an unwritten variable. *)
Definition uses_unwritten {A} (m : IO A) (a : aworld) : Prop :=
  forall w, repr w a -> m w = Undefined Indeterminate.

Lemma unwritten_bind_l {A B} (m : IO A) (f : A -> IO B) a :
  uses_unwritten m a -> uses_unwritten (m ≫= f) a.
Proof. intros Hm w Hw. unfold mbind, M_bind. by rewrite (Hm w Hw). Qed.

Lemma unwritten_bind_r {A B} (m : IO A) (f : A -> IO B) a v a1 :
  runs m a v a1 -> uses_unwritten (f v) a1 -> uses_unwritten (m ≫= f) a.
Proof.
  intros Hm Hf w Hw. destruct (Hm w Hw) as (w1 & E & Hw1).
  rewrite (bind_Ok _ _ _ _ _ E). by apply Hf.
Qed.

Lemma uninitialised_unwritten {B} b (f : unit -> IO B) a :
  b = false -> uses_unwritten (initialised b ≫= f) a.
Proof. intros -> . by apply unwritten_bind_l. Qed.

Lemma short_notice_unwritten op m nonce a rest :
  blen m < sizeof_int -> length nonce = crypto_aead_chacha20poly1305_NPUBBYTES ->
  a_in a = wire (server_rx op) nonce m ++ rest ->
  uses_unwritten (receive_notice_of_new_action op) a /\ uses_unwritten (read_intent op) a.
Proof.
  intros Hm Hn Ha.
  assert (blen m <= FILE_ENCRYPTED_CHUNK_SIZE) by (consts; lia).
  split; unfold receive_notice_of_new_action, read_intent;
    (eapply unwritten_bind_r; [by apply (runs_reader (server_rx op) nonce m)|]);
    rewrite not_corrupted_sealed, unwrap_sealed by (consts; lia); cbn [Z.eqb negb];
    apply uninitialised_unwritten; apply Z.leb_gt; lia.
Qed.

(** The announcement of an upload. *)
Definition upload_announced (op : FS_Operator) (nn un : bytes) : bytes :=
  wire (server_rx op) nn (int_encode NEW_ACTION)
    ++ wire (server_rx op) un (int_encode WRITE_TO_FILESYSTEM).

Lemma unwritten_upload fuel op nn un a rest :
  length nn = crypto_aead_chacha20poly1305_NPUBBYTES ->
  length un = crypto_aead_chacha20poly1305_NPUBBYTES ->
  a_in a = upload_announced op nn un ++ rest ->
  (forall b h s, uses_unwritten (init_read op b h s) (a_set_in rest a)) ->
  uses_unwritten (conn_loop (S fuel) op) a.
Proof.
  intros Hn Hu Ha Hi. unfold upload_announced in Ha. rewrite <- app_assoc in Ha. cbn [conn_loop].
  eapply unwritten_bind_r; [by apply (notice_runs op NEW_ACTION nn)|]. rewrite Z.eqb_refl.
  cbn [Z.eqb negb].
  eapply unwritten_bind_r; [by apply (intent_runs op WRITE_TO_FILESYSTEM un)|]. rsimpl.
  apply unwritten_bind_l. unfold dispatch. cbn [Z.eqb]. do 2 apply unwritten_bind_l. apply Hi.
Qed.

(** C31: A logged-in client can make the server use variables that nothing has
    written.  The session loop has undefined behaviour of this kind, in every
    environment, on a notice or an intent shorter than an [int] (the [int] is
    left partly unwritten and compared all the same), on a confirmation that is
    one byte other than 0 and 1 (a [bool] that holds no [bool]), and on a file
    name whose message is shorter than its authentication tag ([unwrap] returns 3
    without writing the length, which [init_read] then uses as an index). *)
Theorem unwritten_variables_used (fuel : nat) (op : FS_Operator) (nn un fn tn m rest : bytes)
    (b : byte) (a : aworld) (w : world) :
  Forall (fun n => length n = crypto_aead_chacha20poly1305_NPUBBYTES) [nn; un; fn; tn] ->
  repr w a ->
  (blen m < sizeof_int -> a_in a = wire (server_rx op) nn m ++ rest ->
     conn_loop (S fuel) op w = Undefined Indeterminate) /\
  (blen m < sizeof_int ->
     a_in a = wire (server_rx op) nn (int_encode NEW_ACTION) ++ wire (server_rx op) un m ++ rest ->
     conn_loop (S fuel) op w = Undefined Indeterminate) /\
  (b <> x00 -> b <> x01 ->
     a_in a = upload_announced op nn un ++ wire (server_rx op) fn [b] ++ rest ->
     conn_loop (S fuel) op w = Undefined Indeterminate) /\
  (blen m < crypto_aead_chacha20poly1305_ABYTES ->
     a_in a = upload_announced op nn un ++ wire (server_rx op) fn [x01]
       ++ le_encode sizeof_ull (blen m) ++ tn ++ m ++ rest ->
     conn_loop (S fuel) op w = Undefined Indeterminate).
Proof.
  intros Hns Hw. rewrite !Forall_cons in Hns. destruct Hns as (Hnn & Hun & Hfn & Htn & _).
  split_and!.
  - intros Hm Ha. revert w Hw. cbn [conn_loop]. apply unwritten_bind_l.
    by apply (short_notice_unwritten op m nn a rest).
  - intros Hm Ha. revert w Hw. cbn [conn_loop].
    eapply unwritten_bind_r; [by apply (notice_runs op NEW_ACTION nn)|]. rewrite Z.eqb_refl.
    cbn [Z.eqb negb]. apply unwritten_bind_l. by eapply (short_notice_unwritten op m un).
  - intros Hb0 Hb1 Ha. revert w Hw. apply (unwritten_upload fuel op nn un a _ Hnn Hun Ha).
    intros buf h s. unfold init_read.
    eapply unwritten_bind_r; [by apply (runs_reader (server_rx op) fn [b])|].
    rewrite unwrap_sealed by (consts; len). cbn [Z.eqb negb]. apply uninitialised_unwritten.
    apply bool_decide_eq_false_2. intros [[= ?]|[= ?]]; done.
  - intros Hm Ha. revert w Hw. apply (unwritten_upload fuel op nn un a _ Hnn Hun Ha).
    intros buf h s. unfold init_read.
    eapply unwritten_bind_r; [by apply (runs_reader (server_rx op) fn [x01])|].
    rewrite unwrap_sealed by (consts; len). cbn [Z.eqb negb].
    eapply unwritten_bind_r; [apply runs_initialised, bool_decide_eq_true_2; by right|].
    rewrite bool_decide_eq_false_2 by done.
    eapply unwritten_bind_r; [by apply (runs_reader_raw m tn); [consts; lia|..]|].
    cbn [is_corrupted corrupted].
    assert (forall cap buf l0, unwrap (SEW false m tn (blen m) READER) (server_rx op) cap buf l0 =
      (3, SEW false m tn (blen m) READER, buf, l0)) as Hu.
    { intros cap buf' l0. unfold unwrap. cbn [enc_wrap_type corrupted session_encrypted_data_length].
      rewrite bool_decide_eq_false_2 by (intros H; by apply H).
      rewrite (proj2 (Z.ltb_lt _ _)); [done|]. pose proof (blen_nonneg m). unfold u64.
      rewrite <- (Z.mod_add _ 1) by lia. rewrite Z.mod_small; consts; lia. }
    rewrite Hu. cbn [Z.eqb negb]. by apply uninitialised_unwritten.
Qed.

End unwritten.

(** ** Before the login *)

Section overread.
Context {SO : Sodium} {EN : Env} {SL : SodiumLaws SO} {EL : EnvLaws EN}.

Lemma c_str_None buf : no_nul buf -> c_str buf = None.
Proof.
  induction 1 as [|b buf Hb _ IH]; simpl; [done|]. rewrite bool_decide_eq_false_2 by done.
  by rewrite IH.
Qed.

(** C30: A client that has not logged in can make the server read past a buffer:
    a user name message that fills the buffer of [verify_credentials] and holds
    no NUL is accepted by [unwrap], and the conversion of the buffer to a string
    runs past its end; this happens in every environment and for every table. *)
Theorem unterminated_name_undefined (DB : database) (rx name nonce rest : bytes) (a : aworld)
    (w : world) :
  blen name = FILE_ENCRYPTED_CHUNK_SIZE -> no_nul name ->
  length nonce = crypto_aead_chacha20poly1305_NPUBBYTES ->
  a_in a = wire rx nonce name ++ rest -> repr w a ->
  verify_credentials DB rx w = Undefined OutOfBounds.
Proof.
  intros Hl Hn Hnonce Ha Hw. unfold verify_credentials.
  destruct (runs_reader rx nonce name rest a ltac:(lia) Hnonce Ha w Hw) as (w1 & E & _).
  rewrite (bind_Ok _ _ _ _ _ E), (unwrap_sealed rx nonce name) by lia.
  rewrite overwrite_full by (rewrite length_indet; unfold blen in Hl; lia).
  unfold mbind, M_bind. by rewrite c_str_None.
Qed.

End overread.

(** ** Concrete runs *)

Section safety_runs.
#[local] Existing Instances toy_sodium toy_sodium_laws toy_env toy_env_laws.

Lemma toy_env_calm : Calm toy_env.
Proof. split. intros n Hn. by apply zeros_nul. Qed.

(** The files of the demonstration server are a tree. *)
Lemma demo_user_fs_tree : tree_ok demo_user_fs.
Proof.
  split; [split; [vm_compute; reflexivity|]|].
  - assert (map_Forall (fun p _ => p <> [] /\ is_dir (fs_nodes demo_user_fs) (parent p) = true)
      (fs_nodes demo_user_fs)) as H
      by (refine (proj1 (bool_decide_eq_true _) _); vm_compute; reflexivity).
    intros p n Hp. exact (H p n Hp).
  - assert (map_Forall (fun p _ => valid_name (List.last p [])) (fs_nodes demo_user_fs)) as H
      by (refine (proj1 (bool_decide_eq_true _) _); vm_compute; reflexivity).
    intros d c n Hp. specialize (H _ n Hp). cbv beta in H. by rewrite last_last in H.
Qed.


(** An upload announced with the byte 2. *)
Lemma unwritten_variables_used_witness :
  let op := demo_op "ann" in
  let a := demo_server (upload_announced op demo_nonce demo_nonce
    ++ wire demo_key demo_nonce [x02] ++ []) in
  conn_loop 9 op (concretize a) = Undefined Indeterminate.
Proof.
  intros op a.
  destruct (unwritten_variables_used 8 op demo_nonce demo_nonce demo_nonce demo_nonce [] [] x02 a
    (concretize a)) as (_ & _ & H & _); [by repeat constructor|apply repr_concretize|].
  apply H; [discriminate|discriminate|reflexivity].
Defined.

Lemma unterminated_name_undefined_witness :
  let name := replicate (Z.to_nat FILE_ENCRYPTED_CHUNK_SIZE) x61 in
  let a := demo_aworld (wire demo_key demo_nonce name ++ []) [] in
  verify_credentials demo_db demo_key (concretize a) = Undefined OutOfBounds.
Proof.
  intros name a.
  apply (unterminated_name_undefined demo_db demo_key name demo_nonce [] a (concretize a)).
  - unfold name, blen. rewrite length_replicate. consts; lia.
  - apply Forall_replicate. discriminate.
  - reflexivity.
  - exact eq_refl.
  - apply repr_concretize.
Defined.

End safety_runs.
