(* ===== verification/Dialogue.v ===== *)
(** Two programs at the ends of a connection.

    [advances m a v a'] says that [m] can run with the input it has in [a],
    whatever comes after it.  A [dialogue] alternates such steps of a client and
    of a server, what one sends being appended to what the other has received:
    nobody is ever made to wait for bytes that have not been sent.  Dialogues
    compose like the programs do ([dialogue_bind]), and the programs of a
    dialogue run on the byte streams it exchanges ([dialogue_sound]). *)

From S2P Require Import Prelude Sodium Constants Fs Terminal World.

Section dialogue.
Context {SO : Sodium}.

(** More input arrives. *)
Definition arrive (d : bytes) (a : aworld) : aworld := a_set_in (a_in a ++ d) a.

Definition advances {A} (m : IO A) (a : aworld) (v : A) (a' : aworld) : Prop :=
  forall rest, runs m (arrive rest a) v (arrive rest a').

Inductive dialogue {A B} :
    IO A -> aworld -> IO B -> aworld -> A -> aworld -> B -> aworld -> Prop :=
  | dialogue_done mc c ms s v u :
      (forall w, mc w = Ok v w) -> (forall w, ms w = Ok u w) ->
      dialogue mc c ms s v c u s
  | dialogue_client {X} (m : IO X) k mc c x c1 d ms s v c' u s' :
      (forall w, mc w = (m ≫= k) w) ->
      advances m c x c1 -> a_out c1 = a_out c ++ d ->
      dialogue (k x) c1 ms (arrive d s) v c' u s' ->
      dialogue mc c ms s v c' u s'
  | dialogue_server {X} (m : IO X) k mc c x s1 d ms s v c' u s' :
      (forall w, ms w = (m ≫= k) w) ->
      advances m s x s1 -> a_out s1 = a_out s ++ d ->
      dialogue mc (arrive d c) (k x) s1 v c' u s' ->
      dialogue mc c ms s v c' u s'.

(** ** Composition *)

Lemma dialogue_ext {A B} (mc mc' : IO A) (ms ms' : IO B) c s v c' u s' :
  dialogue mc c ms s v c' u s' -> (forall w, mc' w = mc w) -> (forall w, ms' w = ms w) ->
  dialogue mc' c ms' s v c' u s'.
Proof.
  intros D. revert mc' ms'.
  induction D as [mc c ms s v u Hc Hs|X m k mc c x c1 d ms s v c' u s' Hc Hadv Hd D IH
    |X m k mc c x s1 d ms s v c' u s' Hs Hadv Hd D IH]; intros mc' ms' Ec Es.
  - apply dialogue_done; intros w; by rewrite ?Ec, ?Es.
  - apply (dialogue_client m k _ _ x c1 d); [intros w; by rewrite Ec|done..|by apply IH].
  - apply (dialogue_server m k _ _ x s1 d); [intros w; by rewrite Es|done..|by apply IH].
Qed.

(** A first dialogue, followed by one of what both sides do next. *)
Lemma dialogue_bind {A B A' B'} (mc : IO A) (ms : IO B) (kc : A -> IO A') (ks : B -> IO B')
    c s v c1 u s1 v' c2 u' s2 :
  dialogue mc c ms s v c1 u s1 -> dialogue (kc v) c1 (ks u) s1 v' c2 u' s2 ->
  dialogue (mc ≫= kc) c (ms ≫= ks) s v' c2 u' s2.
Proof.
  intros D. induction D as [mc c ms s v u Hc Hs|X m k mc c x c1 d ms s v c' u s' Hc Hadv Hd D IH
    |X m k mc c x s1 d ms s v c' u s' Hs Hadv Hd D IH]; intros Hk.
  - eapply dialogue_ext; [exact Hk|..]; intros w; unfold mbind, M_bind; by rewrite ?Hc, ?Hs.
  - apply (dialogue_client m (fun x => k x ≫= kc) _ _ x c1 d); [|done..|by apply IH].
    intros w. rewrite <- bind_assoc. unfold mbind at 1, M_bind at 1. by rewrite Hc.
  - apply (dialogue_server m (fun x => k x ≫= ks) _ _ x s1 d); [|done..|by apply IH].
    intros w. rewrite <- bind_assoc. unfold mbind at 1, M_bind at 1. by rewrite Hs.
Qed.

(** One step of either side. *)
Lemma dialogue_step_client {A B X} (m : IO X) (k : X -> IO A) (ms : IO B) c x c1 d s v c' u s' :
  advances m c x c1 -> a_out c1 = a_out c ++ d ->
  dialogue (k x) c1 ms (arrive d s) v c' u s' ->
  dialogue (m ≫= k) c ms s v c' u s'.
Proof. intros. by eapply dialogue_client. Qed.

Lemma dialogue_step_server {A B X} (m : IO X) (k : X -> IO B) (mc : IO A) c x s1 d s v c' u s' :
  advances m s x s1 -> a_out s1 = a_out s ++ d ->
  dialogue mc (arrive d c) (k x) s1 v c' u s' ->
  dialogue mc c (m ≫= k) s v c' u s'.
Proof. intros. by eapply dialogue_server. Qed.

(** ** Soundness *)

Lemma arrive_arrive d e a : arrive e (arrive d a) = arrive (d ++ e) a.
Proof. unfold arrive. simpl. by rewrite app_assoc. Qed.

Lemma runs_ext {A} (m m' : IO A) a v a' :
  (forall w, m' w = m w) -> runs m a v a' -> runs m' a v a'.
Proof. intros E H w Hw. rewrite E. by apply H. Qed.

(** The streams of a dialogue, and that each side runs on what the other one
    sent, whatever follows. *)
Lemma dialogue_sound {A B} (mc : IO A) (ms : IO B) c s v c' u s' :
  dialogue mc c ms s v c' u s' ->
  exists up down,
    a_out c' = a_out c ++ up /\ a_out s' = a_out s ++ down /\
    forall rest,
      runs mc (arrive (down ++ rest) c) v (arrive rest c') /\
      runs ms (arrive (up ++ rest) s) u (arrive rest s').
Proof.
  induction 1 as [mc c ms s v u Hc Hs|X m k mc c x c1 d ms s v c' u s' Hc Hadv Hd D IH
    |X m k mc c x s1 d ms s v c' u s' Hs Hadv Hd D IH].
  - exists [], []. rewrite !app_nil_r. split_and!; [done..|]. intros rest. simpl.
    split; intros w Hw; exists w; by rewrite ?Hc, ?Hs.
  - destruct IH as (up & down & Hup & Hdown & Hr). exists (d ++ up), down.
    split_and!; [by rewrite Hup, Hd, app_assoc|done|]. intros rest.
    destruct (Hr rest) as [Hrc Hrs]. rewrite arrive_arrive, app_assoc in Hrs. split; [|done].
    eapply runs_ext; [exact Hc|]. eapply runs_bind; [apply Hadv|done].
  - destruct IH as (up & down & Hup & Hdown & Hr). exists up, (d ++ down).
    split_and!; [done|by rewrite Hdown, Hd, app_assoc|]. intros rest.
    destruct (Hr rest) as [Hrc Hrs]. rewrite arrive_arrive, app_assoc in Hrc. split; [done|].
    eapply runs_ext; [exact Hs|]. eapply runs_bind; [apply Hadv|done].
Qed.

(** What a program does to a state that already has all its input. *)
Lemma advances_runs {A} (m : IO A) a v a' : advances m a v a' -> runs m a v a'.
Proof.
  intros H. specialize (H []). unfold arrive in H. rewrite !app_nil_r in H. by destruct a, a'.
Qed.

End dialogue.
