(* ===== verification/Store.v ===== *)
(** Sessions as operations on a store.

    What a user sees of MEFSC is two collections of files, the local ones and
    the stored ones, and four actions on them.  [store] and [store_step] are this
    view; [represents] relates it to the file systems of both ends, where every
    stored file is an encryption of its content under the user's password.  The
    theorems say that the programs implement it: for any sequence of actions
    typed at the client's terminal, [authed_comms] on the client and the session
    loop of [handle_conn] on the server hold a dialogue that leaves the store
    the actions lead to, and prints what they report. *)

From S2P Require Import Prelude Sodium Constants Fs Terminal World Net SessionEnc TwoSlotBuffer Transfer FSOperator Agents Closed Progress Client EndToEnd Auth Connection Tree Dialogue.

(** ** The abstract store *)

Inductive action :=
  | Upload (name : bytes)
  | Download (name : bytes)
  | Listing
  | Delete (name : bytes).

Record store := Store {
  local : gmap bytes bytes;      (* the client's files *)
  remote : gmap bytes bytes      (* the stored files, without the extension *)
}.

(** Uploading or deleting a file there is not changes nothing; [None] for the
    download of one, which the server does not answer. *)
Definition store_step (σ : store) (a : action) : option store :=
  match a with
  | Upload n =>
      Some (match local σ !! n with
            | Some data => Store (local σ) (<[n := data]> (remote σ))
            | None => σ
            end)
  | Download n => data ← remote σ !! n; Some (Store (<[n := data]> (local σ)) (remote σ))
  | Listing => Some σ
  | Delete n => Some (Store (local σ) (delete n (remote σ)))
  end.

(** What the client prints for an action. *)
Definition report (σ : store) (a : action) (lines : list bytes) : Prop :=
  match a with
  | Upload _ => lines = [str "enter file name to send to server:" ++ [x0a]]
  | Download _ =>
      lines = [str "enter file name to grab from server (ends in .enc extension): "; [x0a]]
  | Listing =>
      exists names, names ≡ₚ (fun n => n ++ ext) <$> elements (dom (remote σ)) /\
        lines = [x0a :: str "--- Stored Files (" ++ print_int (Z.of_nat (length names))
                   ++ str ") ---" ++ [x0a]]
          ++ map list_line names ++ [str "--------------------------" ++ [x0a]]
  | Delete n =>
      lines = [str "enter file name to delete (ends in .enc): ";
               if decide (is_Some (remote σ !! n)) then str "deleted successfully" ++ [x0a]
               else str "failed to delete (file may not exist)" ++ [x0a]]
  end.

Definition menu : bytes :=
  str "enter your intention (1 == read || 2 == write || 3 == list files || 4 == delete file)"
    ++ [x0a].
Definition again : bytes := str "perform another action? ".

(** A sequence of actions and what is printed on the way. *)
Inductive store_runs : store -> list action -> list bytes -> store -> Prop :=
  | store_runs_nil σ : store_runs σ [] [] σ
  | store_runs_cons σ a σ1 acts lines more σ' :
      store_step σ a = Some σ1 -> report σ a lines -> store_runs σ1 acts more σ' ->
      store_runs σ (a :: acts) (menu :: lines ++ again :: more) σ'.

(** Where the actions lead. *)
Fixpoint store_steps (σ : store) (acts : list action) : option store :=
  match acts with
  | [] => Some σ
  | a :: acts' => σ1 ← store_step σ a; store_steps σ1 acts'
  end.

Lemma store_step_size σ a σ1 :
  store_step σ a = Some σ1 -> (size (remote σ1) <= S (size (remote σ)))%nat.
Proof.
  destruct a as [n|n| |n]; simpl; intros H.
  - injection H as <-. destruct (local σ !! n); simpl; [|lia]. rewrite map_size_insert.
    destruct (remote σ !! n); unfold id; lia.
  - apply bind_Some in H as (data & _ & [= <-]). simpl. lia.
  - injection H as <-. lia.
  - injection H as <-. simpl. rewrite map_size_delete. destruct (remote σ !! n); unfold id; lia.
Qed.

(** ** What the user types *)

Definition spaces (s : bytes) : Prop := Forall (fun b => isspace b = true) s.

(** The names an action can use: typed as one word, plain, and short enough to
    be fetched with their extension. *)
Definition action_ok (a : action) : Prop :=
  match a with
  | Upload n | Download n | Delete n => file_name_ok n /\ blen n <= 245
  | Listing => True
  end.

Definition choice (a : action) : byte :=
  match a with Download _ => x31 | Upload _ => x32 | Listing => x33 | Delete _ => x34 end.

(** What is typed after the number: nothing, or a name on its own. *)
Inductive types_name : action -> bytes -> Prop :=
  | types_upload n sp : spaces sp -> sp <> [] -> types_name (Upload n) (sp ++ n)
  | types_download n sp : spaces sp -> sp <> [] -> types_name (Download n) (sp ++ n ++ ext)
  | types_delete n sp : spaces sp -> sp <> [] -> types_name (Delete n) (sp ++ n ++ ext)
  | types_listing : types_name Listing [].

(** A whole session: each action is followed by an answer to [again]. *)
Inductive types_session : list action -> bytes -> Prop :=
  | types_last a sp1 t sp2 b trail :
      spaces sp1 -> types_name a t -> spaces sp2 -> sp2 <> [] ->
      isspace b = false -> b <> x79 -> b <> x59 ->
      types_session [a] (sp1 ++ choice a :: t ++ sp2 ++ b :: trail)
  | types_more a sp1 t sp2 b acts text :
      spaces sp1 -> types_name a t -> spaces sp2 -> sp2 <> [] ->
      b = x79 \/ b = x59 -> types_session acts text ->
      types_session (a :: acts) (sp1 ++ choice a :: t ++ sp2 ++ b :: text).

(** ** Reading it *)

Lemma isdigit_plain b : isdigit b = true -> isspace b = false /\ b <> x2d /\ b <> x2b.
Proof. destruct b; intros H; try discriminate H; done. Qed.

Lemma isspace_not_digit b : isspace b = true -> isdigit b = false.
Proof. destruct b; intros H; try discriminate H; done. Qed.

Lemma get_int_digit sp b rest :
  spaces sp -> isdigit b = true -> word_end rest ->
  get_int (Cin (sp ++ b :: rest) false false) =
    (Some (byte_to_Z b - 48), Cin rest (is_nil rest) false).
Proof.
  intros Hsp Hb Hr. destruct (isdigit_plain b Hb) as (Hs & H1 & H2).
  unfold get_int, sentry. cbn [cin_good cin_eof cin_fail orb negb cin_rest].
  rewrite skip_spaces_app by done. cbn [skip_spaces]. rewrite Hs.
  rewrite !bool_decide_eq_false_2 by done.
  change (b :: rest) with ([b] ++ rest). rewrite span_stop; [|by repeat constructor|].
  2: { destruct rest as [|r rest]; [done|]. by apply isspace_not_digit. }
  cbn [is_nil digits_value fold_left orb].
  unfold isdigit in Hb. apply andb_prop in Hb as [Hb1%Z.leb_le Hb2%Z.leb_le].
  rewrite (proj2 (Z.ltb_ge _ _)), (proj2 (Z.leb_gt _ _)) by lia. cbn [orb]. do 2 f_equal. lia.
Qed.

Section typing.
Context {SO : Sodium} {EN : Env}.

Lemma runs_get_int sp b rest a :
  a_stdin a = Cin (sp ++ b :: rest) false false -> spaces sp -> isdigit b = true ->
  word_end rest ->
  runs (get_stuff get_int) a (byte_to_Z b - 48) (a_set_stdin (Cin rest (is_nil rest) false) a).
Proof.
  intros Ha Hsp Hb Hr w Hw. exists (read_stdin (Cin rest (is_nil rest) false) w).
  split; [|by destruct Hw; split]. unfold get_stuff, get_fuel. rewrite (repr_stdin _ _ Hw), Ha.
  cbn [get_stuff_loop]. by rewrite get_int_digit.
Qed.

Lemma runs_cin_char sp b rest v0 a :
  a_stdin a = Cin (sp ++ b :: rest) false false -> spaces sp -> isspace b = false ->
  runs (cin_read get_char v0) a b (a_set_stdin (Cin rest false false) a).
Proof.
  intros Ha Hsp Hb w Hw. exists (read_stdin (Cin rest false false) w).
  split; [|by destruct Hw; split]. unfold cin_read, get_char, sentry.
  rewrite (repr_stdin _ _ Hw), Ha. cbn [cin_good cin_eof cin_fail orb negb cin_rest].
  rewrite skip_spaces_app by done. cbn [skip_spaces]. by rewrite Hb.
Qed.

End typing.

(** ** How the file systems represent a store *)

Section represents.
Context {SO : Sodium}.

(** [enc] is what an upload of [data] leaves on the server. *)
Definition encrypts (password data enc : bytes) : Prop :=
  exists salt key r st header r' cs,
    length salt = crypto_pwhash_SALTBYTES /\
    pwhash crypto_box_SEEDBYTES password salt = Some key /\
    ss_init_push r key = (st, header, r') /\
    chunks (Z.to_nat CHUNK_SIZE) data cs /\
    enc = header ++ salt ++ concat (push_all st cs).

(** [fc] is the client's file system, [fs'] the server's, [d] the directory of
    the user. *)
Record represents (password dir : bytes) (d : path) (fc fs' : fs) (σ : store) : Prop := {
  rep_local n : file_name_ok n -> blen n <= 245 ->
    fs_nodes fc !! (fs_cwd fc ++ [n]) = NFile <$> local σ !! n;
  rep_dir : resolve_dir fs' dir = Some d;
  rep_stored n data : remote σ !! n = Some data ->
    exists enc, has_file fs' (d ++ [n ++ ext]) enc /\ encrypts password data enc;
  rep_only e node : fs_nodes fs' !! (d ++ [e]) = Some node ->
    exists n, e = n ++ ext /\ is_Some (remote σ !! n);
  rep_names n : is_Some (remote σ !! n) -> file_name_ok n /\ blen n <= 245
}.

End represents.

(** Directories are found as before when a file is written or removed. *)
Lemma is_dir_insert_file m p c q :
  m !! p <> Some NDir -> is_dir (<[p := NFile c]> m) q = is_dir m q.
Proof.
  intros Hp. unfold is_dir. destruct q as [|b q]; [done|].
  destruct (decide (p = b :: q)) as [->|]; [|by rewrite lookup_insert_ne].
  rewrite lookup_insert_eq. by destruct (m !! (b :: q)) as [[]|].
Qed.

Lemma is_dir_delete_file m p q : m !! p <> Some NDir -> is_dir (delete p m) q = is_dir m q.
Proof.
  intros Hp. unfold is_dir. destruct q as [|b q]; [done|].
  destruct (decide (p = b :: q)) as [->|]; [|by rewrite lookup_delete_ne].
  rewrite lookup_delete_eq. by destruct (m !! (b :: q)) as [[]|].
Qed.

Lemma walk_is_dir_ext m m' cur cs :
  (forall q, is_dir m' q = is_dir m q) -> walk m' cur cs = walk m cur cs.
Proof.
  intros H. revert cur. induction cs as [|c cs IH]; intros cur; simpl; [done|].
  repeat case_bool_decide; auto. rewrite H. destruct (is_dir _ _); auto.
Qed.

Lemma resolve_dir_stored f p c dir :
  fs_nodes f !! p <> Some NDir -> resolve_dir (stored f p c) dir = resolve_dir f dir.
Proof. intros Hp. apply walk_is_dir_ext. intros q. by apply is_dir_insert_file. Qed.

Lemma resolve_dir_removed f p dir :
  fs_nodes f !! p <> Some NDir ->
  resolve_dir (set_nodes f (delete p (fs_nodes f))) dir = resolve_dir f dir.
Proof. intros Hp. apply walk_is_dir_ext. intros q. by apply is_dir_delete_file. Qed.

Lemma snoc_inj {A} (d : list A) x y : d ++ [x] = d ++ [y] -> x = y.
Proof. intros H. by apply app_inj_tail in H as [_ H]. Qed.

Section represents_lemmas.
Context {SO : Sodium} (password dir : bytes) (d : path) (fc fs' : fs) (σ : store)
  (REP : represents password dir d fc fs' σ).

(** The node of a stored name. *)
Lemma rep_node n :
  match remote σ !! n with
  | Some data => exists enc, has_file fs' (d ++ [n ++ ext]) enc /\ encrypts password data enc
  | None => fs_nodes fs' !! (d ++ [n ++ ext]) = None
  end.
Proof.
  destruct (remote σ !! n) as [data|] eqn:E; [by eapply rep_stored|].
  destruct (fs_nodes fs' !! (d ++ [n ++ ext])) as [node|] eqn:En; [|done].
  apply (rep_only _ _ _ _ _ _ REP) in En as (n' & Hn & Hs). apply app_inv_tail in Hn as <-.
  rewrite E in Hs. by destruct Hs.
Qed.

Lemma rep_not_dir n : fs_nodes fs' !! (d ++ [n ++ ext]) <> Some NDir.
Proof.
  pose proof (rep_node n) as H. destruct (remote σ !! n); [|congruence].
  destruct H as (enc & H & _). unfold has_file in H. congruence.
Qed.

Lemma rep_local_not_dir n :
  file_name_ok n -> blen n <= 245 -> fs_nodes fc !! (fs_cwd fc ++ [n]) <> Some NDir.
Proof.
  intros Hn Hl. rewrite (rep_local _ _ _ _ _ _ REP) by done. by destruct (local σ !! n).
Qed.

(** The names in the user's directory. *)
Lemma rep_children :
  children (fs_nodes fs') d ≡ₚ (fun n => n ++ ext) <$> elements (dom (remote σ)).
Proof.
  apply NoDup_Permutation.
  - unfold children. apply NoDup_omap; [apply NoDup_map_to_list|].
    intros [p1 x1] [p2 x2] c H1%elem_of_map_to_list H2%elem_of_map_to_list Hc1 Hc2.
    unfold child_name in *. simpl in *.
    case_bool_decide as E1; [|done]. case_bool_decide as E2; [|done].
    injection Hc1 as Hc1. injection Hc2 as Hc2. congruence.
  - apply NoDup_fmap; [|apply NoDup_elements]. intros x y. apply app_inv_tail.
  - intros e. rewrite elem_of_children, list_elem_of_fmap. split.
    + intros [node (n & -> & Hn)%(rep_only _ _ _ _ _ _ REP)]. exists n. split; [done|].
      by apply elem_of_elements, elem_of_dom.
    + intros (n & -> & [data Hn]%elem_of_elements%elem_of_dom).
      apply (rep_stored _ _ _ _ _ _ REP) in Hn as (enc & Hf & _). by eexists.
Qed.

(** *** After each action *)

Lemma rep_upload n data enc :
  file_name_ok n -> blen n <= 245 -> encrypts password data enc ->
  represents password dir d fc (stored fs' (d ++ [n ++ ext]) enc)
    (Store (local σ) (<[n := data]> (remote σ))).
Proof.
  intros Hn Hl He. pose proof (rep_not_dir n) as Hnd. split; simpl.
  - apply REP.
  - rewrite resolve_dir_stored by done. apply REP.
  - intros n' data' [[<- <-]|[Hne Hs]]%lookup_insert_Some.
    + exists enc. split; [apply lookup_insert_eq|done].
    + apply (rep_stored _ _ _ _ _ _ REP) in Hs as (enc' & Hf & He'). exists enc'. split; [|done].
      unfold has_file. simpl. rewrite lookup_insert_ne; [done|].
      by intros ?%snoc_inj%app_inv_tail.
  - intros e node [[He1%snoc_inj _]|[_ (n' & -> & Hs)%(rep_only _ _ _ _ _ _ REP)]]%lookup_insert_Some.
    + exists n. rewrite lookup_insert_eq. by subst.
    + exists n'. split; [done|]. by apply lookup_insert_is_Some'; right.
  - intros n' [->|Hs]%lookup_insert_is_Some'; [done|]. by apply (rep_names _ _ _ _ _ _ REP).
Qed.

Lemma rep_download n data :
  file_name_ok n -> blen n <= 245 ->
  represents password dir d (stored fc (fs_cwd fc ++ [n]) data) fs'
    (Store (<[n := data]> (local σ)) (remote σ)).
Proof.
  intros Hn Hl. split; simpl; try apply REP. intros n' Hn' Hl'.
  destruct (decide (n = n')) as [<-|Hne]; [by rewrite !lookup_insert_eq|].
  rewrite !lookup_insert_ne by (done || by intros ?%snoc_inj). by apply REP.
Qed.

Lemma rep_delete n :
  represents password dir d fc
    (set_nodes fs' (delete (d ++ [n ++ ext]) (fs_nodes fs')))
    (Store (local σ) (delete n (remote σ))).
Proof.
  pose proof (rep_not_dir n) as Hnd. split; simpl.
  - apply REP.
  - rewrite resolve_dir_removed by done. apply REP.
  - intros n' data' [Hne Hs]%lookup_delete_Some.
    apply (rep_stored _ _ _ _ _ _ REP) in Hs as (enc' & Hf & He'). exists enc'. split; [|done].
    unfold has_file. simpl. rewrite lookup_delete_ne; [done|]. by intros ?%snoc_inj%app_inv_tail.
  - intros e node [Hne (n' & -> & Hs)%(rep_only _ _ _ _ _ _ REP)]%lookup_delete_Some.
    exists n'. split; [done|]. rewrite lookup_delete_ne; [done|]. by intros ->.
  - intros n' [_ Hs]%lookup_delete_is_Some. by apply (rep_names _ _ _ _ _ _ REP).
Qed.

End represents_lemmas.

(** ** Each action as a dialogue *)

Section actions.
Context {SO : Sodium} {EN : Env} {SL : SodiumLaws SO} {EL : EnvLaws EN}.

(** What an action leaves: the file systems, the rest of the input, the lines
    printed, and no byte in either direction. *)
Record leaves (c : aworld) (fc fs' : fs) (trail : bytes) (lines : list bytes) (c' s' : aworld)
    : Prop := {
  leaves_fc : a_fs c' = fc;
  leaves_fs : a_fs s' = fs';
  leaves_stdin : a_stdin c' = Cin trail (is_nil trail) false;
  leaves_stdout : a_stdout c' = a_stdout c ++ lines;
  leaves_in_c : a_in c' = [];
  leaves_in_s : a_in s' = []
}.

Lemma arrive_nil a : arrive [] a = a.
Proof. unfold arrive. rewrite app_nil_r. by destruct a. Qed.

Lemma bind_mret {A} (m : IO A) w : m w = (m ≫= mret) w.
Proof. unfold mbind, M_bind. by destruct (m w). Qed.

(** The client speaks, then the server answers or just takes note. *)
Lemma dialogue_one_way {A B} (mc : IO A) (ms : IO B) c s v c1 up u s' :
  advances mc c v c1 -> a_out c1 = a_out c ++ up ->
  advances ms (arrive up s) u s' -> a_out s' = a_out s ->
  dialogue mc c ms s v c1 u s'.
Proof.
  intros Hc Hup Hs Ho. apply (dialogue_client mc mret _ _ v c1 up); [apply bind_mret|done|done|].
  apply (dialogue_server ms mret _ _ u s' []); [apply bind_mret|done|by rewrite app_nil_r|].
  rewrite arrive_nil. by apply dialogue_done.
Qed.

(** The client asks, the server answers, and the client works through the
    answer. *)
Lemma dialogue_round {A B X} (m : IO X) (k : X -> IO A) mc (ms : IO B) c s x c1 req u s' ans v c' :
  (forall w, mc w = (m ≫= k) w) -> advances m c x c1 -> a_out c1 = a_out c ++ req ->
  advances ms (arrive req s) u s' -> a_out s' = a_out s ++ ans ->
  advances (k x) (arrive ans c1) v c' -> a_out c' = a_out c1 ->
  dialogue mc c ms s v c' u s'.
Proof.
  intros E Hm Hreq Hs Hans Hk Ho. apply (dialogue_client m k _ _ x c1 req); [done..|].
  apply (dialogue_server ms mret _ _ u s' ans); [apply bind_mret|done|done|].
  apply (dialogue_client (k x) mret _ _ v c' []); [apply bind_mret|done|by rewrite app_nil_r|].
  rewrite arrive_nil. by apply dialogue_done.
Qed.

(** The handler of the client, its result dropped. *)
Definition handler (CA : Comms_Agent) (SA : Sender_Agent) (RA : Receiver_Agent) (password : bytes)
    (a : action) : IO unit :=
  match a with
  | Download _ => _ ← RFFS_Handler CA RA password; mret tt
  | Upload _ => _ ← WTFS_Handler CA SA password; mret tt
  | Listing => _ ← LFFS_Handler CA; mret tt
  | Delete _ => _ ← DFFS_Handler CA; mret tt
  end.

Definition intent (a : action) : Z :=
  match a with
  | Download _ => READ_FROM_FILESYSTEM
  | Upload _ => WRITE_TO_FILESYSTEM
  | Listing => LIST_FILES
  | Delete _ => DELETE_FILE
  end.

(** *** The two halves of a handler that waits for an answer *)

Definition ask_download (CA : Comms_Agent) (RA : Receiver_Agent) : IO (bytes * bytes) :=
  _ ← print (str "enter file name to grab from server (ends in .enc extension): ");
  file_name ← cin_read get_string [];
  _ ← print [x0a];
  nonce ← wrap_and_send (file_name ++ [x00]) (get_client_tx CA) (get_nonce RA);
  mret (file_name, nonce).

Definition take_download (CA : Comms_Agent) (RA : Receiver_Agent) (password : bytes)
    (r : bytes * bytes) : IO unit :=
  let '(file_name, nonce) := r in
  let RA := ReceiverAgent nonce (ra_size RA) (ra_key RA) in
  let n := u64 (blen file_name - 4) in
  if 2 ^ 63 <=? n then throw length_error else
  file ← open_out (take (Z.to_nat n) file_name);
  _ ← decrypt_and_read_from_server CA RA file password;
  mret tt.

Lemma download_halves CA SA RA password n w :
  handler CA SA RA password (Download n) w = (ask_download CA RA ≫= take_download CA RA password) w.
Proof.
  cbn [handler]. unfold RFFS_Handler, ask_download.
  do 4 (rewrite !bind_assoc; apply bind_ext; intros ? ? _). rewrite bind_ret_l. unfold take_download.
  destruct (_ <=? _); [done|]. rewrite bind_assoc. apply bind_ext. intros ? ? _.
  rewrite bind_assoc. by apply bind_ext.
Qed.

Definition ask_delete (CA : Comms_Agent) : IO unit :=
  _ ← print (str "enter file name to delete (ends in .enc): ");
  file_name ← cin_read get_string [];
  nonce ← randombytes crypto_aead_chacha20poly1305_NPUBBYTES;
  _ ← wrap_and_send (file_name ++ [x00]) (get_client_tx CA) nonce;
  mret tt.

Definition take_delete (CA : Comms_Agent) (_ : unit) : IO unit :=
  result_wrap ← SessionEncWrapper_reader;
  if is_corrupted result_wrap then mret tt else
  let '(rc, _, result, decrypted_len) :=
    unwrap result_wrap (get_client_rx CA) sizeof_int (indet "result" 4)
      (indet_ull "decrypted_len") in
  if negb (rc =? 0) then mret tt else
  _ ← initialised (sizeof_int <=? decrypted_len);
  _ ← print (if int_decode result =? ACK_SUC then str "deleted successfully" ++ [x0a]
             else str "failed to delete (file may not exist)" ++ [x0a]);
  mret tt.

Lemma delete_halves CA SA RA password n w :
  handler CA SA RA password (Delete n) w = (ask_delete CA ≫= take_delete CA) w.
Proof.
  cbn [handler]. unfold DFFS_Handler, ask_delete.
  do 4 (rewrite !bind_assoc; apply bind_ext; intros ? ? _). rewrite bind_ret_l. unfold take_delete.
  rewrite bind_assoc. apply bind_ext. intros s w1 _. destruct (is_corrupted s); [done|].
  destruct (unwrap _ _ _ _ _) as [[[rc ?] ?] ?]. destruct (negb _); [done|].
  do 2 (rewrite bind_assoc; apply bind_ext; intros ? ? _). done.
Qed.

Context (CA : Comms_Agent) (op : FS_Operator) (password : bytes) (d : path).
Context (Hkeys : keys_match CA op) (Hdir : dir_string (user_dir op)).

Lemma upload_dialogue SA RA c s sp n trail data :
  (forall salt, is_Some (pwhash crypto_box_SEEDBYTES password salt)) ->
  length (sa_nonce SA) = crypto_aead_chacha20poly1305_NPUBBYTES ->
  file_name_ok n -> blen n <= 245 -> has_file (a_fs c) (fs_cwd (a_fs c) ++ [n]) data ->
  resolve_dir (a_fs s) (user_dir op) = Some d ->
  fs_nodes (a_fs s) !! (d ++ [n ++ ext]) <> Some NDir ->
  a_stdin c = Cin (sp ++ n ++ trail) false false -> spaces sp -> word_end trail ->
  a_in c = [] -> a_in s = [] ->
  exists enc c' s',
    dialogue (handler CA SA RA password (Upload n)) c (dispatch WRITE_TO_FILESYSTEM op) s
      tt c' op s' /\
    encrypts password data enc /\
    leaves c (a_fs c) (stored (a_fs s) (d ++ [n ++ ext]) enc) trail
      [str "enter file name to send to server:" ++ [x0a]] c' s'.
Proof.
  intros Hpw Hn Hname Hlen Hfile Hres Hnd Hin Hsp Ht Hc Hs.
  destruct Hkeys as [Hk _]. destruct Hname as (Hword & Hnul & Hplain).
  destruct (chunks_exist (Z.to_nat CHUNK_SIZE) data) as [cs Hcs]; [consts; lia|].
  destruct (randombytes_buf (a_rng c) crypto_pwhash_SALTBYTES) as [salt r1] eqn:Esalt.
  destruct (Hpw salt) as [key Hkey].
  destruct (ss_init_push r1 key) as [[st header] r2] eqn:Epush.
  pose proof (ss_init_sync _ _ _ _ _ Epush) as [Hlh _].
  pose proof (length_randombytes (a_rng c) crypto_pwhash_SALTBYTES) as Hls.
  rewrite Esalt in Hls. cbn [fst] in Hls.
  assert (ifstream_open (a_fs c) n = IFStream false data false false 0) as Hopen.
  { unfold ifstream_open. rewrite locate_cwd by done. unfold has_file in Hfile. by rewrite Hfile. }
  pose proof (push_all_chunks st data cs Hcs) as Hecs.
  set (up := upload_stream (client_tx CA) (sa_nonce SA) n header salt (push_all st cs)).
  set (enc := header ++ salt ++ concat (push_all st cs)).
  set (line := str "enter file name to send to server:" ++ [x0a]).
  exists enc, (a_set_rng r2 (a_set_out (a_out c ++ up) (a_set_stdin (Cin trail (is_nil trail) false)
    (a_set_stdout (a_stdout c ++ [line]) c)))), (a_set_fs (stored (a_fs s) (d ++ [n ++ ext]) enc) s).
  split; [|split; [by exists salt, key, r1, st, header, r2, cs|by split]].
  apply (dialogue_one_way _ _ _ _ _ _ up); [|done| |done].
  - intros rest. cbn [handler].
    destruct (WTFS_Handler_runs CA SA password sp n trail data cs salt r1 key st header r2
      (arrive rest c)) as [SA' Hup]; auto; [consts; lia|].
    eapply runs_bind; [exact Hup|]. apply runs_ret.
  - intros rest. unfold dispatch. cbn [Z.eqb]. eapply runs_bind; [|apply runs_ret].
    eapply runs_conv; [apply (WTFS_runs op n header salt (push_all st cs) (sa_nonce SA) d
      (arrive rest (arrive up s)) rest)| |]; auto.
    + consts; lia.
    + apply Hplain.
    + by eapply push_all_nonempty, chunks_nonempty.
    + eapply Forall_impl; [by eapply chunks_bound|]. intros e He. unfold blen. cbv beta in He.
      consts; lia.
    + unfold arrive, up. simpl. by rewrite Hs, Hk.
    + unfold arrive. simpl. by rewrite Hs.
Qed.

Lemma missing_upload_dialogue SA RA c s sp n trail :
  length (sa_nonce SA) = crypto_aead_chacha20poly1305_NPUBBYTES ->
  is_Some (c_str (indet "file_name_buf" (Z.to_nat FILE_ENCRYPTED_CHUNK_SIZE))) ->
  file_name_ok n -> fs_nodes (a_fs c) !! (fs_cwd (a_fs c) ++ [n]) = None ->
  a_stdin c = Cin (sp ++ n ++ trail) false false -> spaces sp -> word_end trail ->
  a_in c = [] -> a_in s = [] ->
  exists c' s',
    dialogue (handler CA SA RA password (Upload n)) c (dispatch WRITE_TO_FILESYSTEM op) s
      tt c' op s' /\
    leaves c (a_fs c) (a_fs s) trail [str "enter file name to send to server:" ++ [x0a]] c' s'.
Proof.
  intros Hn Hjunk (Hword & Hnul & Hplain) Hnone Hin Hsp Ht Hc Hs. destruct Hkeys as [Hk _].
  assert (if_fail (ifstream_open (a_fs c) n) = true) as Hfail.
  { unfold ifstream_open. rewrite locate_cwd by done. by rewrite Hnone. }
  destruct (WTFS_Handler_missing CA SA password sp n trail c) as (r & SA' & Hr); [done..|].
  exists (a_set_out (a_out c ++ wire (client_tx CA) (sa_nonce SA) [x00]) (a_set_rng r
    (a_set_stdin (Cin trail (is_nil trail) false) (a_set_stdout
      (a_stdout c ++ [str "enter file name to send to server:" ++ [x0a]]) c)))), s.
  split.
  - apply (dialogue_one_way _ _ _ _ _ _ (wire (client_tx CA) (sa_nonce SA) [x00]) op s); [|reflexivity| |done].
    + intros rest. cbn [handler]. eapply runs_bind; [apply Hr|].
      apply runs_ret.
    + intros rest. unfold dispatch. cbn [Z.eqb]. eapply runs_bind; [|apply runs_ret].
      eapply runs_conv; [apply (WTFS_Server_missing op (sa_nonce SA) _ rest); [done|done|]|done|];
        unfold arrive; cbn [a_in a_set_in]; by rewrite Hs, ?Hk.
  - by split.
Qed.

Lemma download_dialogue SA RA c s sp n trail data enc :
  length (ra_nonce RA) = crypto_aead_chacha20poly1305_NPUBBYTES ->
  file_name_ok n -> blen n <= 245 -> encrypts password data enc ->
  resolve_dir (a_fs s) (user_dir op) = Some d -> has_file (a_fs s) (d ++ [n ++ ext]) enc ->
  fs_nodes (a_fs c) !! (fs_cwd (a_fs c) ++ [n]) <> Some NDir ->
  a_stdin c = Cin (sp ++ (n ++ ext) ++ trail) false false -> spaces sp -> word_end trail ->
  a_in c = [] -> a_in s = [] ->
  exists c' op' s',
    dialogue (handler CA SA RA password (Download n)) c (dispatch READ_FROM_FILESYSTEM op) s
      tt c' op' s' /\
    (exists nonce, op' = set_op_nonce nonce op) /\
    leaves c (stored (a_fs c) (fs_cwd (a_fs c) ++ [n]) data) (a_fs s) trail
      [str "enter file name to grab from server (ends in .enc extension): "; [x0a]] c' s'.
Proof.
  intros Hn (Hword & Hnul & Hplain) Hlen (salt & key & rp & st & header & rp' & cs & Hls & Hkey
    & Hpush & Hcs & ->) Hres Hf Hnd Hin Hsp Ht Hc Hs. destruct Hkeys as [Hk Hk'].
  assert (no_slash n) by apply Hplain.
  pose proof (push_all_chunks st data cs Hcs) as Hecs.
  pose proof (ss_init_sync _ _ _ _ _ Hpush) as [Hlh _].
  destruct (randombytes_buf (a_rng s) crypto_aead_chacha20poly1305_NPUBBYTES) as [nonce r] eqn:En.
  pose proof (length_randombytes (a_rng s) crypto_aead_chacha20poly1305_NPUBBYTES) as Hln.
  rewrite En in Hln. cbn [fst] in Hln.
  set (req := wire (client_tx CA) (ra_nonce RA) ((n ++ ext) ++ [x00])).
  set (ans := download_stream (server_tx op) nonce header salt (push_all st cs)).
  set (lines := [str "enter file name to grab from server (ends in .enc extension): "; [x0a]]).
  set (c1 := a_set_out (a_out c ++ req) (a_set_stdin (Cin trail (is_nil trail) false)
    (a_set_stdout (a_stdout c ++ lines) c))).
  set (op' := set_op_nonce (nonce_after (2 + length (push_all st cs)) nonce) op).
  exists (a_set_fs (stored (a_fs c) (fs_cwd (a_fs c) ++ [n]) data) c1), op',
    (a_set_rng r (a_set_out (a_out s ++ ans) s)).
  split; [|split; [by eexists|by split]].
  apply (dialogue_round (ask_download CA RA) (take_download CA RA password) _ _ _ _
    (n ++ ext, sodium_increment (ra_nonce RA)) c1 req _ _ ans);
    [apply download_halves| |done| |done| |done].
  - intros rest. unfold ask_download. eapply runs_bind; [apply runs_print|].
    eapply runs_bind; [by apply (runs_cin_string sp (n ++ ext) trail); auto using word_ext|].
    eapply runs_bind; [apply runs_print|].
    eapply runs_bind; [apply runs_wrap_and_send; consts; change (length ext) with 4%nat; len|].
    eapply runs_conv; [apply runs_ret|done|]. unfold c1, lines, arrive.
    unfold a_set_out, a_set_stdin, a_set_stdout, a_set_in.
    cbn [a_in a_out a_fs a_rng a_stdin a_stdout]. by rewrite <- (app_assoc (a_stdout c)).
  - intros rest. unfold dispatch. cbn [Z.eqb].
    pose proof (RFFS_runs op (n ++ ext) header salt (concat (push_all st cs)) (push_all st cs)
      (ra_nonce RA) d (arrive rest (arrive req s)) rest) as Hr.
    cbn [a_rng arrive a_set_in] in Hr. rewrite En in Hr.
    eapply runs_bind; [apply Hr|]; auto using no_nul_ext, plain_name_ext.
    + rewrite blen_app. change (blen ext) with 4. consts; lia.
    + unfold arrive, req. simpl. by rewrite Hs, Hk.
    + eapply runs_conv; [apply runs_ret|done|]. unfold arrive. simpl. by rewrite Hs.
  - intros rest. unfold take_download. rewrite blen_app. change (blen ext) with 4.
    pose proof (blen_nonneg n). rewrite Z.add_simpl_r, u64_small by lia.
    rewrite (proj2 (Z.leb_gt _ _)), to_nat_blen, take_app_length by lia.
    eapply runs_bind.
    { apply runs_open_out, ofstream_open_located; [by apply locate_cwd|unfold NAME_MAX; lia|done]. }
    eapply runs_bind; [apply (decrypt_and_read_runs CA _ _ password data cs salt key rp st
      header rp' nonce _ rest); auto|].
    { unfold arrive, ans, c1. simpl. by rewrite Hc, Hk'. }
    eapply runs_conv; [apply runs_ret|done|]. unfold arrive, c1. simpl. rewrite Hc.
    unfold ofstream_write. simpl. rewrite lookup_insert_eq. unfold stored, set_nodes. simpl.
    by rewrite insert_insert_eq.
Qed.

Lemma delete_dialogue SA RA c s sp n trail removed f' :
  file_name_ok n -> blen n <= 245 ->
  fs_remove (a_fs s) (user_dir op ++ n ++ ext) = Some (removed, f') ->
  a_stdin c = Cin (sp ++ (n ++ ext) ++ trail) false false -> spaces sp -> word_end trail ->
  a_in c = [] -> a_in s = [] ->
  exists c' op' s',
    dialogue (handler CA SA RA password (Delete n)) c (dispatch DELETE_FILE op) s tt c' op' s' /\
    (exists nonce, op' = set_op_nonce nonce op) /\
    leaves c (a_fs c) f' trail
      [str "enter file name to delete (ends in .enc): ";
       if removed : bool then str "deleted successfully" ++ [x0a]
       else str "failed to delete (file may not exist)" ++ [x0a]] c' s'.
Proof.
  intros (Hword & Hnul & Hplain) Hlen Hrm Hin Hsp Ht Hc Hs. destruct Hkeys as [Hk Hk'].
  destruct (randombytes_buf (a_rng c) crypto_aead_chacha20poly1305_NPUBBYTES) as [cn rc] eqn:Ec.
  destruct (randombytes_buf (a_rng s) crypto_aead_chacha20poly1305_NPUBBYTES) as [n0 r0] eqn:E0.
  destruct (randombytes_buf r0 crypto_aead_chacha20poly1305_NPUBBYTES) as [sn rs] eqn:Es.
  pose proof (length_randombytes (a_rng c) crypto_aead_chacha20poly1305_NPUBBYTES) as Hcn.
  pose proof (length_randombytes r0 crypto_aead_chacha20poly1305_NPUBBYTES) as Hsn.
  rewrite Ec in Hcn. rewrite Es in Hsn. cbn [fst] in Hcn, Hsn.
  set (req := wire (client_tx CA) cn ((n ++ ext) ++ [x00])).
  set (res := if removed : bool then ACK_SUC else ACK_FAIL).
  set (ans := wire (server_tx op) sn (int_encode res)).
  set (l1 := str "enter file name to delete (ends in .enc): ").
  set (l2 := if removed : bool then _ else _).
  set (c1 := a_set_out (a_out c ++ req) (a_set_rng rc (a_set_stdin (Cin trail (is_nil trail) false)
    (a_set_stdout (a_stdout c ++ [l1]) c)))).
  exists (a_set_stdout (a_stdout c ++ [l1; l2]) c1), (set_op_nonce (sodium_increment sn) op),
    (a_set_rng rs (a_set_fs f' (a_set_out (a_out s ++ ans) s))).
  split; [|split; [by eexists|by split]].
  apply (dialogue_round (ask_delete CA) (take_delete CA) _ _ _ _ tt c1 req _ _ ans);
    [apply delete_halves| |done| |done| |done].
  - intros rest. unfold ask_delete. eapply runs_bind; [apply runs_print|].
    eapply runs_bind; [by apply (runs_cin_string sp (n ++ ext) trail); auto using word_ext|].
    eapply runs_bind; [apply runs_randombytes|].
    cbn [a_rng arrive a_set_in a_set_stdin a_set_stdout]. rewrite Ec. cbn [fst snd].
    eapply runs_bind; [apply runs_wrap_and_send; consts; change (length ext) with 4%nat; len|].
    apply runs_ret.
  - intros rest. unfold dispatch. cbn [Z.eqb].
    pose proof (DFFS_runs op (n ++ ext) cn removed f' (arrive rest (arrive req s)) rest) as Hr.
    cbn [a_rng arrive a_set_in] in Hr. rewrite E0, Es in Hr.
    eapply runs_bind; [apply Hr|]; auto using no_nul_ext.
    + rewrite blen_app. change (blen ext) with 4. consts; lia.
    + unfold arrive, req. simpl. by rewrite Hs, Hk.
    + eapply runs_conv; [apply runs_ret|done|]. unfold arrive. simpl. by rewrite Hs.
  - intros rest. unfold take_delete.
    assert (a_in (arrive rest (arrive ans c1)) = wire (client_rx CA) sn (int_encode res) ++ rest)
      as Hin1.
    { unfold arrive, ans, c1. simpl. by rewrite Hc, Hk'. }
    read_message (client_rx CA) sn (int_encode res).
    eapply runs_bind; [apply runs_int_written|].
    rewrite overwrite_full by (by rewrite length_indet).
    rewrite int_decode_encode by (unfold res, ACK_SUC, ACK_FAIL; destruct removed; lia).
    eapply runs_bind; [apply runs_print|].
    replace (if res =? ACK_SUC then _ else _) with l2 by (unfold l2, res; by destruct removed).
    eapply runs_conv; [apply runs_ret|done|]. unfold arrive, c1. cbn [a_in a_out a_fs a_rng a_stdin
      a_stdout a_set_in a_set_out a_set_fs a_set_rng a_set_stdin a_set_stdout].
    by rewrite Hc, <- (app_assoc (a_stdout c)).
Qed.

Lemma listing_dialogue SA RA c s names trail :
  resolve_dir (a_fs s) (user_dir op) = Some d ->
  children (fs_nodes (a_fs s)) d ≡ₚ names ->
  Forall (fun n => no_nul n /\ blen n < MAX_FILE_NAME_LENGTH - 1) names ->
  Z.of_nat (length names) < 2 ^ 31 ->
  a_stdin c = Cin trail (is_nil trail) false -> a_in c = [] -> a_in s = [] ->
  exists names' c' op' s',
    names' ≡ₚ names /\
    dialogue (handler CA SA RA password Listing) c (dispatch LIST_FILES op) s tt c' op' s' /\
    (exists nonce, op' = set_op_nonce nonce op) /\
    leaves c (a_fs c) (a_fs s) trail
      ([x0a :: str "--- Stored Files (" ++ print_int (Z.of_nat (length names')) ++ str ") ---" ++ [x0a]]
         ++ map list_line names' ++ [str "--------------------------" ++ [x0a]]) c' s'.
Proof.
  intros Hres Hch Hl Hcount Hin Hc Hs. destruct Hkeys as [_ Hk].
  pose proof (dir_order_perm (children (fs_nodes (a_fs s)) d)) as Hperm. rewrite Hch in Hperm at 2.
  set (names' := dir_order (children (fs_nodes (a_fs s)) d)) in *.
  rewrite <- Hperm in Hl. rewrite <- (Permutation_length Hperm) in Hcount.
  pose proof (length_randombytes (a_rng s) crypto_aead_chacha20poly1305_NPUBBYTES) as Hln.
  destruct (randombytes_buf (a_rng s) _) as [nonce r] eqn:En. cbn [fst] in Hln.
  destruct (list_frames (server_tx op) names' r (sodium_increment nonce)) as [[bs r'] nonce'] eqn:E.
  set (count := int_encode (Z.of_nat (length names'))).
  set (ans := wire (server_tx op) nonce count ++ bs).
  set (lines := [x0a :: str "--- Stored Files (" ++ print_int (Z.of_nat (length names'))
      ++ str ") ---" ++ [x0a]] ++ map list_line names' ++ [str "--------------------------" ++ [x0a]]).
  exists names', (a_set_stdout (a_stdout c ++ lines) c), (set_op_nonce nonce' op),
    (a_set_rng r' (a_set_out (a_out s ++ ans) s)).
  split; [done|]. split; [|split; [by eexists|by split]].
  assert (user_dir op <> []) as Hne by (destruct Hdir as (x & ? & ->); by destruct x).
  apply (dialogue_round (mret tt) (fun _ => handler CA SA RA password Listing) _ _ _ _ tt c [] _ _ ans);
    [done|intros rest; apply runs_ret|by rewrite app_nil_r| |done| |done].
  - intros rest. rewrite arrive_nil. unfold dispatch. cbn [Z.eqb].
    pose proof (LFFS_runs op d (arrive rest s) Hne Hres) as Hr. cbv zeta in Hr.
    cbn [a_rng a_fs arrive a_set_in] in Hr. fold names' in Hr. rewrite En, E in Hr.
    eapply runs_bind; [apply Hr|apply runs_ret].
    eapply Forall_impl; [exact Hl|]. intros x [_ Hx]. unfold NAME_MAX. consts. lia.
  - intros rest. cbn [handler].
    assert (a_in (arrive rest (arrive ans c)) = wire (client_rx CA) nonce count ++ bs ++ rest) as Hin1.
    { unfold arrive, ans. cbn [a_in a_set_in]. by rewrite Hc, Hk, app_nil_l, <- (app_assoc (wire _ _ _)). }
    eapply runs_bind; [|apply runs_ret]. unfold LFFS_Handler.
    read_message (client_rx CA) nonce count. unfold count.
    eapply runs_bind; [apply runs_int_written|].
    rewrite overwrite_full by (by rewrite length_indet).
    rewrite int_decode_encode by lia. rewrite Nat2Z.id.
    eapply runs_bind; [apply runs_print|]. rewrite <- Hk in E.
    eapply runs_bind; [by eapply (LFFS_client_loop_runs CA names' _ _ _ _ _ _ rest Hl E)|].
    cbn [Z.eqb negb]. eapply runs_bind; [apply runs_print|].
    eapply runs_conv; [apply runs_ret|done|]. unfold arrive, lines.
    unfold a_set_in, a_set_stdout. cbn [a_in a_out a_fs a_rng a_stdin a_stdout].
    by rewrite Hc, <- !app_assoc.
Qed.

(** An upload of a file there is not prints the server's uninitialised name
    buffer, which must then hold a NUL. *)
Definition upload_defined (σ : store) (a : action) : Prop :=
  match a with
  | Upload n => is_Some (local σ !! n) \/
      is_Some (c_str (indet "file_name_buf" (Z.to_nat FILE_ENCRYPTED_CHUNK_SIZE)))
  | _ => True
  end.

(** Everything an action does, on both ends, follows the store. *)
Lemma action_dialogue SA RA a t trail σ σ1 c s :
  (forall salt, is_Some (pwhash crypto_box_SEEDBYTES password salt)) ->
  length (sa_nonce SA) = crypto_aead_chacha20poly1305_NPUBBYTES ->
  length (ra_nonce RA) = crypto_aead_chacha20poly1305_NPUBBYTES ->
  represents password (user_dir op) d (a_fs c) (a_fs s) σ -> store_step σ a = Some σ1 ->
  upload_defined σ a -> action_ok a -> types_name a t -> Z.of_nat (size (remote σ)) < 2 ^ 31 ->
  a_stdin c = Cin (t ++ trail) false false -> word_end trail -> trail <> [] ->
  a_in c = [] -> a_in s = [] ->
  exists lines c' op' s' fc fs',
    dialogue (handler CA SA RA password a) c (dispatch (intent a) op) s tt c' op' s' /\
    report σ a lines /\ (exists nonce, op' = set_op_nonce nonce op) /\
    leaves c fc fs' trail lines c' s' /\ represents password (user_dir op) d fc fs' σ1.
Proof.
  intros Hpw Hsa Hra REP Hstep Hdef Hok Ht Hsize Hin Htr Hne Hc Hs.
  pose proof (rep_dir _ _ _ _ _ _ REP) as Hres.
  destruct Ht as [n sp Hsp _|n sp Hsp _|n sp Hsp _|]; cbn [store_step] in Hstep;
    [destruct Hok as [Hn Hl]; rewrite <- app_assoc in Hin..|].
  - injection Hstep as <-. pose proof (rep_local _ _ _ _ _ _ REP n Hn Hl) as Hf.
    destruct (local σ !! n) as [data|] eqn:Hd.
    2: {
      destruct Hdef as [Hdef|Hdef]; [rewrite Hd in Hdef; by destruct Hdef|].
      destruct (missing_upload_dialogue SA RA c s sp n trail) as (c' & s' & D & L); try done.
      exists [str "enter file name to send to server:" ++ [x0a]], c', op, s'. do 2 eexists.
      split; [exact D|]. split; [done|]. split; [exists (op_nonce op); by destruct op|].
      by split; [exact L|]. }
    destruct (upload_dialogue SA RA c s sp n trail data) as (enc & c' & s' & D & He & L);
      try done; [by eapply rep_not_dir|].
    exists [str "enter file name to send to server:" ++ [x0a]], c', op, s'. do 2 eexists.
    split; [exact D|]. split; [done|]. split; [exists (op_nonce op); by destruct op|].
    split; [exact L|]. by apply rep_upload.
  - apply bind_Some in Hstep as (data & Hd & [= <-]).
    destruct (rep_stored _ _ _ _ _ _ REP _ _ Hd) as (enc & Hf & He).
    destruct (download_dialogue SA RA c s sp n trail data enc) as (c' & op' & s' & D & Hop & L);
      try done; [by eapply rep_local_not_dir|].
    do 6 eexists. split; [exact D|]. split; [done|]. split; [done|]. split; [exact L|].
    by apply rep_download.
  - injection Hstep as <-. pose proof (rep_node _ _ _ _ _ _ REP n) as Hnode.
    assert (locate (a_fs s) (user_dir op ++ n ++ ext) = TName d (n ++ ext)) as Hloc.
    { apply locate_plain; [done|done|]. apply plain_name_ext, Hn. }
    assert (exists removed f', fs_remove (a_fs s) (user_dir op ++ n ++ ext) = Some (removed, f') /\
      (if removed : bool then is_Some (remote σ !! n) else ~ is_Some (remote σ !! n)) /\
      represents password (user_dir op) d (a_fs c) f' (Store (local σ) (delete n (remote σ))))
      as (removed & f' & Hrm & Hrem & Hrep).
    { unfold fs_remove. rewrite Hloc. destruct (remote σ !! n) as [data|] eqn:E.
      - destruct Hnode as (enc & Hf & _). unfold has_file in Hf. rewrite Hf.
        exists true. eexists. split; [done|]. split; [done|]. by apply rep_delete.
      - rewrite Hnode, (proj2 (Z.ltb_ge _ _))
          by (rewrite blen_app; change (blen ext) with 4; unfold NAME_MAX; lia).
        exists false, (a_fs s). split; [done|]. split; [by intros [? ?]|].
        rewrite delete_id by done. by destruct σ. }
    destruct (delete_dialogue SA RA c s sp n trail removed f') as (c' & op' & s' & D & Hop & L);
      try done.
    do 6 eexists. split; [exact D|]. split; [|split; [done|split; [exact L|done]]].
    cbn [report]. destruct removed; [by rewrite decide_True|by rewrite decide_False].
  - injection Hstep as <-. pose proof (rep_children _ _ _ _ _ _ REP) as Hch.
    destruct (listing_dialogue SA RA c s _ trail Hres Hch)
      as (names & c' & op' & s' & Hp & D & Hop & L); try done.
    + apply Forall_fmap, Forall_forall. intros x Hx%elem_of_elements%elem_of_dom.
      apply (rep_names _ _ _ _ _ _ REP) in Hx as [(_ & Hnul & _) Hl]. unfold compose.
      split; [by apply no_nul_ext|]. rewrite blen_app. change (blen ext) with 4. consts; lia.
    + rewrite length_fmap. change (length (elements (dom (remote σ)))) with (size (dom (remote σ))).
      by rewrite size_dom.
    + rewrite Hin. by destruct trail.
    + do 6 eexists. split; [exact D|]. split; [by exists names|]. split; [done|].
      split; [exact L|done].
Qed.

End actions.

(** ** A whole session *)

Section session.
Context {SO : Sodium} {EN : Env} {SL : SodiumLaws SO} {EL : EnvLaws EN}.

(** A step of the client that sends nothing, inside a sequence. *)
Lemma dialogue_quiet {A B X Y} (m : IO X) (f : X -> IO Y) (k : Y -> IO A) (ms : IO B)
    c x c1 s v c' u s' :
  advances m c x c1 -> a_out c1 = a_out c ->
  dialogue (f x ≫= k) c1 ms s v c' u s' ->
  dialogue ((m ≫= f) ≫= k) c ms s v c' u s'.
Proof.
  intros Hm Ho D. apply (dialogue_client m (fun x => f x ≫= k) _ _ x c1 []);
    [apply bind_assoc|done|by rewrite app_nil_r|by rewrite arrive_nil].
Qed.

(** A step of the client that sends [d]. *)
Lemma dialogue_send {A B X Y} (m : IO X) (f : X -> IO Y) (k : Y -> IO A) (ms : IO B)
    c x c1 d s v c' u s' :
  advances m c x c1 -> a_out c1 = a_out c ++ d ->
  dialogue (f x ≫= k) c1 ms (arrive d s) v c' u s' ->
  dialogue ((m ≫= f) ≫= k) c ms s v c' u s'.
Proof.
  intros Hm Ho D. apply (dialogue_client m (fun x => f x ≫= k) _ _ x c1 d); [apply bind_assoc|done..].
Qed.

Lemma advances_print l c : advances (print l) c tt (a_set_stdout (a_stdout c ++ [l]) c).
Proof. intros rest. exact (runs_print l (arrive rest c)). Qed.

Lemma advances_get_int sp b rest c :
  a_stdin c = Cin (sp ++ b :: rest) false false -> spaces sp -> isdigit b = true ->
  word_end rest -> rest <> [] ->
  advances (get_stuff get_int) c (byte_to_Z b - 48) (a_set_stdin (Cin rest false false) c).
Proof.
  intros Hc Hsp Hb Hr Hne more. eapply runs_conv; [by apply (runs_get_int sp b rest)|done|].
  by destruct rest.
Qed.

Lemma advances_cin_char sp b rest v0 c :
  a_stdin c = Cin (sp ++ b :: rest) false false -> spaces sp -> isspace b = false ->
  advances (cin_read get_char v0) c b (a_set_stdin (Cin rest false false) c).
Proof. intros Hc Hsp Hb more. exact (runs_cin_char sp b rest v0 (arrive more c) Hc Hsp Hb). Qed.

Lemma advances_notify CA action nonce c :
  advances (notify_server_of_action CA action nonce) c (0, sodium_increment nonce)
    (a_set_out (a_out c ++ wire (client_tx CA) nonce (int_encode action)) c).
Proof.
  intros rest. unfold notify_server_of_action.
  eapply runs_bind; [apply runs_wrap_and_send; consts; len|]. apply runs_ret.
Qed.

Lemma advances_send_intention tx i nonce c :
  advances (send_intention tx i nonce) c (0, sodium_increment nonce)
    (a_set_out (a_out c ++ wire tx nonce (int_encode i)) c).
Proof.
  intros rest. unfold send_intention.
  eapply runs_bind; [apply runs_wrap_and_send; consts; len|]. apply runs_ret.
Qed.

(** The agents of an iteration, with their fresh nonces. *)
Lemma advances_Sender_Agent_new password c :
  exists SA r, length (sa_nonce SA) = crypto_aead_chacha20poly1305_NPUBBYTES /\
    advances (Sender_Agent_new password) c SA (a_set_rng r c).
Proof.
  pose proof (length_randombytes (a_rng c) crypto_aead_chacha20poly1305_NPUBBYTES) as Hn.
  destruct (randombytes_buf (a_rng c) _) as [nonce r1] eqn:E1.
  destruct (randombytes_buf r1 crypto_pwhash_SALTBYTES) as [salt r2] eqn:E2.
  set (SA0 := SenderAgent nonce (indet "Sender_Agent::buffer" (Z.to_nat FILE_ENCRYPTED_CHUNK_SIZE)) 0
    (indet "Sender_Agent::key" crypto_box_SEEDBYTES)
    (indet "Sender_Agent::salt" crypto_pwhash_SALTBYTES)).
  eexists (snd (match pwhash crypto_box_SEEDBYTES password salt with
     | None => (1, set_sa_crypto (pwhash_reject (sa_key SA0)) salt SA0)
     | Some key => (0, set_sa_crypto key salt SA0)
     end)), r2. split; [by destruct (pwhash _ _ _)|].
  intros rest. unfold Sender_Agent_new. eapply runs_bind; [apply runs_randombytes|].
  cbn [a_rng arrive a_set_in]. rewrite E1. cbn [fst snd]. fold SA0.
  eapply runs_bind; [by apply (set_crypto_runs SA0 password salt r2)|]. apply runs_ret.
Qed.

Lemma advances_Receiver_Agent_new c :
  exists RA r, length (ra_nonce RA) = crypto_aead_chacha20poly1305_NPUBBYTES /\
    advances Receiver_Agent_new c RA (a_set_rng r c).
Proof.
  pose proof (length_randombytes (a_rng c) crypto_aead_chacha20poly1305_NPUBBYTES) as Hn.
  destruct (randombytes_buf (a_rng c) _) as [nonce r1] eqn:E1.
  eexists (ReceiverAgent nonce 0 _), r1. split; [exact Hn|].
  intros rest. unfold Receiver_Agent_new. eapply runs_bind; [apply runs_randombytes|].
  cbn [a_rng arrive a_set_in]. rewrite E1. apply runs_ret.
Qed.

(** [perform] sends the intention and calls the handler. *)
Lemma perform_handler CA SA RA password a nonce w :
  perform CA SA RA (intent a) password nonce w =
    (r ← send_intention (get_client_tx CA) (intent a) nonce;
     _ ← handler CA SA RA password a;
     mret (snd r)) w.
Proof.
  destruct a; unfold perform; cbn; apply bind_ext; intros r w' _; by rewrite bind_assoc.
Qed.

Lemma perform_steps {Y} CA SA RA password a nonce (F : bytes -> IO Y) w :
  (perform CA SA RA (intent a) password nonce ≫= F) w =
    (r ← send_intention (get_client_tx CA) (intent a) nonce;
     _ ← handler CA SA RA password a;
     F (snd r)) w.
Proof.
  unfold mbind at 1, M_bind at 1. rewrite perform_handler.
  unfold mbind, M_bind. destruct (send_intention _ _ _ w) as [r w1| | |]; try done.
  by destruct (handler _ _ _ _ _ w1).
Qed.

(** The server takes the notice and the intention of an action. *)
Lemma server_takes_intent {A} (mc : IO A) CA op a nonce g c s v c' u s' :
  keys_match CA op -> length nonce = crypto_aead_chacha20poly1305_NPUBBYTES -> a_in s = [] ->
  dialogue mc c (dispatch (intent a) op ≫= conn_loop g) s v c' u s' ->
  dialogue mc c (conn_loop (S g) op)
    (arrive (wire (client_tx CA) (sodium_increment nonce) (int_encode (intent a)))
      (arrive (wire (client_tx CA) nonce (int_encode NEW_ACTION)) s)) v c' u s'.
Proof.
  intros [Hk _] Hn Hs D. cbn [conn_loop]. rewrite Hk.
  set (w2 := wire (server_rx op) (sodium_increment nonce) (int_encode (intent a))).
  set (w1 := wire (server_rx op) nonce (int_encode NEW_ACTION)).
  assert (- 2 ^ 31 <= intent a < 2 ^ 31) as Hi by (destruct a; done).
  eapply (dialogue_step_server _ _ _ _ 0 (arrive w2 s) []); [|by rewrite app_nil_r|].
  { intros rest. eapply runs_conv;
      [apply (notice_runs op NEW_ACTION nonce _ (w2 ++ rest)); [done|done|]|done|].
    - unfold arrive. cbn [a_in a_set_in]. by rewrite Hs, app_nil_l, <- (app_assoc w1).
    - unfold arrive. cbn [a_in a_set_in]. by rewrite Hs. }
  rewrite arrive_nil. cbn [Z.eqb negb].
  eapply (dialogue_step_server _ _ _ _ (intent a) s []); [|by rewrite app_nil_r|].
  { intros rest. eapply runs_conv;
      [apply (intent_runs op (intent a) (sodium_increment nonce) _ rest);
         [by rewrite length_increment|done|]|done|].
    - unfold arrive. cbn [a_in a_set_in]. by rewrite Hs.
    - unfold arrive. cbn [a_in a_set_in]. by rewrite Hs. }
  by rewrite arrive_nil, (proj2 (Z.eqb_neq _ _)) by (by destruct a).
Qed.

Definition goes_on (b : byte) : bool := bool_decide (b = x79) || bool_decide (b = x59).

Lemma choice_intent a : byte_to_Z (choice a) - 48 = intent a.
Proof. by destruct a. Qed.

Context (CA : Comms_Agent) (password : bytes) (d : path).
Context (Hpw : forall salt, is_Some (pwhash crypto_box_SEEDBYTES password salt)).

(** One iteration on both ends. *)
Lemma iteration_dialogue op a sp1 t sp2 b rest σ σ1 nonce pn c s :
  keys_match CA op -> dir_string (user_dir op) ->
  represents password (user_dir op) d (a_fs c) (a_fs s) σ -> store_step σ a = Some σ1 ->
  upload_defined σ a -> action_ok a -> types_name a t -> Z.of_nat (size (remote σ)) < 2 ^ 31 ->
  length nonce = crypto_aead_chacha20poly1305_NPUBBYTES ->
  a_stdin c = Cin (sp1 ++ choice a :: t ++ sp2 ++ b :: rest) false false ->
  spaces sp1 -> spaces sp2 -> sp2 <> [] -> isspace b = false -> a_in c = [] -> a_in s = [] ->
  exists lines c1 op1 s1,
    report σ a lines /\ (exists nonce, op1 = set_op_nonce nonce op) /\
    represents password (user_dir op) d (a_fs c1) (a_fs s1) σ1 /\
    a_stdin c1 = Cin rest false false /\ a_stdout c1 = a_stdout c ++ menu :: lines ++ [again] /\
    a_in c1 = [] /\ a_in s1 = [] /\
    forall X (k : option bytes -> IO X) fuel g v c2 u s2,
      let nonce1 := sodium_increment (sodium_increment nonce) in
      dialogue ((if goes_on b then authed_loop fuel CA password b nonce1
                 else mret (Some nonce1)) ≫= k) c1 (conn_loop g op1) s1 v c2 u s2 ->
      dialogue (authed_loop (S fuel) CA password pn nonce ≫= k) c (conn_loop (S g) op) s v c2 u s2.
Proof.
  intros Hkeys Hdir REP Hstep Hdef Hok Ht Hsize Hn Hin Hsp1 Hsp2 Hne Hb Hc Hs.
  assert (word_end (sp2 ++ b :: rest) /\ sp2 ++ b :: rest <> []) as [Hwe Htr].
  { destruct sp2; [done|]. apply Forall_cons in Hsp2 as [? _]. done. }
  assert (word_end (t ++ sp2 ++ b :: rest) /\ t ++ sp2 ++ b :: rest <> []) as [Hwe' Htr'].
  { destruct Ht as [? sp Hsp ?|? sp Hsp ?|? sp Hsp ?|]; [..|done];
      (destruct sp; [done|]; apply Forall_cons in Hsp as [? _]; done). }
  assert (is_nil (sp2 ++ b :: rest) = false) as Hnil by (by destruct sp2).
  set (ca := a_set_stdin (Cin (t ++ sp2 ++ b :: rest) false false)
    (a_set_stdout (a_stdout c ++ [menu])
      (a_set_out (a_out c ++ wire (client_tx CA) nonce (int_encode NEW_ACTION)) c))).
  destruct (advances_Sender_Agent_new password ca) as (SA & r1 & Hsa & HSA).
  destruct (advances_Receiver_Agent_new (a_set_rng r1 ca)) as (RA & r2 & Hra & HRA).
  set (cb := a_set_out (a_out ca ++ wire (client_tx CA) (sodium_increment nonce)
    (int_encode (intent a))) (a_set_rng r2 (a_set_rng r1 ca))).
  destruct (action_dialogue CA op password d Hkeys Hdir SA RA a t (sp2 ++ b :: rest) σ σ1 cb s)
    as (lines & c' & op' & s' & fc & fs' & D & Hrep & Hop & [L1 L2 L3 L4 L5 L6] & REP'); try done.
  rewrite Hnil in L3.
  exists lines, (a_set_stdin (Cin rest false false) (a_set_stdout (a_stdout c' ++ [again]) c')), op', s'.
  split; [done|]. split; [done|]. cbn [a_fs a_stdin a_stdout a_in a_set_stdin a_set_stdout].
  split; [by rewrite L1, L2|]. split; [done|].
  split; [rewrite L4; cbn [a_stdout cb ca a_set_out a_set_rng a_set_stdin a_set_stdout];
          by rewrite <- !app_assoc|].
  split; [done|]. split; [done|]. intros X k fuel g v c2 u s2 K.
  cbn [authed_loop].
  eapply dialogue_send; [apply advances_notify|reflexivity|]. cbn [Z.eqb negb].
  eapply dialogue_quiet; [apply advances_print|reflexivity|].
  eapply dialogue_quiet; [apply (advances_get_int sp1 (choice a) (t ++ sp2 ++ b :: rest));
    [exact Hin|done|by destruct a|done|done]|reflexivity|].
  eapply dialogue_quiet; [exact HSA|reflexivity|].
  eapply dialogue_quiet; [exact HRA|reflexivity|].
  rewrite choice_intent, (proj2 (Z.eqb_neq (intent a) CONFUSION)) by (by destruct a).
  eapply (dialogue_client _ _ _ _ _ cb); [|exact (advances_send_intention _ _ _ _)|reflexivity|].
  { intros w. rewrite bind_assoc. apply perform_steps. }
  eapply server_takes_intent; [done|done|done|].
  eapply dialogue_bind; [exact D|]. cbn [snd].
  eapply dialogue_quiet; [apply advances_print|reflexivity|].
  eapply dialogue_quiet; [apply (advances_cin_char sp2 b rest); [exact L3|done..]|reflexivity|].
  exact K.
Qed.

(** What the actions print is defined, all the way. *)
Fixpoint uploads_defined (σ : store) (acts : list action) : Prop :=
  match acts with
  | [] => True
  | a :: acts' => upload_defined σ a /\
      match store_step σ a with Some σ1 => uploads_defined σ1 acts' | None => True end
  end.

(** The loops of both ends, for a whole session; what follows them is left open. *)
Lemma loops_dialogue acts text : types_session acts text -> forall op σ σ' nonce pn c s,
  keys_match CA op -> dir_string (user_dir op) ->
  represents password (user_dir op) d (a_fs c) (a_fs s) σ -> store_steps σ acts = Some σ' ->
  uploads_defined σ acts -> Forall action_ok acts -> Z.of_nat (size (remote σ) + length acts) <= 2 ^ 31 ->
  length nonce = crypto_aead_chacha20poly1305_NPUBBYTES ->
  a_stdin c = Cin text false false -> a_in c = [] -> a_in s = [] ->
  exists lines nonce1 c1 op1 s1,
    store_runs σ acts lines σ' /\
    length nonce1 = crypto_aead_chacha20poly1305_NPUBBYTES /\
    (exists nonce, op1 = set_op_nonce nonce op) /\
    represents password (user_dir op) d (a_fs c1) (a_fs s1) σ' /\
    a_stdout c1 = a_stdout c ++ lines /\ a_in c1 = [] /\ a_in s1 = [] /\
    forall X (k : option bytes -> IO X) fuel g v c2 u s2,
      (length acts <= fuel)%nat ->
      dialogue (k (Some nonce1)) c1 (conn_loop g op1) s1 v c2 u s2 ->
      dialogue (authed_loop fuel CA password pn nonce ≫= k) c
        (conn_loop (length acts + g) op) s v c2 u s2.
Proof.
  induction 1 as [a sp1 t sp2 b trail Hsp1 Ht Hsp2 Hne Hb H1 H2
    |a sp1 t sp2 b acts text Hsp1 Ht Hsp2 Hne Hb Hty IH];
    intros op σ σ' nonce pn c s Hkeys Hdir REP Hsteps Hdef Hok Hsize Hn Hin Hc Hs;
    apply Forall_cons in Hok as [Hoka Hok]; cbn [store_steps] in Hsteps;
    apply bind_Some in Hsteps as (σ1 & Hstep & Hsteps); simpl length in Hsize;
    cbn [uploads_defined] in Hdef; rewrite Hstep in Hdef; destruct Hdef as [Hdefa Hdef].
  - injection Hsteps as <-.
    destruct (iteration_dialogue op a sp1 t sp2 b trail σ σ1 nonce pn c s)
      as (lines & c1 & op1 & s1 & Hr & Hop & REP1 & _ & Hout & Hc1 & Hs1 & K); try done; [lia|].
    exists (menu :: lines ++ [again]), (sodium_increment (sodium_increment nonce)), c1, op1, s1.
    split; [by eapply store_runs_cons; [| |constructor]|]. split; [by rewrite !length_increment|].
    split_and!; try done. intros X k [|fuel] g v c2 u s2 Hf D; [simpl in Hf; lia|].
    apply K. unfold goes_on. rewrite !bool_decide_eq_false_2 by done.
    by eapply dialogue_ext.
  - destruct (iteration_dialogue op a sp1 t sp2 b text σ σ1 nonce pn c s)
      as (lines & c1 & op1 & s1 & Hr & [no ->] & REP1 & Hin1 & Hout & Hc1 & Hs1 & K); try done;
      [lia|by destruct Hb as [->| ->]|].
    destruct (IH (set_op_nonce no op) σ1 σ' (sodium_increment (sodium_increment nonce)) b c1 s1)
      as (more & nonce1 & c2 & op2 & s2 & Hruns & Hn1 & Hop2 & REP2 & Hout2 & Hc2 & Hs2 & K2);
      try done; [apply store_step_size in Hstep; lia|by rewrite !length_increment|].
    exists (menu :: lines ++ again :: more), nonce1, c2, op2, s2.
    split; [by eapply store_runs_cons|]. split; [done|].
    split; [destruct Hop2 as [no2 ->]; by exists no2|].
    split; [done|]. split; [rewrite Hout2, Hout; by rewrite <- !app_assoc, <- !app_comm_cons, <- app_assoc|].
    split; [done|]. split; [done|]. intros X k [|fuel] g v c3 u s3 Hf D; [simpl in Hf; lia|].
    apply K. replace (goes_on b) with true by (destruct Hb as [->| ->]; done).
    apply K2; [simpl in Hf; lia|done].
Qed.

End session.

(** ** The refinement *)

Section refinement.
Context {SO : Sodium} {EN : Env} {SL : SodiumLaws SO} {EL : EnvLaws EN}.

Lemma types_session_length acts text : types_session acts text -> (length acts <= length text)%nat.
Proof. induction 1; simpl; rewrite !length_app; simpl; rewrite !length_app; simpl; lia. Qed.

Lemma advances_authed_fuel c :
  advances (gets authed_fuel) c (S (length (cin_rest (a_stdin c)))) c.
Proof.
  intros rest w Hw. exists w. split; [|done]. unfold gets, authed_fuel.
  by rewrite (repr_stdin _ _ Hw).
Qed.

(** The client says that it is done, and the server's loop ends. *)
Lemma goodbye_dialogue {A} CA op nonce (v : A) g c s :
  keys_match CA op -> length nonce = crypto_aead_chacha20poly1305_NPUBBYTES -> a_in s = [] ->
  dialogue (_ ← notify_server_of_action CA NO_ACTION nonce; mret v) c (conn_loop (S g) op) s
    v (a_set_out (a_out c ++ wire (client_tx CA) nonce (int_encode NO_ACTION)) c) op s.
Proof.
  intros [Hk _] Hn Hs. eapply dialogue_one_way; [|reflexivity| |done].
  - intros rest. eapply runs_bind; [apply advances_notify|apply runs_ret].
  - intros rest. eapply runs_conv; [apply (conn_loop_end g op nonce _ rest Hn)|done|];
      unfold arrive; cbn [a_in a_set_in]; by rewrite Hs, ?Hk.
Qed.

Lemma session_dialogue (password nonce text : bytes) (sock : Z) (op : FS_Operator)
    (d : path) (acts : list action) (σ σ' : store) (c s : aworld) :
  (forall salt, is_Some (pwhash crypto_box_SEEDBYTES password salt)) ->
  dir_string (user_dir op) ->
  represents password (user_dir op) d (a_fs c) (a_fs s) σ -> store_steps σ acts = Some σ' ->
  uploads_defined σ acts -> types_session acts text -> Forall action_ok acts ->
  Z.of_nat (size (remote σ) + length acts) <= 2 ^ 31 ->
  length nonce = crypto_aead_chacha20poly1305_NPUBBYTES ->
  a_stdin c = Cin text false false -> a_in c = [] -> a_in s = [] ->
  exists lines c' op' s',
    store_runs σ acts lines σ' /\
    represents password (user_dir op) d (a_fs c') (a_fs s') σ' /\
    a_stdout c' = a_stdout c ++ lines /\ a_in c' = [] /\ a_in s' = [] /\
    forall g, (length acts < g)%nat ->
      dialogue (authed_comms (server_rx op) (server_tx op) password nonce sock) c (conn_loop g op) s
        (0, sodium_memzero password, sodium_memzero (server_rx op), sodium_memzero (server_tx op))
        c' op' s'.
Proof.
  intros Hpw Hdir REP Hsteps Hdef Hty Hok Hsize Hn Hin Hc Hs.
  set (CA := CommsAgent sock (server_rx op) (server_tx op)).
  destruct (loops_dialogue CA password d Hpw acts text Hty op σ σ' nonce x6e c s)
    as (lines & nonce1 & c1 & op1 & s1 & Hruns & Hn1 & [no ->] & REP1 & Hout & Hc1 & Hs1 & K); try done.
  exists lines. do 3 eexists. split; [exact Hruns|]. split; [|split; [|split; [|split]]].
  5: {
    intros g Hg. unfold authed_comms, Comms_Agent_new. fold CA.
    eapply dialogue_step_client; [apply advances_authed_fuel|by rewrite app_nil_r|].
    rewrite arrive_nil, Hin. cbn [cin_rest].
    replace g with (length acts + S (g - length acts - 1))%nat by lia.
    apply K; [pose proof (types_session_length _ _ Hty); lia|].
    by apply goodbye_dialogue. }
  all: done.
Qed.

(** C3: A session implements the store.  For every sequence of actions a user
    types at the client (uploads, downloads, listings and deletions, in any
    order and number, where only a download needs its file to exist), the client's [authed_comms] and the server's session loop
    hold a dialogue, in which nobody waits for bytes the other one has not
    sent; at its end both file systems represent the store the actions lead to,
    the client has printed what the actions report, and no byte is left in
    either direction. *)
Theorem session_refines_store (tx rx password nonce text : bytes) (sock : Z) (op : FS_Operator)
    (d : path) (acts : list action) (σ σ' : store) (c s : aworld) :
  (forall salt, is_Some (pwhash crypto_box_SEEDBYTES password salt)) ->
  tx = server_rx op -> rx = server_tx op -> dir_string (user_dir op) ->
  represents password (user_dir op) d (a_fs c) (a_fs s) σ -> store_steps σ acts = Some σ' ->
  uploads_defined σ acts -> types_session acts text -> Forall action_ok acts ->
  Z.of_nat (size (remote σ) + length acts) <= 2 ^ 31 ->
  length nonce = crypto_aead_chacha20poly1305_NPUBBYTES ->
  a_stdin c = Cin text false false -> a_in c = [] -> a_in s = [] ->
  exists lines c' op' s',
    store_runs σ acts lines σ' /\
    represents password (user_dir op) d (a_fs c') (a_fs s') σ' /\
    a_stdout c' = a_stdout c ++ lines /\ a_in c' = [] /\ a_in s' = [] /\
    forall g, (length acts < g)%nat ->
      dialogue (authed_comms tx rx password nonce sock) c (conn_loop g op) s
        (0, sodium_memzero password, sodium_memzero tx, sodium_memzero rx) c' op' s'.
Proof. intros Hpw -> ->. by apply session_dialogue. Qed.

(** *** On the server's side of the connection *)

Lemma conn_loop_fuel f1 f2 op a v a' :
  (length (a_in a) < f1)%nat -> (length (a_in a) < f2)%nat ->
  runs (conn_loop f1 op) a v a' -> runs (conn_loop f2 op) a v a'.
Proof.
  intros H1 H2 Hr w Hw. destruct (Hr w Hw) as (w' & E & Hw'). exists w'. split; [|done].
  rewrite <- E. apply (rounds_fuel conn_round conn_loop stream_left 16); unfold stream_left; by rewrite (repr_in _ _ Hw).
Qed.

(** A whole connection implements the store.  A user logs in and works
    through a sequence of actions: what the client's session sends makes
    [handle_conn], after the key exchange and the login, answer so that the
    client prints what the actions report and ends with the local files of the
    store they lead to; the server stores the remote files of that store,
    encrypted under the user's password, and erases, closes and counts off the
    client. *)
Lemma connection_serves_session (DB : database) (fd sock : Z) (s : aworld) (f' : fs)
    (cpk spk ssk rx tx user pw cn nonce text : bytes) (rs : rng) (d : path)
    (acts : list action) (σ σ' : store) (c : aworld) :
  kx_keypair (a_rng s) = (spk, ssk, rs) -> length cpk = crypto_kx_PUBLICKEYBYTES ->
  kx_server_session_keys spk ssk cpk = Some (rx, tx) ->
  no_null_hash DB -> accepts DB user (pw ++ [x00]) = true -> no_nul user -> user <> [] ->
  blen user < FILE_ENCRYPTED_CHUNK_SIZE -> blen pw < FILE_ENCRYPTED_CHUNK_SIZE ->
  length cn = crypto_aead_chacha20poly1305_NPUBBYTES ->
  length nonce = crypto_aead_chacha20poly1305_NPUBBYTES ->
  create_directories (a_fs s) (base_dir ++ user ++ [slash]) = Some f' ->
  (forall salt, is_Some (pwhash crypto_box_SEEDBYTES pw salt)) ->
  represents pw (base_dir ++ user ++ [slash]) d (a_fs c) f' σ ->
  store_steps σ acts = Some σ' -> uploads_defined σ acts -> types_session acts text ->
  Forall action_ok acts ->
  Z.of_nat (size (remote σ) + length acts) <= 2 ^ 31 ->
  a_stdin c = Cin text false false -> a_in c = [] ->
  exists up down lines c',
    store_runs σ acts lines σ' /\ a_out c' = a_out c ++ up /\ a_stdout c' = a_stdout c ++ lines /\
    runs (authed_comms rx tx pw nonce sock) (a_set_in down c)
      (0, sodium_memzero pw, sodium_memzero rx, sodium_memzero tx) c' /\
    exists s',
      runs (handle_conn DB fd)
        (a_set_in (cpk ++ wire rx cn (user ++ [x00])
           ++ wire rx (sodium_increment cn) (pw ++ [x00]) ++ up) s)
        [EraseClient fd; CloseSock fd; DecLive] s' /\
      a_out s' = a_out s ++ spk ++ int_encode ACK_SUC ++ down /\
      represents pw (base_dir ++ user ++ [slash]) d (a_fs c') (a_fs s') σ'.
Proof.
  intros Hkp Hcpk Hkx Hnn Hacc Hnul Hune Hul Hpl Hcn Hn Hdirs Hpw REP Hsteps Hdef Hty Hok Hsize Hin Hc.
  destruct (randombytes_buf rs crypto_aead_chacha20poly1305_NPUBBYTES) as [on ro] eqn:Eo.
  set (op := FSO fd (base_dir ++ user ++ [slash]) rx tx on).
  set (s0 := a_set_in [] (a_set_rng ro (a_set_fs f' (a_set_out (a_out s ++ spk ++ int_encode ACK_SUC) s)))).
  destruct (session_dialogue pw nonce text sock op d acts σ σ' c s0)
    as (lines & c' & op' & s' & Hruns & REP' & Hout & Hc' & Hs' & D); try done.
  { by apply user_dir_string. }
  destruct (dialogue_sound _ _ _ _ _ _ _ _ (D (S (length acts)) ltac:(lia)))
    as (up & down & Hup & Hdown & _).
  exists up, down, lines, c'. split; [done|]. split; [done|]. split; [done|].
  assert (forall g, (length acts < g)%nat ->
    runs (authed_comms rx tx pw nonce sock) (arrive down c)
      (0, sodium_memzero pw, sodium_memzero rx, sodium_memzero tx) c' /\
    runs (conn_loop g op) (arrive up s0) op' s') as Hboth.
  { intros g Hg.
    destruct (dialogue_sound _ _ _ _ _ _ _ _ (D g Hg)) as (up1 & down1 & Hup1 & Hdown1 & Hr).
    rewrite Hup in Hup1. apply app_inv_head in Hup1 as <-.
    rewrite Hdown in Hdown1. apply app_inv_head in Hdown1 as <-.
    specialize (Hr []). by rewrite !app_nil_r, !arrive_nil in Hr. }
  split.
  - replace (a_set_in down c) with (arrive down c) by (unfold arrive; by rewrite Hc).
    by apply (Hboth (S (length acts))); lia.
  - exists s'. split; [|split; [rewrite Hdown; simpl; by rewrite <- !app_assoc|done]].
    eapply (handle_conn_runs DB fd (a_set_in _ s) f' cpk spk ssk rs rx tx on ro user pw cn up op' s'); try done.
    fold op. replace (a_set_in up _) with (arrive up s0) by done.
    apply (conn_loop_fuel (S (length acts + length up))); [simpl; lia|simpl; lia|].
    apply Hboth. lia.
Qed.

End refinement.

(** ** A concrete session *)

Section store_demo.
#[local] Existing Instances toy_sodium toy_sodium_laws toy_env toy_env_laws.

(** Ann uploads her file and one she does not have, lists what she stored,
    fetches it back and deletes it. *)
Definition demo_acts : list action :=
  [Upload (str "notes"); Upload (str "gone"); Listing; Download (str "notes");
   Delete (str "notes")].
Definition demo_text : bytes := str "2 notes y 2 gone y 3 y 1 notes.enc y 4 notes.enc n".
Definition demo_store : store := Store {[ str "notes" := str "hello" ]} ∅.

Lemma demo_types_spaced sp : spaces sp -> types_session demo_acts (sp ++ demo_text).
Proof.
  intros Hsp.
  apply (types_more (Upload (str "notes")) sp (str " notes") (str " ") x79);
    try by repeat constructor.
  { by apply (types_upload (str "notes") (str " ")); repeat constructor. }
  apply (types_more (Upload (str "gone")) (str " ") (str " gone") (str " ") x79);
    try by repeat constructor.
  { by apply (types_upload (str "gone") (str " ")); repeat constructor. }
  apply (types_more Listing (str " ") [] (str " ") x79); try by repeat constructor.
  apply (types_more (Download (str "notes")) (str " ") (str " notes.enc") (str " ") x79);
    try by repeat constructor.
  { by apply (types_download (str "notes") (str " ")); repeat constructor. }
  apply (types_last (Delete (str "notes")) (str " ") (str " notes.enc") (str " ") x6e []);
    try by repeat constructor.
  by apply (types_delete (str "notes") (str " ")); repeat constructor.
Qed.

Lemma demo_acts_ok : Forall action_ok demo_acts.
Proof.
  repeat constructor; try apply demo_name_ok; try (vm_compute; discriminate).
Qed.

Lemma demo_uploads_defined : uploads_defined demo_store demo_acts.
Proof. repeat split; [left|right]; by eexists. Qed.

Lemma demo_represents i :
  represents (str "pw") (base_dir ++ str "ann" ++ [slash]) [str "MEF_S"; str "ann"]
    (a_fs (demo_client demo_text i)) demo_user_fs demo_store.
Proof.
  split.
  - intros n _ _. cbn [a_fs demo_client fs_nodes fs_cwd app local demo_store].
    destruct (decide (str "notes" = n)) as [<-|Hne]; [by rewrite !lookup_singleton_eq|].
    rewrite !lookup_singleton_ne by congruence. done.
  - apply (demo_resolve "ann"). by left.
  - done.
  - intros e node H. cbn [fs_nodes demo_user_fs app] in H.
    rewrite !lookup_insert_ne, lookup_empty in H by (vm_compute; congruence). done.
  - intros n [? [=]].
Qed.

Lemma session_refines_store_witness :
  exists lines c' op' s',
    store_runs demo_store demo_acts lines demo_store /\
    a_stdout c' = lines /\
    dialogue (authed_comms demo_key demo_key (str "pw") demo_nonce 5) (demo_client demo_text [])
      (conn_loop 6 (demo_op "ann")) (demo_server [])
      (0, sodium_memzero (str "pw"), sodium_memzero demo_key, sodium_memzero demo_key) c' op' s'.
Proof.
  destruct (session_refines_store demo_key demo_key (str "pw") demo_nonce demo_text 5
    (demo_op "ann") [str "MEF_S"; str "ann"] demo_acts demo_store demo_store
    (demo_client demo_text []) (demo_server []))
    as (lines & c' & op' & s' & Hruns & _ & Hout & _ & _ & D);
    [intros salt; by eexists|reflexivity|reflexivity|by apply demo_dir_string|apply demo_represents
    |vm_compute; reflexivity|apply demo_uploads_defined|apply (demo_types_spaced []); constructor|apply demo_acts_ok|vm_compute; discriminate
    |reflexivity|reflexivity|reflexivity|reflexivity|].
  exists lines, c', op', s'. split; [done|]. split; [done|]. apply D. simpl. lia.
Defined.

End store_demo.
