(* ===== verification/Program.v ===== *)
(** The two programs, from start to end: [main] of the client, with its key
    exchange, its login and its session, against [handle_conn] of the server.

    The client reads the answer to its login with a single [recv], so the
    theorem asks that these four bytes arrive in one piece; everything else may
    be cut into pieces and interrupted at will.  Its conclusion is in terms of
    the abstract store of Store. *)

From S2P Require Import Prelude Sodium Constants Fs Terminal World Net SessionEnc TwoSlotBuffer Transfer FSOperator Agents Closed Progress Client EndToEnd Auth Connection Tree Dialogue Store.

(** The pieces of a message that is followed by another one. *)
Definition pieces (evs : list recv_event) : Prop := exists k b, evs = k ++ [RData b].

Section program.
Context {SO : Sodium} {EN : Env} {SL : SodiumLaws SO} {EL : EnvLaws EN}.

(** ** The key exchange, down to the pieces of the connection *)

(** Reading exactly a message takes exactly its pieces. *)
Lemma recv_loop_pieces b evs k : forall fuel got (w w' : world) r,
  w_in w = k ++ RData b :: evs -> Forall good_event (k ++ [RData b]) ->
  recv_loop fuel (length (stream (k ++ [RData b]))) got w = Ok r w' -> w_in w' = evs.
Proof.
  induction k as [|e k IH]; intros fuel got w w' r Hw Hg E.
  - apply Forall_cons in Hg as [Hb _]. simpl in Hb. unfold stream in E. simpl in E.
    rewrite app_nil_r in E. destruct b as [|x b]; [done|]. destruct fuel as [|fuel]; [done|].
    simpl length in E. rewrite (recv_loop_data (x :: b) evs) in E by done.
    simpl length in E. rewrite Nat.leb_refl, Nat.sub_diag, recv_loop_0 in E.
    by injection E as _ <-.
  - simpl app in *. apply Forall_cons in Hg as [He Hg].
    assert (0 < length (stream (k ++ [RData b])))%nat as Hpos.
    { apply Forall_app in Hg as [_ [Hb _]%Forall_cons]. unfold stream. rewrite bind_app. simpl.
      rewrite length_app, app_nil_r. destruct b; [done|simpl; lia]. }
    change (stream (e :: k ++ [RData b])) with (event_bytes e ++ stream (k ++ [RData b])) in E.
    set (n := length (stream (k ++ [RData b]))) in *. rewrite length_app in E. fold n in E.
    destruct fuel as [|fuel].
    { destruct (length (event_bytes e) + n)%nat eqn:El; [lia|done]. }
    destruct e as [bs|e]; simpl event_bytes in E, He.
    + destruct (length bs + n)%nat as [|l] eqn:El; [lia|].
      rewrite (recv_loop_data bs (k ++ RData b :: evs)) in E by done.
      rewrite (proj2 (Nat.leb_le _ _)) in E by lia.
      replace (S l - length bs)%nat with n in E by lia. by eapply IH in E.
    + cbn [good_event] in He. subst e. simpl in E. destruct n as [|l] eqn:El; [lia|].
      rewrite (recv_loop_eintr (k ++ RData b :: evs)) in E by done.
      eapply IH in E; [done|done|done].
Qed.

Lemma recv_fully_pieces kevs evs (w w' : world) r :
  pieces kevs -> w_in w = kevs ++ evs -> Forall good_event kevs ->
  recv_fully (length (stream kevs)) w = Ok r w' -> w_in w' = evs.
Proof.
  intros (k & b & ->) Hw Hg. rewrite <- app_assoc in Hw. simpl in Hw.
  by apply recv_loop_pieces.
Qed.

(** The client's key exchange takes the server's key and nothing else. *)
Lemma client_crypt_gen_pieces jr jt kevs evs (w w' : world) r :
  pieces kevs -> w_in w = kevs ++ evs -> Forall good_event kevs ->
  length (stream kevs) = crypto_kx_PUBLICKEYBYTES ->
  client_crypt_gen jr jt w = Ok r w' -> w_in w' = evs.
Proof.
  intros Hp Hw Hg Hl. unfold client_crypt_gen, crypto_kx_keypair, mbind, M_bind.
  destruct (kx_keypair (w_rng w)) as [[pk sk] g].
  destruct (send pk (set_rng g w)) as [x w1| | |] eqn:Es; try done.
  assert (w_in w1 = kevs ++ evs) as Hw1.
  { rewrite <- Hw. unfold send in Es. destruct (w_snd _) as [|[] ?]; by injection Es as _ <-. }
  destruct (recv_fully _ w1) as [[ok spk] w2| | |] eqn:Er; try done.
  rewrite <- Hl in Er. eapply recv_fully_pieces in Er; [|done..].
  destruct (negb ok); [by intros [= _ <-]|].
  destruct (kx_client_session_keys _ _ _) as [[? ?]|]; by intros [= _ <-].
Qed.

(** ** The client up to its session *)

(** The set-up of [main] succeeds. *)
Definition setup_ok (inet_pton_ok bind_ok : bytes -> bool) (argv : list bytes) : Prop :=
  inet_pton_ok (match argv with _ :: ip :: _ => ip | _ => str "127.0.0.1" end) = true /\
  match argv with _ :: _ :: src :: _ => inet_pton_ok src = true /\ bind_ok src = true | _ => True end.

(** The client after the answer to its login. *)
Definition logged_in (cpk tx cn user pw text : bytes) (r : rng) (c : aworld) : aworld :=
  credentials_sent tx cn user pw text (a_set_rng r (a_set_out (a_out c ++ cpk) c)).

(** The connection delivers the server's key, then the answer to the login in
    one piece, and then the session. *)
Definition answered (spk ack : bytes) (w : world) : Prop :=
  exists kevs evs, w_in w = kevs ++ RData ack :: evs /\ pieces kevs /\ stream kevs = spk.

(** What [main] does with the result of [send_credentials]. *)
Definition after_login (sock : Z) (rx tx : bytes) (r : Z * bytes * bytes * bytes) : IO Z :=
  let '(rc, _, password, nonce) := r in
  if negb (rc =? 0) then mret 2 else
  _ ← authed_comms tx rx password nonce sock;
  mret 0.

Lemma client_keys jr jt cpk csk rc spk rx tx kevs evs rest c (w : world) :
  kx_keypair (a_rng c) = (cpk, csk, rc) -> length spk = crypto_kx_PUBLICKEYBYTES ->
  kx_client_session_keys cpk csk spk = Some (rx, tx) ->
  repr w (a_set_in (spk ++ rest) c) -> w_in w = kevs ++ evs -> pieces kevs -> stream kevs = spk ->
  exists w', client_crypt_gen jr jt w = Ok (0, cpk, csk, rx, tx) w' /\
    repr w' (a_set_in rest (a_set_out (a_out c ++ cpk) (a_set_rng rc c))) /\ w_in w' = evs.
Proof.
  intros Hkc Hls Hkx Hw Hi Hpc Hkevs.
  pose proof (runs_client_crypt_gen jr jt cpk csk rc spk rx tx rest (a_set_in (spk ++ rest) c)
    Hkc Hls Hkx eq_refl) as Hgen.
  destruct (Hgen w Hw) as (w1 & E1 & Hw1). exists w1. split; [done|]. split; [done|].
  eapply client_crypt_gen_pieces in E1; [done|exact Hpc|exact Hi| |by rewrite Hkevs].
  pose proof (repr_good _ _ Hw) as Hg. rewrite Hi in Hg. by apply Forall_app in Hg as [? _].
Qed.

Lemma client_main_reaches_login pton bd sock argv cpk csk spk rc cn r rx tx kevs evs rest c
    (w : world) :
  setup_ok pton bd argv ->
  kx_keypair (a_rng c) = (cpk, csk, rc) -> length spk = crypto_kx_PUBLICKEYBYTES ->
  kx_client_session_keys cpk csk spk = Some (rx, tx) ->
  randombytes_buf rc crypto_aead_chacha20poly1305_NPUBBYTES = (cn, r) ->
  repr w (a_set_in (spk ++ rest) c) -> w_in w = kevs ++ evs -> pieces kevs -> stream kevs = spk ->
  exists w', client_main pton bd sock argv w = (send_credentials tx cn ≫= after_login sock rx tx) w' /\
    repr w' (a_set_in rest (a_set_rng r (a_set_out (a_out c ++ cpk) c))) /\ w_in w' = evs.
Proof.
  intros [Hip Hsrc] Hkc Hls Hkx Hcn Hw Hi Hpc Hkevs. unfold client_main. rewrite Hip. cbn [negb].
  replace (match _ with Some src => negb (pton src) | None => false end) with false
    by (destruct argv as [|? [|? [|? ?]]]; try done; by destruct Hsrc as [-> _]).
  replace (match _ with Some src => negb (bd src) | None => false end) with false
    by (destruct argv as [|? [|? [|? ?]]]; try done; by destruct Hsrc as [_ ->]).
  edestruct (client_keys (indet "client_rx" crypto_kx_SESSIONKEYBYTES)
    (indet "client_tx" crypto_kx_SESSIONKEYBYTES)) as (w1 & E1 & Hw1 & Hi1); [done..|].
  rewrite (bind_Ok _ _ _ _ _ E1). cbn [Z.eqb negb].
  destruct (runs_randombytes crypto_aead_chacha20poly1305_NPUBBYTES _ w1 Hw1) as (w2 & E2 & Hw2).
  cbn [a_rng a_set_in a_set_out a_set_rng] in E2, Hw2. rewrite Hcn in E2, Hw2. cbn [fst snd] in E2, Hw2.
  assert (w_in w2 = w_in w1) as Hi2.
  { unfold randombytes in E2. destruct (randombytes_buf (w_rng w1) _). by injection E2 as _ <-. }
  rewrite (bind_Ok _ _ _ _ _ E2). exists w2. split; [done|]. by rewrite Hi2.
Qed.

Section login.
Context (sp1 user sp2 pw text : bytes) (Hsp1 : spaces sp1) (Hsp2 : spaces sp2) (Hne : sp2 <> [])
  (Hu : word user) (Hp : word pw) (Hwe : word_end text)
  (Hul : blen user < FILE_ENCRYPTED_CHUNK_SIZE) (Hpl : blen pw < FILE_ENCRYPTED_CHUNK_SIZE).

(** The four bytes that answer the login arrive, as [ack]. *)
Lemma client_login tx cn evs ack rest a (w : world) :
  a_stdin a = Cin (sp1 ++ user ++ sp2 ++ pw ++ text) false false -> length ack = 4%nat ->
  repr w (a_set_in (ack ++ rest) a) -> w_in w = RData ack :: evs ->
  exists w', repr w' (a_set_in rest (credentials_sent tx cn user pw text a)) /\
    send_credentials tx cn w =
      if int_decode ack =? -1 then
        (_ ← print (str "you sir/madam are not authenticated." ++ [x0a]);
         throw (process_exit (-1))) w'
      else Ok (0, sodium_memzero user, pw, sodium_increment (sodium_increment cn)) w'.
Proof.
  intros Hin Hl Hw Hi.
  destruct (send_credentials_reaches tx cn sp1 user sp2 pw text (a_set_in _ a) Hin Hsp1 Hsp2 Hne
    Hu Hp Hwe Hul Hpl w Hw) as (w1 & E & [Hg Hst ? ? ? ? ? ?] & Hi1).
  rewrite Hi in Hi1. exists (set_in evs w1). split.
  - rewrite Hi1 in Hg, Hst. apply Forall_cons in Hg as [_ Hg].
    change (ack ++ stream evs = ack ++ rest) in Hst. apply app_inv_head in Hst. by split.
  - pose proof (recv_data _ _ 4 _ Hi1) as Er. rewrite Hl in Er. cbn [Nat.leb] in Er.
    rewrite E. unfold await_ack. rewrite (bind_Ok _ _ _ _ _ Er). cbn [snd]. rewrite overwrite_full by done. by destruct (_ =? _).
Qed.

Context (pton bd : bytes -> bool) (sock : Z) (argv : list bytes) (c : aworld)
  (cpk csk spk cn rx tx : bytes) (rc r : rng) (Hset : setup_ok pton bd argv)
  (Hkc : kx_keypair (a_rng c) = (cpk, csk, rc)) (Hls : length spk = crypto_kx_PUBLICKEYBYTES)
  (Hkx : kx_client_session_keys cpk csk spk = Some (rx, tx))
  (Hcn : randombytes_buf rc crypto_aead_chacha20poly1305_NPUBBYTES = (cn, r))
  (Hin : a_stdin c = Cin (sp1 ++ user ++ sp2 ++ pw ++ text) false false).

Lemma client_main_session down c' v (w : world) :
  runs (authed_comms tx rx pw (sodium_increment (sodium_increment cn)) sock)
    (a_set_in down (logged_in cpk tx cn user pw text r c)) v c' ->
  repr w (a_set_in (spk ++ int_encode ACK_SUC ++ down) c) -> answered spk (int_encode ACK_SUC) w ->
  exists w', client_main pton bd sock argv w = Ok 0 w' /\ repr w' c'.
Proof.
  intros Hsess Hw (kevs & evs & Hi & Hpc & Hkevs).
  edestruct client_main_reaches_login as (w1 & E1 & Hw1 & Hi1); [done..|].
  destruct (client_login tx cn evs (int_encode ACK_SUC) down
    (a_set_rng r (a_set_out (a_out c ++ cpk) c)) w1) as (w2 & Hw2 & E2); [done..|].
  rewrite E1, (bind_Ok _ _ _ _ _ E2). unfold after_login. cbn [Z.eqb negb].
  destruct (Hsess w2) as (w3 & E3 & Hw3); [done|]. rewrite (bind_Ok _ _ _ _ _ E3). by exists w3.
Qed.

Lemma client_main_refused (w : world) :
  repr w (a_set_in (spk ++ int_encode ACK_FAIL) c) -> answered spk (int_encode ACK_FAIL) w ->
  exists w', client_main pton bd sock argv w = Throw (process_exit (-1)) w' /\
    w_out w' = a_out (logged_in cpk tx cn user pw text r c) /\ w_fs w' = a_fs c.
Proof.
  intros Hw (kevs & evs & Hi & Hpc & Hkevs).
  edestruct client_main_reaches_login as (w1 & E1 & Hw1 & Hi1); [done..|].
  destruct (client_login tx cn evs (int_encode ACK_FAIL) []
    (a_set_rng r (a_set_out (a_out c ++ cpk) c)) w1) as (w2 & Hw2 & E2); [done..|].
  rewrite E1. unfold mbind, M_bind. rewrite E2. eexists. split; [done|].
  split; [apply (repr_out _ _ Hw2)|apply (repr_fs _ _ Hw2)].
Qed.

End login.

(** ** Both programs *)

Definition prompts : list bytes := [str "enter username: "; str "enter password: "; [x0a]].

(** C1: The two programs implement the store.  A user starts the client, types a
    name and a password that the table accepts, and then any sequence of
    uploads, downloads, listings and deletions, where only a download needs its
    file to exist.  There are byte streams [up] and
    [down] such that the server's [handle_conn] reads [up], answers [down] and
    finishes, erasing, closing and counting off the client; and the client's
    [main] reads [down], sends [up] and returns 0, on every connection that
    delivers the four bytes that answer the login in one piece.  At the end the
    local files and the stored ones, encrypted under the password, are those of
    the store the actions lead to, and the terminal shows what they report. *)
Theorem programs_implement_store (DB : database) (fd sock : Z) (pton bd : bytes -> bool)
    (argv : list bytes) (c s : aworld) (f' : fs) (cpk csk spk ssk : bytes) (rc rs : rng)
    (sp1 user sp2 pw text : bytes) (d : path) (acts : list action) (σ σ' : store) :
  setup_ok pton bd argv ->
  kx_keypair (a_rng c) = (cpk, csk, rc) -> kx_keypair (a_rng s) = (spk, ssk, rs) ->
  a_stdin c = Cin (sp1 ++ user ++ sp2 ++ pw ++ text) false false ->
  spaces sp1 -> spaces sp2 -> sp2 <> [] -> word user -> word pw -> word_end text ->
  no_nul user -> blen user < FILE_ENCRYPTED_CHUNK_SIZE -> blen pw < FILE_ENCRYPTED_CHUNK_SIZE ->
  no_null_hash DB -> accepts DB user (pw ++ [x00]) = true ->
  create_directories (a_fs s) (base_dir ++ user ++ [slash]) = Some f' ->
  (forall salt, is_Some (pwhash crypto_box_SEEDBYTES pw salt)) ->
  represents pw (base_dir ++ user ++ [slash]) d (a_fs c) f' σ ->
  store_steps σ acts = Some σ' -> uploads_defined σ acts -> types_session acts text ->
  Forall action_ok acts ->
  Z.of_nat (size (remote σ) + length acts) <= 2 ^ 31 ->
  exists up down lines c' s',
    store_runs σ acts lines σ' /\
    runs (handle_conn DB fd) (a_set_in up s) [EraseClient fd; CloseSock fd; DecLive] s' /\
    a_out s' = a_out s ++ down /\
    (forall w, repr w (a_set_in down c) -> answered spk (int_encode ACK_SUC) w ->
       exists w', client_main pton bd sock argv w = Ok 0 w' /\ repr w' c') /\
    a_out c' = a_out c ++ up /\ a_stdout c' = a_stdout c ++ prompts ++ lines /\
    represents pw (base_dir ++ user ++ [slash]) d (a_fs c') (a_fs s') σ'.
Proof.
  intros Hset Hkc Hks Hin Hsp1 Hsp2 Hne Hu Hp Hwe Hnul Hul Hpl Hnn Hacc Hdirs Hpw REP Hsteps
    Hdef Hty Hok Hsize.
  destruct (kx_agree _ _ _ _ _ _ _ _ Hkc Hks) as (k1 & k2 & Ec & Es & _).
  destruct (length_kx_keypair _ _ _ _ Hkc) as [Hlc _].
  destruct (length_kx_keypair _ _ _ _ Hks) as [Hls _].
  destruct (randombytes_buf rc crypto_aead_chacha20poly1305_NPUBBYTES) as [cn r] eqn:Ecn.
  pose proof (length_randombytes rc crypto_aead_chacha20poly1305_NPUBBYTES) as Hcn.
  rewrite Ecn in Hcn. cbn [fst] in Hcn.
  assert (is_nil text = false) as Hnil by (by destruct Hty as [? []|? []]).
  destruct (connection_serves_session DB fd sock s f' cpk spk ssk k2 k1 user pw cn
    (sodium_increment (sodium_increment cn)) text rs d acts σ σ'
    (a_set_in [] (logged_in cpk k2 cn user pw text r c)))
    as (up & down & lines & c' & Hruns & Hup & Hout & Hc & s' & Hs & Ho & REP'); try done.
  { by apply Hu. }
  { by rewrite !length_increment. }
  { unfold logged_in, credentials_sent. simpl. by rewrite Hnil. }
  eexists _, _, lines, c', s'. split; [done|]. split; [exact Hs|]. split; [exact Ho|].
  split; [|split; [|split; [|done]]].
  - intros w Hw Ha. by eapply (client_main_session sp1 user sp2 pw text Hsp1 Hsp2 Hne Hu Hp Hwe
      Hul Hpl pton bd sock argv c cpk csk spk cn k1 k2 rc r Hset Hkc Hls Ec Ecn Hin down c').
  - rewrite Hup. unfold logged_in, credentials_sent.
    cbn [a_out a_set_in a_set_out a_set_stdin a_set_stdout a_set_rng].
    by rewrite <- !(app_assoc (a_out c)), <- (app_assoc cpk), <- (app_assoc (wire _ _ _)).
  - rewrite Hout. simpl. by rewrite <- app_assoc.
Qed.

(** C13: A refused login ends both programs and changes no file: for a name and a
    password the table does not accept, [handle_conn] answers [ACK_FAIL] and only
    counts off the client, and the client's [main] exits with -1 before any
    session. *)
Theorem refused_login_changes_nothing (DB : database) (fd sock : Z) (pton bd : bytes -> bool)
    (argv : list bytes) (c s : aworld) (cpk csk spk ssk : bytes) (rc rs : rng)
    (sp1 user sp2 pw text : bytes) :
  setup_ok pton bd argv ->
  kx_keypair (a_rng c) = (cpk, csk, rc) -> kx_keypair (a_rng s) = (spk, ssk, rs) ->
  a_stdin c = Cin (sp1 ++ user ++ sp2 ++ pw ++ text) false false ->
  spaces sp1 -> spaces sp2 -> sp2 <> [] -> word user -> word pw -> word_end text ->
  no_nul user -> blen user < FILE_ENCRYPTED_CHUNK_SIZE -> blen pw < FILE_ENCRYPTED_CHUNK_SIZE ->
  no_null_hash DB -> accepts DB user (pw ++ [x00]) = false ->
  exists up s',
    runs (handle_conn DB fd) (a_set_in up s) [DecLive] s' /\
    a_out s' = a_out s ++ spk ++ int_encode ACK_FAIL /\ a_fs s' = a_fs s /\
    forall w, repr w (a_set_in (spk ++ int_encode ACK_FAIL) c) ->
      answered spk (int_encode ACK_FAIL) w ->
      exists w', client_main pton bd sock argv w = Throw (process_exit (-1)) w' /\
        w_out w' = a_out c ++ up /\ w_fs w' = a_fs c.
Proof.
  intros Hset Hkc Hks Hin Hsp1 Hsp2 Hne Hu Hp Hwe Hnul Hul Hpl Hnn Hacc.
  destruct (kx_agree _ _ _ _ _ _ _ _ Hkc Hks) as (k1 & k2 & Ec & Es & _).
  destruct (length_kx_keypair _ _ _ _ Hkc) as [Hlc _].
  destruct (length_kx_keypair _ _ _ _ Hks) as [Hls _].
  destruct (randombytes_buf rc crypto_aead_chacha20poly1305_NPUBBYTES) as [cn r] eqn:Ecn.
  pose proof (length_randombytes rc crypto_aead_chacha20poly1305_NPUBBYTES) as Hcn.
  rewrite Ecn in Hcn. cbn [fst] in Hcn.
  set (creds := wire k2 cn (user ++ [x00]) ++ wire k2 (sodium_increment cn) (pw ++ [x00])).
  exists (cpk ++ creds), (a_set_out (a_out s ++ spk ++ int_encode ACK_FAIL)
    (a_set_in [] (a_set_rng rs s))).
  split; [|split; [done|split; [done|]]].
  - unfold handle_conn.
    eapply runs_bind; [by eapply (runs_server_crypt_gen _ _ _ _ _ cpk)|]. rsimpl. cbn [Z.eqb negb].
    eapply runs_bind.
    { apply (verify_credentials_runs DB k2 user pw cn _ []); try done.
      unfold creds. cbn [a_in a_set_in]. by rewrite app_nil_r. }
    rewrite Hacc. rsimpl. cbn [Z.eqb negb].
    eapply runs_bind; [apply runs_send|]. eapply runs_conv; [apply runs_ret|done|].
    cbn [a_out a_set_in a_set_out a_set_rng]. by rewrite <- (app_assoc (a_out s)).
  - intros w Hw Ha. destruct (client_main_refused sp1 user sp2 pw text Hsp1 Hsp2 Hne Hu Hp Hwe
      Hul Hpl pton bd sock argv c cpk csk spk cn k1 k2 rc r Hset Hkc Hls Ec Ecn Hin w Hw Ha)
      as (w' & E & Ho & Hf). exists w'. split; [exact E|]. split; [|done].
    rewrite Ho. unfold logged_in, credentials_sent. cbn [a_out a_set_out a_set_stdin a_set_stdout a_set_rng].
    by rewrite <- (app_assoc (a_out c)).
Qed.

End program.

(** ** Concrete runs *)

Section program_demo.
#[local] Existing Instances toy_sodium toy_sodium_laws toy_env toy_env_laws.

Definition demo_argv : list bytes := [str "client"].

(** Ann logs in and works as in Store. *)
Lemma programs_implement_store_witness :
  exists up down s', runs (handle_conn demo_db 5) (demo_server up)
      [EraseClient 5; CloseSock 5; DecLive] s' /\ a_out s' = down /\
    forall w, repr w (demo_client (str "ann pw " ++ demo_text) down) ->
      answered (le_encode 32 1000) (int_encode ACK_SUC) w ->
      exists w', client_main (fun _ => true) (fun _ => true) 5 demo_argv w = Ok 0 w' /\ w_out w' = up.
Proof.
  destruct (programs_implement_store demo_db 5 5 (fun _ => true) (fun _ => true) demo_argv
    (demo_client (str "ann pw " ++ demo_text) []) (demo_server []) demo_user_fs
    (le_encode 32 1000) (le_encode 32 0) (le_encode 32 1000) (le_encode 32 0) 1 1
    [] (str "ann") (str " ") (str "pw") (str " " ++ demo_text) [str "MEF_S"; str "ann"]
    demo_acts demo_store demo_store)
    as (up & down & lines & c' & s' & _ & Hs & Ho & Hc & Hup & _);
    [by repeat constructor|reflexivity|reflexivity|reflexivity|by repeat constructor
    |by repeat constructor|discriminate|by apply demo_word|by apply demo_word|reflexivity
    |repeat constructor; discriminate|vm_compute; reflexivity|vm_compute; reflexivity
    |apply demo_db_no_null|reflexivity|vm_compute; reflexivity|intros salt; by eexists
    |exact (demo_represents [])|vm_compute; reflexivity|apply demo_uploads_defined|by apply (demo_types_spaced (str " ")); repeat constructor|apply demo_acts_ok
    |vm_compute; discriminate|].
  exists up, down, s'. split; [exact Hs|]. split; [exact Ho|]. intros w Hw Ha.
  destruct (Hc w Hw Ha) as (w' & E & Hw'). exists w'. split; [exact E|].
  by rewrite (repr_out _ _ Hw'), Hup.
Defined.

(** Somebody tries another password. *)
Lemma refused_login_changes_nothing_witness :
  exists up s', runs (handle_conn demo_db 5) (demo_server up) [DecLive] s' /\
    a_fs s' = demo_user_fs /\
    forall w, repr w (demo_client (str "ann guess ") (le_encode 32 1000 ++ int_encode ACK_FAIL)) ->
      answered (le_encode 32 1000) (int_encode ACK_FAIL) w ->
      exists w', client_main (fun _ => true) (fun _ => true) 5 demo_argv w =
          Throw (process_exit (-1)) w' /\ w_out w' = up.
Proof.
  destruct (refused_login_changes_nothing demo_db 5 5 (fun _ => true) (fun _ => true) demo_argv
    (demo_client (str "ann guess ") []) (demo_server []) (le_encode 32 1000) (le_encode 32 0)
    (le_encode 32 1000) (le_encode 32 0) 1 1 [] (str "ann") (str " ") (str "guess") (str " "))
    as (up & s' & Hs & _ & Hf & Hc);
    [by repeat constructor|reflexivity|reflexivity|reflexivity|by repeat constructor
    |by repeat constructor|discriminate|by apply demo_word|by apply demo_word|reflexivity
    |repeat constructor; discriminate|vm_compute; reflexivity|vm_compute; reflexivity
    |apply demo_db_no_null|vm_compute; reflexivity|].
  exists up, s'. split; [exact Hs|]. split; [exact Hf|]. intros w Hw Ha.
  destruct (Hc w Hw Ha) as (w' & E & Ho & _). exists w'. by split.
Defined.

End program_demo.
