(* ===== verification/Pool.v ===== *)
(** The threads of the server, src/server/server.cpp: the accepting thread
    ([main]), the pool of workers ([worker]), the signal handler
    ([handle_signal]), the thread that waits for a [q] ([kill_server]) and the
    logger, with what they share: the queue of accepted descriptors under
    [queue_mutex] and [queue_cv], the table [clients], the two counters and
    [server_alive].

    Each thread has a program counter; a step of a thread is one access to the
    shared state, and any interleaving of steps is an execution.  A worker that
    serves a connection performs the shared operations [handle_conn] ends with
    (Connection), one of three lists; it stays in [handle_conn] while that goes on,
    and an exception that leaves [handle_conn] ends the process.  Crash connects
    this with [handle_conn] itself.

    The theorems: the mutex is exclusive and a worker never takes from an empty
    queue; connections are handled in the order they were accepted, each once; an
    accepted connection is never left in the queue while all workers sleep; and
    three behaviours of the counters and of the shutdown that the code does not
    intend. *)

From S2P Require Import Prelude Connection.

#[export] Instance shared_op_eq_dec : EqDecision shared_op.
Proof. solve_decision. Defined.

Definition POOL_SIZE : nat := 8.

(** [struct Client_Info] *)
Record Client_Info := ClientInfo { active : bool }.

(** Where a worker is. *)
Inductive worker_pc :=
  | WLoop                    (* at [while (server_alive)] *)
  | WEnter                   (* about to lock [queue_mutex] *)
  | WTest                    (* holds the mutex, about to evaluate the predicate of [wait] *)
  | WBlock                   (* holds the mutex, the predicate was false *)
  | WWait                    (* blocked in [queue_cv.wait], the mutex released *)
  | WWake                    (* woken, about to lock the mutex again *)
  | WTake                    (* holds the mutex, [wait] has returned *)
  | WPop                     (* holds the mutex, [server_alive] was true *)
  | WHandle (fd : Z)         (* in [handle_conn] *)
  | WServe (ops : list shared_op)   (* the shared operations left to perform *)
  | WDone.                   (* returned *)

(** Where [main] is. *)
Inductive main_pc :=
  | AWhile                   (* at [while (server_alive)] *)
  | AAccept                  (* in [accept] *)
  | ATest (fd : Z)           (* [accept] returned [fd] *)
  | AConfig (fd : Z)         (* at [set_conn_timeout] *)
  | AInsert (fd : Z)         (* at [clients[fd] = Client_Info{}] *)
  | APush (fd : Z)           (* about to lock the queue and push *)
  | ANotify                  (* at [notify_one] *)
  | ATotal                   (* at [++total_connections] *)
  | ALive                    (* at [++live_connections] *)
  | ANotifyAll               (* after the loop, at [notify_all] *)
  | AJoin                    (* joining the workers *)
  | AJoinLog                 (* joining the logger *)
  | AJoinKill                (* joining the listener of [kill_server] *)
  | AExit.

(** The signal handler between its two effects on the pool. *)
Inductive handler_pc := HIdle | HNotify.

(** [terminated]: an exception has left a thread and ended the process.
    [h_decs] records the decrements of the counter; no step depends on it. *)
Record pool := Pool {
  server_alive : bool;
  client_queue : list Z;
  queue_mutex : option nat;
  clients : gmap Z Client_Info;
  total_connections : Z;
  live_connections : Z;
  closed_fds : list Z;
  workers : list worker_pc;
  main_at : main_pc;
  handler_at : handler_pc;
  killer_done : bool;
  logger_done : bool;
  terminated : bool;
  h_decs : Z
}.

Definition set_worker (i : nat) (pc : worker_pc) (s : pool) : pool :=
  Pool (server_alive s) (client_queue s) (queue_mutex s) (clients s) (total_connections s)
    (live_connections s) (closed_fds s) (<[i := pc]> (workers s)) (main_at s) (handler_at s)
    (killer_done s) (logger_done s) (terminated s) (h_decs s).
Definition set_mutex (o : option nat) (s : pool) : pool :=
  Pool (server_alive s) (client_queue s) o (clients s) (total_connections s)
    (live_connections s) (closed_fds s) (workers s) (main_at s) (handler_at s)
    (killer_done s) (logger_done s) (terminated s) (h_decs s).
Definition set_main (pc : main_pc) (s : pool) : pool :=
  Pool (server_alive s) (client_queue s) (queue_mutex s) (clients s) (total_connections s)
    (live_connections s) (closed_fds s) (workers s) pc (handler_at s)
    (killer_done s) (logger_done s) (terminated s) (h_decs s).
Definition set_clients (c : gmap Z Client_Info) (s : pool) : pool :=
  Pool (server_alive s) (client_queue s) (queue_mutex s) c (total_connections s)
    (live_connections s) (closed_fds s) (workers s) (main_at s) (handler_at s)
    (killer_done s) (logger_done s) (terminated s) (h_decs s).
Definition set_counters (total live decs : Z) (s : pool) : pool :=
  Pool (server_alive s) (client_queue s) (queue_mutex s) (clients s) total live
    (closed_fds s) (workers s) (main_at s) (handler_at s)
    (killer_done s) (logger_done s) (terminated s) decs.
Definition add_closed (fd : Z) (s : pool) : pool :=
  Pool (server_alive s) (client_queue s) (queue_mutex s) (clients s) (total_connections s)
    (live_connections s) (closed_fds s ++ [fd]) (workers s) (main_at s) (handler_at s)
    (killer_done s) (logger_done s) (terminated s) (h_decs s).
Definition push_fd (fd : Z) (s : pool) : pool :=
  Pool (server_alive s) (client_queue s ++ [fd]) (queue_mutex s) (clients s) (total_connections s)
    (live_connections s) (closed_fds s) (workers s) (main_at s) (handler_at s)
    (killer_done s) (logger_done s) (terminated s) (h_decs s).
Definition pop_fd (q : list Z) (s : pool) : pool :=
  Pool (server_alive s) q (queue_mutex s) (clients s) (total_connections s)
    (live_connections s) (closed_fds s) (workers s) (main_at s) (handler_at s)
    (killer_done s) (logger_done s) (terminated s) (h_decs s).
Definition stop_alive (h : handler_pc) (k : bool) (s : pool) : pool :=
  Pool false (client_queue s) (queue_mutex s) (clients s) (total_connections s)
    (live_connections s) (closed_fds s) (workers s) (main_at s) h
    k (logger_done s) (terminated s) (h_decs s).
Definition set_workers (ws : list worker_pc) (h : handler_pc) (s : pool) : pool :=
  Pool (server_alive s) (client_queue s) (queue_mutex s) (clients s) (total_connections s)
    (live_connections s) (closed_fds s) ws (main_at s) h
    (killer_done s) (logger_done s) (terminated s) (h_decs s).
Definition set_done (k l : bool) (s : pool) : pool :=
  Pool (server_alive s) (client_queue s) (queue_mutex s) (clients s) (total_connections s)
    (live_connections s) (closed_fds s) (workers s) (main_at s) (handler_at s)
    k l (terminated s) (h_decs s).

Definition terminate (s : pool) : pool :=
  Pool (server_alive s) (client_queue s) (queue_mutex s) (clients s) (total_connections s)
    (live_connections s) (closed_fds s) (workers s) (main_at s) (handler_at s)
    (killer_done s) (logger_done s) true (h_decs s).

(** The state when the threads have been started. *)
Definition pool_init (n : nat) : pool :=
  Pool true [] None ∅ 0 0 [] (replicate n WLoop) AWhile HIdle false false false 0.

(** One operation at the end of [handle_conn]; the counters are [size_t]. *)
Definition apply_op (o : shared_op) (s : pool) : pool :=
  match o with
  | EraseClient fd => set_clients (delete fd (clients s)) s
  | CloseSock fd => add_closed fd s
  | DecLive =>
      set_counters (total_connections s) (u64 (live_connections s - 1)) (h_decs s + 1) s
  end.

(** How a call of [handle_conn] ends, if it does: it returns, with shared
    operations left to perform, or an exception leaves it. *)
Inductive conn_end :=
  | Returns (ops : list shared_op)
  | Throws.

(** The operations [handle_conn] can return with. *)
Definition conn_ops_ok (fd : Z) (ops : list shared_op) : bool :=
  bool_decide (ops = [] \/ ops = [DecLive] \/ ops = [EraseClient fd; CloseSock fd; DecLive]).

Definition is_empty (q : list Z) : bool := match q with [] => true | _ => false end.

(** A step of worker [i]; [e] is how the connection it handles ends.  [None]
    when the worker cannot move.  Nothing makes a worker leave [WHandle] when
    [handle_conn] goes on for ever; an exception that leaves [handle_conn] also
    leaves [worker], where nothing catches it, and [std::terminate] ends the
    process. *)
Definition worker_step (i : nat) (e : conn_end) (s : pool) : option pool :=
  match workers s !! i with
  | Some WLoop => Some (set_worker i (if server_alive s then WEnter else WDone) s)
  | Some WEnter | Some WWake =>
      match queue_mutex s with
      | None => Some (set_mutex (Some i) (set_worker i WTest s))
      | Some _ => None
      end
  | Some WTest =>
      Some (set_worker i
        (if negb (is_empty (client_queue s)) || negb (server_alive s) then WTake else WBlock) s)
  | Some WBlock => Some (set_mutex None (set_worker i WWait s))
  | Some WTake =>
      if negb (server_alive s) then Some (set_mutex None (set_worker i WDone s))
      else Some (set_worker i WPop s)
  | Some WPop =>
      match client_queue s with
      | fd :: q => Some (set_mutex None (set_worker i (WHandle fd) (pop_fd q s)))
      | [] => None
      end
  | Some (WHandle fd) =>
      match e with
      | Returns ops => if conn_ops_ok fd ops then Some (set_worker i (WServe ops) s) else None
      | Throws => Some (terminate s)
      end
  | Some (WServe (o :: ops')) => Some (set_worker i (WServe ops') (apply_op o s))
  | Some (WServe []) => Some (set_worker i WLoop s)
  | Some WWait | Some WDone | None => None
  end.

Definition wake (pc : worker_pc) : worker_pc := match pc with WWait => WWake | _ => pc end.
Definition waits (pc : worker_pc) : bool := match pc with WWait => true | _ => false end.
Definition is_done (pc : worker_pc) : bool := match pc with WDone => true | _ => false end.

(** [clean_all]: [main] joins the workers, then the logger, then the listener. *)
Definition clean_all (s : pool) : option pool :=
  match main_at s with
  | AJoin => if forallb is_done (workers s) then Some (set_main AJoinLog s) else None
  | AJoinLog => if logger_done s then Some (set_main AJoinKill s) else None
  | AJoinKill => if killer_done s then Some (set_main AExit s) else None
  | _ => None
  end.

(** [set_conn_timeout], from the results of its two calls of [setsockopt]. *)
Definition set_conn_timeout (rcv_rc snd_rc : Z) : bool :=
  if rcv_rc <? 0 then false else if snd_rc <? 0 then false else true.

(** A step of [main]: [accepted] is what [accept] returns, [rcv_rc] and
    [snd_rc] what the calls of [set_conn_timeout] return, [woken] the waiter
    [notify_one] picks. *)
Definition main_step (accepted rcv_rc snd_rc : Z) (woken : nat) (s : pool) : option pool :=
  match main_at s with
  | AWhile => Some (set_main (if server_alive s then AAccept else ANotifyAll) s)
  | AAccept => Some (set_main (ATest accepted) s)
  | ATest fd =>
      if negb (server_alive s) then Some (set_main ANotifyAll (add_closed fd s))
      else if fd <? 0 then Some (set_main AWhile s)
      else Some (set_main (AConfig fd) s)
  | AConfig fd =>
      if negb (set_conn_timeout rcv_rc snd_rc) then Some (set_main AWhile (add_closed fd s))
      else Some (set_main (AInsert fd) s)
  | AInsert fd => Some (set_main (APush fd) (set_clients (<[fd := ClientInfo true]> (clients s)) s))
  | APush fd =>
      match queue_mutex s with
      | None => Some (set_main ANotify (push_fd fd s))
      | Some _ => None
      end
  | ANotify =>
      if existsb waits (workers s) then
        match workers s !! woken with
        | Some WWait => Some (set_main ATotal (set_worker woken WWake s))
        | _ => None
        end
      else Some (set_main ATotal s)
  | ATotal =>
      Some (set_main ALive
        (set_counters (u64 (total_connections s + 1)) (live_connections s) (h_decs s) s))
  | ALive =>
      Some (set_main AWhile
        (set_counters (total_connections s) (u64 (live_connections s + 1)) (h_decs s) s))
  | ANotifyAll => Some (set_main AJoin (set_workers (wake <$> workers s) (handler_at s) s))
  | AJoin | AJoinLog | AJoinKill => clean_all s
  | AExit => None
  end.

(** [handle_signal]: the store to [server_alive], then the notification.  The
    [shutdown] that follows makes [accept] return, which it may do anyway. *)
Definition handle_signal_store (s : pool) : option pool :=
  match handler_at s with
  | HIdle => Some (stop_alive HNotify (killer_done s) s)
  | HNotify => None
  end.

Definition handle_signal_notify (s : pool) : option pool :=
  match handler_at s with
  | HNotify => Some (set_workers (wake <$> workers s) HIdle s)
  | HIdle => None
  end.

(** [kill_server]: what [std::cin >> switch_char] reads, if anything. *)
Definition kill_server (c : option byte) (s : pool) : option pool :=
  if killer_done s then None else
  if bool_decide (c = Some x71) then Some (stop_alive (handler_at s) true s)
  else Some (set_done true (logger_done s) s).

(** One round of [logger]: it ends when the server is not alive. *)
Definition logger_round (s : pool) : pool :=
  if server_alive s then s else set_done (killer_done s) true s.

Inductive pool_label :=
  | LWorker (i : nat) (e : conn_end)
  | LSpurious (i : nat)        (* [wait] may return without a notification *)
  | LMain (accepted rcv_rc snd_rc : Z) (woken : nat)
  | LSignal                    (* SIGTERM or SIGINT arrives: [server_alive = false] *)
  | LHandler                   (* the handler's [notify_all] *)
  | LKill (c : option byte)    (* [kill_server] reads a character, or fails to *)
  | LLogger.                   (* the logger looks at [server_alive] *)

Definition thread_step (l : pool_label) (s : pool) : option pool :=
  match l with
  | LWorker i e => worker_step i e s
  | LSpurious i =>
      match workers s !! i with
      | Some WWait => Some (set_worker i WWake s)
      | _ => None
      end
  | LMain r t1 t2 k => main_step r t1 t2 k s
  | LSignal => handle_signal_store s
  | LHandler => handle_signal_notify s
  | LKill c => kill_server c s
  | LLogger => Some (logger_round s)
  end.

(** Nothing moves once the process has ended. *)
Definition pool_step (l : pool_label) (s : pool) : option pool :=
  if terminated s then None else thread_step l s.

Lemma pool_step_thread l s s' :
  pool_step l s = Some s' -> terminated s = false /\ thread_step l s = Some s'.
Proof. unfold pool_step. by destruct (terminated s). Qed.

Fixpoint pool_exec (ls : list pool_label) (s : pool) : option pool :=
  match ls with
  | [] => Some s
  | l :: ls' => match pool_step l s with Some s' => pool_exec ls' s' | None => None end
  end.

(** The states that executions of a pool of [n] workers reach. *)
Inductive reachable (n : nat) : pool -> Prop :=
  | reach_init : reachable n (pool_init n)
  | reach_step l s s' : reachable n s -> pool_step l s = Some s' -> reachable n s'.

(** ** The invariant *)

Definition holds (pc : worker_pc) : bool :=
  match pc with WTest | WBlock | WTake | WPop => true | _ => false end.

(** Workers that will look at the queue again before they sleep. *)
Definition awake (pc : worker_pc) : bool :=
  match pc with WWait | WDone => false | _ => true end.

(** What is true of worker [i] at [pc]: the mutex is its exactly while it is in
    the critical section, and what it has seen there still holds. *)
Definition worker_ok (s : pool) (i : nat) (pc : worker_pc) : Prop :=
  (holds pc = true <-> queue_mutex s = Some i) /\
  match pc with
  | WBlock => client_queue s = []
  | WTake => client_queue s <> [] \/ server_alive s = false
  | WPop => client_queue s <> []
  | WDone => server_alive s = false
  | _ => True
  end.

Record inv (n : nat) (s : pool) : Prop := {
  inv_size : length (workers s) = n;
  inv_workers i pc : workers s !! i = Some pc -> worker_ok s i pc;
  inv_notify : server_alive s = true -> client_queue s <> [] ->
    main_at s = ANotify \/ exists i pc, workers s !! i = Some pc /\ awake pc = true
}.

Lemma inv_init n : inv n (pool_init n).
Proof.
  split; simpl; [apply length_replicate| |done].
  intros i pc [-> _]%lookup_replicate. by split.
Qed.

(** A step of worker [i] that leaves the other workers' conditions alone. *)
Lemma workers_ok_set i pc s s' :
  (forall j pc, workers s !! j = Some pc -> worker_ok s j pc) ->
  (forall j pc, j <> i -> worker_ok s j pc -> worker_ok s' j pc) ->
  worker_ok s' i pc -> workers s' = <[i := pc]> (workers s) ->
  forall j pc, workers s' !! j = Some pc -> worker_ok s' j pc.
Proof.
  intros Hall Hothers Hi -> j pc' Hj. destruct (decide (j = i)) as [->|Hne].
  - apply list_lookup_insert_Some in Hj as [(_ & -> & _)|[? _]]; done.
  - rewrite list_lookup_insert_ne in Hj by done. auto.
Qed.

(** Another worker does not notice when a worker without the mutex moves. *)
Lemma worker_ok_frame s s' j pc :
  queue_mutex s' = queue_mutex s -> client_queue s' = client_queue s ->
  (server_alive s = false -> server_alive s' = false) ->
  worker_ok s j pc -> worker_ok s' j pc.
Proof.
  unfold worker_ok. intros -> -> Ha [Ho H]. split; [done|].
  destruct pc; try done; naive_solver.
Qed.

(** Nor when the mutex goes from a worker [i] to nobody or back. *)
Lemma worker_ok_others s s' i j pc :
  j <> i -> (queue_mutex s = Some i \/ queue_mutex s = None) ->
  (queue_mutex s' = Some i \/ queue_mutex s' = None) ->
  (server_alive s = false -> server_alive s' = false) ->
  worker_ok s j pc -> worker_ok s' j pc.
Proof.
  unfold worker_ok. intros Hne Hm Hm' Ha [Ho H].
  assert (queue_mutex s <> Some j /\ queue_mutex s' <> Some j) as [Hj Hj'] by naive_solver.
  assert (holds pc = false) as Hh by (destruct (holds pc); naive_solver).
  split; [rewrite Hh; naive_solver|]. destruct pc; naive_solver.
Qed.

(** Waking every sleeper keeps the workers' conditions. *)
Lemma workers_ok_wake s h :
  (forall i pc, workers s !! i = Some pc -> worker_ok s i pc) ->
  forall i pc, (wake <$> workers s) !! i = Some pc ->
    worker_ok (set_workers (wake <$> workers s) h s) i pc.
Proof.
  intros Hall i pc Hi. rewrite list_lookup_fmap in Hi.
  destruct (workers s !! i) as [pc'|] eqn:E; simplify_eq/=.
  apply Hall in E. by destruct pc'.
Qed.

Lemma awake_set i pc0 pc s :
  workers s !! i = Some pc0 -> awake pc = true ->
  exists j pc', <[i := pc]> (workers s) !! j = Some pc' /\ awake pc' = true.
Proof.
  intros Hi Hp. exists i, pc. split; [|done].
  apply list_lookup_insert_eq. by eapply lookup_lt_Some.
Qed.

(** A step of worker [i] to [pc] preserves the invariant when the mutex is and
    stays the worker's own or free, and the worker's new conditions hold. *)
Lemma inv_worker_move n i pc0 pc s s' :
  inv n s -> workers s !! i = Some pc0 -> workers s' = <[i := pc]> (workers s) ->
  (forall j pc, j <> i -> worker_ok s j pc -> worker_ok s' j pc) ->
  worker_ok s' i pc ->
  (awake pc = true \/ server_alive s' = false \/ client_queue s' = []) ->
  inv n s'.
Proof.
  intros [Hs Hw Hn] Hi Hws Hoth Hok Haw. split.
  - by rewrite Hws, length_insert.
  - by eapply workers_ok_set.
  - intros Ha Hq. right. rewrite Hws. destruct Haw as [Haw|[?|?]]; [|congruence|congruence].
    by eapply awake_set.
Qed.

(** Steps that leave the workers, the queue and the mutex alone and do not
    leave [ANotify]. *)
Lemma inv_frame n s s' :
  inv n s -> workers s' = workers s -> queue_mutex s' = queue_mutex s ->
  client_queue s' = client_queue s ->
  (server_alive s' = true -> server_alive s = true) ->
  (main_at s = ANotify -> main_at s' = ANotify) -> inv n s'.
Proof.
  intros [Hs Hw Hn] Ew Em Eq Ha Hmain. split; [congruence| |].
  - intros i pc Hi. rewrite Ew in Hi. eapply worker_ok_frame; [done|done| |by apply Hw].
    intros Hal. destruct (server_alive s'); naive_solver.
  - rewrite Eq, Ew. naive_solver.
Qed.

Lemma worker_step_inv n i e s s' : inv n s -> worker_step i e s = Some s' -> inv n s'.
Proof.
  intros Hinv. pose proof Hinv as [Hs Hw Hn]. unfold worker_step.
  destruct (workers s !! i) as [pc0|] eqn:Hi; [|done].
  pose proof (Hw _ _ Hi) as [Ho Hc].
  destruct pc0 as [| | | | | | | |fd|[|o ops']|]; simpl in Ho, Hc; try done.
  - intros [= <-]. eapply inv_worker_move; try done.
    + unfold worker_ok. destruct (server_alive s) eqn:Ha; simpl; naive_solver.
    + simpl. destruct (server_alive s); auto.
  - destruct (queue_mutex s) eqn:Hm; [done|]. intros [= <-].
    eapply (inv_worker_move n i _ WTest); try done; [|by left].
    intros j pc Hj. apply (worker_ok_others _ _ i); simpl; auto.
  - intros [= <-]. eapply inv_worker_move; try done.
    + unfold worker_ok. destruct (client_queue s) eqn:Hq, (server_alive s) eqn:Ha; simpl;
        rewrite ?Hq; naive_solver.
    + destruct (_ || _); by left.
  - intros [= <-]. eapply (inv_worker_move n i _ WWait); try done; [|by right; right].
    intros j pc Hj. apply (worker_ok_others _ _ i); simpl; naive_solver.
  - destruct (queue_mutex s) eqn:Hm; [done|]. intros [= <-].
    eapply (inv_worker_move n i _ WTest); try done; [|by left].
    intros j pc Hj. apply (worker_ok_others _ _ i); simpl; auto.
  - destruct (server_alive s) eqn:Ha; simpl; intros [= <-].
    + eapply (inv_worker_move n i _ WPop); try done; [|by left].
      unfold worker_ok. simpl. naive_solver.
    + eapply (inv_worker_move n i _ WDone); try done; [|by right; left].
      intros j pc Hj. apply (worker_ok_others _ _ i); simpl; naive_solver.
  - destruct (client_queue s) as [|fd q] eqn:Hq; [done|]. intros [= <-].
    eapply (inv_worker_move n i _ (WHandle fd)); try done; [|by left].
    intros j pc Hj. apply (worker_ok_others _ _ i); simpl; naive_solver.
  - destruct e as [ops|]; [|intros [= <-]; by apply (inv_frame n s)].
    destruct (conn_ops_ok fd ops); [|done]. intros [= <-].
    eapply (inv_worker_move n i _ (WServe ops)); try done. by left.
  - intros [= <-]. eapply (inv_worker_move n i _ WLoop); try done. by left.
  - intros [= <-]. destruct o; (eapply (inv_worker_move n i _ (WServe ops')); try done; by left).
Qed.

Lemma existsb_waits ws i : existsb waits ws = false -> ws !! i <> Some WWait.
Proof.
  intros He Hi. apply not_true_iff_false in He. apply He, existsb_exists.
  exists WWait. split; [|done]. by apply list_elem_of_In, (list_elem_of_lookup_2 _ i).
Qed.

Lemma main_step_inv n r t1 t2 k s s' :
  (0 < n)%nat -> inv n s -> main_step r t1 t2 k s = Some s' -> inv n s'.
Proof.
  intros Hpos Hinv. pose proof Hinv as [Hs Hw Hn]. unfold main_step, clean_all.
  destruct (main_at s) as [| |fd|fd|fd|fd| | | | | | | |] eqn:Hm; repeat case_match; intros Hst;
    simplify_eq;
    try (apply (inv_frame _ s); simpl; congruence).
  - split; simpl; [done| |by left].
    intros i pc Hi. destruct (Hw _ _ Hi) as [Ho Hc]. split; [done|].
    destruct pc; try done; simpl; naive_solver.
  - split; simpl; [by rewrite length_insert| |intros _ _; right; by eapply awake_set].
    apply (workers_ok_set k WWake s (set_main ATotal (set_worker k WWake s))); try done.
    match goal with H : workers s !! k = Some WWait |- _ => destruct (Hw _ _ H) as [Ho _] end.
    by split.
  - split; simpl; [done|done|]. intros Ha _. right.
    destruct (lookup_lt_is_Some_2 (workers s) 0) as [pc Hpc]; [lia|].
    exists 0%nat, pc. split; [done|].
    match goal with H : existsb waits _ = false |- _ => pose proof (existsb_waits _ 0 H) as Hx end.
    destruct (Hw _ _ Hpc) as [_ Hd]. destruct pc; try done; simpl in *; congruence.
  - split; simpl; [by rewrite length_fmap|by apply workers_ok_wake|].
    intros Ha Hq. right. destruct (Hn Ha Hq) as [?|(i & pc & Hi & Hp)]; [congruence|].
    exists i, (wake pc). rewrite list_lookup_fmap, Hi. split; [done|]. by destruct pc.
Qed.

Lemma pool_step_inv n l s s' : (0 < n)%nat -> inv n s -> pool_step l s = Some s' -> inv n s'.
Proof.
  intros Hpos Hinv [_ Hst]%pool_step_thread. revert Hst. pose proof Hinv as [Hs Hw Hn].
  destruct l as [i e|i|r t1 t2 k| | |c|]; simpl.
  - by apply worker_step_inv.
  - destruct (workers s !! i) as [[]|] eqn:Hi; try done. intros [= <-].
    eapply (inv_worker_move n i _ WWake); try done; [|by left].
    by destruct (Hw _ _ Hi).
  - by apply main_step_inv.
  - unfold handle_signal_store. destruct (handler_at s); [|done]. intros [= <-].
    by apply (inv_frame n s).
  - unfold handle_signal_notify. destruct (handler_at s) eqn:Hh; [done|]. intros [= <-].
    split; simpl; [by rewrite length_fmap|by apply workers_ok_wake|].
    intros Ha Hq. destruct (Hn Ha Hq) as [?|(i & pc & Hi & Hp)]; [by left|right].
    exists i, (wake pc). rewrite list_lookup_fmap, Hi. split; [done|]. by destruct pc.
  - unfold kill_server. destruct (killer_done s); [done|].
    case_bool_decide; intros [= <-]; by apply (inv_frame n s).
  - unfold logger_round. destruct (server_alive s) eqn:Ha; intros [= <-]; by apply (inv_frame n s).
Qed.

Lemma reachable_inv n s : (0 < n)%nat -> reachable n s -> inv n s.
Proof. intros Hn. induction 1; eauto using inv_init, pool_step_inv. Qed.

(** ** Properties *)

(** C24: The queue is accessed by one worker at a time, and a worker that is
    about to call [front] and [pop] finds the queue not empty: the second test
    of [server_alive] covers the case where [wait] returned because of the
    shutdown, since [server_alive] never becomes true again. *)
Theorem queue_access_safe (n : nat) (s : pool) :
  (0 < n)%nat -> reachable n s ->
  (forall i j pi pj, workers s !! i = Some pi -> workers s !! j = Some pj ->
     holds pi = true -> holds pj = true -> i = j) /\
  (forall i, workers s !! i = Some WPop -> client_queue s <> []).
Proof.
  intros Hn Hr. destruct (reachable_inv n s Hn Hr) as [_ Hw _]. split.
  - intros i j pi pj Hi Hj Hpi Hpj. destruct (Hw _ _ Hi) as [Ho _], (Hw _ _ Hj) as [Ho' _].
    naive_solver.
  - intros i Hi. by destruct (Hw _ _ Hi).
Qed.

(** What is seen of an execution: the lists [obs] gives for its steps, in order. *)
Fixpoint observe (obs : pool_label -> pool -> pool -> list Z) (ls : list pool_label) (s : pool)
    : list Z :=
  match ls with
  | [] => []
  | l :: ls' =>
      match pool_step l s with Some s' => obs l s s' ++ observe obs ls' s' | None => [] end
  end.

(** [main] admits a connection when it goes on from [set_conn_timeout] to the
    table of clients. *)
Definition admits (l : pool_label) (s s' : pool) : list Z :=
  match main_at s, main_at s' with AConfig _, AInsert fd => [fd] | _, _ => [] end.

(** A worker's step leads into [handle_conn]. *)
Definition begins (l : pool_label) (s s' : pool) : list Z :=
  match l with
  | LWorker i _ =>
      match workers s !! i, workers s' !! i with
      | Some (WHandle _), _ => []
      | _, Some (WHandle fd) => [fd]
      | _, _ => []
      end
  | _ => []
  end.

(** The connection [main] has admitted and not pushed yet. *)
Definition in_flight (s : pool) : list Z :=
  match main_at s with AInsert fd | APush fd => [fd] | _ => [] end.

(** A worker's step takes the head of the queue into [handle_conn], or leaves the
    queue alone and does not lead there. *)
Lemma worker_step_queue i e s s' :
  worker_step i e s = Some s' ->
  main_at s' = main_at s /\
  (begins (LWorker i e) s s' ++ client_queue s' = client_queue s).
Proof.
  unfold worker_step. destruct (workers s !! i) as [pc|] eqn:Hi; [|done].
  assert (forall pc', (<[i := pc']> (workers s)) !! i = Some pc') as Hins.
  { intros pc'. apply list_lookup_insert_eq. by eapply lookup_lt_Some. }
  unfold begins. rewrite Hi.
  destruct pc as [| | | | | | | |fd|[|o ops]|]; try done.
  - intros [= <-]. cbn. rewrite Hins. by destruct (server_alive s).
  - destruct (queue_mutex s); [done|]. intros [= <-]. cbn. by rewrite Hins.
  - intros [= <-]. cbn. rewrite Hins. by destruct (_ || _).
  - intros [= <-]. cbn. by rewrite Hins.
  - destruct (queue_mutex s); [done|]. intros [= <-]. cbn. by rewrite Hins.
  - destruct (negb _); intros [= <-]; cbn; by rewrite Hins.
  - destruct (client_queue s) as [|fd q]; [done|]. intros [= <-]. cbn. by rewrite Hins.
  - destruct e; [destruct (conn_ops_ok _ _); [|done]|]; by intros [= <-].
  - intros [= <-]. cbn. by rewrite Hins.
  - intros [= <-]. destruct o; cbn; by rewrite Hins.
Qed.

(** One step: what it hands to a worker, what is queued and what is in flight. *)
Lemma step_in_order l s s' :
  pool_step l s = Some s' ->
  begins l s s' ++ client_queue s' ++ in_flight s' = client_queue s ++ in_flight s ++ admits l s s'.
Proof.
  intros [_ Hst]%pool_step_thread.
  assert (main_at s' = main_at s -> begins l s s' ++ client_queue s' = client_queue s ->
    begins l s s' ++ client_queue s' ++ in_flight s' =
      client_queue s ++ in_flight s ++ admits l s s') as Hsame.
  { unfold in_flight, admits. intros -> Hq. rewrite app_assoc, Hq.
    destruct (main_at s); simpl; by rewrite ?app_nil_r. }
  destruct l as [i e|i|r t1 t2 k| | |c|]; cbn [thread_step] in Hst.
  - apply worker_step_queue in Hst as [Hm Hq]. auto.
  - repeat case_match; simplify_eq. by apply Hsame.
  - clear Hsame. unfold main_step, clean_all in Hst. unfold admits, in_flight.
    destruct (main_at s) eqn:E; repeat case_match; simplify_eq/=; rewrite ?E, ?app_nil_r in *;
      try done; congruence.
  - unfold handle_signal_store in Hst. repeat case_match; simplify_eq. by apply Hsame.
  - unfold handle_signal_notify in Hst. repeat case_match; simplify_eq. by apply Hsame.
  - unfold kill_server in Hst. repeat case_match; simplify_eq; by apply Hsame.
  - unfold logger_round in Hst. repeat case_match; simplify_eq; by apply Hsame.
Qed.

Lemma exec_in_order ls : forall s s',
  pool_exec ls s = Some s' ->
  observe begins ls s ++ client_queue s' ++ in_flight s' =
    client_queue s ++ in_flight s ++ observe admits ls s.
Proof.
  induction ls as [|l ls IH]; intros s s'; simpl; [intros [= <-]; by rewrite app_nil_r|].
  destruct (pool_step l s) as [s1|] eqn:E; [|done]. intros He%IH. apply step_in_order in E.
  rewrite <- app_assoc, He, !app_assoc. rewrite !app_assoc in E. by rewrite E.
Qed.

(** C25: First in, first out.  In every execution, the connections that workers
    have begun to handle, in the order they began, followed by those in the
    queue and by the one [main] is about to push, are exactly the connections
    [main] has admitted (accepted, with its timeouts set), in the order it
    admitted them: none is lost, handled twice or overtaken. *)
Theorem connections_served_in_order (n : nat) (ls : list pool_label) (s : pool) :
  pool_exec ls (pool_init n) = Some s ->
  observe admits ls (pool_init n) =
    observe begins ls (pool_init n) ++ client_queue s ++ in_flight s.
Proof. intros H%exec_in_order. symmetry. exact H. Qed.

(** C15: No accepted connection is stranded: while the server is alive and the
    queue is not empty, either [main] is about to notify, or some worker is
    awake and will look at the queue again before it sleeps. *)
Theorem no_stranded_connection (n : nat) (s : pool) :
  (0 < n)%nat -> reachable n s -> server_alive s = true -> client_queue s <> [] ->
  main_at s = ANotify \/ exists i pc, workers s !! i = Some pc /\ awake pc = true.
Proof. intros Hn Hr. destruct (reachable_inv n s Hn Hr) as [_ _ H]. exact H. Qed.

Lemma u64_add_idemp a b : u64 (u64 a + b) = u64 (a + b).
Proof. apply Zplus_mod_idemp_l. Qed.

(** The connections counted in [total_connections] but not yet in
    [live_connections]. *)
Definition pending_live (s : pool) : Z := match main_at s with ALive => 1 | _ => 0 end.

(** What [live_connections] counts: in every reachable state it is the
    number of connections [main] has counted, less the decrements performed by
    the workers, modulo 2^64.  Connections whose key exchange fails are never
    subtracted. *)
Theorem live_connections_value (n : nat) (s : pool) :
  reachable n s ->
  live_connections s = u64 (total_connections s - pending_live s - h_decs s).
Proof.
  induction 1 as [|l s s' Hr IH Hst]; [done|].
  assert (forall s1, live_connections s1 = live_connections s ->
    total_connections s1 = total_connections s -> h_decs s1 = h_decs s ->
    pending_live s1 = pending_live s ->
    live_connections s1 = u64 (total_connections s1 - pending_live s1 - h_decs s1)) as Hsame
    by (intros s1 -> -> -> ->; exact IH).
  apply pool_step_thread in Hst as [_ Hst].
  destruct l as [i e|i|r t1 t2 k| | |c|]; simpl in Hst;
    unfold handle_signal_store, handle_signal_notify, kill_server, logger_round in Hst.
  - unfold worker_step in Hst. repeat case_match; simplify_eq; try (by apply Hsame).
    match goal with |- context [apply_op ?o _] => destruct o end; try (by apply Hsame).
    cbn. rewrite IH.
    unfold Z.sub at 1. rewrite u64_add_idemp. unfold pending_live. simpl. f_equal. lia.
  - repeat case_match; simplify_eq; by apply Hsame.
  - unfold main_step, clean_all in Hst. unfold pending_live in *.
    destruct (main_at s) eqn:Hm; repeat case_match; simplify_eq/=; rewrite ?Hm; try done.
    + rewrite IH. replace (u64 (total_connections s + 1) - 1 - h_decs s)
        with (u64 (total_connections s + 1) + (- 1 - h_decs s)) by lia.
      rewrite u64_add_idemp. f_equal. lia.
    + rewrite IH, u64_add_idemp. f_equal. lia.
  - repeat case_match; simplify_eq; by apply Hsame.
  - repeat case_match; simplify_eq; by apply Hsame.
  - repeat case_match; simplify_eq; by apply Hsame.
  - repeat case_match; simplify_eq; by apply Hsame.
Qed.

(** ** Executions the code does not intend *)

Lemma pool_exec_reachable n ls : forall s s',
  reachable n s -> pool_exec ls s = Some s' -> reachable n s'.
Proof.
  induction ls as [|l ls IH]; intros s s' Hr; simpl; [by intros [= <-]|].
  destruct (pool_step l s) as [s1|] eqn:E; [|done]. apply IH. by eapply reach_step.
Qed.

(** A property that every step allowed by [P] preserves. *)
Lemma pool_exec_invariant (P : pool_label -> Prop) (Q : pool -> Prop) :
  (forall l s s', P l -> Q s -> pool_step l s = Some s' -> Q s') ->
  forall ls s s', Forall P ls -> Q s -> pool_exec ls s = Some s' -> Q s'.
Proof.
  intros Hstep ls. induction ls as [|l ls IH]; intros s s' HP HQ; simpl; [by intros [= <-]|].
  apply Forall_cons in HP as [Hl HP]. destruct (pool_step l s) as [s1|] eqn:E; [|done]. eauto.
Qed.

(** [main] goes on to its next statement; worker [i] does. *)
Definition m_step : pool_label := LMain 5 0 0 0.
Definition w_step (i : nat) : pool_label := LWorker i (Returns []).

(** A worker takes and ends a connection whose login fails before [main] has
    counted it. *)
Definition underflow_trace : list pool_label :=
  replicate 6 m_step ++ replicate 5 (w_step 0) ++ [LWorker 0 (Returns [DecLive]); w_step 0].

(** C34: [live_connections] can wrap around: [main] pushes a connection and
    notifies the workers before it increments the counter, so a connection that
    ends at once (a failed login) is subtracted before it is added, and the
    [size_t] counter reads 2^64 - 1. *)
Theorem live_connections_can_wrap :
  exists s, reachable POOL_SIZE s /\ server_alive s = true /\ live_connections s = 2 ^ 64 - 1.
Proof.
  destruct (pool_exec underflow_trace (pool_init POOL_SIZE)) as [s|] eqn:E; [|vm_compute in E; done].
  exists s. split; [eapply pool_exec_reachable; [apply reach_init|exact E]|].
  vm_compute in E. injection E as <-. done.
Qed.

(** A signal arrives while a worker has found the queue empty and is about to
    block. *)
Definition lost_wakeup_trace : list pool_label :=
  replicate 3 (w_step 0) ++ [LSignal; LHandler] ++ replicate 2 m_step ++ [w_step 0].

(** Neither a further signal nor a spurious wake-up. *)
Definition undisturbed (l : pool_label) : Prop :=
  match l with LSignal | LSpurious _ => False | _ => True end.

Definition asleep_at_join (s : pool) : Prop :=
  workers s !! 0%nat = Some WWait /\ main_at s = AJoin /\ handler_at s = HIdle.

Lemma asleep_forever l s s' :
  undisturbed l -> asleep_at_join s -> pool_step l s = Some s' -> asleep_at_join s'.
Proof.
  intros Hl (Hw & Hm & Hh) [_ Hst]%pool_step_thread. revert Hst. unfold asleep_at_join.
  destruct l as [i e|i|r t1 t2 k| | |c|]; simpl in *; try done.
  - unfold worker_step. destruct (decide (i = 0%nat)) as [->|Hi]; [by rewrite Hw|].
    repeat case_match; intros; simplify_eq/=; rewrite ?list_lookup_insert_ne by done; try done.
    match goal with |- context [apply_op ?o _] => by destruct o end.
  - unfold main_step, clean_all. rewrite Hm. destruct (forallb is_done (workers s)) eqn:Hd; [|done].
    rewrite forallb_forall in Hd. specialize (Hd WWait).
    by rewrite <- list_elem_of_In in Hd; discriminate Hd; eapply list_elem_of_lookup_2.
  - unfold handle_signal_notify. by rewrite Hh.
  - unfold kill_server. repeat case_match; intros; by simplify_eq/=.
  - unfold logger_round. repeat case_match; intros; by simplify_eq/=.
Qed.

(** C33: A shutdown can hang: [handle_signal] and [main] change [server_alive]
    and notify without holding [queue_mutex], so both notifications can fall
    between a worker's evaluation of the predicate and its going to sleep.  Then
    the server is no longer alive, [main] joins the worker, and, without a
    further signal or a spurious wake-up, both wait for ever. *)
Theorem shutdown_can_hang :
  exists s, reachable POOL_SIZE s /\ server_alive s = false /\
    forall ls s', Forall undisturbed ls -> pool_exec ls s = Some s' ->
      workers s' !! 0%nat = Some WWait /\ main_at s' = AJoin.
Proof.
  destruct (pool_exec lost_wakeup_trace (pool_init POOL_SIZE)) as [s|] eqn:E;
    [|vm_compute in E; done].
  exists s. split; [eapply pool_exec_reachable; [apply reach_init|exact E]|].
  assert (server_alive s = false /\ asleep_at_join s) as [Ha Hs]
    by (vm_compute in E; injection E as <-; done).
  split; [done|]. intros ls s' Hls He.
  destruct (pool_exec_invariant _ _ asleep_forever ls s s' Hls Hs He) as (? & ? & _). done.
Qed.

(** [main] returns only after it has joined the thread of [kill_server]. *)
Lemma exit_after_killer n s : reachable n s -> main_at s = AExit -> killer_done s = true.
Proof.
  induction 1 as [|l s s' Hr IH [_ Hst]%pool_step_thread]; [done|].
  destruct l as [i e|i|r t1 t2 k| | |c|]; cbn [thread_step] in Hst.
  - unfold worker_step in Hst. repeat case_match; simplify_eq/=; try done.
    match goal with |- context [apply_op ?o _] => by destruct o end.
  - repeat case_match; by simplify_eq/=.
  - unfold main_step, clean_all in Hst. repeat case_match; by simplify_eq/=.
  - unfold handle_signal_store in Hst. repeat case_match; by simplify_eq/=.
  - unfold handle_signal_notify in Hst. repeat case_match; by simplify_eq/=.
  - unfold kill_server in Hst. repeat case_match; by simplify_eq/=.
  - unfold logger_round in Hst. repeat case_match; by simplify_eq/=.
Qed.

(** The thread of [kill_server] ends only when its read of the terminal does. *)
Definition nothing_typed (l : pool_label) : Prop := forall c, l <> LKill c.

Lemma killer_waits l s s' :
  nothing_typed l -> killer_done s = false -> pool_step l s = Some s' -> killer_done s' = false.
Proof.
  intros Hl Hk [_ Hst]%pool_step_thread. revert Hst.
  destruct l as [i e|i|r t1 t2 k| | |c|]; cbn [thread_step]; [| | | | |by destruct (Hl c)|];
    unfold worker_step, main_step, clean_all, handle_signal_store, handle_signal_notify, logger_round;
    repeat case_match; intros; simplify_eq/=; try done.
  match goal with |- context [apply_op ?o _] => by destruct o end.
Qed.

(** A signal arrives, every other thread ends, and nothing is typed. *)
Definition sigterm_trace : list pool_label :=
  [LSignal; LHandler; LLogger; m_step; m_step] ++ (w_step <$> seq 0 POOL_SIZE) ++ [m_step; m_step].

Definition waits_for_terminal (s : pool) : Prop := main_at s = AJoinKill /\ killer_done s = false.

Lemma waits_for_terminal_step l s s' :
  nothing_typed l -> waits_for_terminal s -> pool_step l s = Some s' -> waits_for_terminal s'.
Proof.
  intros Hl [Hm Hk] Hst. split; [|by eapply killer_waits].
  apply pool_step_thread in Hst as [_ Hst]. revert Hst.
  destruct l as [i e|i|r t1 t2 k| | |c|]; cbn [thread_step]; [| | | | |by destruct (Hl c)|];
    unfold worker_step, main_step, clean_all, handle_signal_store, handle_signal_notify, logger_round;
    rewrite ?Hm, ?Hk; repeat case_match; intros; simplify_eq/=; try done.
  match goal with |- context [apply_op ?o _] => by destruct o end.
Qed.

(** C35: A signal does not make the server exit by itself: [main] joins the
    thread of [kill_server], which reads the terminal.  From every reachable
    state in which that read has not ended, whatever signals arrive and whatever
    the threads do, [main] does not return as long as nothing is typed and the
    input does not end; and there is such a state, after a signal, in which every
    worker and the logger have ended and nothing but the terminal is waited
    for. *)
Theorem sigterm_waits_for_terminal :
  (forall n s ls s', reachable n s -> killer_done s = false -> Forall nothing_typed ls ->
     pool_exec ls s = Some s' -> main_at s' <> AExit) /\
  exists s, reachable POOL_SIZE s /\ server_alive s = false /\ logger_done s = true /\
    Forall (fun pc => pc = WDone) (workers s) /\
    forall ls s', Forall nothing_typed ls -> pool_exec ls s = Some s' -> main_at s' = AJoinKill.
Proof.
  split.
  - intros n s ls s' Hr Hk Hls He Hm.
    pose proof (pool_exec_invariant nothing_typed (fun s => killer_done s = false) killer_waits
      ls s s' Hls Hk He) as Hk'. cbv beta in Hk'.
    rewrite (exit_after_killer n s') in Hk'; [done| |done]. by eapply pool_exec_reachable.
  - destruct (pool_exec sigterm_trace (pool_init POOL_SIZE)) as [s|] eqn:E; [|vm_compute in E; done].
    exists s. split; [eapply pool_exec_reachable; [apply reach_init|exact E]|].
    vm_compute in E. injection E as <-. split_and!; try done; [by repeat constructor|].
    intros ls s' Hls He.
    by apply (pool_exec_invariant _ _ waits_for_terminal_step) in He as [? _].
Qed.

(** ** Concrete runs *)

(** [main] has pushed a connection; one worker is about to take it. *)
Definition taking_trace : list pool_label := replicate 6 m_step ++ replicate 4 (w_step 0).

Lemma taking_reachable :
  exists s, reachable POOL_SIZE s /\ workers s !! 0%nat = Some WPop /\ client_queue s = [5] /\
    server_alive s = true.
Proof.
  destruct (pool_exec taking_trace (pool_init POOL_SIZE)) as [s|] eqn:E; [|vm_compute in E; done].
  exists s. split; [eapply pool_exec_reachable; [apply reach_init|exact E]|].
  vm_compute in E. injection E as <-. done.
Qed.

Lemma queue_access_safe_witness :
  exists s, reachable POOL_SIZE s /\ workers s !! 0%nat = Some WPop /\ client_queue s <> [].
Proof.
  destruct taking_reachable as (s & Hr & Hw & _). exists s. split; [exact Hr|]. split; [exact Hw|].
  apply (proj2 (queue_access_safe POOL_SIZE s ltac:(vm_compute; lia) Hr) 0%nat Hw).
Defined.

(** Two connections are accepted; a worker has taken the first one. *)
Definition two_conns_trace : list pool_label :=
  replicate 9 m_step ++ replicate 5 (w_step 0) ++ replicate 6 (LMain 6 0 0 0).

Lemma connections_served_in_order_witness :
  exists s, pool_exec two_conns_trace (pool_init POOL_SIZE) = Some s /\ client_queue s = [6] /\
    observe begins two_conns_trace (pool_init POOL_SIZE) = [5] /\
    observe admits two_conns_trace (pool_init POOL_SIZE) =
      observe begins two_conns_trace (pool_init POOL_SIZE) ++ client_queue s ++ in_flight s.
Proof.
  destruct (pool_exec two_conns_trace (pool_init POOL_SIZE)) as [s|] eqn:E; [|vm_compute in E; done].
  exists s. split; [reflexivity|].
  pose proof (connections_served_in_order POOL_SIZE two_conns_trace s E) as H.
  vm_compute in E. injection E as <-.
  split; [reflexivity|]. split; [vm_compute; reflexivity|exact H].
Defined.

Lemma no_stranded_connection_witness :
  exists s, client_queue s = [5] /\
    (main_at s = ANotify \/ exists i pc, workers s !! i = Some pc /\ awake pc = true).
Proof.
  destruct taking_reachable as (s & Hr & _ & Hq & Ha). exists s. split; [exact Hq|].
  apply (no_stranded_connection POOL_SIZE s); [vm_compute; lia|exact Hr|exact Ha|].
  rewrite Hq. discriminate.
Defined.

Lemma live_connections_value_witness :
  exists s, reachable POOL_SIZE s /\
    live_connections s = u64 (total_connections s - pending_live s - h_decs s).
Proof.
  destruct taking_reachable as (s & Hr & _). exists s. split; [exact Hr|].
  apply (live_connections_value POOL_SIZE s Hr).
Defined.
