(* ===== verification/Shutdown.v ===== *)
(** The end of the server: what happens after [server_alive] has become false.

    Every thread but the signal handler has only so many steps left
    ([shutdown_left]), where a connection that is being handled counts as one
    step, which is taken when [handle_conn] returns or throws.  Some thread can
    make a step of its own ([own]: not the return of [handle_conn], not a
    character typed, not a spurious wake-up), until [main] has returned, an
    exception has ended the process, or [main] waits: for a worker that sleeps in
    [queue_cv.wait] after both notifications have been given (the lost wake-up
    of [shutdown_can_hang]), for a connection, which [handle_conn] serves without
    looking at [server_alive], or for the terminal.  A worker sleeps then only if
    it had already found the queue empty, with the server alive, when the
    shutdown began. *)

From S2P Require Import Prelude Connection Pool.

(** ** What is left to do *)

Definition worker_left (pc : worker_pc) : nat :=
  match pc with
  | WDone => 0
  | WLoop => 1
  | WTake => 1
  | WTest => 2
  | WEnter | WWake => 3
  | WWait => 4
  | WBlock => 5
  | WServe ops => 2 + length ops
  | WHandle _ => 6
  | WPop => 7
  end.

Definition main_left (pc : main_pc) : nat :=
  match pc with
  | AExit => 0
  | AJoinKill => 1
  | AJoinLog => 2
  | AJoin => 3
  | ANotifyAll => 4
  | AWhile => 5
  | ALive => 6
  | ATotal => 7
  | ANotify => 8
  | APush _ => 9
  | AInsert _ => 10
  | AConfig _ => 11
  | ATest _ => 12
  | AAccept => 13
  end.

Definition shutdown_left (s : pool) : nat :=
  if terminated s then 0 else
  sum_list_with worker_left (workers s) + main_left (main_at s)
  + (match handler_at s with HIdle => 0 | HNotify => 1 end)
  + (if killer_done s then 0 else 1) + (if logger_done s then 0 else 1).

(** The steps of a shutdown: no further signal, and no more rounds of a logger
    that has ended. *)
Definition moves (l : pool_label) (s : pool) : bool :=
  match l with LSignal => false | LLogger => negb (logger_done s) | _ => true end.

(** The steps a thread makes without waiting for anything outside the process. *)
Definition own (l : pool_label) (s : pool) : bool :=
  match l with
  | LWorker i _ => match workers s !! i with Some (WHandle _) => false | _ => true end
  | LMain _ _ _ _ | LHandler => true
  | LLogger => negb (logger_done s)
  | LSpurious _ | LSignal | LKill _ => false
  end.

Inductive winds_down : pool -> list pool_label -> pool -> Prop :=
  | winds_nil s : winds_down s [] s
  | winds_cons l s s1 ls s' :
      moves l s = true -> pool_step l s = Some s1 -> winds_down s1 ls s' ->
      winds_down s (l :: ls) s'.

Lemma sum_insert_lt (f : worker_pc -> nat) ws : forall i pc pc',
  ws !! i = Some pc -> (f pc' < f pc)%nat ->
  (sum_list_with f (<[i := pc']> ws) < sum_list_with f ws)%nat.
Proof.
  induction ws as [|w ws IH]; intros [|i] pc pc' Hi Hf; simplify_eq/=; [lia|].
  specialize (IH i pc pc' Hi Hf). lia.
Qed.

Lemma sum_wake_le ws :
  (sum_list_with worker_left (wake <$> ws) <= sum_list_with worker_left ws)%nat.
Proof.
  induction ws as [|w ws IH]; [done|]. rewrite fmap_cons. cbn [sum_list_with].
  assert (worker_left (wake w) <= worker_left w)%nat by (destruct w; simpl; lia). lia.
Qed.

Lemma conn_ops_length fd ops : conn_ops_ok fd ops = true -> (length ops <= 3)%nat.
Proof. intros [->|[->| ->]]%bool_decide_eq_true; simpl; lia. Qed.

Lemma apply_op_frame o s :
  server_alive (apply_op o s) = server_alive s /\ workers (apply_op o s) = workers s /\
  main_at (apply_op o s) = main_at s /\ handler_at (apply_op o s) = handler_at s /\
  killer_done (apply_op o s) = killer_done s /\ logger_done (apply_op o s) = logger_done s /\
  terminated (apply_op o s) = terminated s.
Proof. by destruct o. Qed.

(** The server does not come back. *)
Lemma pool_step_dead l s s' :
  server_alive s = false -> pool_step l s = Some s' -> server_alive s' = false.
Proof.
  intros Ha [_ Hst]%pool_step_thread. revert Hst.
  destruct l as [i e|i|r t1 t2 k| | |c|]; simpl;
    unfold worker_step, main_step, clean_all, handle_signal_store, handle_signal_notify,
      kill_server, logger_round; rewrite ?Ha; repeat case_match; intros; simplify_eq/=; try done.
  match goal with |- context [apply_op ?o ?x] => by destruct (apply_op_frame o x) as [-> _] end.
Qed.

(** Every step of a worker brings it closer to its end, or ends the process. *)
Lemma worker_step_left i e s s' :
  server_alive s = false -> terminated s = false -> worker_step i e s = Some s' ->
  (shutdown_left s' < shutdown_left s)%nat.
Proof.
  intros Ha Ht. unfold worker_step. rewrite Ha.
  destruct (workers s !! i) as [pc|] eqn:Hi; [|done]. intros Hst.
  assert (terminated s' = true /\ (exists fd, pc = WHandle fd) \/
    exists pc', (worker_left pc' < worker_left pc)%nat /\ workers s' = <[i := pc']> (workers s) /\
    main_at s' = main_at s /\ handler_at s' = handler_at s /\
    killer_done s' = killer_done s /\ logger_done s' = logger_done s /\
    terminated s' = terminated s)
    as [[Ht' [fd ->]]|(pc' & Hlt & Hw & Hm & Hh & Hk & Hl & Ht')].
  { destruct pc as [| | | | | | | |fd|[|o l]|]; repeat case_match; simplify_eq/=;
      try (left; split; [done|by eexists]); right;
      try (destruct (apply_op_frame o s) as (_ & -> & -> & -> & -> & -> & ->)); eexists;
      (split; [|split; [reflexivity|done]]); simpl; try lia.
    match goal with H : conn_ops_ok _ _ = true |- _ => apply conn_ops_length in H end. lia. }
  - unfold shutdown_left. rewrite Ht, Ht'.
    pose proof (sum_insert_lt worker_left (workers s) i _ WDone Hi ltac:(simpl; lia)). lia.
  - unfold shutdown_left. rewrite Hw, Hm, Hh, Hk, Hl, Ht', Ht.
    pose proof (sum_insert_lt worker_left (workers s) i pc pc' Hi Hlt). lia.
Qed.

Lemma main_step_left r t1 t2 k s s' :
  server_alive s = false -> terminated s = false -> main_step r t1 t2 k s = Some s' ->
  (shutdown_left s' < shutdown_left s)%nat.
Proof.
  intros Ha Ht. unfold main_step, clean_all. rewrite Ha.
  destruct (main_at s) as [| |fd|fd|fd|fd| | | | | | | |] eqn:Hm; repeat case_match; intros;
    simplify_eq/=; unfold shutdown_left; simpl; rewrite Ht, Hm; simpl; try lia.
  - pose proof (sum_insert_lt worker_left (workers s) k WWait WWake ltac:(done) ltac:(simpl; lia)).
    lia.
  - pose proof (sum_wake_le (workers s)). lia.
Qed.

(** So does every step of the shutdown. *)
Lemma moves_left l s s' :
  server_alive s = false -> moves l s = true -> pool_step l s = Some s' ->
  (shutdown_left s' < shutdown_left s)%nat.
Proof.
  intros Ha Hm [Ht Hst]%pool_step_thread. revert Hst.
  destruct l as [i e|i|r t1 t2 k| | |c|]; simpl in *.
  - by apply worker_step_left.
  - destruct (workers s !! i) as [[]|] eqn:Hi; intros; simplify_eq/=. unfold shutdown_left. simpl.
    rewrite Ht.
    pose proof (sum_insert_lt worker_left (workers s) i WWait WWake ltac:(done) ltac:(simpl; lia)).
    lia.
  - by apply main_step_left.
  - done.
  - unfold handle_signal_notify. destruct (handler_at s) eqn:Hh; intros; simplify_eq/=.
    unfold shutdown_left. simpl. rewrite Ht, Hh. pose proof (sum_wake_le (workers s)). lia.
  - unfold kill_server. destruct (killer_done s) eqn:Hk; [done|].
    case_bool_decide; intros; simplify_eq/=; unfold shutdown_left; simpl; rewrite Ht, Hk; lia.
  - unfold logger_round. rewrite Ha. intros; simplify_eq/=. unfold shutdown_left. simpl.
    rewrite Ht. destruct (logger_done s); [done|]. lia.
Qed.

(** ** Somebody can move *)

(** Some thread can make a step of its own. *)
Definition can_move (s : pool) : Prop :=
  exists l s', own l s = true /\ pool_step l s = Some s'.

Lemma can_move_intro l s s' :
  terminated s = false -> own l s = true -> thread_step l s = Some s' -> can_move s.
Proof. intros Ht Ho Hst. exists l, s'. split; [done|]. unfold pool_step. by rewrite Ht. Qed.

(** The mutex is held by a worker. *)
Lemma mutex_owner n s i :
  reachable n s -> queue_mutex s = Some i -> is_Some (workers s !! i).
Proof.
  intros Hr. revert i. induction Hr as [|l s s' Hr IH [_ Hst]%pool_step_thread]; [done|].
  intros j Hj.
  assert (length (workers s') = length (workers s) /\
    (queue_mutex s' = Some j -> queue_mutex s = Some j \/ is_Some (workers s !! j))) as [Hl Hq].
  { revert Hst. destruct l as [i e|i|r t1 t2 k| | |c|]; simpl;
      unfold worker_step, main_step, clean_all, handle_signal_store, handle_signal_notify,
        kill_server, logger_round; repeat case_match; intros; simplify_eq/=;
      rewrite ?length_insert, ?length_fmap; try (split; [done|by auto]);
      try (split; [done|]; intros [= <-]; right; by eexists).
    match goal with |- context [apply_op ?o s] => destruct o end; by auto. }
  apply lookup_lt_is_Some. rewrite Hl. apply lookup_lt_is_Some.
  destruct (Hq Hj) as [Hj'|Hj']; [by apply IH|done].
Qed.

Lemma not_all_done ws :
  forallb is_done ws = false -> exists i pc, ws !! i = Some pc /\ pc <> WDone.
Proof.
  intros Hd. apply not_true_iff_false in Hd.
  destruct (decide (Forall (fun pc => is_done pc = true) ws)) as [HF|HF].
  - destruct Hd. apply forallb_forall. intros x Hx%list_elem_of_In.
    by apply (proj1 (Forall_forall _ _) HF).
  - apply not_Forall_Exists in HF; [|solve_decision].
    apply Exists_exists in HF as (pc & Hin & Hpc).
    apply list_elem_of_lookup in Hin as [i Hi]. exists i, pc. split; [done|]. intros ->. by apply Hpc.
Qed.

Lemma worker_can_move n s i pc :
  reachable n s -> inv n s -> server_alive s = false -> terminated s = false ->
  workers s !! i = Some pc ->
  pc = WDone \/ pc = WWait \/ (exists fd, pc = WHandle fd) \/ can_move s.
Proof.
  intros Hr [_ Hw _] Ha Ht Hi.
  assert (forall j pj, workers s !! j = Some pj -> Pool.holds pj = true -> can_move s) as Hholder.
  { intros j pj Hj Hh. destruct (Hw _ _ Hj) as [_ Hc].
    assert (own (LWorker j (Returns [])) s = true) as Ho by (simpl; rewrite Hj; by destruct pj).
    assert (exists s', thread_step (LWorker j (Returns [])) s = Some s') as [s' Hs'];
      [|by eapply can_move_intro].
    simpl. unfold worker_step. rewrite Hj, Ha. destruct pj; try done; simpl in Hc; [by eexists..|].
    destruct (client_queue s); [done|]. by eexists. }
  assert (forall s', own (LWorker i (Returns [])) s = true ->
    worker_step i (Returns []) s = Some s' -> can_move s) as Hstep
    by (intros s' Ho Hs'; by apply (can_move_intro (LWorker i (Returns [])) s s' Ht Ho)).
  unfold worker_step in Hstep. simpl in Hstep. rewrite Hi in Hstep.
  assert (pc = WEnter \/ pc = WWake -> can_move s) as Hlock.
  { intros Hpc. destruct (queue_mutex s) as [j|] eqn:Hq.
    - destruct (mutex_owner n s j Hr Hq) as [pj Hj]. apply (Hholder j pj Hj).
      by apply (proj1 (Hw _ _ Hj)).
    - destruct Hpc as [->| ->]; by eapply Hstep. }
  destruct pc as [| | | | | | | |fd|[|o l]|]; eauto; right; right; right;
    first [by apply (Hholder i _ Hi)|by apply Hlock; auto|by eapply Hstep].
Qed.

(** What [main] waits for when no thread can move by itself: a worker asleep, a
    connection, or the terminal. *)
Definition joins_sleeper (s : pool) : Prop :=
  main_at s = AJoin /\ exists i, workers s !! i = Some WWait.
Definition joins_busy_worker (s : pool) : Prop :=
  main_at s = AJoin /\ exists i fd, workers s !! i = Some (WHandle fd).
Definition joins_terminal (s : pool) : Prop := main_at s = AJoinKill /\ killer_done s = false.

Lemma shutdown_moves n s :
  (0 < n)%nat -> reachable n s -> server_alive s = false -> terminated s = false ->
  can_move s \/ main_at s = AExit \/ joins_sleeper s \/ joins_busy_worker s \/ joins_terminal s.
Proof.
  intros Hn Hr Ha Ht. pose proof (reachable_inv n s Hn Hr) as Hinv.
  assert (forall r t1 t2 k s', main_step r t1 t2 k s = Some s' -> can_move s) as Hmain
    by (intros r t1 t2 k s' E; by apply (can_move_intro (LMain r t1 t2 k) s s' Ht eq_refl)).
  unfold main_step, clean_all in Hmain. rewrite Ha in Hmain.
  unfold joins_sleeper, joins_busy_worker, joins_terminal.
  destruct (main_at s) as [| |fd|fd|fd|fd| | | | | | | |] eqn:Hm; auto;
    try (left; by eapply (Hmain 0 0 0 0%nat)).
  - left. destruct (queue_mutex s) as [j|] eqn:Hq; [|by eapply (Hmain 0 0 0 0%nat)].
    destruct (mutex_owner n s j Hr Hq) as [pj Hj].
    assert (Pool.holds pj = true) as Hh by (by apply (proj1 (inv_workers _ _ Hinv _ _ Hj))).
    by destruct (worker_can_move n s j pj Hr Hinv Ha Ht Hj) as [->|[->|[[fd' ->]|?]]].
  - left. destruct (existsb waits (workers s)) eqn:He; [|by eapply (Hmain 0 0 0 0%nat)].
    apply existsb_exists in He as (pc & Hin & Hpc).
    apply list_elem_of_In, list_elem_of_lookup in Hin as [k Hk]. destruct pc; try done.
    specialize (Hmain 0 0 0 k). rewrite Hk in Hmain. by eapply Hmain.
  - destruct (forallb is_done (workers s)) eqn:Hd; [left; by eapply (Hmain 0 0 0 0%nat)|].
    destruct (not_all_done _ Hd) as (i & pc & Hi & Hpc).
    destruct (worker_can_move n s i pc Hr Hinv Ha Ht Hi) as [->|[->|[[fd ->]|?]]]; [done|eauto 9..].
  - left. destruct (logger_done s) eqn:Hl; [by eapply (Hmain 0 0 0 0%nat)|].
    eapply (can_move_intro LLogger); [done|simpl; by rewrite Hl|done].
  - destruct (killer_done s) eqn:Hk; [left; by eapply (Hmain 0 0 0 0%nat)|auto 9].
Qed.

(** ** What a stopped server keeps *)

(** Places a worker of a stopped server gets to only from such places: asleep or
    about to sleep, and serving a connection or about to take one. *)
Definition may_sleep (pc : worker_pc) : bool := match pc with WBlock | WWait => true | _ => false end.
Definition may_serve (pc : worker_pc) : bool := match pc with WPop | WHandle _ => true | _ => false end.

Definition nobody_sleeps (s : pool) : Prop := Forall (fun pc => may_sleep pc = false) (workers s).
Definition nobody_serves (s : pool) : Prop := Forall (fun pc => may_serve pc = false) (workers s).

Lemma excluded_step (f : worker_pc -> bool) l s s' :
  f = may_sleep \/ f = may_serve ->
  server_alive s = false -> Forall (fun pc => f pc = false) (workers s) ->
  pool_step l s = Some s' -> Forall (fun pc => f pc = false) (workers s').
Proof.
  intros Hf Ha Hs [_ Hst]%pool_step_thread. revert Hst.
  assert (Forall (fun pc => f pc = false) (wake <$> workers s)) as Hwake.
  { apply Forall_fmap. eapply Forall_impl; [exact Hs|]. by destruct Hf as [-> | ->]; intros []. }
  assert (forall i pc, f pc = false -> Forall (fun pc => f pc = false) (<[i := pc]> (workers s)))
    as Hins by (intros; by apply Forall_insert).
  assert (forall i pc, workers s !! i = Some pc -> f pc = false) as Hat
    by (intros i pc Hi; by apply (proj1 (Forall_lookup _ _) Hs i)).
  destruct l as [i e|i|r t1 t2 k| | |c|]; simpl;
    unfold worker_step, main_step, clean_all, handle_signal_store, handle_signal_notify,
      kill_server, logger_round; rewrite ?Ha, ?orb_true_r; repeat case_match; intros;
    simplify_eq/=; rewrite ?orb_true_r in *; try done;
    try (apply Hins; by destruct Hf as [-> | ->]);
    try (apply Hins; match goal with H : _ !! i = Some _ |- _ => apply Hat in H end;
         by destruct Hf as [-> | ->]).
  match goal with |- context [apply_op ?o s] => destruct (apply_op_frame o s) as (_ & -> & _) end.
  apply Hins. by destruct Hf as [-> | ->].
Qed.

(** A process in which nobody serves a connection is not ended by an exception. *)
Lemma not_terminated_step l s s' :
  nobody_serves s -> terminated s = false -> pool_step l s = Some s' -> terminated s' = false.
Proof.
  intros Hs Ht [_ Hst]%pool_step_thread. revert Hst. unfold nobody_serves in Hs.
  rewrite Forall_lookup in Hs.
  destruct l as [i e|i|r t1 t2 k| | |c|]; simpl;
    unfold worker_step, main_step, clean_all, handle_signal_store, handle_signal_notify,
      kill_server, logger_round; repeat case_match; intros; simplify_eq/=; try done.
  - match goal with H : _ !! i = Some _ |- _ => by apply Hs in H end.
  - match goal with |- context [apply_op ?o s] =>
      by destruct (apply_op_frame o s) as (_ & _ & _ & _ & _ & _ & ->) end.
Qed.

Lemma killer_stays_done l s s' :
  killer_done s = true -> pool_step l s = Some s' -> killer_done s' = true.
Proof.
  intros Hk [_ Hst]%pool_step_thread. revert Hst.
  destruct l as [i e|i|r t1 t2 k| | |c|]; simpl;
    unfold worker_step, main_step, clean_all, handle_signal_store, handle_signal_notify,
      kill_server, logger_round; rewrite ?Hk; repeat case_match; intros; simplify_eq/=; try done.
  match goal with |- context [apply_op ?o s] =>
    by destruct (apply_op_frame o s) as (_ & _ & _ & _ & -> & _) end.
Qed.

(** What an execution keeps, and what it uses up. *)
Lemma winds_down_keeps n s ls s' :
  reachable n s -> server_alive s = false -> winds_down s ls s' ->
  reachable n s' /\ server_alive s' = false /\
  (length ls + shutdown_left s' <= shutdown_left s)%nat /\
  (nobody_sleeps s -> nobody_sleeps s') /\
  (nobody_serves s -> terminated s = false -> nobody_serves s' /\ terminated s' = false) /\
  (killer_done s = true -> killer_done s' = true).
Proof.
  intros Hr Ha D. induction D as [s|l s s1 ls s' Hm Hst D IH]; [by auto 9|].
  destruct IH as (? & ? & ? & Hs & Hv & Hk); [by eapply reach_step|by eapply pool_step_dead|].
  pose proof (moves_left l s s1 Ha Hm Hst).
  split_and!; [done|done|simpl; lia| | |].
  - intros. apply Hs. apply (excluded_step may_sleep l s s1); [by left|done..].
  - intros. apply Hv; [|by eapply not_terminated_step].
    apply (excluded_step may_serve l s s1); [by right|done..].
  - intros. apply Hk. by eapply killer_stays_done.
Qed.

(** ** Properties *)

(** C16: How a shutdown goes.  Once [server_alive] is false, every execution
    without a further signal is at most [shutdown_left] steps long, a call of
    [handle_conn] counting as one step that is taken when it returns or throws.
    After any such execution some thread can make a step of its own, or [main]
    has returned, or an exception has ended the process, or [main] waits: for a
    worker asleep on the condition variable, for a connection that a worker is
    still handling (the session loop does not look at [server_alive]), or for
    the terminal.  No worker is asleep if none was asleep or about to sleep when
    the shutdown began; and if moreover no connection was being handled or taken
    then and the thread of [kill_server] had ended, an execution that goes on as
    long as it can ends with [main] returning. *)
Theorem shutdown_ends (n : nat) (s s' : pool) (ls : list pool_label) :
  (0 < n)%nat -> reachable n s -> server_alive s = false -> winds_down s ls s' ->
  (length ls <= shutdown_left s)%nat /\
  (can_move s' \/ main_at s' = AExit \/ terminated s' = true \/
   joins_sleeper s' \/ joins_busy_worker s' \/ joins_terminal s') /\
  (nobody_sleeps s -> ~ joins_sleeper s') /\
  (nobody_sleeps s -> nobody_serves s -> killer_done s = true -> terminated s = false ->
   can_move s' \/ main_at s' = AExit).
Proof.
  intros Hn Hr Ha D.
  destruct (winds_down_keeps n s ls s' Hr Ha D) as (Hr' & Ha' & Hlen & Hs & Hv & Hk).
  assert (nobody_sleeps s -> ~ joins_sleeper s') as Hns.
  { intros Hns%Hs [_ [i Hi]]. by apply (proj1 (Forall_lookup _ _) Hns) in Hi. }
  split_and!; [lia| |done|].
  - destruct (terminated s') eqn:Ht; [by auto|].
    destruct (shutdown_moves n s' Hn Hr' Ha' Ht) as [?|[?|[?|[?|?]]]]; auto 9.
  - intros Hsl Hsv Hkd Ht. destruct (Hv Hsv Ht) as [Hsv' Ht'].
    destruct (shutdown_moves n s' Hn Hr' Ha' Ht') as [?|[?|[Hj|[[_ (i & fd & Hi)]|[_ Hkd']]]]]; auto.
    + by destruct (Hns Hsl).
    + by apply (proj1 (Forall_lookup _ _) Hsv') in Hi.
    + apply Hk in Hkd. congruence.
Qed.

(** ** A concrete run *)

(** All workers are at the head of their loops when [q] is typed. *)
Definition calm_trace : list pool_label := [LKill (Some x71)].

Lemma shutdown_ends_witness :
  exists s, reachable POOL_SIZE s /\
    forall ls s', winds_down s ls s' ->
      (length ls <= 14)%nat /\ (can_move s' \/ main_at s' = AExit).
Proof.
  destruct (pool_exec calm_trace (pool_init POOL_SIZE)) as [s|] eqn:E; [|vm_compute in E; done].
  assert (reachable POOL_SIZE s) as Hr by (eapply pool_exec_reachable; [apply reach_init|exact E]).
  assert (nobody_sleeps s /\ nobody_serves s /\ server_alive s = false /\ killer_done s = true /\
    terminated s = false /\ shutdown_left s = 14%nat) as (Hs & Hv & Ha & Hk & Ht & Hl).
  { vm_compute in E. injection E as <-. split; [by repeat constructor|].
    split; [by repeat constructor|done]. }
  exists s. split; [exact Hr|]. intros ls s' D.
  destruct (shutdown_ends POOL_SIZE s s' ls ltac:(vm_compute; lia) Hr Ha D) as (Hlen & _ & _ & Hend).
  rewrite Hl in Hlen. split; [exact Hlen|exact (Hend Hs Hv Hk Ht)].
Defined.
