(* ===== verification/Crash.v ===== *)
(** Connections and the threads that serve them: how a call of [handle_conn]
    ends is what the worker that made it goes on with (Pool).  When it returns,
    the worker performs the operations it returned with; when it never returns,
    the worker stays in it; and an exception that leaves it ends the server,
    which a logged-in client can bring about by deleting the empty name. *)

From S2P Require Import Prelude Sodium Constants Fs Terminal World Net SessionEnc TwoSlotBuffer Transfer FSOperator Agents Closed Progress Client EndToEnd Auth Connection Pool.

Section crash.
Context {SO : Sodium} {EN : Env}.

(** How a call ends, as the worker sees it; [None] when it never does or has no
    defined outcome. *)
Definition conn_end_of (o : outcome world (list shared_op)) : option conn_end :=
  match o with
  | Ok ops _ => Some (Returns ops)
  | Throw _ _ => Some Throws
  | Undefined _ | Diverge => None
  end.

(** What [handle_conn] returns with is what the worker's step allows. *)
Lemma handle_conn_ops DB fd (w : world) ops w' :
  handle_conn DB fd w = Ok ops w' -> conn_ops_ok fd ops = true.
Proof.
  unfold handle_conn, conn_ops_ok. rewrite bool_decide_eq_true.
  intros ([[[[rc pk] sk] rx] tx] & w1 & _ & H)%bind_Ok_inv.
  destruct (negb _); [injection H as <- _; auto|].
  apply bind_Ok_inv in H as ([rc2 user] & w2 & _ & H). destruct (negb _).
  - apply bind_Ok_inv in H as (n & w3 & _ & H). injection H as <- _. auto.
  - apply bind_Ok_inv in H as (n & w3 & _ & H).
    apply bind_Ok_inv in H as ([[OP k1] k2] & w4 & _ & H).
    apply bind_Ok_inv in H as (fuel & w5 & _ & H).
    apply bind_Ok_inv in H as (OP' & w6 & _ & H). injection H as <- _. auto.
Qed.

(** The worker's step after [handle_conn]: it performs the operations the call
    returned with, or the process ends. *)
Lemma worker_after_handle_conn DB fd (w : world) e i (p : pool) :
  conn_end_of (handle_conn DB fd w) = Some e ->
  workers p !! i = Some (WHandle fd) -> terminated p = false ->
  pool_step (LWorker i e) p =
    Some (match e with Returns ops => set_worker i (WServe ops) p | Throws => terminate p end).
Proof.
  intros He Hi Ht. unfold pool_step. rewrite Ht. cbn [thread_step]. unfold worker_step. rewrite Hi.
  destruct (handle_conn DB fd w) as [ops w'| | |] eqn:E; simplify_eq/=; [|done].
  by rewrite (handle_conn_ops _ _ _ _ _ E).
Qed.

End crash.

Section exceptions.
Context {SO : Sodium} {EN : Env} {SL : SodiumLaws SO} {EL : EnvLaws EN}.

(** An exception in the session loop leaves [handle_conn]. *)
Lemma handle_conn_throws DB fd s f' cpk spk ssk rs rx tx on ro user pw cn loop_in e a' :
  kx_keypair (a_rng s) = (spk, ssk, rs) -> length cpk = crypto_kx_PUBLICKEYBYTES ->
  kx_server_session_keys spk ssk cpk = Some (rx, tx) ->
  randombytes_buf rs crypto_aead_chacha20poly1305_NPUBBYTES = (on, ro) ->
  no_null_hash DB -> accepts DB user (pw ++ [x00]) = true -> no_nul user ->
  blen user < FILE_ENCRYPTED_CHUNK_SIZE -> blen pw < FILE_ENCRYPTED_CHUNK_SIZE ->
  length cn = crypto_aead_chacha20poly1305_NPUBBYTES ->
  create_directories (a_fs s) (base_dir ++ user ++ [slash]) = Some f' ->
  a_in s = cpk ++ wire rx cn (user ++ [x00]) ++ wire rx (sodium_increment cn) (pw ++ [x00])
    ++ loop_in ->
  throws (conn_loop (S (length loop_in)) (FSO fd (base_dir ++ user ++ [slash]) rx tx on))
    (a_set_in loop_in (a_set_rng ro (a_set_fs f'
      (a_set_out (a_out s ++ spk ++ int_encode ACK_SUC) s)))) e a' ->
  throws (handle_conn DB fd) s e a'.
Proof.
  intros Hkp Hcpk Hkx Hro Hnn Hacc Hnul Hul Hpl Hcn Hdirs Ha Hloop. unfold handle_conn.
  eapply throws_bind_r; [by eapply (runs_server_crypt_gen _ _ _ _ _ cpk)|].
  rsimpl. cbn [Z.eqb negb].
  eapply throws_bind_r; [by eapply (verify_credentials_runs DB rx user pw cn)|].
  rewrite Hacc. rsimpl. cbn [Z.eqb negb].
  eapply throws_bind_r; [apply runs_send|].
  eapply throws_bind_r.
  { match goal with |- runs _ ?a _ _ =>
      pose proof (FS_Operator_new_runs fd user rx tx f' a Hdirs) as Hnew end.
    cbn [a_rng a_set_in a_set_out a_set_rng] in Hnew. rewrite Hro in Hnew. exact Hnew. }
  rsimpl. eapply throws_bind_r; [apply runs_net_fuel|]. apply throws_bind_l.
  unfold a_set_in, a_set_rng, a_set_fs, a_set_out in *.
  cbn [a_in a_out a_fs a_rng a_stdin a_stdout] in *. rewrite <- app_assoc. exact Hloop.
Qed.

(** An exception of a handler leaves the session loop. *)
Lemma conn_loop_throws fuel op intent nn un a rest e a' :
  length nn = crypto_aead_chacha20poly1305_NPUBBYTES ->
  length un = crypto_aead_chacha20poly1305_NPUBBYTES -> - 2 ^ 31 <= intent < 2 ^ 31 ->
  intent <> INVALID_READ_INTENT ->
  a_in a = wire (server_rx op) nn (int_encode NEW_ACTION)
    ++ wire (server_rx op) un (int_encode intent) ++ rest ->
  throws (dispatch intent op) (a_set_in rest a) e a' -> throws (conn_loop (S fuel) op) a e a'.
Proof.
  intros Hn Hu Hi Hv Ha Hd. cbn [conn_loop].
  eapply throws_bind_r; [by apply (notice_runs op NEW_ACTION nn)|]. rewrite Z.eqb_refl.
  cbn [Z.eqb negb]. eapply throws_bind_r; [by apply (intent_runs op intent un)|].
  rewrite (proj2 (Z.eqb_neq _ _)) by done. by apply throws_bind_l.
Qed.

(** C37: Deleting the empty name ends the server.  The name denotes the user's
    directory, which [remove] does not remove while it has entries: it throws.
    Neither the handler, the session loop, [handle_conn] nor [worker] catches the
    exception: a client that logs in, announces an action, asks to delete and
    sends the empty name makes [handle_conn] throw, and the step of the worker
    that handles the connection then ends the process, after which no thread
    moves. *)
Theorem delete_empty_name_ends_server (DB : database) (fd : Z) (s : aworld) (w : world) (f' : fs)
    cpk spk ssk rs rx tx user pw cn nn un dn rest (i : nat) (p : pool) :
  kx_keypair (a_rng s) = (spk, ssk, rs) -> length cpk = crypto_kx_PUBLICKEYBYTES ->
  kx_server_session_keys spk ssk cpk = Some (rx, tx) ->
  no_null_hash DB -> accepts DB user (pw ++ [x00]) = true ->
  no_nul user -> plain_name user -> blen user < FILE_ENCRYPTED_CHUNK_SIZE ->
  blen pw < FILE_ENCRYPTED_CHUNK_SIZE ->
  Forall (fun n => length n = crypto_aead_chacha20poly1305_NPUBBYTES) [cn; nn; un; dn] ->
  create_directories (a_fs s) (base_dir ++ user ++ [slash]) = Some f' ->
  children (fs_nodes f') (fs_cwd (a_fs s) ++ [str "MEF_S"; user]) <> [] ->
  a_in s = cpk ++ wire rx cn (user ++ [x00]) ++ wire rx (sodium_increment cn) (pw ++ [x00])
    ++ wire rx nn (int_encode NEW_ACTION) ++ wire rx un (int_encode DELETE_FILE)
    ++ wire rx dn [x00] ++ rest ->
  repr w s -> workers p !! i = Some (WHandle fd) -> terminated p = false ->
  exists e p', conn_end_of (handle_conn DB fd w) = Some e /\
    pool_step (LWorker i e) p = Some p' /\ terminated p' = true /\
    forall l, pool_step l p' = None.
Proof.
  intros Hkp Hcpk Hkx Hnn Hacc Hnul Hu Hul Hpl Hns Hdirs Hch Ha Hw Hi Ht.
  rewrite !Forall_cons in Hns. destruct Hns as (Hcn & Hn & Hun & Hdn & _).
  destruct (randombytes_buf rs crypto_aead_chacha20poly1305_NPUBBYTES) as [on ro] eqn:Eo.
  set (op := FSO fd (base_dir ++ user ++ [slash]) rx tx on).
  set (loop_in := wire rx nn (int_encode NEW_ACTION) ++ wire rx un (int_encode DELETE_FILE)
    ++ wire rx dn [x00] ++ rest) in Ha.
  set (a := a_set_in loop_in (a_set_rng ro (a_set_fs f'
    (a_set_out (a_out s ++ spk ++ int_encode ACK_SUC) s)))).
  destruct (delete_empty_name_throws op dn rest (fs_cwd (a_fs s) ++ [str "MEF_S"; user])
    (a_set_in (wire rx dn [x00] ++ rest) a)) as [a' Hth]; try done.
  { by apply user_dir_string, Hu. }
  { by apply user_dir_resolves. }
  assert (throws (handle_conn DB fd) s filesystem_error a') as Hconn.
  { eapply (handle_conn_throws DB fd s f' cpk spk ssk rs rx tx on ro user pw cn loop_in); try done.
    apply (conn_loop_throws _ op DELETE_FILE nn un a (wire rx dn [x00] ++ rest)); try done.
    unfold dispatch. cbn [Z.eqb]. by apply throws_bind_l. }
  destruct (Hconn w Hw) as (w' & E & _). exists Throws, (terminate p).
  assert (conn_end_of (handle_conn DB fd w) = Some Throws) as He by (by rewrite E).
  split_and!; [done|by apply (worker_after_handle_conn DB fd w)|done|done].
Qed.

End exceptions.

(** ** Concrete runs *)

Section crash_runs.
#[local] Existing Instances toy_sodium toy_sodium_laws toy_env toy_env_laws.

(** A table with bob, who has a file. *)
Definition bob_db : database :=
  Database true (fun u => if bool_decide (u = str "bob") then Some (Some (str "pw" ++ [x00])) else None).

(** Worker 0 handles connection 5. *)
Definition handling_trace : list pool_label := replicate 6 m_step ++ replicate 5 (w_step 0).

Lemma handling_reachable :
  exists p, pool_exec handling_trace (pool_init POOL_SIZE) = Some p /\
    workers p !! 0%nat = Some (WHandle 5) /\ terminated p = false.
Proof.
  destruct (pool_exec handling_trace (pool_init POOL_SIZE)) as [p|] eqn:E; [|vm_compute in E; done].
  exists p. split; [done|]. vm_compute in E. injection E as <-. done.
Qed.

Lemma delete_empty_name_ends_server_witness :
  let cpk := le_encode 32 1234 in
  let rx := le_encode 32 (1234 + 1000 + 1) in
  let s := demo_server (cpk ++ wire rx demo_nonce (str "bob" ++ [x00])
    ++ wire rx (sodium_increment demo_nonce) (str "pw" ++ [x00])
    ++ wire rx demo_nonce (int_encode NEW_ACTION) ++ wire rx demo_nonce (int_encode DELETE_FILE)
    ++ wire rx demo_nonce [x00] ++ []) in
  exists p e p', pool_exec handling_trace (pool_init POOL_SIZE) = Some p /\
    conn_end_of (handle_conn bob_db 5 (concretize s)) = Some e /\
    pool_step (LWorker 0 e) p = Some p' /\ terminated p' = true /\
    forall l, pool_step l p' = None.
Proof.
  intros cpk rx s. destruct handling_reachable as (p & Hp & Hi & Ht).
  destruct (delete_empty_name_ends_server bob_db 5 s (concretize s) demo_user_fs cpk
    (le_encode 32 1000) (le_encode 32 0) 1 rx (le_encode 32 (1234 + 1000)) (str "bob") (str "pw")
    demo_nonce demo_nonce demo_nonce demo_nonce [] 0%nat p) as (e & p' & H);
    [reflexivity|reflexivity|vm_compute; reflexivity| |reflexivity|repeat constructor; discriminate
    | |reflexivity|reflexivity|by repeat constructor|vm_compute; reflexivity|vm_compute; discriminate
    |reflexivity|apply repr_concretize|exact Hi|exact Ht|exists p, e, p'; exact (conj Hp H)].
  - intros name. unfold bob_db. simpl. by case_bool_decide.
  - split_and!; try discriminate. repeat constructor; discriminate.
Defined.

End crash_runs.
