(* ===== verification/ServerMain.v ===== *)
(** The rest of the server: how [main] of src/server/server.cpp sets up its
    socket, [initialize_server] of src/server/auth.cpp, and what the logger of
    src/server/server_logger.cpp prints.  The results of the calls to the
    operating system and to sqlite are arguments.

    Two facts are recorded that the code does not intend: a failing [listen]
    closes the socket and goes on, and the line that announces the total of
    connections shows the live ones. *)

From S2P Require Import Prelude Terminal Client Pool.

(** [initialize_server], from the result of [sqlite3_open]. *)
Definition initialize_server (open_rc : Z) : Z := if negb (open_rc =? 0) then 1 else 0.

(** How the set-up ends: [main] returns a code, or goes on to accept
    connections with the socket; [closed] says whether the socket has been
    closed. *)
Inductive setup_result :=
  | SetupReturn (code : Z) (closed : bool)
  | SetupAccept (server_sock_fd : Z) (closed : bool).

Definition server_setup (open_rc server_sock_fd setsockopt_rc bind_stat listen_rc : Z)
    : setup_result :=
  if negb (initialize_server open_rc =? 0) then SetupReturn 1 false else
  if server_sock_fd =? -1 then SetupReturn 1 false else
  if setsockopt_rc <? 0 then SetupReturn 1 true else
  if bind_stat =? -1 then SetupReturn 1 true else
  if listen_rc <? 0 then SetupAccept server_sock_fd true else
  SetupAccept server_sock_fd false.

(** ** The logger *)

Definition esc (s : string) : bytes := x1b :: str s.
Definition green : bytes := esc "[38;5;10m".
Definition mustard : bytes := esc "[0;33m".
Definition cyan : bytes := esc "[0;36m".
Definition norm : bytes := esc "[0m".

(** The descriptors are printed in the order the table is traversed. *)
Definition print_conns (fds : list Z) : bytes :=
  str "file descriptors:" ++ [x0a] ++ concat (map (fun fd => print_int fd ++ str "    ") fds) ++ [x0a].

(** What one round of [logger] writes. *)
Definition logger_report (traverse : gmap Z Client_Info -> list Z) (s : pool) : bytes :=
  str "--------------------------------" ++ [x0a]
  ++ green ++ str "TOTAL CONNECTIONS     => " ++ print_int (live_connections s) ++ norm ++ [x0a]
  ++ mustard ++ str "CURRENT CONNECTIONS => " ++ print_int (live_connections s) ++ norm ++ [x0a]
  ++ cyan ++ str "CLIENTS                => " ++ print_int (Z.of_nat (size (clients s))) ++ norm ++ [x0a]
  ++ print_conns (traverse (clients s)).

(** The set-up reaches the accepting loop with an open, listening socket exactly
    when every call succeeded; a failed [listen] also reaches it, with a closed
    one. *)
Lemma server_setup_spec open_rc fd so_rc bind_stat listen_rc :
  open_rc = 0 -> fd <> -1 -> 0 <= so_rc -> bind_stat <> -1 ->
  server_setup open_rc fd so_rc bind_stat listen_rc = SetupAccept fd (listen_rc <? 0).
Proof.
  intros -> Hfd Hso Hb. unfold server_setup. cbn [initialize_server negb Z.eqb].
  rewrite (proj2 (Z.eqb_neq _ _)), (proj2 (Z.ltb_ge _ _)), (proj2 (Z.eqb_neq bind_stat _)) by done.
  by destruct (_ <? _).
Qed.

(** The report does not depend on [total_connections]. *)
Lemma logger_report_ignores_total traverse s total :
  logger_report traverse (set_counters total (live_connections s) (h_decs s) s) =
    logger_report traverse s.
Proof. done. Qed.
