(* ===== verification/Prehistoric.v ===== *)
(** The prototypes that came before the present program, prehistoric/
    pre_chats_comms_server.cpp and pre_chats_comms_client.cpp: a key exchange
    and nothing after it.

    They read the peer's public key with a single [recv] whose result they do
    not look at, and go on when the key exchange fails; [server_crypt_gen] and
    [client_crypt_gen] replaced this with [recv_fully] and return codes.  The
    theorem says what the old exchange takes for the peer's key, and compares it
    with the new one where the key arrives whole. *)

From S2P Require Import Prelude Sodium Constants Fs Terminal World Net SessionEnc TwoSlotBuffer Transfer FSOperator Agents Closed Progress Client ServerMain.

(** How an exchange ends: the session keys and the lines on [std::cerr]. *)
Record handshake := Handshake {
  hs_rx : bytes;
  hs_tx : bytes;
  hs_cerr : list bytes
}.

Section prehistoric.
Context {SO : Sodium} {EN : Env}.

(** A key, byte by byte with [printf], and the [std::endl] after it. *)
Definition print_key (pk : bytes) : IO unit :=
  _ ← print pk;
  print [x0a].

(** What follows the key pair on either side: send the own public key and
    receive the peer's into the uninitialised array [var]. *)
Definition swap_keys (var : string) (pk : bytes) : IO bytes :=
  _ ← print_key pk;
  _ ← send pk;
  r ← recv crypto_kx_PUBLICKEYBYTES;
  let peer_pk := overwrite (indet var crypto_kx_PUBLICKEYBYTES) (snd r) in
  _ ← print_key peer_pk;
  mret peer_pk.

(** [handle_conn] of the prototype server.  The keys stay uninitialised when the
    exchange fails. *)
Definition pre_handle_conn : IO handshake :=
  kp ← crypto_kx_keypair;
  let '(server_pk, server_sk) := kp in
  client_pk ← swap_keys "client_pk" server_pk;
  let '(server_rx, server_tx, bailed) :=
    match kx_server_session_keys server_pk server_sk client_pk with
    | None => (indet "server_rx" crypto_kx_SESSIONKEYBYTES,
               indet "server_tx" crypto_kx_SESSIONKEYBYTES, [str "BAILED"])
    | Some (rx, tx) => (rx, tx, [])
    end in
  mret (Handshake server_rx server_tx
    ([str "this is server_pk"; str "this is client_pk"] ++ bailed
       ++ [str "DIDNT BAIL WE HAVE VALID KEYSSS YAYYY"])).

(** [main] of the prototype client, which ignores the results of [socket] and
    [connect]; without a connection [send] and [recv] fail. *)
Definition pre_client_main : IO handshake :=
  kp ← crypto_kx_keypair;
  let '(client_pk, client_sk) := kp in
  server_pk ← swap_keys "server_pk" client_pk;
  let '(client_rx, client_tx, bailed) :=
    match kx_client_session_keys client_pk client_sk server_pk with
    | None => (indet "client_rx" crypto_kx_SESSIONKEYBYTES,
               indet "client_tx" crypto_kx_SESSIONKEYBYTES, [str "BAILED SUS KEYS"])
    | Some (rx, tx) => (rx, tx, [])
    end in
  mret (Handshake client_rx client_tx
    ([str "this is client_pk"; str "this is server_pk"] ++ bailed
       ++ [str "DIDNT BAIL WE HAVE VALID KEYSSS YAYAYYYYY"])).

End prehistoric.

(** ** The prototype server's [main] *)

(** From the results of [socket], [setsockopt], [bind] and [listen]; as in the
    present server, a failed [listen] closes the socket and goes on. *)
Definition pre_server_setup (s_sock setsockopt_rc bind_stat listen_rc : Z) : setup_result :=
  if s_sock =? -1 then SetupReturn 1 false else
  if setsockopt_rc =? -1 then SetupReturn 1 true else
  if bind_stat =? -1 then SetupReturn 1 true else
  if listen_rc <? 0 then SetupAccept s_sock true else
  SetupAccept s_sock false.

(** The global variables, the threads being detached calls of [handle_conn]. *)
Record pre_server := PreServer {
  pre_threads : list Z;
  pre_clients : list Z;
  numConnections : Z
}.

Definition pre_server_init : pre_server := PreServer [] [] 0.

(** One round of the accepting loop; the counter is an [int], whose overflow is
    undefined. *)
Definition pre_accept (s : pre_server) (client_sock : Z) : option pre_server :=
  if client_sock <? 0 then Some s else
  if numConnections s =? 2 ^ 31 - 1 then None else
  Some (PreServer (pre_threads s ++ [client_sock]) (pre_clients s ++ [client_sock])
          (numConnections s + 1)).

(** The loop, over what [accept] returns. *)
Fixpoint pre_serve (s : pre_server) (socks : list Z) : option pre_server :=
  match socks with
  | [] => Some s
  | c :: socks' => pre_accept s c ≫= fun s' => pre_serve s' socks'
  end.

(** Every accepted connection gets its thread and its place in the table, none
    is ever removed, and the counter counts them. *)
Lemma pre_serve_spec socks : forall s,
  let good := filter (fun c => 0 <= c) socks in
  numConnections s + Z.of_nat (length good) < 2 ^ 31 ->
  pre_serve s socks = Some (PreServer (pre_threads s ++ good) (pre_clients s ++ good)
    (numConnections s + Z.of_nat (length good))).
Proof.
  induction socks as [|c socks IH]; intros s good Hn; subst good; simpl in *.
  - rewrite !app_nil_r, Z.add_0_r. by destruct s.
  - unfold pre_accept. destruct (Z.ltb_spec c 0).
    + rewrite filter_cons_False in * by lia. simpl. by rewrite IH.
    + rewrite filter_cons_True in * by lia. simpl length in *.
      rewrite (proj2 (Z.eqb_neq _ _)) by lia. simpl. rewrite IH by (simpl; lia). simpl.
      rewrite <- !app_assoc. do 2 f_equal. lia.
Qed.

(** ** The exchange *)

Section prehistoric_properties.
Context {SO : Sodium} {EN : Env} {EL : EnvLaws EN}.

(** What the first [recv] on the connection stores: nothing when it fails or the
    connection is closed. *)
Definition first_recv (n : nat) (w : world) : bytes :=
  match w_in w with RData bs :: _ => take n bs | _ => [] end.

Lemma recv_first n (w : world) : exists rc w', recv n w = Ok (rc, first_recv n w) w'.
Proof.
  unfold recv, first_recv. destruct (w_in w) as [|[bs|e] evs]; eauto.
  destruct (Nat.leb_spec (length bs) n); eauto. rewrite take_ge by done. eauto.
Qed.

Lemma send_same_in d (w : world) : exists n w', send d w = Ok n w' /\ w_in w' = w_in w.
Proof. unfold send. destruct (w_snd w) as [|[| |] ss]; by do 2 eexists. Qed.

(** The prototypes' exchange goes on whatever happens to the connection. *)
Lemma swap_keys_Ok var pk (w : world) :
  exists w', swap_keys var pk w =
    Ok (overwrite (indet var crypto_kx_PUBLICKEYBYTES) (first_recv crypto_kx_PUBLICKEYBYTES w)) w'.
Proof.
  unfold swap_keys, print_key, mbind, M_bind, print, modify.
  match goal with |- context [send pk ?w0] =>
    destruct (send_same_in pk w0) as (n & w1 & -> & Hi) end.
  destruct (recv_first crypto_kx_PUBLICKEYBYTES w1) as (rc & w2 & ->).
  unfold first_recv. rewrite Hi. by eexists.
Qed.

(** [server_crypt_gen] when the first piece of the connection holds a whole key. *)
Lemma server_crypt_gen_whole spk ssk r j1 j2 (w : world) :
  kx_keypair (w_rng w) = (spk, ssk, r) ->
  length (first_recv crypto_kx_PUBLICKEYBYTES w) = crypto_kx_PUBLICKEYBYTES ->
  result_of (server_crypt_gen j1 j2 w) =
    Some (match kx_server_session_keys spk ssk (first_recv crypto_kx_PUBLICKEYBYTES w) with
          | Some (rx, tx) => (0, spk, ssk, rx, tx)
          | None => (1, spk, ssk, j1, j2)
          end).
Proof.
  intros Hk Hl. unfold server_crypt_gen, mbind, M_bind, crypto_kx_keypair. rewrite Hk.
  destruct (send_same_in spk (set_rng r w)) as (n & w1 & -> & Hi1). simpl in Hi1.
  unfold first_recv in *. destruct (w_in w) as [|[bs|e] evs]; [done| |done].
  unfold recv_fully. rewrite Hi1. change crypto_kx_PUBLICKEYBYTES with (S 31) in *.
  assert (bs <> []) by (by intros ->). rewrite length_take in Hl.
  cbn [length]. rewrite (recv_loop_data bs evs) by done.
  destruct (Nat.leb_spec (length bs) (S 31)).
  - replace (S 31 - length bs)%nat with 0%nat by lia. rewrite recv_loop_0.
    rewrite take_ge by done. unfold mret, M_ret. cbn [app negb].
    by destruct (kx_server_session_keys _ _ _) as [[rx tx]|].
  - cbn [app negb]. by destruct (kx_server_session_keys _ _ _) as [[rx tx]|].
Qed.

(** The prototype server takes what its one [recv] stores for the client's
    public key, whatever that is: the bytes that are missing, because the key
    arrives in pieces or because nothing does, are those of an uninitialised
    array.  It goes on, and announces valid keys on [std::cerr], also when the
    key exchange rejects the key, with both session keys uninitialised.  When
    the key arrives whole, [server_crypt_gen], which replaced it, computes the
    same session keys where the exchange accepts the key, and returns 1, with
    the caller's keys untouched, where it rejects it. *)
Theorem prototype_key_exchange (spk ssk : bytes) (r : rng) (w : world) (j1 j2 : bytes) :
  kx_keypair (w_rng w) = (spk, ssk, r) ->
  let got := first_recv crypto_kx_PUBLICKEYBYTES w in
  let client_pk := overwrite (indet "client_pk" crypto_kx_PUBLICKEYBYTES) got in
  exists hs w', pre_handle_conn w = Ok hs w' /\
    List.last (hs_cerr hs) [] = str "DIDNT BAIL WE HAVE VALID KEYSSS YAYYY" /\
    match kx_server_session_keys spk ssk client_pk with
    | None => hs_rx hs = indet "server_rx" crypto_kx_SESSIONKEYBYTES /\
              hs_tx hs = indet "server_tx" crypto_kx_SESSIONKEYBYTES
    | Some (rx, tx) => hs_rx hs = rx /\ hs_tx hs = tx
    end /\
    (length got = crypto_kx_PUBLICKEYBYTES ->
     client_pk = got /\
     result_of (server_crypt_gen j1 j2 w) =
       Some (match kx_server_session_keys spk ssk client_pk with
             | Some (rx, tx) => (0, spk, ssk, rx, tx)
             | None => (1, spk, ssk, j1, j2)
             end)).
Proof.
  intros Hk got client_pk.
  assert (exists hs w', pre_handle_conn w = Ok hs w' /\
    List.last (hs_cerr hs) [] = str "DIDNT BAIL WE HAVE VALID KEYSSS YAYYY" /\
    match kx_server_session_keys spk ssk client_pk with
    | None => hs_rx hs = indet "server_rx" crypto_kx_SESSIONKEYBYTES /\
              hs_tx hs = indet "server_tx" crypto_kx_SESSIONKEYBYTES
    | Some (rx, tx) => hs_rx hs = rx /\ hs_tx hs = tx
    end) as (hs & w' & E & Hl & Hm).
  { unfold pre_handle_conn, mbind, M_bind, crypto_kx_keypair. rewrite Hk.
    destruct (swap_keys_Ok "client_pk" spk (set_rng r w)) as (w1 & ->).
    change (first_recv crypto_kx_PUBLICKEYBYTES (set_rng r w)) with got. fold client_pk.
    by destruct (kx_server_session_keys spk ssk client_pk) as [[rx tx]|]; do 2 eexists. }
  exists hs, w'. split_and!; [done|done|done|]. intros Hfull.
  assert (client_pk = got) as -> by (apply overwrite_full; by rewrite length_indet).
  split; [done|]. by apply (server_crypt_gen_whole _ _ r).
Qed.

End prehistoric_properties.

(** ** Concrete runs *)

Section prehistoric_runs.
#[local] Existing Instances toy_sodium toy_sodium_laws toy_env toy_env_laws.

Lemma prototype_key_exchange_witness :
  let w := demo_world [RData (le_encode 32 1234)] in
  exists hs w', pre_handle_conn w = Ok hs w' /\
    List.last (hs_cerr hs) [] = str "DIDNT BAIL WE HAVE VALID KEYSSS YAYYY" /\
    result_of (server_crypt_gen [] [] w) =
      Some (match kx_server_session_keys (le_encode 32 1000) (le_encode 32 0) (le_encode 32 1234) with
            | Some (rx, tx) => (0, le_encode 32 1000, le_encode 32 0, rx, tx)
            | None => (1, le_encode 32 1000, le_encode 32 0, [], [])
            end).
Proof.
  intros w.
  destruct (@prototype_key_exchange toy_sodium toy_env toy_env_laws (le_encode 32 1000)
    (le_encode 32 0) 1 w [] [] eq_refl) as (hs & w' & E & Hl & _ & Hfull).
  exists hs, w'. split; [exact E|]. split; [exact Hl|].
  destruct (Hfull eq_refl) as [Hpk Hres]. rewrite Hpk in Hres. exact Hres.
Defined.

End prehistoric_runs.
